(* ===== verification/_CoqProject ===== *)
-Q . S2P
Prelude.v
GoStrings.v
Database.v
StockDb.v
StockApi.v
StockService.v
StockEffects.v
StockRefine.v
Reconcile.v
StockSteps.v
StockReserve.v
StockSafety.v
Schema.v
StockMoves.v
Ledger.v
StockAdjust.v
Locks.v
Prune.v
StockExamples.v
ReservationDb.v
StockClient.v
ReservationService.v
ReservationBooks.v
ReservationProps.v
ReservationSweep.v
ReservationExamples.v
CircuitBreaker.v
Closer.v
Loops.v
SweepLoop.v
Shutdown.v
Readiness.v
Payment.v
OrderDb.v
OrderService.v
OrderSteps.v
OrderSaga.v
OrderProps.v
OrderInvariant.v
OrderRequests.v
OrderHealthy.v
System.v
SagaPhases.v
Recovery.v
OrderExamples.v
OrderThreads.v
OrderRaces.v
OrderPaid.v
OrderExclusive.v
RecoveryExamples.v
Events.v
Streaming.v
Telemetry.v
Logging.v
Tracing.v
Observe.v
ChannelSync.v
Fulfillment.v
Float64.v
RateLimit.v
Env.v
GoFlag.v
DlqTool.v
Workers.v
Processes.v
Transport.v
Auth.v
Http.v
AuthRoutes.v
Gateway.v
GatewayProps.v
Tenants.v
Platform.v
PlatformTenants.v
GatewayExamples.v
PlatformExamples.v
Boot.v
BootExamples.v
EventExamples.v
LoopExamples.v
