(* ===== verification/Prelude.v ===== *)
(** * Taper: a verification development

    Taper is an order, reservation and stock system for several tenants: three
    gRPC services with a PostgreSQL database each, two consumers of their Kafka
    events, a REST gateway in front, and the packages they share.  This library
    models the Go code under src/ as Rocq functions and proves what makes it
    correct.  All paths below are under src/.

    ** The program

    A client calls the gateway (internal/gateway).  It verifies a token
    (pkg/auth), checks the role, takes a token of the tenant's bucket
    (pkg/ratelimit), and calls a service through a circuit breaker
    (pkg/circuitbreaker).  CreateOrder of the order service
    (internal/orderservice) runs a saga: Reserve at the reservation service
    (internal/reservationservice), which asks the stock service
    (internal/stockservice) to hold the goods and keeps a row with a time to
    live; a charge (pkg/payment); AllocateReservation and
    ConfirmStockAllocation; every step is a transaction on the saga's row, and
    ResumePendingSagas goes on after a crash.  A sweeper gives back what expired
    reservations hold; a worker reconciles the stock rows with the audit log.
    Every transaction also writes an outbox row, which Debezium turns into a
    Kafka message; consumers (pkg/streaming) sync a sales channel
    (internal/channelsync) and ship fulfilled orders (internal/fulfillment).
    Keys make requests idempotent; workers delete old keys and outbox rows
    (pkg/idemprune, pkg/outboxprune).  The binaries (cmd) read their settings
    from the environment, probe their dependencies and drain on shutdown
    (pkg/config, pkg/closer, pkg/observability, pkg/grpcx, pkg/database).

    ** How the code is modelled

    - A service's database is a record of tables ([StockDB], [ResDB], [OrderDB],
      [ChanDB]); a sqlc query is a function [Session → D → res (D * A)] that
      applies row-level security, NOT NULL, UNIQUE and CHECK constraints and the
      range errors of INTEGER (Database, StockDb, ReservationDb, OrderDb).
      [ExecTxWithTenant] runs a closure and keeps its effects if the commit goes
      through.  What can go wrong around a transaction or a call (no connection,
      a lost one, a commit that took effect and was not acknowledged, an answer
      that did not arrive) is an argument, so that the theorems quantify over all
      of it.
    - A handler is one function with every branch of the code, errors as values
      of [res]; calls to other services go through type classes (StockClient,
      [ReservationClient], [FulfillClient]), so that a client is proved against
      the interface of the service it calls, and the service discharges it.
    - int32 and int64 are wrapped integers, float64 is IEEE binary64 (Float64),
      maps are [gmap]s with Go's iteration order as an argument, instants are
      integers, goroutines under a mutex and interleaved transactions are
      sequences of steps.  The requests of the order service also run as goroutines
      of one process (OrderThreads): each is a tree of actions, an action is a
      transaction, a call or a method of a breaker, and the process takes one action
      of one goroutine at a time, or crashes.
    - What is not in the repository is a parameter with its documented behaviour
      as a law: UUID texts, hashes, JSON, base64, HMAC, certificates, the W3C
      propagator, Kafka and pgx.

    ** The files

    Prelude: machine integers, sums, tactics and the lemmas all files share.
    GoStrings, Float64, GoFlag: what the code uses of the packages strings, strconv
    and flag, and float64.

    Stock: Database (pkg/database), StockDb (gen/go/db/stock, migrations), StockApi
    (messages), StockService (stock.go, helpers.go), Reconcile (reconcile.go);
    StockEffects, StockRefine, StockReserve, StockMoves, StockAdjust: what the
    handlers do, against the abstract motion of goods between the three buckets of
    a location; StockSteps, StockSafety: invariants over any history of calls;
    Schema: the typing of the tables; Ledger: the rows against the audit log; Locks:
    interleaved transactions and deadlock; Prune (pkg/idemprune, pkg/outboxprune):
    retention; StockExamples: witnesses on a concrete shop.

    Reservations: ReservationDb, StockClient (the interface to stock, what a client
    that repeats a call relies on, and the instance over the network),
    ReservationService (server.go, sweeper.go); ReservationBooks,
    ReservationProps, ReservationSweep, SweepLoop: the rows and the stock service
    hold the same goods; ReservationExamples.

    Orders: CircuitBreaker, Payment, OrderDb, OrderService (server.go, helpers.go);
    OrderSteps, OrderSaga: what the transactions and the steps of the saga can have
    done; OrderProps, OrderInvariant, OrderRequests: the saga's promises under any
    failure; OrderHealthy, System: the three services composed; SagaPhases,
    Recovery: a saga that crashed anywhere and is resumed; OrderThreads (goroutines
    as trees of actions and pools of them, and the handlers as goroutines, shown to
    compute what the handlers do), OrderRaces, OrderPaid, OrderExclusive: what holds
    for interleaved requests; OrderExamples, RecoveryExamples.

    Events: Events (routing of outbox rows), Streaming (pkg/streaming and the replay
    of cmd/dlqreplay), ChannelSync (internal/channelsync, pkg/channel), Fulfillment,
    DlqTool (what cmd/dlqreplay puts back, its command line, inspect and the
    consumer groups it reads with); EventExamples.

    Observability (pkg/observability, pkg/streaming/trace.go): Telemetry (trace
    context and RED metrics), Logging (logging.go over log/slog's Handler), Tracing
    (the interceptors and the metadata of a call), Observe (Setup, MustRun, the admin
    listener and its cleanup).

    Gateway: RateLimit, Auth, Http (errors and their responses), AuthRoutes, Gateway
    (core.go, routes.go, orders.go, authroutes.go), GatewayProps: sequences of
    requests; GatewayExamples.

    The whole: Tenants: row-level security keeps the tenants of the queries, handlers
    and sagas apart; Platform (the messages of the three APIs as
    protoreflect shows them, and the gateway over the services), PlatformTenants;
    PlatformExamples.

    Processes: Closer (closer.go), Loops (the signal watcher and the ticker loops of
    a process as a transition system), Shutdown (servers.go and what the mains
    close), Readiness (readiness.go and the probes), Env (pkg/config and the settings
    of the workers), Workers, Processes (the passes and loops the mains start),
    Transport (pkg/grpcx), Boot (the mains, pool.go); BootExamples, LoopExamples.

    ** What the theorems show

    - The whole.  A user who logs in and posts an order over HTTP is answered with
      the outcome of the saga: an order that is fundable goes through all three
      services and moves exactly its goods, one that is declined gives them back
      ([order_from_outside], over [order_end_to_end]).  A request with a tenant's
      token is answered as if there were no other tenant, and touches no other
      tenant's rows ([tenants_live_apart]).
    - Orders.  A saga that stopped after any of its steps is
      finished by the next resumption, with its goods moved exactly once if it is
      confirmed and not at all if it fails ([crash_recovery]).  Under any failures:
      a confirmed order was reserved, charged, recorded, allocated and confirmed
      ([confirmed_means_done]), what was charged follows from the outcome
      ([charged_exactly_when_confirmed]), terminal states are final, and repeated,
      cancelled and fulfilled orders are decided by their state.  Under any
      interleaving as well: nothing that is confirmed or ships was not paid
      ([nothing_ships_unpaid]), no order is charged twice without a resumption
      ([charged_once_interleaved]), and rows, sagas and events stay consistent as
      long as no two goroutines work on one order at a time
      ([orders_stay_consistent_interleaved]; RecoveryExamples has the races that break
      it: a cancellation that overtakes a confirmation, a resumption beside the
      request it resumes).
    - Stock.  No bucket is ever negative or out of range and the tables keep their
      types, goods are conserved, a keyed request takes effect
      at most once while its key is retained, ReserveStock is all or nothing and
      succeeds exactly when the goods are there, reconciliation locks exactly the
      rows that drift, interleaved transactions do not deadlock, and the maintenance
      of the stock process moves no goods.
    - Reservations.  Reserve, Release and the sweeper keep the rows and the stock
      service in agreement; the loops of the process drain what has expired, in
      whichever order their timers fall; a reservation that cannot be recorded is
      compensated.
    - Events.  A fulfilled order ships exactly once, an adjustment reaches the
      channel and its readers, no message behind the committed offset is forgotten, a
      replayed dead letter is a redelivery, and what the command line replays is what
      it was asked to.
    - Observability.  A request that crosses services, the outbox and the broker is
      one trace, and so are its log lines; the metrics count the calls.
    - Gateway.  A backend is called only with a token that covers the operation and
      for the token's tenant; a login's token is worth the user's role; logins are
      limited per host and calls to a dead backend are bounded; the life of a
      breaker; the burst of the limiter is exact and its memory bounded.
    - Processes.  What shutdown does to requests in flight, that a process whose
      context is cancelled comes to its end, when it is ready, which peers a dial
      accepts, and when the gateway boots.

    The Examples files apply the theorems to concrete inputs, and evaluate histories
    in which the code does not do what its comments say.

    ** Fuel and bounds

    Recursion is structural on the data except for ParseDuration, whose loop has
    the length of the text as fuel ([duration_groups_fuel]: more does not change the
    result).  Histories are of any length; quantities, prices and counters have the
    widths of the code, and a theorem says so where it needs a value to be in
    range.

    ** Not modelled

    Generated protobuf and gRPC code beyond the message types; what OpenTelemetry,
    Prometheus and slog do behind the calls the code makes; the text of log lines
    outside Logging; PostgreSQL's planner (orders it leaves open are arguments) and
    what READ COMMITTED lets one order transaction see of another that runs between
    its statements (a transaction of the order service is one action; the row locks
    of the stock service are in Locks),
    Kafka's and Debezium's own failures beyond lost writes and redelivery; the
    scripts, manifests and dashboards of the deployment. *)

From stdpp Require Export base gmap strings list sorting.
From Stdlib Require Export ZArith Lia Ascii.

#[export] Set Default Goal Selector "!".
Global Open Scope Z_scope.

(** ** Machine integers

    Go's [int32] and [int64] are integers in two's complement: arithmetic is
    carried out in [Z] and wrapped to the width of the result. *)

Definition wrap (w z : Z) : Z := (z + 2 ^ (w - 1)) mod 2 ^ w - 2 ^ (w - 1).
Definition wrap32 (z : Z) : Z := wrap 32 z.
Definition wrap64 (z : Z) : Z := wrap 64 z.

Definition in_int32 (z : Z) : bool := (-2147483648 <=? z) && (z <? 2147483648).
Definition in_int64 (z : Z) : bool :=
  (-9223372036854775808 <=? z) && (z <? 9223372036854775808).

(** ** Generic list operations *)

(** The sum of [f] over a list. *)
Fixpoint zsum {A} (f : A → Z) (l : list A) : Z :=
  match l with
  | [] => 0
  | x :: l' => f x + zsum f l'
  end.

(** ** Tactics *)

(** Splits a boolean conjunction and turns the boolean tests of [Z] into
    propositions. *)
Ltac bprop :=
  repeat match goal with
  | H : (_ && _) = true |- _ => apply andb_prop in H; destruct H
  | H : (_ || _) = false |- _ => apply orb_false_elim in H; destruct H
  | H : (_ <=? _) = true |- _ => apply Z.leb_le in H
  | H : (_ <=? _) = false |- _ => apply Z.leb_gt in H
  | H : (_ <? _) = true |- _ => apply Z.ltb_lt in H
  | H : (_ <? _) = false |- _ => apply Z.ltb_ge in H
  | H : (_ =? _) = true |- _ => apply Z.eqb_eq in H
  | H : (_ =? _) = false |- _ => apply Z.eqb_neq in H
  | H : negb _ = true |- _ => apply negb_true_iff in H
  | H : negb _ = false |- _ => apply negb_false_iff in H
  end.

(** ** Lemmas on machine integers *)

Create HintDb taper.
Create Rewrite HintDb taper_rw.

Lemma wrap_spec w z : 0 < w → ∃ k, wrap w z = z + k * 2 ^ w.
Proof.
  intros Hw. unfold wrap. exists (- ((z + 2 ^ (w - 1)) / 2 ^ w)).
  pose proof (Z.div_mod (z + 2 ^ (w - 1)) (2 ^ w)) as H.
  assert (2 ^ w ≠ 0) by (apply Z.pow_nonzero; lia). lia.
Qed.

Lemma wrap_small w z : 0 < w → - 2 ^ (w - 1) <= z < 2 ^ (w - 1) → wrap w z = z.
Proof.
  intros Hw Hz. unfold wrap.
  assert (2 ^ w = 2 * 2 ^ (w - 1)) by (rewrite <- Z.pow_succ_r by lia; f_equal; lia).
  rewrite Z.mod_small by lia. lia.
Qed.

(** A wrapped value only depends on the residue of its argument. *)
Lemma wrap_cong w a b k : 0 < w → a = b + k * 2 ^ w → wrap w a = wrap w b.
Proof.
  intros Hw ->. unfold wrap.
  replace (b + k * 2 ^ w + 2 ^ (w - 1)) with (b + 2 ^ (w - 1) + k * 2 ^ w) by lia.
  rewrite Z.mod_add by (apply Z.pow_nonzero; lia). done.
Qed.

Lemma wrap32_small z : in_int32 z = true → wrap32 z = z.
Proof. unfold in_int32. intros H. bprop. apply wrap_small; lia. Qed.

Lemma wrap64_small z : in_int64 z = true → wrap64 z = z.
Proof. unfold in_int64. intros H. bprop. apply wrap_small; lia. Qed.

Lemma wrap32_range z : in_int32 (wrap32 z) = true.
Proof.
  unfold in_int32, wrap32, wrap.
  pose proof (Z.mod_pos_bound (z + 2 ^ (32 - 1)) (2 ^ 32) ltac:(lia)).
  apply andb_true_intro. split; [apply Z.leb_le | apply Z.ltb_lt]; lia.
Qed.

(** Converting an [int64] to [int32] forgets the earlier 64-bit wrap. *)
Lemma wrap32_wrap64 z : wrap32 (wrap64 z) = wrap32 z.
Proof.
  destruct (wrap_spec 64 z) as [k Hk]; [lia|].
  unfold wrap32, wrap64. rewrite Hk.
  apply (wrap_cong 32 _ _ (k * 2 ^ 32)); lia.
Qed.

Lemma wrap64_add_l a b : wrap64 (wrap64 a + b) = wrap64 (a + b).
Proof.
  destruct (wrap_spec 64 a) as [k Hk]; [lia|].
  unfold wrap64 at 1 3. unfold wrap64. rewrite Hk.
  apply (wrap_cong 64 _ _ k); lia.
Qed.

Lemma wrap64_sub_l a b : wrap64 (wrap64 a - b) = wrap64 (a - b).
Proof. rewrite <- !Z.add_opp_r. apply wrap64_add_l. Qed.

(** A non-negative [int32] column plus any [int32] movement: if the wrapped
    result is non-negative, nothing wrapped.  This is what makes the CHECK
    constraints of the schema catch every overflow of the Go arithmetic. *)
Lemma wrap32_nonneg_exact a q :
  0 <= a < 2147483648 → -2147483648 <= q <= 2147483648 →
  0 <= wrap32 (a + q) → wrap32 (a + q) = a + q.
Proof.
  intros Ha Hq Hw. destruct (wrap_spec 32 (a + q)) as [k Hk]; [lia|].
  pose proof (wrap32_range (a + q)) as Hr. unfold in_int32 in Hr. bprop.
  unfold wrap32 in *. rewrite Hk in *.
  change (2 ^ 32) with 4294967296 in *. assert (k = 0) as -> by lia. lia.
Qed.

(** ** Lemmas on sums *)

Lemma zsum_app {A} (f : A → Z) l1 l2 : zsum f (l1 ++ l2) = zsum f l1 + zsum f l2.
Proof. induction l1; simpl; lia. Qed.

#[export] Instance zsum_Permutation {A} (f : A → Z) : Proper ((≡ₚ) ==> eq) (zsum f).
Proof. intros l1 l2. induction 1; simpl; lia. Qed.

Lemma zsum_ext {A} (f g : A → Z) l : (∀ x, x ∈ l → f x = g x) → zsum f l = zsum g l.
Proof.
  induction l as [|x l IH]; intros H; [done|]. cbn.
  rewrite H by apply list_elem_of_here. rewrite IH; [done|].
  intros y Hy. apply H. by apply list_elem_of_further.
Qed.

Lemma zsum_nonneg {A} (f : A → Z) l : (∀ x, x ∈ l → 0 <= f x) → 0 <= zsum f l.
Proof.
  induction l as [|x l IH]; intros H; [done|]. cbn.
  pose proof (H x ltac:(apply list_elem_of_here)).
  assert (0 <= zsum f l) by (apply IH; intros y Hy; apply H; by apply list_elem_of_further).
  lia.
Qed.

Lemma zsum_fmap {A B} (f : B → Z) (g : A → B) l : zsum f (g <$> l) = zsum (f ∘ g) l.
Proof. induction l as [|x l IH]; cbn; [done|]. by rewrite IH. Qed.

(** Adding [x] at one index of a duplicate-free range. *)
Lemma zsum_point {A} `{EqDecision A} (f : A → Z) (a : A) x l :
  NoDup l → a ∈ l → zsum (λ b, f b + (if decide (a = b) then x else 0)) l = zsum f l + x.
Proof.
  intros Hnd. induction Hnd as [|b l Hb Hnd IH]; [by intros ?%elem_of_nil|].
  intros [->|Ha]%elem_of_cons; cbn.
  - rewrite decide_True by done.
    rewrite (zsum_ext _ f l); [lia|]. intros c Hc. rewrite decide_False; [lia|congruence].
  - rewrite decide_False by congruence. rewrite (IH Ha). lia.
Qed.

(** A weighted sum, by groups: [GROUP BY key] then a combination of the group
    totals is the sum over the rows. *)
Lemma zsum_group {A B} `{EqDecision B} (key : A → B) (f : A → Z) (c : B → Z) (rs : list B)
    (l : list A) :
  NoDup rs → (∀ x, x ∈ l → key x ∈ rs) →
  zsum (λ r, c r * zsum f (filter (λ x, key x = r) l)) rs = zsum (λ x, c (key x) * f x) l.
Proof.
  intros Hnd. induction l as [|x l IH]; intros Hin; cbn [zsum].
  - rewrite (zsum_ext _ (λ _, 0)) by (intros r _; cbn; lia). clear. induction rs; cbn; lia.
  - rewrite <- IH by (intros y Hy; apply Hin; by apply list_elem_of_further).
    rewrite Z.add_comm, <- (zsum_point _ (key x) _ rs Hnd) by (apply Hin, list_elem_of_here).
    apply zsum_ext. intros r _. rewrite filter_cons.
    case_decide as Hr; cbn [zsum]; [subst; lia|lia].
Qed.

(** ** Lemmas on filters *)

Lemma filter_ext {A} (P P' : A → Prop) `{!∀ x, Decision (P x), !∀ x, Decision (P' x)} (l : list A) :
  (∀ x, x ∈ l → P x ↔ P' x) → filter P l = filter P' l.
Proof.
  induction l as [|x l IH]; intros Hl; [done|]. rewrite !filter_cons.
  rewrite IH by (intros y Hy; apply Hl; by apply list_elem_of_further).
  specialize (Hl x (list_elem_of_here _ _)). repeat case_decide; naive_solver.
Qed.

Lemma filter_none {A} (P : A → Prop) `{!∀ x, Decision (P x)} (l : list A) :
  Forall (λ x, ¬ P x) l → filter P l = [].
Proof. induction 1 as [|x l Hx Hl IH]; [done|]. by rewrite filter_cons_False. Qed.

Lemma forallb_filter {A} (P : A → Prop) `{!∀ x, Decision (P x)} f (l : list A) :
  forallb f l = true → forallb f (filter P l) = true.
Proof.
  rewrite !forallb_forall. intros Hf x Hx. apply Hf.
  apply list_elem_of_In in Hx. apply list_elem_of_filter in Hx as [_ Hx]. by apply list_elem_of_In.
Qed.

(** ** Lemmas on sublists *)

Lemma sublist_fmap {A B} (f : A → B) (l1 l2 : list A) :
  l1 `sublist_of` l2 → f <$> l1 `sublist_of` f <$> l2.
Proof. induction 1; rewrite ?fmap_cons; by constructor. Qed.

#[export] Hint Resolve zsum_nonneg wrap32_range : taper.
#[export] Hint Rewrite @zsum_app : taper_rw.
