(* ===== verification/GoStrings.v ===== *)
(** * The functions of Go's package strings that the program uses *)

From S2P Require Import Prelude.

(** [strings.Split(v, sep)] for a separator of one byte: [acc] is the field
    being read. *)
Fixpoint split_on (c : ascii) (s acc : string) : list string :=
  match s with
  | EmptyString => [acc]
  | String a s' =>
      if Ascii.eqb a c then acc :: split_on c s' "" else split_on c s' (acc +:+ String a EmptyString)
  end.

(** [strings.TrimSpace], on ASCII. *)
Definition is_space (c : ascii) : bool :=
  let n := Ascii.nat_of_ascii c in (n =? 32)%nat || ((9 <=? n)%nat && (n <=? 13)%nat).

Fixpoint trim_left (s : string) : string :=
  match s with
  | String c s' => if is_space c then trim_left s' else s
  | EmptyString => EmptyString
  end.

Fixpoint trim_right (s : string) : string :=
  match s with
  | EmptyString => EmptyString
  | String c s' =>
      match trim_right s' with
      | EmptyString => if is_space c then EmptyString else String c EmptyString
      | r => String c r
      end
  end.

Definition TrimSpace (s : string) : string := trim_right (trim_left s).

(** [strings.TrimPrefix] *)
Fixpoint strip_prefix (p s : string) : option string :=
  match p, s with
  | EmptyString, _ => Some s
  | String a p', String b s' => if Ascii.eqb a b then strip_prefix p' s' else None
  | _, EmptyString => None
  end.

Definition TrimPrefix (s p : string) : string := default s (strip_prefix p s).

(** [strings.HasSuffix] and [strings.TrimSuffix] *)
Fixpoint strip_suffix (p s : string) : option string :=
  if bool_decide (s = p) then Some EmptyString
  else match s with
       | EmptyString => None
       | String c s' => String c <$> strip_suffix p s'
       end.

Definition HasSuffix (s p : string) : bool := match strip_suffix p s with Some _ => true | None => false end.

Definition TrimSuffix (s p : string) : string := default s (strip_suffix p s).

Definition newline : string := String (Ascii.ascii_of_nat 10) EmptyString.

(** [strings.Index(s, sep)]: what is before the first separator and after it. *)
Fixpoint cut_at (sep s : string) : option (string * string) :=
  match strip_prefix sep s with
  | Some rest => Some (EmptyString, rest)
  | None =>
      match s with
      | EmptyString => None
      | String c s' => prod_map (String c) id <$> cut_at sep s'
      end
  end.

(** [strings.Trim(path, "/")] *)
Fixpoint trim_slash_left (s : string) : string :=
  match s with
  | String "/"%char s' => trim_slash_left s'
  | _ => s
  end.

Fixpoint trim_slash_right (s : string) : string :=
  match s with
  | EmptyString => EmptyString
  | String c s' =>
      match trim_slash_right s' with
      | EmptyString => if Ascii.eqb c "/"%char then EmptyString else String c EmptyString
      | r => String c r
      end
  end.

(** [strings.ToLower] on ASCII. *)
Definition lower_char (c : ascii) : ascii :=
  let n := Ascii.nat_of_ascii c in
  if (65 <=? n)%nat && (n <=? 90)%nat then Ascii.ascii_of_nat (n + 32) else c.

Fixpoint ToLower (s : string) : string :=
  match s with
  | EmptyString => EmptyString
  | String c s' => String (lower_char c) (ToLower s')
  end.

(** ** Lemmas *)

Lemma append_nil_r (s : string) : s +:+ "" = s.
Proof. induction s as [|c s IH]; [done|]. change (String c (s +:+ "") = String c s). by rewrite IH. Qed.

Lemma append_assoc3 (a b c : string) : (a +:+ b) +:+ c = a +:+ b +:+ c.
Proof.
  induction a as [|x a IH]; [done|].
  change (String x ((a +:+ b) +:+ c) = String x (a +:+ b +:+ c)). by rewrite IH.
Qed.

Lemma TrimPrefix_app p s : TrimPrefix (p +:+ s) p = s.
Proof.
  unfold TrimPrefix. assert (strip_prefix p (p +:+ s) = Some s) as ->; [|done].
  induction p as [|c p IH]; [by destruct s|].
  change (String c p +:+ s) with (String c (p +:+ s)). cbn [strip_prefix]. by rewrite Ascii.eqb_refl.
Qed.

Lemma strip_suffix_app p s : strip_suffix p (s +:+ p) = Some s.
Proof.
  induction s as [|c s IH].
  - change ("" +:+ p) with p. unfold strip_suffix. destruct p; by rewrite bool_decide_true.
  - change (String c s +:+ p) with (String c (s +:+ p)). cbn [strip_suffix]. rewrite IH, bool_decide_false; [done|].
    intros E. apply (f_equal String.length) in E. change (S (String.length (s +:+ p)) = String.length p) in E.
    assert (∀ a b : string, (String.length b <= String.length (a +:+ b))%nat) as Hlen.
    { clear. intros a b. induction a as [|x a IH]; [done|]. change (String.length b <= S (String.length (a +:+ b)))%nat. lia. }
    specialize (Hlen s p). lia.
Qed.

(** Adding a suffix that is missing changes nothing for TrimSuffix. *)
Lemma TrimSuffix_add s p : TrimSuffix (if HasSuffix s p then s else s +:+ p) p = TrimSuffix s p.
Proof.
  unfold HasSuffix. destruct (strip_suffix p s) eqn:E; [done|]. unfold TrimSuffix. by rewrite strip_suffix_app, E.
Qed.

(** The end of a string is all that counts for the slashes at its end. *)
Lemma trim_slash_right_app a b :
  trim_slash_right (a +:+ b) =
  match trim_slash_right b with "" => trim_slash_right a | r => a +:+ r end.
Proof.
  induction a as [|c a IH]; [change ("" +:+ b) with b; by destruct (trim_slash_right b)|].
  change (String c a +:+ b) with (String c (a +:+ b)). cbn [trim_slash_right]. rewrite IH.
  destruct (trim_slash_right b) as [|d r]; [done|]. by destruct a.
Qed.

(** A slash at the head stays unless nothing is left. *)
Lemma trim_slash_right_head s :
  trim_slash_right (String "/" s) = "" ∨ ∃ r, trim_slash_right (String "/" s) = String "/" r.
Proof. cbn [trim_slash_right]. destruct (trim_slash_right s); [by left|by right; eexists]. Qed.

(** A text without the separator is part of one field. *)
Fixpoint free_of (c : ascii) (s : string) : bool :=
  match s with
  | EmptyString => true
  | String a s' => negb (Ascii.eqb a c) && free_of c s'
  end.

(** The cut at a character is at its first place. *)
Lemma cut_at_free c a b : free_of c a = true → cut_at (String c "") (a +:+ String c b) = Some (a, b).
Proof.
  induction a as [|x a IH]; intros Hf.
  - change ("" +:+ String c b) with (String c b). cbn [cut_at strip_prefix]. by rewrite Ascii.eqb_refl.
  - cbn [free_of] in Hf. apply andb_prop in Hf as [Hx Ha]. apply negb_true_iff in Hx.
    change (String x a +:+ String c b) with (String x (a +:+ String c b)). cbn [cut_at strip_prefix].
    rewrite Ascii.eqb_sym, Hx, (IH Ha). done.
Qed.

Lemma split_on_free c a : free_of c a = true → ∀ s acc, split_on c (a +:+ s) acc = split_on c s (acc +:+ a).
Proof.
  induction a as [|x a IH]; intros Hf s acc; [by rewrite append_nil_r|].
  cbn [free_of] in Hf. apply andb_prop in Hf as [Hx Ha]. apply negb_true_iff in Hx.
  change (String x a +:+ s) with (String x (a +:+ s)). cbn [split_on]. rewrite Hx, (IH Ha).
  by rewrite append_assoc3.
Qed.
