(* ===== verification/Database.v ===== *)
(** * The database layer (pkg/database and what the services use of pgx)

    Errors as Go values, the request context, transactions with the tenant's
    row-level-security scope, and the two tables every service has: the
    idempotency ledger [processed_idempotency_keys] and the transactional
    [outbox].

    A query is a function [Session → D → res (D * A)] on the state [D] of one
    service's database: the session carries the RLS scope and [NOW()], an
    error aborts the transaction.  [ExecTxWithTenant] runs a closure on the
    database and keeps its effects only if the commit goes through; what the
    environment can do to a transaction (refuse a connection, lose it, lose
    the commit or only the answer to it) is the argument [TxEnv]. *)

From S2P Require Import Prelude.

(** ** Errors *)

(** google.golang.org/grpc/codes. *)
Inductive code :=
| OK | Canceled | Unknown | InvalidArgument | DeadlineExceeded | NotFound
| AlreadyExists | PermissionDenied | ResourceExhausted | FailedPrecondition
| Aborted | OutOfRange | Unimplemented | Internal | Unavailable | DataLoss
| Unauthenticated.

#[export] Instance code_eq_dec : EqDecision code.
Proof. solve_decision. Defined.

(** The error values the services build, compare or wrap.  The PostgreSQL
    errors carry the constraint they name; [ErrConn] is any failure of the
    connection (or of the network, for a gRPC call). *)
Inductive go_error :=
| ErrNoRows
| ErrCheckViolation (constraint : string)
| ErrUniqueViolation (constraint : string)
| ErrNumericOutOfRange
| ErrInvalidText
| ErrRowSecurity
| ErrConn (what : string)
| ErrInvalidUUID (s : string)
| ErrTenantIDMissing
| ErrAlreadyProcessed
| ErrIdempotentReplay
| ErrOpen
| ErrPaymentDeclined
| ErrNew (text : string)
| ErrWrap (context : string) (e : go_error)
| ErrStatus (c : code) (msg : string)
| ErrStatusf (c : code) (format : string) (cause : go_error).

#[export] Instance go_error_eq_dec : EqDecision go_error.
Proof. solve_decision. Defined.

(** [err.Error()]: the texts are those of the libraries that made the errors. *)
Class ErrorText := error_text : go_error → string.

(** [errors.Is]: walks the chain that [fmt.Errorf("...: %w", err)] builds. *)
Fixpoint errors_Is (e target : go_error) : bool :=
  bool_decide (e = target) ||
  match e with
  | ErrWrap _ e' => errors_Is e' target
  | _ => false
  end.

(** [status.Code(err)] of a gRPC error. *)
Definition status_Code (e : go_error) : code :=
  match e with
  | ErrStatus c _ => c
  | ErrStatusf c _ _ => c
  | _ => Unknown
  end.

(** A Go result [(v, err)] with [err == nil] exactly when [v] is usable. *)
Inductive res (A : Type) :=
| Ok (a : A)
| Err (e : go_error).
Arguments Ok {_} _.
Arguments Err {_} _.

#[export] Instance res_ret : MRet res := @Ok.
#[export] Instance res_bind : MBind res :=
  λ A B f m, match m with Ok a => f a | Err e => Err e end.

(** ** UUIDs

    A [pgtype.UUID] is its 128-bit value; parsing and printing it are pgx's. *)

Definition uuid := N.

Class UuidText := {
  uuid_scan : string → option uuid;
  uuid_string : uuid → string;
}.

(** pkg/database/uuid.go *)
Definition ParseUUID `{UuidText} (s : string) : res uuid :=
  match uuid_scan s with
  | Some u => Ok u
  | None => Err (ErrWrap "invalid UUID" (ErrInvalidUUID s))
  end.

(** ** Request context *)

Record Ctx := mkCtx {
  ctx_tenant : option string;       (* the tenantKey{} value *)
  ctx_traceparent : string;         (* obs.Traceparent(ctx), "" without a span *)
}.

Definition WithTenantID (ctx : Ctx) (tenantID : string) : Ctx :=
  {| ctx_tenant := Some tenantID; ctx_traceparent := ctx_traceparent ctx |}.

Definition TenantIDFromContext (ctx : Ctx) : res string :=
  match ctx_tenant ctx with
  | Some t => if bool_decide (t = "") then Err ErrTenantIDMissing else Ok t
  | None => Err ErrTenantIDMissing
  end.

(** pkg/database/traceparent.go: "" becomes NULL. *)
Definition TraceparentText (ctx : Ctx) : option string :=
  if bool_decide (ctx_traceparent ctx = "") then None else Some (ctx_traceparent ctx).

(** pkg/database/idem.go *)
Definition CompensationKey (tenantID orderID : string) : string :=
  "comp:" +:+ tenantID +:+ ":" +:+ orderID.

(** [PayloadHash] is SHA-256 over the protobuf encoding of a request: a
    parameter per message type. *)
Class PayloadHash (M : Type) := payload_hash : M → string.

(** ** Sessions and queries *)

(** What row-level security lets the connection see: the rows of the tenant in
    [app.current_tenant_id] (role taper_app) or every row (BYPASSRLS role
    taper_sweeper).  A setting that is not a UUID would make the policies'
    cast fail; it lets nothing through here, and every handler parses the
    tenant before it opens a transaction. *)
Inductive rls_scope :=
| RlsTenant (t : option uuid)
| RlsBypass.

Record Session := mkSession { s_rls : rls_scope; s_now : Z }.

Definition visible (s : Session) (t : uuid) : bool :=
  match s_rls s with
  | RlsTenant (Some u) => bool_decide (u = t)
  | RlsTenant None => false
  | RlsBypass => true
  end.

Definition Q (D A : Type) : Type := Session → D → res (D * A).

#[export] Instance Q_ret D : MRet (Q D) := λ A a s d, Ok (d, a).
#[export] Instance Q_bind D : MBind (Q D) :=
  λ A B f m s d, match m s d with Ok (d', a) => f a s d' | Err e => Err e end.

Definition fail {D A} (e : go_error) : Q D A := λ _ _, Err e.

(** The error of a query as a value, for the callers that look at it before
    they decide: [pgx.ErrNoRows] does not abort a transaction. *)
Definition attempt {D A} (m : Q D A) : Q D (res A) := λ s d,
  match m s d with
  | Ok (d', a) => Ok (d', Ok a)
  | Err e => Ok (d, Err e)
  end.

(** [for _, x := range l { acc = f(acc, x) }] *)
Fixpoint foldM {D A B} (f : B → A → Q D B) (acc : B) (l : list A) : Q D B :=
  match l with
  | [] => mret acc
  | x :: l' => acc' ← f acc x; foldM f acc' l'
  end.

(** ** Transactions *)

(** The three ways a COMMIT ends: acknowledged; refused (rolled back, the
    client sees an error); durable but the acknowledgement is lost (the client
    sees an error). *)
Inductive commit_outcome :=
| CommitOk
| CommitRolledBack (what : string)
| CommitUnacknowledged (what : string).

Record TxEnv := mkTxEnv {
  tx_now : Z;                           (* NOW() of the transaction *)
  tx_begin_err : option string;         (* pool.Begin fails *)
  tx_rls_err : option string;           (* set_config fails *)
  tx_conn_err : option string;          (* the connection breaks inside the closure *)
  tx_commit : commit_outcome;
}.

Definition healthy (now : Z) : TxEnv :=
  {| tx_now := now; tx_begin_err := None; tx_rls_err := None; tx_conn_err := None;
     tx_commit := CommitOk |}.

(** A closure [func(tx pgx.Tx) error]: the value it leaves in the variable it
    captures, and the database if it returns nil. *)
Definition TxFn (D R : Type) : Type := Session → D → option R * res D.

Definition tx_body {D R} (m : Q D R) : TxFn D R := λ s d,
  match m s d with
  | Ok (d', r) => (Some r, Ok d')
  | Err e => (None, Err e)
  end.

Definition SetTenantRLS `{UuidText} (env : TxEnv) (tenantID : string) : res Session :=
  match tx_rls_err env with
  | Some m => Err (ErrWrap "failed to set tenant RLS context" (ErrConn m))
  | None => Ok {| s_rls := RlsTenant (uuid_scan tenantID); s_now := tx_now env |}
  end.

(** The part ExecTxWithTenant and ExecTxNoTenant share once the scope of the
    transaction is set: run the closure, roll back on its error, commit. *)
Definition tx_run {D R} (env : TxEnv) (sess : Session) (fn : TxFn D R) (d : D)
  : D * option R * option go_error :=
  match tx_conn_err env with
  | Some m => (d, None, Some (ErrConn m))
  | None =>
      match fn sess d with
      | (r, Err e) => (d, r, Some e)
      | (r, Ok d') =>
          match tx_commit env with
          | CommitOk => (d', r, None)
          | CommitRolledBack m =>
              (d, r, Some (ErrWrap "failed to commit transaction" (ErrConn m)))
          | CommitUnacknowledged m =>
              (d', r, Some (ErrWrap "failed to commit transaction" (ErrConn m)))
          end
      end
  end.

Definition ExecTxNoTenant {D R} (env : TxEnv) (fn : TxFn D R) (d : D)
  : D * option R * option go_error :=
  match tx_begin_err env with
  | Some m => (d, None, Some (ErrWrap "failed to begin transaction" (ErrConn m)))
  | None => tx_run env {| s_rls := RlsBypass; s_now := tx_now env |} fn d
  end.

Definition ExecTxWithTenant `{UuidText} {D R} (env : TxEnv) (ctx : Ctx) (fn : TxFn D R) (d : D)
  : D * option R * option go_error :=
  match TenantIDFromContext ctx with
  | Err e => (d, None, Some e)
  | Ok tenantID =>
      match tx_begin_err env with
      | Some m => (d, None, Some (ErrWrap "failed to begin transaction" (ErrConn m)))
      | None =>
          match SetTenantRLS env tenantID with
          | Err e => (d, None, Some e)
          | Ok sess => tx_run env sess fn d
          end
      end
  end.

(** ** Transactions that call out

    A closure that calls another service while its transaction is open changes
    that service's state [X] whether or not the transaction commits. *)

Definition QX (D X A : Type) : Type := Session → D → X → X * res (D * A).

#[export] Instance QX_ret D X : MRet (QX D X) := λ A a s d x, (x, Ok (d, a)).
#[export] Instance QX_bind D X : MBind (QX D X) :=
  λ A B f m s d x,
    match m s d x with
    | (x', Ok (d', a)) => f a s d' x'
    | (x', Err e) => (x', Err e)
    end.

(** A statement of the transaction. *)
Definition query {D X A} (m : Q D A) : QX D X A := λ s d x, (x, m s d).

(** A call to the other service. *)
Definition rpc {D X A} (call : X → X * res A) : QX D X A := λ _ d x,
  match call x with
  | (x', Ok a) => (x', Ok (d, a))
  | (x', Err e) => (x', Err e)
  end.

Fixpoint foldMX {D X A B} (f : B → A → QX D X B) (acc : B) (l : list A) : QX D X B :=
  match l with
  | [] => mret acc
  | a :: l' => acc' ← f acc a; foldMX f acc' l'
  end.

(** ExecTxWithTenant on such a closure.  A connection that breaks does so
    after the closure has made its calls: the break that comes before them is
    a failed Begin. *)
Definition ExecTxWithTenantX `{UuidText} {D X R} (env : TxEnv) (ctx : Ctx) (fn : QX D X R)
    (d : D) (x : X) : D * X * res R :=
  match TenantIDFromContext ctx with
  | Err e => (d, x, Err e)
  | Ok tenantID =>
      match tx_begin_err env with
      | Some m => (d, x, Err (ErrWrap "failed to begin transaction" (ErrConn m)))
      | None =>
          match SetTenantRLS env tenantID with
          | Err e => (d, x, Err e)
          | Ok sess =>
              match fn sess d x with
              | (x', Err e) => (d, x', Err e)
              | (x', Ok (d', r)) =>
                  match tx_conn_err env, tx_commit env with
                  | Some m, _ => (d, x', Err (ErrConn m))
                  | None, CommitOk => (d', x', Ok r)
                  | None, CommitRolledBack m =>
                      (d, x', Err (ErrWrap "failed to commit transaction" (ErrConn m)))
                  | None, CommitUnacknowledged m =>
                      (d', x', Err (ErrWrap "failed to commit transaction" (ErrConn m)))
                  end
              end
          end
      end
  end.

(** ** The idempotency ledger and the outbox *)

Record IdemRow := mkIdemRow { idem_hash : string; idem_created_at : Z }.

(** A JSON document, as a JSONB column stores it. *)
Inductive json :=
| JStr (s : string)
| JInt (z : Z)
| JArr (l : list json)
| JObj (l : list (string * json)).

(** PostgreSQL's reading of a text as JSONB, for the payloads that are built by
    concatenation instead of json.Marshal: [None] is a syntax error. *)
Class JsonbText := jsonb_parse : string → option json.

Record OutboxParams := mkOutboxParams {
  ob_TenantID : uuid;
  ob_AggregateType : string;
  ob_AggregateID : string;
  ob_EventType : string;
  ob_Payload : json;
  ob_Traceparent : option string;
}.

Record OutboxRow := mkOutboxRow {
  ob_ID : uuid;
  ob_CreatedAt : Z;
  ob : OutboxParams;
}.

(** The tables every service's database has.  [gen_random_uuid()] draws from a
    supply of fresh identifiers. *)
Class PgStore (D : Type) := {
  idem : D → gmap (uuid * string) IdemRow;
  set_idem : gmap (uuid * string) IdemRow → D → D;
  outbox : D → list OutboxRow;
  set_outbox : list OutboxRow → D → D;
  next_uuid : D → uuid;
  set_next_uuid : uuid → D → D;
}.

Definition gen_random_uuid `{PgStore D} : Q D uuid := λ _ d,
  Ok (set_next_uuid (N.succ (next_uuid d)) d, next_uuid d).

(** INSERT INTO processed_idempotency_keys ... ON CONFLICT DO NOTHING RETURNING:
    no row comes back on a conflict. *)
Definition idem_insert `{PgStore D} (tenant : uuid) (key hash : string) : Q D string := λ s d,
  if negb (visible s tenant) then Err ErrRowSecurity
  else match idem d !! (tenant, key) with
       | Some _ => Err ErrNoRows
       | None =>
           Ok (set_idem (<[(tenant, key) := mkIdemRow hash (s_now s)]> (idem d)) d, key)
       end.

(** INSERT INTO outbox ... RETURNING *)
Definition outbox_insert `{PgStore D} (p : OutboxParams) : Q D OutboxRow :=
  uid ← gen_random_uuid;
  (λ s d,
    if negb (visible s (ob_TenantID p)) then Err ErrRowSecurity
    else let row := mkOutboxRow uid (s_now s) p in
         Ok (set_outbox (outbox d ++ [row]) d, row)) : Q D OutboxRow.

(** ** A concrete spelling of UUIDs

    A model of [UuidText] for the executions below: the binary digits of the
    value, most significant last, closed by the leading one. *)

Fixpoint pos_text (p : positive) : string :=
  match p with
  | xH => "h"
  | xO p' => String "o"%char (pos_text p')
  | xI p' => String "i"%char (pos_text p')
  end.

Fixpoint pos_parse (s : string) : option positive :=
  match s with
  | String "h"%char EmptyString => Some xH
  | String "o"%char s' => xO <$> pos_parse s'
  | String "i"%char s' => xI <$> pos_parse s'
  | _ => None
  end.

Definition bits_text : UuidText := {|
  uuid_scan s := match s with String "z"%char EmptyString => Some 0%N | _ => Npos <$> pos_parse s end;
  uuid_string u := match u with N0 => "z" | Npos p => pos_text p end;
|}.

(** What the program relies on of pgx's UUID text: a printed UUID parses back,
    is not empty and has no colon (it is the first half of the composite
    partition keys). *)
Fixpoint no_colon (s : string) : bool :=
  match s with
  | EmptyString => true
  | String c s' => negb (Ascii.eqb c ":"%char) && no_colon s'
  end.

Class UuidTextLaws `{UuidText} : Prop := {
  uuid_scan_string u : uuid_scan (uuid_string u) = Some u;
  uuid_string_no_colon u : no_colon (uuid_string u) = true;
  uuid_string_nonempty u : uuid_string u ≠ "";
  uuid_scan_empty : uuid_scan "" = None;
}.

(** ** Lemmas *)

Lemma q_bind_ok {D A B} (m : Q D A) (f : A → Q D B) s d d' b :
  (m ≫= f) s d = Ok (d', b) ↔ ∃ d1 a, m s d = Ok (d1, a) ∧ f a s d1 = Ok (d', b).
Proof.
  unfold mbind, Q_bind. destruct (m s d) as [[d1 a]|e] eqn:E.
  - split; [naive_solver|]. intros (? & ? & [= <- <-] & ?). done.
  - split; [done|naive_solver].
Qed.

Lemma foldM_app {D A B} (f : B → A → Q D B) acc l1 l2 s d :
  foldM f acc (l1 ++ l2) s d = (a ← foldM f acc l1; foldM f a l2) s d.
Proof.
  revert acc d. induction l1 as [|x l1 IH]; intros acc d; [done|].
  cbn. unfold mbind, Q_bind in *. destruct (f acc x s d) as [[d1 a]|e]; [|done].
  apply IH.
Qed.

(** A transaction either keeps the database or installs exactly what its
    closure computed on it. *)
Lemma tx_run_atomic {D R} env sess (fn : TxFn D R) d :
  (tx_run env sess fn d).1.1 = d ∨
  (fn sess d).2 = Ok (tx_run env sess fn d).1.1.
Proof.
  unfold tx_run. destruct (tx_conn_err env); [by left|].
  destruct (fn sess d) as [r [d'|e]]; [|by left].
  destruct (tx_commit env); auto.
Qed.

Lemma tx_run_healthy {D R} now sess (fn : TxFn D R) d :
  tx_run (healthy now) sess fn d =
  match fn sess d with
  | (r, Ok d') => (d', r, None)
  | (r, Err e) => (d, r, Some e)
  end.
Proof. unfold tx_run. cbn. destruct (fn sess d) as [r [d'|e]]; done. Qed.

Lemma pos_parse_text p : pos_parse (pos_text p) = Some p.
Proof. induction p as [p IH|p IH|]; cbn; rewrite ?IH; done. Qed.

Lemma pos_text_no_colon p : no_colon (pos_text p) = true.
Proof. induction p as [p IH|p IH|]; cbn; done. Qed.

#[export] Instance bits_text_laws : @UuidTextLaws bits_text.
Proof.
  split.
  - intros [|p]; [done|]. cbn. rewrite pos_parse_text. destruct p; done.
  - intros [|p]; [done|apply pos_text_no_colon].
  - intros [|[]]; done.
  - done.
Qed.

(** A transaction is refused before its closure runs, or runs it in the scope
    of the tenant in the context. *)
Lemma exec_tx_scope `{UuidText} {D R} env ctx (fn : TxFn D R) d :
  (∃ e, ExecTxWithTenant env ctx fn d = (d, None, Some e)) ∨
  ∃ tid, ctx_tenant ctx = Some tid ∧
    ExecTxWithTenant env ctx fn d =
    tx_run env (mkSession (RlsTenant (uuid_scan tid)) (tx_now env)) fn d.
Proof.
  unfold ExecTxWithTenant, TenantIDFromContext, SetTenantRLS.
  destruct (ctx_tenant ctx) as [tid|]; [|eauto].
  case_bool_decide; [eauto|].
  destruct (tx_begin_err env); [eauto|].
  destruct (tx_rls_err env); eauto.
Qed.

(** A transaction that reports success ran its closure in the scope of the
    tenant in the context, and installed its result. *)
Lemma exec_tx_ok `{UuidText} {D R} env ctx (fn : TxFn D R) d d' r :
  ExecTxWithTenant env ctx fn d = (d', r, None) →
  ∃ tid, ctx_tenant ctx = Some tid ∧
    fn (mkSession (RlsTenant (uuid_scan tid)) (tx_now env)) d = (r, Ok d').
Proof.
  destruct (exec_tx_scope env ctx fn d) as [[e ->]|(tid & Hctx & ->)]; [done|].
  intros Hrun. exists tid. split; [done|]. unfold tx_run in Hrun.
  repeat case_match; simplify_eq; done.
Qed.

Lemma exec_tx_healthy `{UuidText} {D R} now ctx (fn : TxFn D R) d tid :
  ctx_tenant ctx = Some tid → tid ≠ "" →
  ExecTxWithTenant (healthy now) ctx fn d =
  match fn (mkSession (RlsTenant (uuid_scan tid)) now) d with
  | (r, Ok d') => (d', r, None)
  | (r, Err e) => (d, r, Some e)
  end.
Proof.
  intros Hctx Hne. unfold ExecTxWithTenant, TenantIDFromContext. rewrite Hctx.
  rewrite bool_decide_false by done. apply tx_run_healthy.
Qed.

Lemma exec_tx_x_healthy `{UuidText} {D X R} now ctx (fn : QX D X R) d x tid :
  ctx_tenant ctx = Some tid → tid ≠ "" →
  ExecTxWithTenantX (healthy now) ctx fn d x =
  match fn (mkSession (RlsTenant (uuid_scan tid)) now) d x with
  | (x', Ok (d', r)) => (d', x', Ok r)
  | (x', Err e) => (d, x', Err e)
  end.
Proof.
  intros Hctx Hne. unfold ExecTxWithTenantX, TenantIDFromContext. rewrite Hctx.
  rewrite bool_decide_false by done. cbn. by destruct (fn _ _ _) as [x' [[d' r]|e]].
Qed.

(** Whatever the environment does, a transaction keeps the database or
    installs the result of its closure. *)
Lemma exec_tx_atomic `{UuidText} {D R} env ctx (fn : TxFn D R) d :
  (ExecTxWithTenant env ctx fn d).1.1 = d ∨
  ∃ tid, ctx_tenant ctx = Some tid ∧
    (fn (mkSession (RlsTenant (uuid_scan tid)) (tx_now env)) d).2 =
    Ok (ExecTxWithTenant env ctx fn d).1.1.
Proof.
  destruct (exec_tx_scope env ctx fn d) as [[e ->]|(tid & Hctx & ->)]; [by left|].
  destruct (tx_run_atomic env (mkSession (RlsTenant (uuid_scan tid)) (tx_now env)) fn d); eauto.
Qed.

Lemma ParseUUID_ok `{UuidText} s u : ParseUUID s = Ok u ↔ uuid_scan s = Some u.
Proof. unfold ParseUUID. destruct (uuid_scan s); naive_solver. Qed.

(** ** Proof automation: stepping through successful monadic code *)

(** Decomposes a hypothesis saying that a query succeeded. *)
Ltac q_inv H :=
  lazymatch type of H with
  | (_ ≫= _) _ _ = Ok _ =>
      let d := fresh "d" in let a := fresh "a" in
      let H1 := fresh "Hq" in let H2 := fresh "Hq" in
      apply q_bind_ok in H as (d & a & H1 & H2); q_inv H1; q_inv H2
  | mret _ _ _ = Ok _ => injection H as ? ?; subst
  | fail _ _ _ = Ok _ => discriminate H
  | Err _ = Ok _ => discriminate H
  | Ok _ = Ok _ => injection H as ? ?; subst
  | _ => idtac
  end.
