(* ===== verification/StockDb.v ===== *)
(** * The stock service's database (db/migrations/stock, gen/go/db/stock)

    The tables [stock_levels], [stock_events], [outbox] and
    [processed_idempotency_keys] and the sqlc queries on them.  The primary
    key of [stock_levels] is the key of a finite map; the append-only tables
    are lists in insertion order.  [stock_checks] says whether migration
    000004, which adds the CHECK constraints, has been applied. *)

From S2P Require Import Prelude Database.

(** ** Rows and parameters *)

Abbreviation loc := (uuid * string * string)%type.

Record StockLevel := mkLevel {
  AvailableQty : Z;
  ReservedQty : Z;
  AllocatedQty : Z;
  IsLockedForAudit : bool;
  UpdatedAt : Z;
}.

Record InsertStockEventParams := mkEventParams {
  ev_TenantID : uuid;
  ev_SkuID : string;
  ev_WarehouseID : string;
  ev_Delta : Z;
  ev_Reason : string;
  ev_Source : string;
  ev_ActorID : string;
}.

(** A [stock_events] row: the generated columns and the inserted ones. *)
Record StockEvent := mkEvent {
  ev_ID : uuid;
  ev_CreatedAt : Z;
  ev : InsertStockEventParams;
}.

Record StockDB := mkStockDB {
  stock_levels : gmap loc StockLevel;
  stock_events : list StockEvent;
  stock_outbox : list OutboxRow;
  stock_idem : gmap (uuid * string) IdemRow;
  stock_next_uuid : uuid;
  stock_checks : bool;
}.

Definition set_levels (m : gmap loc StockLevel) (d : StockDB) : StockDB :=
  {| stock_levels := m; stock_events := stock_events d; stock_outbox := stock_outbox d;
     stock_idem := stock_idem d; stock_next_uuid := stock_next_uuid d;
     stock_checks := stock_checks d |}.

Definition set_events (l : list StockEvent) (d : StockDB) : StockDB :=
  {| stock_levels := stock_levels d; stock_events := l; stock_outbox := stock_outbox d;
     stock_idem := stock_idem d; stock_next_uuid := stock_next_uuid d;
     stock_checks := stock_checks d |}.

#[export] Instance stock_store : PgStore StockDB := {|
  idem := stock_idem;
  set_idem m d :=
    {| stock_levels := stock_levels d; stock_events := stock_events d;
       stock_outbox := stock_outbox d; stock_idem := m;
       stock_next_uuid := stock_next_uuid d; stock_checks := stock_checks d |};
  outbox := stock_outbox;
  set_outbox l d :=
    {| stock_levels := stock_levels d; stock_events := stock_events d; stock_outbox := l;
       stock_idem := stock_idem d; stock_next_uuid := stock_next_uuid d;
       stock_checks := stock_checks d |};
  next_uuid := stock_next_uuid;
  set_next_uuid n d :=
    {| stock_levels := stock_levels d; stock_events := stock_events d;
       stock_outbox := stock_outbox d; stock_idem := stock_idem d; stock_next_uuid := n;
       stock_checks := stock_checks d |};
|}.

(** ** Constraints *)

(** The CHECK constraints of migration 000004, in the order PostgreSQL tests
    them (by name). *)
Definition check_level (d : StockDB) (lv : StockLevel) : res unit :=
  if negb (stock_checks d) then Ok ()
  else if AllocatedQty lv <? 0 then Err (ErrCheckViolation "stock_levels_allocated_nonneg")
  else if AvailableQty lv <? 0 then Err (ErrCheckViolation "stock_levels_available_nonneg")
  else if ReservedQty lv <? 0 then Err (ErrCheckViolation "stock_levels_reserved_nonneg")
  else Ok ().

(** ** Queries *)

Definition CheckAndInsertIdempotencyKey (tenant : uuid) (key hash : string) : Q StockDB string :=
  idem_insert tenant key hash.

Definition InsertOutboxEvent (p : OutboxParams) : Q StockDB OutboxRow := outbox_insert p.

Definition GetStockLevelAny (k : loc) : Q StockDB StockLevel := λ s d,
  if negb (visible s k.1.1) then Err ErrNoRows
  else match stock_levels d !! k with
       | Some lv => Ok (d, lv)
       | None => Err ErrNoRows
       end.

(** SELECT ... FOR UPDATE: the row lock it takes is the subject of
    Locks.v; a transaction runs to its end in one step here. *)
Definition GetStockLevelForUpdate (k : loc) : Q StockDB StockLevel := λ s d,
  if negb (visible s k.1.1) then Err ErrNoRows
  else match stock_levels d !! k with
       | Some lv => Ok (d, lv)
       | None => Err ErrNoRows
       end.

Definition InsertStockEvent (p : InsertStockEventParams) : Q StockDB StockEvent :=
  uid ← gen_random_uuid;
  (λ s d,
    if negb (visible s (ev_TenantID p)) then Err ErrRowSecurity
    else let row := mkEvent uid (s_now s) p in
         Ok (set_events (stock_events d ++ [row]) d, row)) : Q StockDB StockEvent.

(** UPDATE stock_levels SET ... WHERE key RETURNING *)
Definition UpdateStockLevel (k : loc) (new : StockLevel) : Q StockDB StockLevel := λ s d,
  if negb (visible s k.1.1) then Err ErrNoRows
  else match stock_levels d !! k with
       | None => Err ErrNoRows
       | Some _ =>
           match check_level d new with
           | Err e => Err e
           | Ok _ => Ok (set_levels (<[k := new]> (stock_levels d)) d, new)
           end
       end.

(** INSERT ... ON CONFLICT DO UPDATE: the constraints of the proposed row are
    tested before the conflict is looked for, those of the updated row after
    it; the addition is PostgreSQL's, which refuses an INT overflow. *)
Definition UpsertStockLevel (k : loc) (delta : Z) : Q StockDB StockLevel := λ s d,
  if negb (visible s k.1.1) then Err ErrRowSecurity
  else
    let proposed := mkLevel delta 0 0 false (s_now s) in
    match check_level d proposed with
    | Err e => Err e
    | Ok _ =>
        match stock_levels d !! k with
        | None => Ok (set_levels (<[k := proposed]> (stock_levels d)) d, proposed)
        | Some old =>
            let sum := AvailableQty old + delta in
            if negb (in_int32 sum) then Err ErrNumericOutOfRange
            else
              let new := mkLevel sum (ReservedQty old) (AllocatedQty old)
                                 (IsLockedForAudit old) (s_now s) in
              match check_level d new with
              | Err e => Err e
              | Ok _ => Ok (set_levels (<[k := new]> (stock_levels d)) d, new)
              end
        end
    end.

(** UPDATE stock_levels SET is_locked_for_audit (:exec, no row is no error) *)
Definition SetAuditLock (k : loc) (locked : bool) : Q StockDB unit := λ s d,
  if negb (visible s k.1.1) then Ok (d, ())
  else
    Ok (set_levels
          (alter (λ lv, mkLevel (AvailableQty lv) (ReservedQty lv) (AllocatedQty lv)
                                locked (s_now s)) k (stock_levels d)) d, ()).

Definition ev_loc (e : StockEvent) : loc :=
  (ev_TenantID (ev e), ev_SkuID (ev e), ev_WarehouseID (ev e)).

Definition visible_events (s : Session) (d : StockDB) : list StockEvent :=
  filter (λ e, visible s (ev_TenantID (ev e)) = true) (stock_events d).

(** SELECT DISTINCT tenant_id, sku_id, warehouse_id FROM stock_events *)
Definition ListDistinctEventLocations : Q StockDB (list loc) := λ s d,
  Ok (d, remove_dups (ev_loc <$> visible_events s d)).

(** SELECT ... FROM stock_levels WHERE is_locked_for_audit *)
Definition ListLockedLocations : Q StockDB (list loc) := λ s d,
  Ok (d, (filter (λ '(k, lv), visible s k.1.1 = true ∧ IsLockedForAudit lv = true)
                 (map_to_list (stock_levels d))).*1).

(** SELECT reason, SUM(delta)::BIGINT ... GROUP BY reason *)
Definition reason_total (es : list StockEvent) (r : string) : Z :=
  zsum (λ e, ev_Delta (ev e)) (filter (λ e, ev_Reason (ev e) = r) es).

Definition SumDeltasByReason (k : loc) : Q StockDB (list (string * Z)) := λ s d,
  let es := filter (λ e, ev_loc e = k) (visible_events s d) in
  let reasons := remove_dups (ev_Reason ∘ ev <$> es) in
  let rows := (λ r, (r, reason_total es r)) <$> reasons in
  if forallb (λ row, in_int64 row.2) rows then Ok (d, rows) else Err ErrNumericOutOfRange.

(** ** Well-formed databases *)

Definition qty_ok (z : Z) : Prop := 0 <= z < 2147483648.

Definition level_ok (lv : StockLevel) : Prop :=
  qty_ok (AvailableQty lv) ∧ qty_ok (ReservedQty lv) ∧ qty_ok (AllocatedQty lv).

Definition stock_wf (d : StockDB) : Prop :=
  stock_checks d = true ∧ map_Forall (λ _, level_ok) (stock_levels d).

(** ** Lemmas *)

Lemma check_level_ok d lv :
  check_level d lv = Ok () → stock_checks d = true →
  0 <= AvailableQty lv ∧ 0 <= ReservedQty lv ∧ 0 <= AllocatedQty lv.
Proof.
  unfold check_level. intros H Hc. rewrite Hc in H. cbn in H.
  repeat case_match; bprop; try done; lia.
Qed.

Lemma check_level_intro d lv :
  0 <= AvailableQty lv → 0 <= ReservedQty lv → 0 <= AllocatedQty lv → check_level d lv = Ok ().
Proof.
  intros HA HR HL. unfold check_level. apply Z.ltb_ge in HA, HR, HL. rewrite HA, HR, HL.
  by destruct (stock_checks d).
Qed.

Lemma GetStockLevelForUpdate_ok k s d d' lv :
  GetStockLevelForUpdate k s d = Ok (d', lv) →
  d' = d ∧ stock_levels d !! k = Some lv ∧ visible s k.1.1 = true.
Proof.
  unfold GetStockLevelForUpdate. intros H. repeat case_match; simplify_eq.
  by rewrite negb_false_iff in *.
Qed.

Lemma UpdateStockLevel_ok k new s d d' r :
  UpdateStockLevel k new s d = Ok (d', r) →
  d' = set_levels (<[k := new]> (stock_levels d)) d ∧ check_level d new = Ok () ∧
  visible s k.1.1 = true ∧ is_Some (stock_levels d !! k).
Proof.
  unfold UpdateStockLevel. intros H. repeat case_match; simplify_eq.
  rewrite negb_false_iff in *. destruct a. eauto.
Qed.

Lemma InsertStockEvent_ok p s d d' e :
  InsertStockEvent p s d = Ok (d', e) →
  e = mkEvent (next_uuid d) (s_now s) p ∧ visible s (ev_TenantID p) = true ∧
  d' = set_next_uuid (N.succ (next_uuid d)) (set_events (stock_events d ++ [e]) d).
Proof.
  unfold InsertStockEvent. intros H. q_inv H.
  unfold gen_random_uuid in *. simplify_eq/=. case_match; simplify_eq/=.
  by rewrite negb_false_iff in *.
Qed.

Lemma InsertOutboxEvent_ok p s d d' r :
  InsertOutboxEvent p s d = Ok (d', r) →
  r = mkOutboxRow (next_uuid d) (s_now s) p ∧ visible s (ob_TenantID p) = true ∧
  d' = set_next_uuid (N.succ (next_uuid d)) (set_outbox (outbox d ++ [r]) d).
Proof.
  unfold InsertOutboxEvent, outbox_insert. intros H. q_inv H.
  unfold gen_random_uuid in *. simplify_eq/=. case_match; simplify_eq/=.
  by rewrite negb_false_iff in *.
Qed.

Lemma idem_insert_ok tenant key hash s d d' k :
  idem_insert (D := StockDB) tenant key hash s d = Ok (d', k) →
  d' = set_idem (<[(tenant, key) := mkIdemRow hash (s_now s)]> (idem d)) d ∧
  idem d !! (tenant, key) = None ∧ visible s tenant = true.
Proof.
  unfold idem_insert. intros H. repeat case_match; simplify_eq.
  by rewrite negb_false_iff in *.
Qed.

(** In a database with the CHECK constraints, moving a quantity between the
    buckets of a row either fails or is exact: no int32 wrap survives. *)
Lemma move_exact a q : qty_ok a → in_int32 q = true → 0 <= wrap32 (a + q) →
  wrap32 (a + q) = a + q.
Proof.
  unfold qty_ok, in_int32. intros Ha Hq Hw. bprop. apply wrap32_nonneg_exact; lia.
Qed.

Lemma move_back_exact a q : qty_ok a → in_int32 q = true → 0 <= wrap32 (a - q) →
  wrap32 (a - q) = a - q.
Proof.
  unfold qty_ok, in_int32. intros Ha Hq Hw. bprop.
  rewrite <- Z.add_opp_r in *. apply wrap32_nonneg_exact; lia.
Qed.

Lemma qty_ok_wrap z : 0 <= wrap32 z → qty_ok (wrap32 z).
Proof.
  pose proof (wrap32_range z) as H. unfold in_int32, qty_ok in *. bprop. lia.
Qed.

(** Replaces the successful queries among the hypotheses by what they did. *)
Ltac stock_inv :=
  repeat match goal with
  | H : GetStockLevelForUpdate _ _ _ = Ok _ |- _ =>
      apply GetStockLevelForUpdate_ok in H as (-> & ? & ?)
  | H : UpdateStockLevel _ _ _ _ = Ok _ |- _ =>
      apply UpdateStockLevel_ok in H as (-> & ? & ? & ?)
  | H : InsertStockEvent _ _ _ = Ok _ |- _ => apply InsertStockEvent_ok in H as (-> & ? & ->)
  | H : InsertOutboxEvent _ _ _ = Ok _ |- _ => apply InsertOutboxEvent_ok in H as (-> & ? & ->)
  end.
