(* ===== verification/StockApi.v ===== *)
(** * Messages of stock.v1 (proto/stock/v1/stock.proto, gen/go/stock/v1)

    Requests and responses as records with the fields of the generated
    structs; the getters of a non-nil message are the projections. *)

From S2P Require Import Prelude Database.

Record StockLine := mkLine {
  SkuId : string;
  WarehouseId : string;
  Quantity : Z;
}.

#[export] Instance StockLine_eq_dec : EqDecision StockLine.
Proof. solve_decision. Defined.

Record AdjustStockRequest := mkAdjustStockRequest {
  adj_TenantId : string;
  adj_SkuId : string;
  adj_WarehouseId : string;
  adj_QuantityDelta : Z;
  adj_Reason : string;
  adj_Source : string;
  adj_IdempotencyKey : string;
}.

Record AdjustStockResponse := mkAdjustStockResponse {
  adjr_Success : bool;
  adjr_AvailableQty : Z;
  adjr_ReservedQty : Z;
  adjr_AllocatedQty : Z;
  adjr_IsClampedZero : bool;
  adjr_EventId : string;
}.

Record ReserveStockRequest := mkReserveStockRequest {
  rsv_TenantId : string;
  rsv_OrderId : string;
  rsv_IdempotencyKey : string;
  rsv_Lines : list StockLine;
}.

Record ReserveStockResponse := mkReserveStockResponse {
  rsvr_Success : bool;
  rsvr_FailedSkuIds : list string;
}.

Record ReleaseStockRequest := mkReleaseStockRequest {
  rel_TenantId : string;
  rel_OrderId : string;
  rel_Reason : string;
  rel_IdempotencyKey : string;
  rel_Lines : list StockLine;
}.

Record ReleaseStockResponse := mkReleaseStockResponse {
  relr_Success : bool;
  relr_ReleasedSkuIds : list string;
}.

Record ConfirmStockAllocationRequest := mkConfirmStockAllocationRequest {
  cnf_TenantId : string;
  cnf_OrderId : string;
  cnf_IdempotencyKey : string;
  cnf_Lines : list StockLine;
}.

Record StockAllocationLine := mkStockAllocationLine {
  sal_SkuId : string;
  sal_WarehouseId : string;
  sal_AllocatedQty : Z;
}.

Record ConfirmStockAllocationResponse := mkConfirmStockAllocationResponse {
  cnfr_Success : bool;
  cnfr_Lines : list StockAllocationLine;
}.

Record FulfillStockRequest := mkFulfillStockRequest {
  ful_TenantId : string;
  ful_OrderId : string;
  ful_IdempotencyKey : string;
  ful_Lines : list StockLine;
}.

Record FulfillStockLine := mkFulfillStockLine {
  fsl_SkuId : string;
  fsl_WarehouseId : string;
  fsl_RemainingAllocatedQty : Z;
}.

Record FulfillStockResponse := mkFulfillStockResponse {
  fulr_Success : bool;
  fulr_Lines : list FulfillStockLine;
}.

Record UnlockStockForAuditRequest := mkUnlockStockForAuditRequest {
  ulk_TenantId : string;
  ulk_SkuId : string;
  ulk_WarehouseId : string;
  ulk_Reason : string;
  ulk_ActorId : string;
}.

Record UnlockStockForAuditResponse := mkUnlockStockForAuditResponse {
  ulkr_Success : bool;
  ulkr_IsUnlocked : bool;
}.

(** The request fingerprints the handlers store in the idempotency ledger. *)
Class StockHashes := {
  hash_adjust :: PayloadHash AdjustStockRequest;
  hash_reserve :: PayloadHash ReserveStockRequest;
  hash_release :: PayloadHash ReleaseStockRequest;
  hash_confirm :: PayloadHash ConfirmStockAllocationRequest;
  hash_fulfill :: PayloadHash FulfillStockRequest;
}.
