(* ===== verification/StockService.v ===== *)
(** * The stock service (internal/stockservice/stock.go, helpers.go)

    The six handlers of stock.v1.StockService as functions on the service's
    database.  A handler takes the environment of its transaction, the request
    context and the request, and returns the database and the gRPC result. *)

From S2P Require Import Prelude Database StockDb StockApi.

Section Handlers.
Context `{UuidText} `{StockHashes}.

(** ** helpers.go *)

(** Whether the key was already processed; a fresh key is recorded. *)
Definition tryIdempotency {M} `{PayloadHash M} (tenantID : uuid) (key : string) (msg : M)
  : Q StockDB bool :=
  if bool_decide (key = "") then mret false
  else
    r ← attempt (CheckAndInsertIdempotencyKey tenantID key (payload_hash msg));
    match r with
    | Err ErrNoRows => mret true
    | Err e => fail e
    | Ok _ => mret false
    end.

(** The order of sortedLines: by SKU, then by warehouse, bytewise. *)
Definition line_le (l1 l2 : StockLine) : Prop :=
  if bool_decide (SkuId l1 = SkuId l2) then String.le (WarehouseId l1) (WarehouseId l2)
  else String.le (SkuId l1) (SkuId l2).

#[global] Instance line_le_dec : RelDecision line_le.
Proof. intros l1 l2. unfold line_le. destruct (bool_decide _); apply _. Defined.

Definition sortedLines (lines : list StockLine) : list StockLine := merge_sort line_le lines.

Definition marshalLineEvent (action orderID : string) (l : StockLine) : json :=
  JObj [("action", JStr action); ("order_id", JStr orderID); ("sku_id", JStr (SkuId l));
        ("warehouse_id", JStr (WarehouseId l)); ("quantity", JInt (Quantity l))].

Definition marshalAdjustEvent (req : AdjustStockRequest) (newAvailable : Z) : json :=
  JObj [("sku_id", JStr (adj_SkuId req)); ("warehouse_id", JStr (adj_WarehouseId req));
        ("quantity_delta", JInt (adj_QuantityDelta req)); ("available_qty", JInt newAvailable);
        ("reason", JStr (adj_Reason req)); ("source", JStr (adj_Source req))].

(** The key of the row a line names: stockLevelParams of its StockLocation. *)
Definition line_loc (tenant : uuid) (l : StockLine) : loc := (tenant, SkuId l, WarehouseId l).

(** The outbox row of a stock event: tenantUUID.String() + ":" + sku. *)
Definition stock_outbox_event (ctx : Ctx) (tenant : uuid) (sku event_type : string) (payload : json)
  : OutboxParams :=
  {| ob_TenantID := tenant; ob_AggregateType := "stock";
     ob_AggregateID := uuid_string tenant +:+ ":" +:+ sku;
     ob_EventType := event_type; ob_Payload := payload;
     ob_Traceparent := TraceparentText ctx |}.

(** The common end of a handler: [if err != nil { return nil, status.Errorf(
    codes.Internal, ...) }; return resp, nil].  A closure that returns nil has
    set resp. *)
Definition finish {R} (format : string) (out : StockDB * option R * option go_error)
  : StockDB * res R :=
  match out with
  | (d, _, Some e) => (d, Err (ErrStatusf Internal format e))
  | (d, Some resp, None) => (d, Ok resp)
  | (d, None, None) => (d, Err (ErrStatus Internal "nil response"))
  end.

Definition invalid_argument {R} (e : go_error) (d : StockDB) : StockDB * res R :=
  (d, Err (ErrStatusf InvalidArgument "%v" e)).

(** ** AdjustStock *)

(** The branch of a key that was not processed yet. *)
Definition adjust_apply (ctx : Ctx) (tenant : uuid) (req : AdjustStockRequest)
  : Q StockDB AdjustStockResponse :=
  let k : loc := (tenant, adj_SkuId req, adj_WarehouseId req) in
  _ ← UpsertStockLevel k (adj_QuantityDelta req);
  level ← GetStockLevelForUpdate k;
  let clamped := AvailableQty level <? 0 in
  let newAvailable := if clamped then 0 else AvailableQty level in
  _ ← UpdateStockLevel k (mkLevel newAvailable (ReservedQty level) (AllocatedQty level)
                                  (IsLockedForAudit level) (UpdatedAt level));
  event ← InsertStockEvent
    {| ev_TenantID := tenant; ev_SkuID := adj_SkuId req; ev_WarehouseID := adj_WarehouseId req;
       ev_Delta := adj_QuantityDelta req; ev_Reason := adj_Reason req;
       ev_Source := adj_Source req; ev_ActorID := "system" |};
  _ ← InsertOutboxEvent (stock_outbox_event ctx tenant (adj_SkuId req) "stock.adjusted"
                           (marshalAdjustEvent req newAvailable));
  let resp :=
    {| adjr_Success := true; adjr_AvailableQty := newAvailable;
       adjr_ReservedQty := ReservedQty level; adjr_AllocatedQty := AllocatedQty level;
       adjr_IsClampedZero := clamped; adjr_EventId := uuid_string (ev_ID event) |} in
  if clamped then
    _ ← InsertOutboxEvent (stock_outbox_event ctx tenant (adj_SkuId req) "stock.deficit_alert"
          (JObj [("sku_id", JStr (adj_SkuId req)); ("warehouse_id", JStr (adj_WarehouseId req));
                 ("delta", JInt (adj_QuantityDelta req)); ("reason", JStr (adj_Reason req));
                 ("source", JStr (adj_Source req))]));
    mret resp
  else mret resp.

Definition adjust_closure (ctx : Ctx) (tenant : uuid) (req : AdjustStockRequest)
  : Q StockDB AdjustStockResponse :=
  dup ← tryIdempotency tenant (adj_IdempotencyKey req) req;
  if (dup : bool) then
    level ← GetStockLevelForUpdate (tenant, adj_SkuId req, adj_WarehouseId req);
    mret {| adjr_Success := true; adjr_AvailableQty := AvailableQty level;
            adjr_ReservedQty := ReservedQty level; adjr_AllocatedQty := AllocatedQty level;
            adjr_IsClampedZero := AvailableQty level =? 0; adjr_EventId := "" |}
  else adjust_apply ctx tenant req.

Definition AdjustStock (env : TxEnv) (ctx : Ctx) (req : AdjustStockRequest) (d : StockDB)
  : StockDB * res AdjustStockResponse :=
  match ParseUUID (adj_TenantId req) with
  | Err e => invalid_argument e d
  | Ok tenant =>
      let ctx := WithTenantID ctx (adj_TenantId req) in
      finish "adjust stock: %v" (ExecTxWithTenant env ctx (tx_body (adjust_closure ctx tenant req)) d)
  end.

(** ** ReserveStock *)

(** One line of the loop: [failed] collects the SKUs that cannot be held. *)
Definition reserve_line (ctx : Ctx) (tenant : uuid) (order : string) (failed : list string)
    (l : StockLine) : Q StockDB (list string) :=
  let k := line_loc tenant l in
  r ← attempt (GetStockLevelForUpdate k);
  match r with
  | Err ErrNoRows => mret (failed ++ [SkuId l])
  | Err e => fail e
  | Ok level =>
      if IsLockedForAudit level || (AvailableQty level <? Quantity l) then
        mret (failed ++ [SkuId l])
      else
        _ ← UpdateStockLevel k
              (mkLevel (wrap32 (AvailableQty level - Quantity l))
                       (wrap32 (ReservedQty level + Quantity l))
                       (AllocatedQty level) (IsLockedForAudit level) (UpdatedAt level));
        _ ← InsertStockEvent
              {| ev_TenantID := tenant; ev_SkuID := SkuId l; ev_WarehouseID := WarehouseId l;
                 ev_Delta := wrap32 (- Quantity l); ev_Reason := "reserve";
                 ev_Source := "reservation"; ev_ActorID := order |};
        _ ← InsertOutboxEvent (stock_outbox_event ctx tenant (SkuId l) "stock.reserved"
                                 (marshalLineEvent "reserve" order l));
        mret failed
  end.

(** The closure: it sets resp before it returns the error that rolls the
    partial reservation back. *)
Definition reserve_closure (ctx : Ctx) (tenant : uuid) (lines : list StockLine)
    (req : ReserveStockRequest) : TxFn StockDB ReserveStockResponse := λ s d,
  let body : Q StockDB (list string) :=
    dup ← tryIdempotency tenant (rsv_IdempotencyKey req) req;
    if (dup : bool) then mret []
    else foldM (reserve_line ctx tenant (rsv_OrderId req)) [] lines in
  match body s d with
  | Err e => (None, Err e)
  | Ok (d', []) => (Some (mkReserveStockResponse true []), Ok d')
  | Ok (d', failed) =>
      (Some (mkReserveStockResponse false failed),
       Err (ErrNew "insufficient stock for reservation"))
  end.

Definition ReserveStock (env : TxEnv) (ctx : Ctx) (req : ReserveStockRequest) (d : StockDB)
  : StockDB * res ReserveStockResponse :=
  match ParseUUID (rsv_TenantId req) with
  | Err e => invalid_argument e d
  | Ok tenant =>
      let ctx := WithTenantID ctx (rsv_TenantId req) in
      let lines := sortedLines (rsv_Lines req) in
      match lines with
      | [] => (d, Err (ErrStatus InvalidArgument "no lines provided"))
      | _ =>
          match ExecTxWithTenant env ctx (reserve_closure ctx tenant lines req) d with
          | (d', Some resp, Some e) =>
              if negb (rsvr_Success resp) then (d', Ok resp)
              else (d', Err (ErrStatusf Internal "reserve stock: %v" e))
          | out => finish "reserve stock: %v" out
          end
      end
  end.

(** ** ReleaseStock *)

Definition release_line (ctx : Ctx) (tenant : uuid) (req : ReleaseStockRequest)
    (released : list string) (l : StockLine) : Q StockDB (list string) :=
  let k := line_loc tenant l in
  r ← attempt (GetStockLevelForUpdate k);
  match r with
  | Err ErrNoRows => mret released
  | Err e => fail e
  | Ok level =>
      _ ← UpdateStockLevel k
            (mkLevel (wrap32 (AvailableQty level + Quantity l))
                     (wrap32 (ReservedQty level - Quantity l))
                     (AllocatedQty level) (IsLockedForAudit level) (UpdatedAt level));
      _ ← InsertStockEvent
            {| ev_TenantID := tenant; ev_SkuID := SkuId l; ev_WarehouseID := WarehouseId l;
               ev_Delta := Quantity l; ev_Reason := rel_Reason req;
               ev_Source := "reservation"; ev_ActorID := rel_OrderId req |};
      _ ← InsertOutboxEvent (stock_outbox_event ctx tenant (SkuId l) "stock.released"
                               (marshalLineEvent "release" (rel_OrderId req) l));
      mret (released ++ [SkuId l])
  end.

Definition release_closure (ctx : Ctx) (tenant : uuid) (lines : list StockLine)
    (req : ReleaseStockRequest) : Q StockDB ReleaseStockResponse :=
  dup ← tryIdempotency tenant (rel_IdempotencyKey req) req;
  if (dup : bool) then mret (mkReleaseStockResponse true [])
  else
    released ← foldM (release_line ctx tenant req) [] lines;
    mret (mkReleaseStockResponse true released).

Definition ReleaseStock (env : TxEnv) (ctx : Ctx) (req : ReleaseStockRequest) (d : StockDB)
  : StockDB * res ReleaseStockResponse :=
  match ParseUUID (rel_TenantId req) with
  | Err e => invalid_argument e d
  | Ok tenant =>
      let ctx := WithTenantID ctx (rel_TenantId req) in
      let lines := sortedLines (rel_Lines req) in
      finish "release stock: %v"
        (ExecTxWithTenant env ctx (tx_body (release_closure ctx tenant lines req)) d)
  end.

(** ** ConfirmStockAllocation *)

Definition confirm_line (ctx : Ctx) (tenant : uuid) (req : ConfirmStockAllocationRequest)
    (out : list StockAllocationLine) (l : StockLine) : Q StockDB (list StockAllocationLine) :=
  let k := line_loc tenant l in
  level ← GetStockLevelForUpdate k;
  _ ← UpdateStockLevel k
        (mkLevel (AvailableQty level)
                 (wrap32 (ReservedQty level - Quantity l))
                 (wrap32 (AllocatedQty level + Quantity l))
                 (IsLockedForAudit level) (UpdatedAt level));
  _ ← InsertStockEvent
        {| ev_TenantID := tenant; ev_SkuID := SkuId l; ev_WarehouseID := WarehouseId l;
           ev_Delta := Quantity l; ev_Reason := "allocate";
           ev_Source := "reservation"; ev_ActorID := "system" |};
  _ ← InsertOutboxEvent (stock_outbox_event ctx tenant (SkuId l) "stock.allocated"
                           (marshalLineEvent "allocate" (cnf_OrderId req) l));
  mret (out ++ [mkStockAllocationLine (SkuId l) (WarehouseId l) (Quantity l)]).

Definition confirm_closure (ctx : Ctx) (tenant : uuid) (lines : list StockLine)
    (req : ConfirmStockAllocationRequest) : Q StockDB ConfirmStockAllocationResponse :=
  dup ← tryIdempotency tenant (cnf_IdempotencyKey req) req;
  if (dup : bool) then mret (mkConfirmStockAllocationResponse true [])
  else
    out ← foldM (confirm_line ctx tenant req) [] lines;
    mret (mkConfirmStockAllocationResponse true out).

Definition ConfirmStockAllocation (env : TxEnv) (ctx : Ctx) (req : ConfirmStockAllocationRequest)
    (d : StockDB) : StockDB * res ConfirmStockAllocationResponse :=
  match ParseUUID (cnf_TenantId req) with
  | Err e => invalid_argument e d
  | Ok tenant =>
      let ctx := WithTenantID ctx (cnf_TenantId req) in
      let lines := sortedLines (cnf_Lines req) in
      finish "confirm allocation: %v"
        (ExecTxWithTenant env ctx (tx_body (confirm_closure ctx tenant lines req)) d)
  end.

(** ** FulfillStock *)

Definition fulfill_line (ctx : Ctx) (tenant : uuid) (req : FulfillStockRequest)
    (out : list FulfillStockLine) (l : StockLine) : Q StockDB (list FulfillStockLine) :=
  let k := line_loc tenant l in
  level ← GetStockLevelForUpdate k;
  _ ← UpdateStockLevel k
        (mkLevel (AvailableQty level) (ReservedQty level)
                 (wrap32 (AllocatedQty level - Quantity l))
                 (IsLockedForAudit level) (UpdatedAt level));
  _ ← InsertStockEvent
        {| ev_TenantID := tenant; ev_SkuID := SkuId l; ev_WarehouseID := WarehouseId l;
           ev_Delta := Quantity l; ev_Reason := "fulfill";
           ev_Source := "fulfillment"; ev_ActorID := "system" |};
  _ ← InsertOutboxEvent (stock_outbox_event ctx tenant (SkuId l) "stock.fulfilled"
                           (marshalLineEvent "fulfill" (ful_OrderId req) l));
  mret (out ++ [mkFulfillStockLine (SkuId l) (WarehouseId l)
                                   (wrap32 (AllocatedQty level - Quantity l))]).

Definition fulfill_closure (ctx : Ctx) (tenant : uuid) (lines : list StockLine)
    (req : FulfillStockRequest) : Q StockDB FulfillStockResponse :=
  dup ← tryIdempotency tenant (ful_IdempotencyKey req) req;
  if (dup : bool) then mret (mkFulfillStockResponse true [])
  else
    out ← foldM (fulfill_line ctx tenant req) [] lines;
    mret (mkFulfillStockResponse true out).

Definition FulfillStock (env : TxEnv) (ctx : Ctx) (req : FulfillStockRequest) (d : StockDB)
  : StockDB * res FulfillStockResponse :=
  match ParseUUID (ful_TenantId req) with
  | Err e => invalid_argument e d
  | Ok tenant =>
      let ctx := WithTenantID ctx (ful_TenantId req) in
      let lines := sortedLines (ful_Lines req) in
      finish "fulfill stock: %v"
        (ExecTxWithTenant env ctx (tx_body (fulfill_closure ctx tenant lines req)) d)
  end.

(** ** UnlockStockForAudit *)

Definition unlock_closure (tenant : uuid) (req : UnlockStockForAuditRequest)
  : Q StockDB UnlockStockForAuditResponse :=
  let k : loc := (tenant, ulk_SkuId req, ulk_WarehouseId req) in
  r ← attempt (GetStockLevelForUpdate k);
  match r with
  | Err ErrNoRows => mret (mkUnlockStockForAuditResponse false false)
  | Err e => fail e
  | Ok _ =>
      _ ← SetAuditLock k false;
      let actor := if bool_decide (ulk_ActorId req = "") then "warehouse-manager"
                   else ulk_ActorId req in
      _ ← InsertStockEvent
            {| ev_TenantID := tenant; ev_SkuID := ulk_SkuId req;
               ev_WarehouseID := ulk_WarehouseId req; ev_Delta := 0;
               ev_Reason := ulk_Reason req; ev_Source := "reconciliation"; ev_ActorID := actor |};
      mret (mkUnlockStockForAuditResponse true true)
  end.

Definition UnlockStockForAudit (env : TxEnv) (ctx : Ctx) (req : UnlockStockForAuditRequest)
    (d : StockDB) : StockDB * res UnlockStockForAuditResponse :=
  match ParseUUID (ulk_TenantId req) with
  | Err e => invalid_argument e d
  | Ok tenant =>
      let ctx := WithTenantID ctx (ulk_TenantId req) in
      finish "unlock for audit: %v"
        (ExecTxWithTenant env ctx (tx_body (unlock_closure tenant req)) d)
  end.

End Handlers.
