(* ===== verification/StockEffects.v ===== *)
(** * What a stock handler does to the database

    The abstract view of the four multi-line handlers: each moves quantities
    between the buckets of the rows its lines name, by the same vector for
    every line, and appends one audit event and one outbox event per line.
    The loops of StockService.v are shown to implement that view. *)

From S2P Require Import Prelude Database StockDb StockApi StockService.

(** ** The abstract operations *)

(** What one unit of a line moves into each bucket. *)
Record motion := mkMotion { mv_available : Z; mv_reserved : Z; mv_allocated : Z }.

Definition reserving : motion := mkMotion (-1) 1 0.
Definition releasing : motion := mkMotion 1 (-1) 0.
Definition allocating : motion := mkMotion 0 (-1) 1.
Definition fulfilling : motion := mkMotion 0 0 (-1).

Definition shift (m : motion) (q : Z) (lv : StockLevel) : StockLevel :=
  mkLevel (AvailableQty lv + mv_available m * q) (ReservedQty lv + mv_reserved m * q)
          (AllocatedQty lv + mv_allocated m * q) (IsLockedForAudit lv) (UpdatedAt lv).

Definition move_lines (m : motion) (t : uuid) (lines : list StockLine)
    (levels : gmap loc StockLevel) : gmap loc StockLevel :=
  foldl (λ ls l, alter (shift m (Quantity l)) (line_loc t l) ls) levels lines.

(** The quantity the lines of tenant [t] move at location [k]. *)
Definition qty_at (t : uuid) (k : loc) (lines : list StockLine) : Z :=
  zsum (λ l, if bool_decide (line_loc t l = k) then Quantity l else 0) lines.

(** Everything that is on the shelf or owed from it. *)
Definition physical (lv : StockLevel) : Z :=
  AvailableQty lv + ReservedQty lv + AllocatedQty lv.

Definition lines_ok (lines : list StockLine) : bool :=
  forallb (λ l, in_int32 (Quantity l)) lines.

(** The effect of a run over [lines], each with its audit event and its outbox
    event. *)
Record stock_effect (m : motion) (t : uuid) (mkev : StockLine → InsertStockEventParams)
    (mkob : StockLine → OutboxParams) (lines : list StockLine) (d d' : StockDB) : Prop := {
  se_levels : stock_levels d' = move_lines m t lines (stock_levels d);
  se_events : ev <$> stock_events d' = (ev <$> stock_events d) ++ (mkev <$> lines);
  se_outbox : ob <$> stock_outbox d' = (ob <$> stock_outbox d) ++ (mkob <$> lines);
  se_idem : stock_idem d' = stock_idem d;
  se_wf : stock_wf d';
}.

(** ** Lemmas on the abstract operations *)

Lemma shift_0 m lv : shift m 0 lv = lv.
Proof. destruct lv. unfold shift. cbn. f_equal; lia. Qed.

Lemma shift_shift m p q lv : shift m p (shift m q lv) = shift m (q + p) lv.
Proof. unfold shift. cbn. f_equal; lia. Qed.

Lemma lookup_move_lines m t lines levels k :
  move_lines m t lines levels !! k = shift m (qty_at t k lines) <$> levels !! k.
Proof.
  unfold move_lines, qty_at. revert levels.
  induction lines as [|l lines IH]; intros levels; cbn.
  - destruct (levels !! k); cbn; [by rewrite shift_0|done].
  - rewrite IH. case_bool_decide as Hk; subst.
    + rewrite lookup_alter_eq. destruct (levels !! _); cbn; [|done].
      by rewrite shift_shift.
    + by rewrite lookup_alter_ne.
Qed.

(** The order of the lines does not matter. *)
#[export] Instance move_lines_Permutation m t :
  Proper ((≡ₚ) ==> eq ==> eq) (move_lines m t).
Proof.
  intros l1 l2 Hl ? levels ->. apply map_eq. intros k.
  rewrite !lookup_move_lines. unfold qty_at. by rewrite Hl.
Qed.

Lemma move_lines_app m t l1 l2 levels :
  move_lines m t (l1 ++ l2) levels = move_lines m t l2 (move_lines m t l1 levels).
Proof. unfold move_lines. apply foldl_app. Qed.

(** Lines that name no row move nothing. *)
Lemma move_lines_filter (m : motion) (t : uuid) (lines : list StockLine) (levels : gmap loc StockLevel) :
  move_lines m t (filter (λ l, is_Some (levels !! line_loc t l)) lines) levels =
  move_lines m t lines levels.
Proof.
  apply map_eq. intros k. rewrite !lookup_move_lines.
  destruct (levels !! k) as [lv|] eqn:Hk; [|done]. cbn. do 2 f_equal.
  unfold qty_at. induction lines as [|l lines IH]; [done|].
  rewrite filter_cons. case_decide as Hl; cbn; rewrite IH; [done|].
  case_bool_decide; subst; [|lia]. by rewrite Hk in Hl; destruct Hl.
Qed.

Lemma physical_shift m q lv :
  physical (shift m q lv) = physical lv + (mv_available m + mv_reserved m + mv_allocated m) * q.
Proof. unfold physical, shift. cbn. lia. Qed.

Lemma qty_at_Permutation t k l1 l2 : l1 ≡ₚ l2 → qty_at t k l1 = qty_at t k l2.
Proof. unfold qty_at. by intros ->. Qed.

Lemma sortedLines_Permutation lines : sortedLines lines ≡ₚ lines.
Proof. apply merge_sort_Permutation. Qed.

Lemma lines_ok_Permutation l1 l2 : l1 ≡ₚ l2 → lines_ok l1 = true → lines_ok l2 = true.
Proof.
  unfold lines_ok. rewrite !forallb_forall. intros Hp H l Hl. apply H.
  apply list_elem_of_In. rewrite Hp. by apply list_elem_of_In.
Qed.

(** ** Effects compose *)

Section Effects.
Context (m : motion) (t : uuid).

Lemma stock_effect_nil mkev mkob d : stock_wf d → stock_effect m t mkev mkob [] d d.
Proof. intros Hd. split; cbn; rewrite ?app_nil_r; done. Qed.

Lemma stock_effect_trans mkev mkob l1 l2 d1 d2 d3 :
  stock_effect m t mkev mkob l1 d1 d2 → stock_effect m t mkev mkob l2 d2 d3 →
  stock_effect m t mkev mkob (l1 ++ l2) d1 d3.
Proof.
  intros [L1 E1 O1 I1 W1] [L2 E2 O2 I2 W2]. split; [| | | |done].
  - by rewrite L2, L1, move_lines_app.
  - by rewrite E2, E1, fmap_app, app_assoc.
  - by rewrite O2, O1, fmap_app, app_assoc.
  - by rewrite I2.
Qed.

(** The part of the loop bodies the four handlers share: update the row,
    record the event, queue the outbox row. *)
Lemma line_tail {X} mkev mkob l lv new (x : X) s d d' r :
  (_ ← UpdateStockLevel (line_loc t l) new;
   _ ← InsertStockEvent (mkev l); _ ← InsertOutboxEvent (mkob l); mret x) s d = Ok (d', r) →
  stock_wf d → stock_levels d !! line_loc t l = Some lv →
  (check_level d new = Ok () → new = shift m (Quantity l) lv ∧ level_ok new) →
  r = x ∧ stock_effect m t mkev mkob [l] d d'.
Proof.
  intros Hrun [Hc Hwf] Hlv Hnew. q_inv Hrun. stock_inv.
  destruct Hnew as [-> Hok]; [done|]. split; [done|]. split; cbn.
  - apply map_eq. intros k. rewrite lookup_insert, lookup_alter.
    case_decide; subst; [by rewrite Hlv|done].
  - by rewrite fmap_app.
  - by rewrite fmap_app.
  - done.
  - split; [done|]. by apply map_Forall_insert_2.
Qed.

End Effects.

(** ** The new level of each handler is the shifted one *)

Section Levels.
Context (d : StockDB) (lv : StockLevel) (q : Z).
Context (Hc : stock_checks d = true) (Hlv : level_ok lv) (Hq : in_int32 q = true).

Ltac level_exact :=
  cbv zeta; intros Hck; pose proof (check_level_ok _ _ Hck Hc) as (HA & HR & HL); cbn in HA, HR, HL;
  destruct Hlv as (OA & OR & OL);
  split;
  [ unfold shift; cbn; f_equal;
    rewrite ?(move_exact _ q) by assumption; rewrite ?(move_back_exact _ q) by assumption; lia
  | repeat split; cbn; try (apply qty_ok_wrap; assumption); first [apply OA|apply OR|apply OL] ].

Lemma reserve_level :
  let new := mkLevel (wrap32 (AvailableQty lv - q)) (wrap32 (ReservedQty lv + q))
                     (AllocatedQty lv) (IsLockedForAudit lv) (UpdatedAt lv) in
  check_level d new = Ok () → new = shift reserving q lv ∧ level_ok new.
Proof. level_exact. Qed.

Lemma release_level :
  let new := mkLevel (wrap32 (AvailableQty lv + q)) (wrap32 (ReservedQty lv - q))
                     (AllocatedQty lv) (IsLockedForAudit lv) (UpdatedAt lv) in
  check_level d new = Ok () → new = shift releasing q lv ∧ level_ok new.
Proof. level_exact. Qed.

Lemma confirm_level :
  let new := mkLevel (AvailableQty lv) (wrap32 (ReservedQty lv - q))
                     (wrap32 (AllocatedQty lv + q)) (IsLockedForAudit lv) (UpdatedAt lv) in
  check_level d new = Ok () → new = shift allocating q lv ∧ level_ok new.
Proof. level_exact. Qed.

Lemma fulfill_level :
  let new := mkLevel (AvailableQty lv) (ReservedQty lv)
                     (wrap32 (AllocatedQty lv - q)) (IsLockedForAudit lv) (UpdatedAt lv) in
  check_level d new = Ok () → new = shift fulfilling q lv ∧ level_ok new.
Proof. level_exact. Qed.

End Levels.
