(* ===== verification/StockRefine.v ===== *)
(** * The stock handlers implement their abstract operations

    Each loop of StockService.v, when it runs to its end, has the effect of
    StockEffects.v; each handler that answers success ran its loop (or found
    its key already recorded). *)

From S2P Require Import Prelude Database StockDb StockApi StockService StockEffects.

(** ** Specification-level definitions *)

(** The session a transaction of tenant [t] runs in. *)
Definition tenant_session (t : uuid) (now : Z) : Session := mkSession (RlsTenant (Some t)) now.

(** The database once the idempotency key of a request is recorded. *)
Definition recorded (t : uuid) (key hash : string) (now : Z) (d : StockDB) : StockDB :=
  if bool_decide (key = "") then d
  else set_idem (<[(t, key) := mkIdemRow hash now]> (idem d)) d.

Definition key_seen (t : uuid) (key : string) (d : StockDB) : bool :=
  negb (bool_decide (key = "")) && bool_decide (is_Some (stock_idem d !! (t, key))).

(** Whether a line can be held: its row exists, is not locked for audit and
    has the quantity. *)
Definition holdable (t : uuid) (levels : gmap loc StockLevel) (l : StockLine) : bool :=
  match levels !! line_loc t l with
  | Some lv => negb (IsLockedForAudit lv) && (Quantity l <=? AvailableQty lv)
  | None => false
  end.

(** The audit event and the outbox event of each kind of line. *)
Definition reserve_event (t : uuid) (order : string) (l : StockLine) : InsertStockEventParams :=
  mkEventParams t (SkuId l) (WarehouseId l) (wrap32 (- Quantity l)) "reserve" "reservation" order.
Definition release_event (t : uuid) (req : ReleaseStockRequest) (l : StockLine)
  : InsertStockEventParams :=
  mkEventParams t (SkuId l) (WarehouseId l) (Quantity l) (rel_Reason req) "reservation"
                (rel_OrderId req).
Definition confirm_event (t : uuid) (l : StockLine) : InsertStockEventParams :=
  mkEventParams t (SkuId l) (WarehouseId l) (Quantity l) "allocate" "reservation" "system".
Definition fulfill_event (t : uuid) (l : StockLine) : InsertStockEventParams :=
  mkEventParams t (SkuId l) (WarehouseId l) (Quantity l) "fulfill" "fulfillment" "system".

Definition line_outbox `{UuidText} (ctx : Ctx) (t : uuid) (event_type action order : string)
    (l : StockLine) : OutboxParams :=
  stock_outbox_event ctx t (SkuId l) event_type (marshalLineEvent action order l).

Definition adjust_event (t : uuid) (req : AdjustStockRequest) : InsertStockEventParams :=
  mkEventParams t (adj_SkuId req) (adj_WarehouseId req) (adj_QuantityDelta req) (adj_Reason req)
                (adj_Source req) "system".
Definition unlock_event (t : uuid) (req : UnlockStockForAuditRequest) : InsertStockEventParams :=
  mkEventParams t (ulk_SkuId req) (ulk_WarehouseId req) 0 (ulk_Reason req) "reconciliation"
    (if bool_decide (ulk_ActorId req = "") then "warehouse-manager" else ulk_ActorId req).

(** The row an adjustment that is not clamped leaves. *)
Definition adjusted_level (old : option StockLevel) (delta now : Z) : StockLevel :=
  match old with
  | None => mkLevel delta 0 0 false now
  | Some lv => mkLevel (AvailableQty lv + delta) (ReservedQty lv) (AllocatedQty lv)
                       (IsLockedForAudit lv) now
  end.

Definition unlocked_level (now : Z) (lv : StockLevel) : StockLevel :=
  mkLevel (AvailableQty lv) (ReservedQty lv) (AllocatedQty lv) false now.

(** ** Lemmas *)

Section Refine.
Context `{UuidText} `{StockHashes}.

Lemma visible_tenant t now : visible (tenant_session t now) t = true.
Proof. unfold visible. cbn. by apply bool_decide_eq_true. Qed.

Lemma tryIdempotency_run {M} `{PayloadHash M} t key (msg : M) now d :
  tryIdempotency t key msg (tenant_session t now) d =
  Ok (if key_seen t key d then d else recorded t key (payload_hash msg) now d, key_seen t key d).
Proof.
  unfold tryIdempotency, key_seen, recorded. case_bool_decide; [done|].
  unfold mbind, Q_bind, attempt, CheckAndInsertIdempotencyKey, idem_insert.
  rewrite visible_tenant. change (idem d) with (stock_idem d).
  destruct (stock_idem d !! (t, key)) as [row|] eqn:E.
  - by rewrite bool_decide_true by eauto.
  - by rewrite bool_decide_false by (intros [? ?]; done).
Qed.

Lemma recorded_wf t key hash now d : stock_wf d → stock_wf (recorded t key hash now d).
Proof. unfold recorded. case_bool_decide; done. Qed.

Lemma recorded_levels t key hash now d :
  stock_levels (recorded t key hash now d) = stock_levels d.
Proof. unfold recorded. case_bool_decide; done. Qed.

Lemma recorded_events t key hash now d :
  stock_events (recorded t key hash now d) = stock_events d.
Proof. unfold recorded. case_bool_decide; done. Qed.

Lemma recorded_outbox t key hash now d :
  stock_outbox (recorded t key hash now d) = stock_outbox d.
Proof. unfold recorded. case_bool_decide; done. Qed.

Lemma level_wf d k lv : stock_wf d → stock_levels d !! k = Some lv → level_ok lv.
Proof. intros [_ Hwf]. apply Hwf. Qed.

(** *** One line *)

Lemma reserve_line_ok ctx t order failed l s d d' failed' :
  reserve_line ctx t order failed l s d = Ok (d', failed') →
  stock_wf d → in_int32 (Quantity l) = true → visible s t = true →
  if holdable t (stock_levels d) l
  then failed' = failed ∧
       stock_effect reserving t (reserve_event t order)
         (line_outbox ctx t "stock.reserved" "reserve" order) [l] d d'
  else failed' = failed ++ [SkuId l] ∧ d' = d.
Proof.
  unfold reserve_line, holdable. intros Hrun Hd Hq Hvis. q_inv Hrun.
  unfold attempt, GetStockLevelForUpdate in Hq0. cbn in Hq0. rewrite Hvis in Hq0. cbn in Hq0.
  destruct (stock_levels d !! line_loc t l) as [lv|] eqn:Hlv; simplify_eq/=; [|by q_inv Hq1].
  rewrite Z.leb_antisym, <- negb_orb.
  destruct (IsLockedForAudit lv || (AvailableQty lv <? Quantity l)) eqn:Hb; cbn.
  - by q_inv Hq1.
  - eapply line_tail with (mkev := reserve_event t order); try done.
    apply reserve_level; [apply Hd|by eapply level_wf|done].
Qed.

Lemma release_line_ok ctx t req acc l s d d' acc' :
  release_line ctx t req acc l s d = Ok (d', acc') →
  stock_wf d → in_int32 (Quantity l) = true → visible s t = true →
  if bool_decide (is_Some (stock_levels d !! line_loc t l))
  then acc' = acc ++ [SkuId l] ∧
       stock_effect releasing t (release_event t req)
         (line_outbox ctx t "stock.released" "release" (rel_OrderId req)) [l] d d'
  else acc' = acc ∧ d' = d.
Proof.
  unfold release_line. intros Hrun Hd Hq Hvis. q_inv Hrun.
  unfold attempt, GetStockLevelForUpdate in Hq0. cbn in Hq0. rewrite Hvis in Hq0. cbn in Hq0.
  destruct (stock_levels d !! line_loc t l) as [lv|] eqn:Hlv; simplify_eq/=; [|by q_inv Hq1].
  eapply line_tail with (mkev := release_event t req); try done.
  apply release_level; [apply Hd|by eapply level_wf|done].
Qed.

Lemma confirm_line_ok ctx t req acc l s d d' acc' :
  confirm_line ctx t req acc l s d = Ok (d', acc') →
  stock_wf d → in_int32 (Quantity l) = true →
  acc' = acc ++ [mkStockAllocationLine (SkuId l) (WarehouseId l) (Quantity l)] ∧
  is_Some (stock_levels d !! line_loc t l) ∧
  stock_effect allocating t (confirm_event t)
    (line_outbox ctx t "stock.allocated" "allocate" (cnf_OrderId req)) [l] d d'.
Proof.
  unfold confirm_line. intros Hrun Hd Hq. apply q_bind_ok in Hrun as (d1 & lv & Hget & Hrun).
  stock_inv. eapply line_tail
    with (mkev := confirm_event t)
         (mkob := line_outbox ctx t "stock.allocated" "allocate" (cnf_OrderId req)) in Hrun as [-> Heff];
    eauto.
  apply confirm_level; [apply Hd|by eapply level_wf|done].
Qed.

Lemma fulfill_line_ok ctx t req acc l s d d' acc' :
  fulfill_line ctx t req acc l s d = Ok (d', acc') →
  stock_wf d → in_int32 (Quantity l) = true →
  is_Some (stock_levels d !! line_loc t l) ∧
  stock_effect fulfilling t (fulfill_event t)
    (line_outbox ctx t "stock.fulfilled" "fulfill" (ful_OrderId req)) [l] d d'.
Proof.
  unfold fulfill_line. intros Hrun Hd Hq. apply q_bind_ok in Hrun as (d1 & lv & Hget & Hrun).
  stock_inv. eapply line_tail
    with (mkev := fulfill_event t)
         (mkob := line_outbox ctx t "stock.fulfilled" "fulfill" (ful_OrderId req)) in Hrun as [-> Heff];
    eauto.
  apply fulfill_level; [apply Hd|by eapply level_wf|done].
Qed.

(** *** Loops *)

Lemma lines_ok_cons l lines :
  lines_ok (l :: lines) = true ↔ in_int32 (Quantity l) = true ∧ lines_ok lines = true.
Proof. unfold lines_ok. cbn. apply andb_true_iff. Qed.

(** A loop whose every iteration has the effect of its line has the effect of
    all the lines. *)
Lemma foldM_effect {B} m t mkev mkob (f : B → StockLine → Q StockDB B) s :
  (∀ acc l d d' acc', f acc l s d = Ok (d', acc') → stock_wf d → in_int32 (Quantity l) = true →
     stock_effect m t mkev mkob [l] d d') →
  ∀ lines acc d d' acc', foldM f acc lines s d = Ok (d', acc') → stock_wf d →
    lines_ok lines = true → stock_effect m t mkev mkob lines d d'.
Proof.
  intros Hf. induction lines as [|l lines IH]; intros acc d d' acc' Hrun Hd Hq.
  - cbn in Hrun. q_inv Hrun. by apply stock_effect_nil.
  - apply lines_ok_cons in Hq as [Hq Hqs]. cbn [foldM] in Hrun.
    apply q_bind_ok in Hrun as (d1 & a & Hl & Hrun).
    assert (stock_effect m t mkev mkob [l] d d1) as He by eauto.
    apply (stock_effect_trans m t mkev mkob [l] lines d d1 d' He).
    eapply IH; eauto. apply He.
Qed.

Lemma reserve_loop_grows ctx t order s lines :
  ∀ failed d d' failed', foldM (reserve_line ctx t order) failed lines s d = Ok (d', failed') →
  stock_wf d → lines_ok lines = true → visible s t = true →
  ∃ more, failed' = failed ++ more ∧
    (more = [] → stock_effect reserving t (reserve_event t order)
                   (line_outbox ctx t "stock.reserved" "reserve" order) lines d d').
Proof.
  induction lines as [|l lines IH]; intros failed d d' failed' Hrun Hd Hq Hvis.
  - cbn in Hrun. q_inv Hrun. exists []. rewrite app_nil_r. eauto using stock_effect_nil.
  - apply lines_ok_cons in Hq as [Hq Hqs]. cbn [foldM] in Hrun.
    apply q_bind_ok in Hrun as (d1 & a & Hl & Hrun).
    apply reserve_line_ok in Hl; [|done..]. destruct (holdable _ _ _); destruct Hl as [-> He].
    + apply IH in Hrun as (more & -> & Hm); [|apply He|done..].
      exists more. split; [done|]. intros Hnil.
      apply (stock_effect_trans _ _ _ _ [l] lines d d1 d' He); auto.
    + subst d1. apply IH in Hrun as (more & -> & Hm); [|done..].
      exists (SkuId l :: more). by rewrite <- app_assoc.
Qed.

Lemma release_loop_effect ctx t req s lines :
  ∀ acc d d' acc', foldM (release_line ctx t req) acc lines s d = Ok (d', acc') →
  stock_wf d → lines_ok lines = true → visible s t = true →
  acc' = acc ++ (SkuId <$> filter (λ l, is_Some (stock_levels d !! line_loc t l)) lines) ∧
  stock_effect releasing t (release_event t req)
    (line_outbox ctx t "stock.released" "release" (rel_OrderId req))
    (filter (λ l, is_Some (stock_levels d !! line_loc t l)) lines) d d'.
Proof.
  induction lines as [|l lines IH]; intros acc d d' acc' Hrun Hd Hq Hvis.
  - cbn in Hrun. q_inv Hrun. rewrite filter_nil. cbn. rewrite app_nil_r.
    split; [done|]. by apply stock_effect_nil.
  - apply lines_ok_cons in Hq as [Hq Hqs]. cbn [foldM] in Hrun.
    apply q_bind_ok in Hrun as (d1 & a & Hl & Hrun).
    apply release_line_ok in Hl; [|done..]. rewrite filter_cons.
    case_decide as Hs.
    + rewrite bool_decide_true in Hl by done. destruct Hl as [-> He].
      assert (∀ l', is_Some (stock_levels d1 !! line_loc t l') ↔
                    is_Some (stock_levels d !! line_loc t l')) as Hdom.
      { intros l'. rewrite (se_levels _ _ _ _ _ _ _ He), lookup_move_lines. apply fmap_is_Some. }
      apply IH in Hrun as [-> He']; [|apply He|done..].
      rewrite (list_filter_iff _ _ _ Hdom) in *.
      split; [by rewrite <- app_assoc|]. by eapply (stock_effect_trans _ _ _ _ [l]).
    + rewrite bool_decide_false in Hl by done. destruct Hl as [-> ->]. by apply IH.
Qed.

(** *** Handlers *)

Lemma finish_fst {R} format (out : StockDB * option R * option go_error) :
  (finish format out).1 = out.1.1.
Proof. by destruct out as [[d [r|]] [e|]]. Qed.

Lemma finish_ok {R} format (out : StockDB * option R * option go_error) d r :
  finish format out = (d, Ok r) → out = (d, Some r, None).
Proof. destruct out as [[d1 [r1|]] [e|]]; cbn; naive_solver. Qed.

(** A keyed closure: look the key up, answer [r0] when it was seen, otherwise
    run [body] on the database with the key recorded. *)
Definition keyed {M R} `{PayloadHash M} (t : uuid) (key : string) (msg : M) (r0 : R)
    (body : Q StockDB R) : Q StockDB R :=
  dup ← tryIdempotency t key msg; if (dup : bool) then mret r0 else body.

Lemma keyed_run {M R} `{PayloadHash M} t key (msg : M) (r0 : R) body now d :
  keyed t key msg r0 body (tenant_session t now) d =
  if key_seen t key d then Ok (d, r0)
  else body (tenant_session t now) (recorded t key (payload_hash msg) now d).
Proof.
  unfold keyed, mbind, Q_bind. rewrite tryIdempotency_run. by destruct (key_seen t key d).
Qed.

(** Whatever the environment does, the transaction of a keyed closure keeps
    the database, or the key is new and the body ran to its end. *)
Lemma keyed_tx {M R} `{PayloadHash M} env ctx tid t key (msg : M) (r0 : R) body d :
  uuid_scan tid = Some t →
  let out := ExecTxWithTenant env (WithTenantID ctx tid) (tx_body (keyed t key msg r0 body)) d in
  out.1.1 = d ∨
  key_seen t key d = false ∧
  ∃ r, body (tenant_session t (tx_now env)) (recorded t key (payload_hash msg) (tx_now env) d) =
       Ok (out.1.1, r).
Proof.
  intros Ht out.
  destruct (exec_tx_atomic env (WithTenantID ctx tid) (tx_body (keyed t key msg r0 body)) d)
    as [Hd|(tid' & [= <-] & Hrun)]; [by left|].
  fold out in Hrun. rewrite Ht in Hrun. unfold tx_body in Hrun.
  fold (tenant_session t (tx_now env)) in Hrun. rewrite keyed_run in Hrun.
  destruct (key_seen t key d); cbn in Hrun; simplify_eq; [by left|right; split; [done|]].
  destruct (body _ _) as [[d' r]|e]; simplify_eq/=. eauto.
Qed.

(** An acknowledged success is a replay or one run of the body. *)
Lemma keyed_success {M R} `{PayloadHash M} env ctx tid t key (msg : M) (r0 r : R) body d d' :
  uuid_scan tid = Some t →
  ExecTxWithTenant env (WithTenantID ctx tid) (tx_body (keyed t key msg r0 body)) d =
    (d', Some r, None) →
  if key_seen t key d then d' = d ∧ r = r0
  else body (tenant_session t (tx_now env)) (recorded t key (payload_hash msg) (tx_now env) d) =
       Ok (d', r).
Proof.
  intros Ht Hrun. apply exec_tx_ok in Hrun as (tid' & [= <-] & Hrun).
  rewrite Ht in Hrun. unfold tx_body in Hrun.
  fold (tenant_session t (tx_now env)) in Hrun. rewrite keyed_run in Hrun.
  destruct (key_seen t key d); simplify_eq/=; [done|].
  destruct (body _ _) as [[d1 r1]|e]; naive_solver.
Qed.

(** In a healthy environment a keyed closure does what its body does. *)
Lemma keyed_healthy {M R} `{PayloadHash M} `{!UuidTextLaws} now ctx tid t key (msg : M) (r0 : R)
    body d :
  uuid_scan tid = Some t →
  ExecTxWithTenant (healthy now) (WithTenantID ctx tid) (tx_body (keyed t key msg r0 body)) d =
  if key_seen t key d then (d, Some r0, None)
  else match body (tenant_session t now) (recorded t key (payload_hash msg) now d) with
       | Ok (d', r) => (d', Some r, None)
       | Err e => (d, None, Some e)
       end.
Proof.
  intros Ht. rewrite (exec_tx_healthy _ _ _ _ tid); [|done|].
  - rewrite Ht. unfold tx_body. fold (tenant_session t now). rewrite keyed_run.
    destruct (key_seen t key d); [done|].
    by destruct (body _ _) as [[d' r]|e].
  - intros ->. rewrite uuid_scan_empty in Ht. done.
Qed.

(** Splits on what the transaction of a keyed closure did. *)
Ltac keyed_cases Ht :=
  match goal with
  | |- context [ExecTxWithTenant ?env (WithTenantID ?ctx ?tid)
                  (tx_body (keyed ?t ?key ?msg ?r0 ?body)) ?d] =>
      let r := fresh "r" in
      destruct (keyed_tx env ctx tid t key msg r0 body d Ht) as [Hk|(Hk & r & Hrun)]
  end.

(** The closures are keyed. *)

Lemma release_keyed ctx t lines req :
  release_closure ctx t lines req =
  keyed t (rel_IdempotencyKey req) req (mkReleaseStockResponse true [])
    (released ← foldM (release_line ctx t req) [] lines;
     mret (mkReleaseStockResponse true released)).
Proof. done. Qed.

Lemma confirm_keyed ctx t lines req :
  confirm_closure ctx t lines req =
  keyed t (cnf_IdempotencyKey req) req (mkConfirmStockAllocationResponse true [])
    (out ← foldM (confirm_line ctx t req) [] lines;
     mret (mkConfirmStockAllocationResponse true out)).
Proof. done. Qed.

Lemma fulfill_keyed ctx t lines req :
  fulfill_closure ctx t lines req =
  keyed t (ful_IdempotencyKey req) req (mkFulfillStockResponse true [])
    (out ← foldM (fulfill_line ctx t req) [] lines;
     mret (mkFulfillStockResponse true out)).
Proof. done. Qed.

Lemma reserve_keyed ctx t lines req s d :
  reserve_closure ctx t lines req s d =
  match keyed t (rsv_IdempotencyKey req) req []
          (foldM (reserve_line ctx t (rsv_OrderId req)) [] lines) s d with
  | Err e => (None, Err e)
  | Ok (d', []) => (Some (mkReserveStockResponse true []), Ok d')
  | Ok (d', failed) =>
      (Some (mkReserveStockResponse false failed),
       Err (ErrNew "insufficient stock for reservation"))
  end.
Proof. done. Qed.

(** *** The database after each handler *)

(** The database a run over [lines] starts from, once its key is recorded. *)
Definition after_key {M} `{PayloadHash M} (t : uuid) (key : string) (msg : M) (env : TxEnv)
    (d : StockDB) : StockDB :=
  recorded t key (payload_hash msg) (tx_now env) d.

Lemma sorted_ok lines : lines_ok lines = true → lines_ok (sortedLines lines) = true.
Proof. apply lines_ok_Permutation. symmetry. apply sortedLines_Permutation. Qed.

Lemma ReleaseStock_cases env ctx req d :
  stock_wf d → lines_ok (rel_Lines req) = true →
  let d' := (ReleaseStock env ctx req d).1 in
  d' = d ∨ ∃ t, uuid_scan (rel_TenantId req) = Some t ∧
    key_seen t (rel_IdempotencyKey req) d = false ∧
    stock_effect releasing t (release_event t req)
      (line_outbox (WithTenantID ctx (rel_TenantId req)) t "stock.released" "release"
                   (rel_OrderId req))
      (filter (λ l, is_Some (stock_levels d !! line_loc t l)) (sortedLines (rel_Lines req)))
      (after_key t (rel_IdempotencyKey req) req env d) d'.
Proof.
  intros Hd Hq d'. subst d'. unfold ReleaseStock, ParseUUID.
  destruct (uuid_scan (rel_TenantId req)) as [t|] eqn:Ht; [|by left].
  rewrite finish_fst, release_keyed.
  keyed_cases Ht. 1: by left. right.
  exists t. split; [done|]. split; [done|].
  apply q_bind_ok in Hrun as (d1 & rel & Hrun & [= <- _]).
  apply release_loop_effect in Hrun as [_ He]; auto using recorded_wf, sorted_ok, visible_tenant.
  by rewrite recorded_levels in He.
Qed.

Lemma ConfirmStockAllocation_cases env ctx req d :
  stock_wf d → lines_ok (cnf_Lines req) = true →
  let d' := (ConfirmStockAllocation env ctx req d).1 in
  d' = d ∨ ∃ t, uuid_scan (cnf_TenantId req) = Some t ∧
    key_seen t (cnf_IdempotencyKey req) d = false ∧
    stock_effect allocating t (confirm_event t)
      (line_outbox (WithTenantID ctx (cnf_TenantId req)) t "stock.allocated" "allocate"
                   (cnf_OrderId req))
      (sortedLines (cnf_Lines req)) (after_key t (cnf_IdempotencyKey req) req env d) d'.
Proof.
  intros Hd Hq d'. subst d'. unfold ConfirmStockAllocation, ParseUUID.
  destruct (uuid_scan (cnf_TenantId req)) as [t|] eqn:Ht; [|by left].
  rewrite finish_fst, confirm_keyed.
  keyed_cases Ht. 1: by left. right.
  exists t. split; [done|]. split; [done|].
  apply q_bind_ok in Hrun as (d1 & out & Hrun & [= <- _]).
  eapply foldM_effect in Hrun; eauto using recorded_wf, sorted_ok.
  intros ? ? ? ? ? Hl ? ?. by apply confirm_line_ok in Hl as (_ & _ & He).
Qed.

Lemma FulfillStock_cases env ctx req d :
  stock_wf d → lines_ok (ful_Lines req) = true →
  let d' := (FulfillStock env ctx req d).1 in
  d' = d ∨ ∃ t, uuid_scan (ful_TenantId req) = Some t ∧
    key_seen t (ful_IdempotencyKey req) d = false ∧
    stock_effect fulfilling t (fulfill_event t)
      (line_outbox (WithTenantID ctx (ful_TenantId req)) t "stock.fulfilled" "fulfill"
                   (ful_OrderId req))
      (sortedLines (ful_Lines req)) (after_key t (ful_IdempotencyKey req) req env d) d'.
Proof.
  intros Hd Hq d'. subst d'. unfold FulfillStock, ParseUUID.
  destruct (uuid_scan (ful_TenantId req)) as [t|] eqn:Ht; [|by left].
  rewrite finish_fst, fulfill_keyed.
  keyed_cases Ht. 1: by left. right.
  exists t. split; [done|]. split; [done|].
  apply q_bind_ok in Hrun as (d1 & out & Hrun & [= <- _]).
  eapply foldM_effect in Hrun; eauto using recorded_wf, sorted_ok.
  intros ? ? ? ? ? Hl ? ?. by apply fulfill_line_ok in Hl as (_ & He).
Qed.


(** What the transaction of ReserveStock did and what it left in [resp]. *)
Lemma reserve_tx env ctx tid t lines req d :
  uuid_scan tid = Some t → stock_wf d → lines_ok lines = true →
  let ctx' := WithTenantID ctx tid in
  let '(d', resp, err) := ExecTxWithTenant env ctx' (reserve_closure ctx' t lines req) d in
  (d' = d ∨
   key_seen t (rsv_IdempotencyKey req) d = false ∧
   stock_effect reserving t (reserve_event t (rsv_OrderId req))
     (line_outbox ctx' t "stock.reserved" "reserve" (rsv_OrderId req)) lines
     (after_key t (rsv_IdempotencyKey req) req env d) d') ∧
  (∀ r, resp = Some r → rsvr_Success r = false → d' = d ∧ rsvr_FailedSkuIds r ≠ []) ∧
  (err = None → resp = Some (mkReserveStockResponse true []) ∧
     (key_seen t (rsv_IdempotencyKey req) d = true → d' = d) ∧
     (key_seen t (rsv_IdempotencyKey req) d = false →
      stock_effect reserving t (reserve_event t (rsv_OrderId req))
        (line_outbox ctx' t "stock.reserved" "reserve" (rsv_OrderId req)) lines
        (after_key t (rsv_IdempotencyKey req) req env d) d')).
Proof.
  intros Ht Hd Hq ctx'.
  destruct (exec_tx_scope env ctx' (reserve_closure ctx' t lines req) d)
    as [[e ->]|(tid' & [= <-] & ->)]; [by naive_solver|].
  rewrite Ht. unfold tx_run. fold (tenant_session t (tx_now env)).
  destruct (tx_conn_err env); [by naive_solver|].
  rewrite reserve_keyed, keyed_run.
  destruct (key_seen t (rsv_IdempotencyKey req) d) eqn:Hk.
  { destruct (tx_commit env); naive_solver. }
  destruct (foldM _ _ _ _ _) as [[d1 failed]|e] eqn:Hrun; [|by naive_solver].
  apply reserve_loop_grows in Hrun as (more & -> & Hmore); auto using recorded_wf, visible_tenant.
  cbn [app]. destruct more as [|f more]; [|by naive_solver].
  specialize (Hmore eq_refl). destruct (tx_commit env); naive_solver.
Qed.

Lemma ReserveStock_cases env ctx req d :
  stock_wf d → lines_ok (rsv_Lines req) = true →
  let d' := (ReserveStock env ctx req d).1 in
  d' = d ∨ ∃ t, uuid_scan (rsv_TenantId req) = Some t ∧
    key_seen t (rsv_IdempotencyKey req) d = false ∧
    stock_effect reserving t (reserve_event t (rsv_OrderId req))
      (line_outbox (WithTenantID ctx (rsv_TenantId req)) t "stock.reserved" "reserve"
                   (rsv_OrderId req))
      (sortedLines (rsv_Lines req)) (after_key t (rsv_IdempotencyKey req) req env d) d'.
Proof.
  intros Hd Hq d'. subst d'. unfold ReserveStock, ParseUUID.
  destruct (uuid_scan (rsv_TenantId req)) as [t|] eqn:Ht; [|by left].
  destruct (sortedLines (rsv_Lines req)) as [|l ls] eqn:Hls; [by left|]. rewrite <- Hls.
  pose proof (reserve_tx env ctx _ t (sortedLines (rsv_Lines req)) req d Ht Hd
                (sorted_ok _ Hq)) as Htx. cbn zeta in Htx.
  destruct (ExecTxWithTenant _ _ _ _) as [[d' r] e].
  assert ((match r, e with
           | Some resp, Some e0 => if negb (rsvr_Success resp) then (d', Ok resp)
                                   else (d', Err (ErrStatusf Internal "reserve stock: %v" e0))
           | _, _ => finish "reserve stock: %v" (d', r, e)
           end).1 = d') as Hfst by (destruct r as [r|], e; cbn; try done; by destruct r as [[] ?]).
  destruct r as [r|], e; cbn in *; rewrite ?Hfst; naive_solver.
Qed.

(** An answer of ReserveStock, taken apart. *)
Lemma ReserveStock_answer env ctx req d d' resp t :
  ReserveStock env ctx req d = (d', Ok resp) → stock_wf d → lines_ok (rsv_Lines req) = true →
  uuid_scan (rsv_TenantId req) = Some t →
  if rsvr_Success resp then
    if key_seen t (rsv_IdempotencyKey req) d then d' = d
    else stock_effect reserving t (reserve_event t (rsv_OrderId req))
           (line_outbox (WithTenantID ctx (rsv_TenantId req)) t "stock.reserved" "reserve"
                        (rsv_OrderId req))
           (sortedLines (rsv_Lines req)) (after_key t (rsv_IdempotencyKey req) req env d) d'
  else d' = d ∧ rsvr_FailedSkuIds resp ≠ [].
Proof.
  intros Hrun Hd Hq Ht. unfold ReserveStock, ParseUUID in Hrun. rewrite Ht in Hrun.
  destruct (sortedLines (rsv_Lines req)) as [|l ls] eqn:Hls; [done|]. rewrite <- Hls in *.
  pose proof (reserve_tx env ctx _ t (sortedLines (rsv_Lines req)) req d Ht Hd
                (sorted_ok _ Hq)) as Htx. cbn zeta in Htx.
  destruct (ExecTxWithTenant _ _ _ _) as [[d1 [r|]] [e|]]; cbn in Hrun; simplify_eq.
  - destruct (rsvr_Success r) eqn:Hr; cbn in Hrun; simplify_eq. rewrite Hr. naive_solver.
  - destruct Htx as (_ & _ & Htx). destruct (Htx eq_refl) as ([= ->] & H1 & H2). cbn.
    destruct (key_seen _ _ _); auto.
Qed.


(** *** AdjustStock *)

(** In a database with the CHECK constraints the upsert only accepts a
    non-negative delta. *)
Lemma UpsertStockLevel_ok k delta s d d' r :
  UpsertStockLevel k delta s d = Ok (d', r) → stock_wf d → in_int32 delta = true →
  let new := adjusted_level (stock_levels d !! k) delta (s_now s) in
  0 <= delta ∧ level_ok new ∧ d' = set_levels (<[k := new]> (stock_levels d)) d ∧
  visible s k.1.1 = true.
Proof.
  unfold UpsertStockLevel, adjusted_level. intros Hrun [Hc Hwf] Hd.
  destruct (visible s k.1.1); [cbn in Hrun|done].
  destruct (check_level d _) as [[]|] eqn:Hck in Hrun; [|done].
  pose proof (check_level_ok _ _ Hck Hc) as (HA & _); cbn in HA.
  assert (qty_ok delta) by (unfold in_int32 in Hd; unfold qty_ok; bprop; lia).
  destruct (stock_levels d !! k) as [old|] eqn:Hk; simplify_eq/=.
  - destruct (in_int32 _) eqn:Hr; [cbn in Hrun|done].
    destruct (check_level d _) as [[]|] eqn:Hck' in Hrun; simplify_eq/=.
    destruct (Hwf _ _ Hk) as (OA & OR & OL).
    repeat split; auto; cbn; try apply OA; try apply OR; try apply OL.
    + unfold qty_ok in *. lia.
    + unfold in_int32 in Hr. unfold qty_ok in *. bprop. lia.
  - repeat split; auto; cbn; unfold qty_ok in *; lia.
Qed.

Definition adjust_outbox (ctx : Ctx) (t : uuid) (req : AdjustStockRequest) (available : Z)
  : OutboxParams :=
  stock_outbox_event ctx t (adj_SkuId req) "stock.adjusted" (marshalAdjustEvent req available).

Definition adjust_loc (t : uuid) (req : AdjustStockRequest) : loc :=
  (t, adj_SkuId req, adj_WarehouseId req).

Record adjust_effect (ctx : Ctx) (t : uuid) (req : AdjustStockRequest) (now : Z)
    (d d' : StockDB) : Prop := {
  ae_delta : 0 <= adj_QuantityDelta req;
  ae_levels : let new := adjusted_level (stock_levels d !! adjust_loc t req)
                           (adj_QuantityDelta req) now in
              stock_levels d' = <[adjust_loc t req := new]> (stock_levels d) ∧
              ob <$> stock_outbox d' =
                (ob <$> stock_outbox d) ++ [adjust_outbox ctx t req (AvailableQty new)];
  ae_events : ev <$> stock_events d' = (ev <$> stock_events d) ++ [adjust_event t req];
  ae_idem : stock_idem d' = stock_idem d;
  ae_wf : stock_wf d';
}.

Lemma adjust_apply_ok ctx t req s d d' resp :
  adjust_apply ctx t req s d = Ok (d', resp) → stock_wf d →
  in_int32 (adj_QuantityDelta req) = true →
  adjust_effect ctx t req (s_now s) d d'.
Proof.
  unfold adjust_apply. intros Hrun Hd Hq. apply q_bind_ok in Hrun as (d1 & r1 & Hup & Hrun).
  apply UpsertStockLevel_ok in Hup as (Hpos & Hok & -> & Hvis); [|done..].
  fold (adjust_loc t req) in *.
  set (new := adjusted_level _ _ _) in *.
  apply q_bind_ok in Hrun as (d1 & lv & Hget & Hrun).
  apply GetStockLevelForUpdate_ok in Hget as (-> & Hget & _). cbn in Hget.
  rewrite lookup_insert_eq in Hget. injection Hget as <-.
  assert ((AvailableQty new <? 0) = false) as Hcl by (apply Z.ltb_ge, Hok).
  rewrite Hcl in Hrun. q_inv Hrun. stock_inv. cbn in *.
  assert (mkLevel (AvailableQty new) (ReservedQty new) (AllocatedQty new) (IsLockedForAudit new)
            (UpdatedAt new) = new) as Hnew by (by destruct new).
  rewrite Hnew, insert_insert_eq. split; cbn; [done| | |done|].
  - split; [done|]. by rewrite fmap_app.
  - by rewrite fmap_app.
  - split; [apply Hd|]. cbn. apply map_Forall_insert_2; [done|apply Hd].
Qed.

Lemma adjust_tx env ctx tid t req d :
  uuid_scan tid = Some t → stock_wf d → in_int32 (adj_QuantityDelta req) = true →
  let ctx' := WithTenantID ctx tid in
  let d' := (ExecTxWithTenant env ctx' (tx_body (adjust_closure ctx' t req)) d).1.1 in
  d' = d ∨ key_seen t (adj_IdempotencyKey req) d = false ∧
    adjust_effect ctx' t req (tx_now env) (after_key t (adj_IdempotencyKey req) req env d) d'.
Proof.
  intros Ht Hd Hq ctx' d'.
  destruct (exec_tx_atomic env ctx' (tx_body (adjust_closure ctx' t req)) d)
    as [He|(tid' & [= <-] & Hrun)]; [by left|].
  fold d' in Hrun. rewrite Ht in Hrun. unfold tx_body, adjust_closure, mbind, Q_bind in Hrun.
  fold (tenant_session t (tx_now env)) in Hrun. rewrite tryIdempotency_run in Hrun.
  destruct (key_seen _ _ _); cbn -[adjust_apply] in Hrun.
  - left. destruct (GetStockLevelForUpdate _ _ _) as [[d1 lv]|e] eqn:Hget; simplify_eq/=.
    by stock_inv.
  - right. split; [done|].
    destruct (adjust_apply _ _ _ _ _) as [[d1 r]|e] eqn:Happ; simplify_eq/=.
    apply adjust_apply_ok in Happ; auto using recorded_wf.
Qed.

Lemma AdjustStock_cases env ctx req d :
  stock_wf d → in_int32 (adj_QuantityDelta req) = true →
  let d' := (AdjustStock env ctx req d).1 in
  d' = d ∨ ∃ t, uuid_scan (adj_TenantId req) = Some t ∧
    key_seen t (adj_IdempotencyKey req) d = false ∧
    adjust_effect (WithTenantID ctx (adj_TenantId req)) t req (tx_now env)
      (after_key t (adj_IdempotencyKey req) req env d) d'.
Proof.
  intros Hd Hq d'. subst d'. unfold AdjustStock, ParseUUID.
  destruct (uuid_scan (adj_TenantId req)) as [t|] eqn:Ht; [|by left].
  rewrite finish_fst. destruct (adjust_tx env ctx _ t req d Ht Hd Hq) as [Hk|[Hk He]]; eauto.
Qed.

(** *** UnlockStockForAudit *)

Record unlock_effect (t : uuid) (req : UnlockStockForAuditRequest) (now : Z)
    (d d' : StockDB) : Prop := {
  ue_levels : stock_levels d' =
    alter (unlocked_level now) (t, ulk_SkuId req, ulk_WarehouseId req) (stock_levels d);
  ue_events : ev <$> stock_events d' = (ev <$> stock_events d) ++ [unlock_event t req];
  ue_outbox : stock_outbox d' = stock_outbox d;
  ue_idem : stock_idem d' = stock_idem d;
  ue_wf : stock_wf d';
}.

Lemma unlock_wf now k d d' :
  stock_wf d → stock_checks d' = stock_checks d →
  stock_levels d' = alter (unlocked_level now) k (stock_levels d) → stock_wf d'.
Proof.
  intros [Hc Hwf] Hc' Hl. split; [congruence|]. rewrite Hl.
  intros k' lv. rewrite lookup_alter. case_decide as Hk; [subst|apply Hwf].
  destruct (stock_levels d !! k') as [lv0|] eqn:Hlv0; intros [= <-]. apply (Hwf _ _ Hlv0).
Qed.

Lemma UnlockStockForAudit_cases env ctx req d :
  stock_wf d →
  let d' := (UnlockStockForAudit env ctx req d).1 in
  d' = d ∨ ∃ t, uuid_scan (ulk_TenantId req) = Some t ∧ unlock_effect t req (tx_now env) d d'.
Proof.
  intros Hd d'. subst d'. unfold UnlockStockForAudit, ParseUUID.
  destruct (uuid_scan (ulk_TenantId req)) as [t|] eqn:Ht; [|by left].
  rewrite finish_fst.
  destruct (exec_tx_atomic env (WithTenantID ctx (ulk_TenantId req))
              (tx_body (unlock_closure t req)) d) as [He|(tid' & [= <-] & Hrun)]; [by left|].
  rewrite Ht in Hrun. revert Hrun. generalize ((ExecTxWithTenant env
    (WithTenantID ctx (ulk_TenantId req)) (tx_body (unlock_closure t req)) d).1.1).
  intros d' Hrun. unfold tx_body in Hrun. fold (tenant_session t (tx_now env)) in Hrun.
  destruct (unlock_closure _ _ _ _) as [[d1 r]|e] eqn:Hu in Hrun; simplify_eq/=.
  unfold unlock_closure in Hu.
  apply q_bind_ok in Hu as (d2 & r2 & Hget & Hu).
  unfold attempt in Hget.
  destruct (GetStockLevelForUpdate _ _ _) as [[d3 lv]|e] eqn:Hg; simplify_eq/=.
  - right. exists t. split; [done|]. stock_inv. q_inv Hu. stock_inv.
    unfold SetAuditLock in *. rewrite visible_tenant in *. simplify_eq/=.
    split; cbn; [done|by rewrite fmap_app|done|done|]. by eapply unlock_wf.
  - left. unfold GetStockLevelForUpdate in Hg. repeat case_match; simplify_eq; by q_inv Hu.
Qed.

End Refine.
