(* ===== verification/Reconcile.v ===== *)
(** * The reconciliation worker (internal/stockservice/reconcile.go)

    [deriveBuckets] over the sums of SumDeltasByReason, the pass that compares
    them with [stock_levels] and locks the rows that differ.  The worker runs
    outside a transaction: every query sees the database as it is by then, so
    the pass takes what other transactions do between its two reads of a
    location as an argument, and keeps the locks it has set when a later query
    fails. *)

From S2P Require Import Prelude Database StockDb.

(** ** Derivation of the buckets *)

Record reasonSum := mkReasonSum { rs_Reason : string; rs_TotalDelta : Z }.

(** One round of the loop of deriveBuckets on (avail, reserved, allocated), in
    int64 arithmetic. *)
Definition derive_step (acc : Z * Z * Z) (r : reasonSum) : Z * Z * Z :=
  let '(avail, reserved, allocated) := acc in
  let delta := rs_TotalDelta r in
  if bool_decide (rs_Reason r = "allocate") then
    (avail, wrap64 (reserved - delta), wrap64 (allocated + delta))
  else if bool_decide (rs_Reason r = "fulfill") then
    (avail, reserved, wrap64 (allocated - delta))
  else if bool_decide (rs_Reason r = "reserve") || bool_decide (rs_Reason r = "release") then
    (wrap64 (avail + delta), wrap64 (reserved - delta), allocated)
  else (wrap64 (avail + delta), reserved, allocated).

Definition deriveBuckets (reasons : list reasonSum) : Z * Z * Z :=
  foldl derive_step (0, 0, 0) reasons.

(** ** The pass *)

Record Drift := mkDrift {
  dr_loc : loc;
  ExpectedAvailable : Z;
  ActualAvailable : Z;
  ExpectedReserved : Z;
  ActualReserved : Z;
  ExpectedAllocated : Z;
  ActualAllocated : Z;
}.

Definition drifted (d : Drift) : bool :=
  negb (ExpectedAvailable d =? ActualAvailable d) ||
  negb (ExpectedReserved d =? ActualReserved d) ||
  negb (ExpectedAllocated d =? ActualAllocated d).

(** The drift record of a location: the derived buckets, cut to int32, beside
    the columns. *)
Definition mk_drift (k : loc) (sums : list (string * Z)) (lv : StockLevel) : Drift :=
  let '(avail, reserved, allocated) :=
    deriveBuckets ((λ r, mkReasonSum r.1 r.2) <$> sums) in
  {| dr_loc := k;
     ExpectedAvailable := wrap32 avail; ActualAvailable := AvailableQty lv;
     ExpectedReserved := wrap32 reserved; ActualReserved := ReservedQty lv;
     ExpectedAllocated := wrap32 allocated; ActualAllocated := AllocatedQty lv |}.

Definition sweeper_session (now : Z) : Session := mkSession RlsBypass now.

(** The body of the loop for one location; [interfere] is what commits between
    the read of the row and the read of its events. *)
Definition reconcile_location (interfere : StockDB → StockDB) (now : Z) (k : loc) (d : StockDB)
  : StockDB * res (option Drift) :=
  match GetStockLevelAny k (sweeper_session now) d with
  | Err _ => (d, Ok None)
  | Ok (_, lv) =>
      let d := interfere d in
      match SumDeltasByReason k (sweeper_session now) d with
      | Err e => (d, Err e)
      | Ok (_, sums) =>
          let drift := mk_drift k sums lv in
          if drifted drift then
            match SetAuditLock k true (sweeper_session now) d with
            | Err e => (d, Err e)
            | Ok (d', _) => (d', Ok (Some drift))
            end
          else (d, Ok None)
      end
  end.

Fixpoint reconcile_locations (interfere : StockDB → StockDB) (now : Z) (locs : list loc)
    (drifts : list Drift) (d : StockDB) : StockDB * res (list Drift) :=
  match locs with
  | [] => (d, Ok drifts)
  | k :: locs' =>
      match reconcile_location interfere now k d with
      | (d', Err e) => (d', Err e)
      | (d', Ok None) => reconcile_locations interfere now locs' drifts d'
      | (d', Ok (Some x)) => reconcile_locations interfere now locs' (drifts ++ [x]) d'
      end
  end.

Definition Reconcile_with (interfere : StockDB → StockDB) (now : Z) (d : StockDB)
  : StockDB * res (list Drift) :=
  match ListDistinctEventLocations (sweeper_session now) d with
  | Err e => (d, Err e)
  | Ok (_, locs) => reconcile_locations interfere now locs [] d
  end.

(** A pass while nothing else commits. *)
Definition Reconcile (now : Z) (d : StockDB) : StockDB * res (list Drift) :=
  Reconcile_with (λ d, d) now d.

(** ** The derivation event by event *)

(** What one unit of an event adds to (available, reserved, allocated): the
    table in the header of reconcile.go. *)
Definition reason_effect (reason : string) : Z * Z * Z :=
  if bool_decide (reason = "allocate") then (0, -1, 1)
  else if bool_decide (reason = "fulfill") then (0, 0, -1)
  else if bool_decide (reason = "reserve") || bool_decide (reason = "release") then (1, -1, 0)
  else (1, 0, 0).

Definition add3 (x y : Z * Z * Z) : Z * Z * Z :=
  (x.1.1 + y.1.1, x.1.2 + y.1.2, x.2 + y.2).

Definition scale3 (x : Z * Z * Z) (q : Z) : Z * Z * Z := (x.1.1 * q, x.1.2 * q, x.2 * q).

Definition event_buckets (p : InsertStockEventParams) : Z * Z * Z :=
  scale3 (reason_effect (ev_Reason p)) (ev_Delta p).

Definition params_loc (p : InsertStockEventParams) : loc :=
  (ev_TenantID p, ev_SkuID p, ev_WarehouseID p).

(** The buckets the audit log gives location [k]. *)
Fixpoint ledger (k : loc) (log : list InsertStockEventParams) : Z * Z * Z :=
  match log with
  | [] => (0, 0, 0)
  | p :: log' =>
      if bool_decide (params_loc p = k) then add3 (event_buckets p) (ledger k log')
      else ledger k log'
  end.

Definition wrap3 (x : Z * Z * Z) : Z * Z * Z := (wrap32 x.1.1, wrap32 x.1.2, wrap32 x.2).

Definition level_buckets (lv : StockLevel) : Z * Z * Z :=
  (AvailableQty lv, ReservedQty lv, AllocatedQty lv).

(** ** Lemmas *)

Lemma add3_assoc x y z : add3 x (add3 y z) = add3 (add3 x y) z.
Proof. unfold add3. cbn. f_equal; [f_equal|]; lia. Qed.

Lemma add3_comm x y : add3 x y = add3 y x.
Proof. unfold add3. f_equal; [f_equal|]; lia. Qed.

Lemma add3_0_l x : add3 (0, 0, 0) x = x.
Proof. destruct x as [[a b] c]. reflexivity. Qed.

Lemma add3_0_r x : add3 x (0, 0, 0) = x.
Proof. by rewrite add3_comm, add3_0_l. Qed.

Lemma ledger_app k l1 l2 : ledger k (l1 ++ l2) = add3 (ledger k l1) (ledger k l2).
Proof.
  induction l1 as [|p l1 IH]; cbn [ledger app]; [by rewrite add3_0_l|].
  case_bool_decide; rewrite IH; [by rewrite add3_assoc|done].
Qed.

Definition sum3 {A} (f : A → Z * Z * Z) (l : list A) : Z * Z * Z :=
  (zsum (λ x, (f x).1.1) l, zsum (λ x, (f x).1.2) l, zsum (λ x, (f x).2) l).

Lemma sum3_cons {A} (f : A → Z * Z * Z) x l : sum3 f (x :: l) = add3 (f x) (sum3 f l).
Proof. done. Qed.

(** The ledger of a location is the sum over its events. *)
Lemma ledger_sum (k : loc) (es : list StockEvent) :
  ledger k (ev <$> es) = sum3 (event_buckets ∘ ev) (filter (λ e, ev_loc e = k) es).
Proof.
  induction es as [|e es IH]; [done|]. rewrite fmap_cons, filter_cons. cbn [ledger].
  unfold params_loc. fold (ev_loc e). case_bool_decide; case_decide; try done.
  by rewrite IH, sum3_cons.
Qed.

(** Two triples that agree modulo 2^64. *)
Definition cong64 (x y : Z * Z * Z) : Prop :=
  wrap64 x.1.1 = wrap64 y.1.1 ∧ wrap64 x.1.2 = wrap64 y.1.2 ∧ wrap64 x.2 = wrap64 y.2.

Lemma wrap64_add_cong a b c : wrap64 a = wrap64 b → wrap64 (a + c) = wrap64 (b + c).
Proof. intros Heq. rewrite <- (wrap64_add_l a), <- (wrap64_add_l b). by rewrite Heq. Qed.

Lemma wrap64_idem a : wrap64 (wrap64 a) = wrap64 a.
Proof. pose proof (wrap64_add_l a 0) as Hw. by rewrite !Z.add_0_r in Hw. Qed.

Definition sum_buckets (r : reasonSum) : Z * Z * Z :=
  scale3 (reason_effect (rs_Reason r)) (rs_TotalDelta r).

Lemma derive_step_cong x y r : cong64 x y → cong64 (derive_step x r) (add3 y (sum_buckets r)).
Proof.
  destruct x as [[a b] c], y as [[a' b'] c']. intros (Ha & Hb & Hc).
  unfold cong64, derive_step, sum_buckets, reason_effect, scale3, add3.
  cbn [fst snd] in *. rewrite <- !Z.add_opp_r.
  repeat match goal with |- context [bool_decide ?P] => destruct (bool_decide P) end;
    cbn [fst snd orb]; rewrite ?wrap64_idem, ?Z.add_0_r;
    repeat split; rewrite ?Z.mul_0_l, ?Z.mul_1_l, ?Z.add_0_r;
    replace (-1 * rs_TotalDelta r) with (- rs_TotalDelta r) by lia;
    auto using wrap64_add_cong.
Qed.

Lemma deriveBuckets_cong reasons :
  cong64 (deriveBuckets reasons) (sum3 sum_buckets reasons).
Proof.
  unfold deriveBuckets.
  assert (∀ x y, cong64 x y →
            cong64 (foldl derive_step x reasons) (add3 y (sum3 sum_buckets reasons))) as Hind.
  { induction reasons as [|r reasons IH]; intros x y Hxy.
    - change (sum3 sum_buckets []) with (0, 0, 0). by rewrite add3_0_r.
    - rewrite sum3_cons, add3_assoc. cbn [foldl]. apply IH. by apply derive_step_cong. }
  rewrite <- (add3_0_l (sum3 _ _)). by apply Hind.
Qed.

Lemma cong64_wrap3 x y : cong64 x y → wrap3 x = wrap3 y.
Proof.
  unfold cong64, wrap3. intros (H1 & H2 & H3).
  by rewrite <- (wrap32_wrap64 x.1.1), <- (wrap32_wrap64 x.1.2), <- (wrap32_wrap64 x.2),
    H1, H2, H3, !wrap32_wrap64.
Qed.

(** Adding up the totals per reason adds up the events. *)
Lemma sum3_by_reason (es : list StockEvent) :
  sum3 sum_buckets ((λ r, mkReasonSum r (reason_total es r)) <$> remove_dups (ev_Reason ∘ ev <$> es))
  = sum3 (event_buckets ∘ ev) es.
Proof.
  assert (∀ c : string → Z,
    zsum (λ r, c (rs_Reason r) * rs_TotalDelta r)
      ((λ r, mkReasonSum r (reason_total es r)) <$> remove_dups (ev_Reason ∘ ev <$> es)) =
    zsum (λ e, c (ev_Reason (ev e)) * ev_Delta (ev e)) es) as Hc.
  { intros c. rewrite zsum_fmap. cbn. unfold reason_total.
    apply (zsum_group (ev_Reason ∘ ev) (ev_Delta ∘ ev) c).
    - apply NoDup_remove_dups.
    - intros e He. apply elem_of_remove_dups. by apply list_elem_of_fmap_2. }
  unfold sum3, sum_buckets, event_buckets, scale3. cbn [fst snd compose].
  f_equal; [f_equal|].
  - apply (Hc (λ r, (reason_effect r).1.1)).
  - apply (Hc (λ r, (reason_effect r).1.2)).
  - apply (Hc (λ r, (reason_effect r).2)).
Qed.

Lemma visible_events_bypass (now : Z) d : visible_events (sweeper_session now) d = stock_events d.
Proof.
  unfold visible_events. induction (stock_events d) as [|e es IH]; [done|].
  rewrite filter_cons_True by done. by rewrite IH.
Qed.

(** The sums of a location, derived and cut to int32, are its ledger modulo
    2^32, whatever the intermediate sums were. *)
Lemma derive_ledger k now d d' sums :
  SumDeltasByReason k (sweeper_session now) d = Ok (d', sums) →
  wrap3 (deriveBuckets ((λ r, mkReasonSum r.1 r.2) <$> sums)) =
  wrap3 (ledger k (ev <$> stock_events d)).
Proof.
  unfold SumDeltasByReason. intros Hs. case_match; [|done]. injection Hs as _ <-.
  rewrite visible_events_bypass, <- list_fmap_compose.
  rewrite ledger_sum, <- sum3_by_reason. apply cong64_wrap3, deriveBuckets_cong.
Qed.

(** ** What a pass does *)

(** The location has a row and its columns are not what the audit log gives. *)
Definition drift_at (d : StockDB) (k : loc) : bool :=
  match stock_levels d !! k with
  | Some lv => negb (bool_decide (wrap3 (ledger k (ev <$> stock_events d)) = level_buckets lv))
  | None => false
  end.

Definition audit_locked (now : Z) (lv : StockLevel) : StockLevel :=
  mkLevel (AvailableQty lv) (ReservedQty lv) (AllocatedQty lv) true now.

Lemma drifted_spec k now d d' sums lv :
  SumDeltasByReason k (sweeper_session now) d = Ok (d', sums) →
  drifted (mk_drift k sums lv) =
  negb (bool_decide (wrap3 (ledger k (ev <$> stock_events d)) = level_buckets lv)).
Proof.
  intros <-%derive_ledger. unfold mk_drift, drifted, wrap3, level_buckets.
  destruct (deriveBuckets _) as [[a r] l]. cbn [fst snd ExpectedAvailable ActualAvailable
    ExpectedReserved ActualReserved ExpectedAllocated ActualAllocated].
  rewrite <- !negb_andb. f_equal. symmetry.
  repeat case Z.eqb_spec; intros.
  all: try (apply bool_decide_true; congruence).
  all: apply bool_decide_false; congruence.
Qed.

Lemma mk_drift_loc k sums lv : dr_loc (mk_drift k sums lv) = k.
Proof. unfold mk_drift. by destruct (deriveBuckets _) as [[a r] l]. Qed.

Definition lock_row (now : Z) (k : loc) (d : StockDB) : StockDB :=
  set_levels (alter (audit_locked now) k (stock_levels d)) d.

(** One location, when its sums fit a BIGINT. *)
Lemma reconcile_location_spec now k d sums :
  SumDeltasByReason k (sweeper_session now) d = Ok (d, sums) →
  if drift_at d k
  then ∃ x, dr_loc x = k ∧ reconcile_location (λ d, d) now k d = (lock_row now k d, Ok (Some x))
  else reconcile_location (λ d, d) now k d = (d, Ok None).
Proof.
  intros Hs. unfold drift_at, reconcile_location, GetStockLevelAny.
  destruct (stock_levels d !! k) as [lv|] eqn:Hlv; [|done]. cbn [visible sweeper_session s_rls negb].
  rewrite Hs, (drifted_spec _ _ _ _ _ _ Hs). case_bool_decide; cbn [negb]; [done|].
  eexists. split; [|done]. apply mk_drift_loc.
Qed.

(** Every sum fits when the deltas are int32 and there are fewer than 2^32 of
    them. *)
Definition events_fit (d : StockDB) : bool :=
  forallb (λ e, in_int32 (ev_Delta (ev e))) (stock_events d) &&
  (Z.of_nat (length (stock_events d)) <? 4294967296).

Lemma zsum_bound (es : list StockEvent) :
  forallb (λ e, in_int32 (ev_Delta (ev e))) es = true →
  - 2147483648 * Z.of_nat (length es) <= zsum (λ e, ev_Delta (ev e)) es
    <= 2147483648 * Z.of_nat (length es).
Proof.
  induction es as [|e es IH]; [done|]. cbn [forallb zsum length]. intros Hf.
  bprop. unfold in_int32 in *. bprop. specialize (IH ltac:(done)). lia.
Qed.

Lemma SumDeltasByReason_total k now d :
  events_fit d = true → ∃ sums, SumDeltasByReason k (sweeper_session now) d = Ok (d, sums).
Proof.
  unfold events_fit, SumDeltasByReason. intros Hf. bprop. rewrite visible_events_bypass.
  rewrite (proj2 (forallb_forall _ _)); [eauto|].
  intros row Hrow%list_elem_of_In. apply list_elem_of_fmap in Hrow as (r & -> & _).
  unfold reason_total. cbn [snd].
  set (es := filter _ (filter _ (stock_events d))).
  assert (length es ≤ length (stock_events d))%nat as Hlen.
  { unfold es. etrans; apply length_filter. }
  assert (forallb (λ e, in_int32 (ev_Delta (ev e))) es = true) as Hes
    by (unfold es; auto using forallb_filter).
  apply zsum_bound in Hes. unfold in_int64. apply andb_true_intro.
  split; [apply Z.leb_le|apply Z.ltb_lt]; lia.
Qed.

(** Locking a row changes neither the log nor any bucket. *)
Lemma lock_row_drift now k d k' : k ≠ k' → drift_at (lock_row now k d) k' = drift_at d k'.
Proof. intros Hne. unfold drift_at. cbn. by rewrite lookup_alter_ne. Qed.

Lemma reconcile_locations_spec now (locs : list loc) :
  ∀ d drifts, events_fit d = true → NoDup locs →
  ∃ d' found, reconcile_locations (λ d, d) now locs drifts d = (d', Ok (drifts ++ found)) ∧
    dr_loc <$> found = filter (λ k, drift_at d k = true) locs ∧
    stock_events d' = stock_events d ∧
    (∀ k, stock_levels d' !! k =
       (if bool_decide (k ∈ locs) && drift_at d k then audit_locked now else id)
         <$> stock_levels d !! k).
Proof.
  induction locs as [|k locs IH]; intros d drifts Hfit Hnd.
  { exists d, []. rewrite app_nil_r. repeat split; try done. intros k. by rewrite option_fmap_id. }
  apply NoDup_cons in Hnd as [Hk Hnd]. cbn [reconcile_locations].
  destruct (SumDeltasByReason_total k now d Hfit) as [sums Hs].
  pose proof (reconcile_location_spec now k d sums Hs) as Hloc.
  rewrite filter_cons.
  destruct (drift_at d k) eqn:Hdr.
  - destruct Hloc as (x & Hx & ->). rewrite decide_True by done.
    destruct (IH (lock_row now k d) (drifts ++ [x])) as (d' & found & -> & Hf & He & Hl); [done..|].
    exists d', (x :: found). rewrite <- app_assoc. split; [done|]. split; [|split; [done|]].
    + rewrite fmap_cons, Hf, Hx. f_equal. apply filter_ext. intros k' Hk'.
      rewrite lock_row_drift; [done|congruence].
    + intros k'. rewrite Hl. destruct (decide (k = k')) as [<-|Hne].
      * rewrite (bool_decide_false (k ∈ locs)), bool_decide_true, Hdr by (done || set_solver).
        cbn. rewrite lookup_alter_eq. by destruct (stock_levels d !! k).
      * rewrite lock_row_drift by done. cbn -[elem_of]. rewrite lookup_alter_ne by done.
        rewrite (bool_decide_ext (k' ∈ k :: locs) (k' ∈ locs)); [done|set_solver].
  - rewrite Hloc, decide_False by done.
    destruct (IH d drifts) as (d' & found & -> & Hf & He & Hl); [done..|].
    exists d', found. repeat split; try done. intros k'. rewrite Hl.
    destruct (decide (k = k')) as [<-|Hne]; [by rewrite Hdr, !andb_false_r|].
    rewrite (bool_decide_ext (k' ∈ k :: locs) (k' ∈ locs)); [done|set_solver].
Qed.

(** ** Theorems *)

(** C20. A pass of the worker over a log of fewer than 2^32 int32 deltas runs to
    its end, reports exactly the locations whose row differs from the buckets
    its events add up to (modulo 2^32, whatever order the events came in and
    however the int64 sums wrapped), locks exactly those rows, and changes no
    quantity and no event. *)
Theorem reconcile_locks_exactly_drift (now : Z) (d : StockDB) :
  events_fit d = true →
  ∃ d' drifts, Reconcile now d = (d', Ok drifts) ∧
    (∀ k, k ∈ dr_loc <$> drifts ↔ k ∈ ev_loc <$> stock_events d ∧ drift_at d k = true) ∧
    NoDup (dr_loc <$> drifts) ∧
    (∀ k, stock_levels d' !! k =
       (if bool_decide (k ∈ dr_loc <$> drifts) then audit_locked now else id)
         <$> stock_levels d !! k) ∧
    stock_events d' = stock_events d.
Proof.
  intros Hfit. unfold Reconcile, Reconcile_with, ListDistinctEventLocations.
  rewrite visible_events_bypass.
  destruct (reconcile_locations_spec now (remove_dups (ev_loc <$> stock_events d)) d [] Hfit)
    as (d' & drifts & -> & Hf & He & Hl); [apply NoDup_remove_dups|].
  assert (∀ k, k ∈ dr_loc <$> drifts ↔ k ∈ ev_loc <$> stock_events d ∧ drift_at d k = true) as Hin.
  { intros k. rewrite Hf, list_elem_of_filter, elem_of_remove_dups. tauto. }
  exists d', drifts. split; [done|]. split; [done|]. split.
  { rewrite Hf. apply NoDup_filter, NoDup_remove_dups. }
  split; [|done]. intros k. rewrite Hl. f_equal.
  rewrite (bool_decide_ext _ _ (Hin k)), (bool_decide_ext _ _ (elem_of_remove_dups _ k)).
  rewrite bool_decide_and. by destruct (drift_at d k).
Qed.
