(* ===== verification/StockSteps.v ===== *)
(** * The stock service as a state machine

    The six handlers as one type of calls, the step relation they and the
    reconciliation worker generate on the database, and what holds of every
    step: the rows a call may touch, the key it records, the invariant. *)

From S2P Require Import Prelude Database StockDb StockApi StockService StockEffects StockRefine Reconcile.

(** ** Calls *)

Inductive stock_call :=
| CallAdjust (req : AdjustStockRequest)
| CallReserve (req : ReserveStockRequest)
| CallRelease (req : ReleaseStockRequest)
| CallConfirm (req : ConfirmStockAllocationRequest)
| CallFulfill (req : FulfillStockRequest)
| CallUnlock (req : UnlockStockForAuditRequest).

Definition call_tenant_id (c : stock_call) : string :=
  match c with
  | CallAdjust r => adj_TenantId r
  | CallReserve r => rsv_TenantId r
  | CallRelease r => rel_TenantId r
  | CallConfirm r => cnf_TenantId r
  | CallFulfill r => ful_TenantId r
  | CallUnlock r => ulk_TenantId r
  end.

(** The idempotency key; UnlockStockForAudit has none. *)
Definition call_key (c : stock_call) : string :=
  match c with
  | CallAdjust r => adj_IdempotencyKey r
  | CallReserve r => rsv_IdempotencyKey r
  | CallRelease r => rel_IdempotencyKey r
  | CallConfirm r => cnf_IdempotencyKey r
  | CallFulfill r => ful_IdempotencyKey r
  | CallUnlock _ => ""
  end.

(** The int32 fields of the message are int32. *)
Definition call_ok (c : stock_call) : bool :=
  match c with
  | CallAdjust r => in_int32 (adj_QuantityDelta r)
  | CallReserve r => lines_ok (rsv_Lines r)
  | CallRelease r => lines_ok (rel_Lines r)
  | CallConfirm r => lines_ok (cnf_Lines r)
  | CallFulfill r => lines_ok (ful_Lines r)
  | CallUnlock _ => true
  end.

(** One delivery of a call: what the network and the database do to it is in
    [env]. *)
Definition deliver `{UuidText} `{StockHashes} (env : TxEnv) (ctx : Ctx) (c : stock_call)
    (d : StockDB) : StockDB :=
  match c with
  | CallAdjust r => (AdjustStock env ctx r d).1
  | CallReserve r => (ReserveStock env ctx r d).1
  | CallRelease r => (ReleaseStock env ctx r d).1
  | CallConfirm r => (ConfirmStockAllocation env ctx r d).1
  | CallFulfill r => (FulfillStock env ctx r d).1
  | CallUnlock r => (UnlockStockForAudit env ctx r d).1
  end.

(** ** Steps

    A call is one step (its transaction is serialised by the row locks it
    takes); the worker's only writes are its audit locks, each a statement of
    its own that can fall anywhere between the calls. *)
Inductive stock_step `{UuidText} `{StockHashes} : StockDB → StockDB → Prop :=
| step_call env ctx c d :
    call_ok c = true → stock_step d (deliver env ctx c d)
| step_audit_lock k now d d' u :
    SetAuditLock k true (sweeper_session now) d = Ok (d', u) → stock_step d d'.

(** What a call of tenant [t] with key [key] may have written at [now]. *)
Record tenant_write (t : uuid) (key : string) (now : Z) (tp : option string) (d d' : StockDB) : Prop := {
  tw_levels k : k.1.1 ≠ t → stock_levels d' !! k = stock_levels d !! k;
  tw_events : ∃ new, ev <$> stock_events d' = (ev <$> stock_events d) ++ new ∧
                Forall (λ p, ev_TenantID p = t) new;
  tw_outbox : ∃ new, ob <$> stock_outbox d' = (ob <$> stock_outbox d) ++ new ∧
                Forall (λ p, ob_TenantID p = t ∧ ob_Traceparent p = tp) new;
  tw_idem : ∃ hash, stock_idem d' =
              (if bool_decide (key = "") then stock_idem d
               else <[(t, key) := mkIdemRow hash now]> (stock_idem d));
  tw_wf : stock_wf d';
}.

(** ** Lemmas *)

Section Steps.
Context `{UuidText} `{StockHashes}.

Lemma after_key_idem {M} `{PayloadHash M} t key (msg : M) env d :
  stock_idem (after_key t key msg env d) =
  if bool_decide (key = "") then stock_idem d
  else <[(t, key) := mkIdemRow (payload_hash msg) (tx_now env)]> (stock_idem d).
Proof. unfold after_key, recorded. by case_bool_decide. Qed.

Lemma move_lines_other m t lines levels k :
  k.1.1 ≠ t → move_lines m t lines levels !! k = levels !! k.
Proof.
  intros Hk. rewrite lookup_move_lines.
  assert (qty_at t k lines = 0) as ->.
  { unfold qty_at. rewrite (zsum_ext _ (λ _, 0)); [clear; induction lines; cbn; lia|].
    intros l _. rewrite bool_decide_false; [done|]. intros <-. done. }
  destruct (levels !! k); cbn; [by rewrite shift_0|done].
Qed.

(** The writes of a multi-line handler. *)
Lemma effect_write {M} `{PayloadHash M} m t mkev mkob lines key (msg : M) env tp d d' :
  stock_effect m t mkev mkob lines (after_key t key msg env d) d' →
  (∀ l, ev_TenantID (mkev l) = t) → (∀ l, ob_TenantID (mkob l) = t ∧ ob_Traceparent (mkob l) = tp) →
  tenant_write t key (tx_now env) tp d d'.
Proof.
  intros [Hl He Ho Hi Hw] Hmkev Hmkob. unfold after_key in *.
  rewrite recorded_levels in Hl. rewrite recorded_events in He. rewrite recorded_outbox in Ho.
  split; [| | | |done].
  - intros k Hk. rewrite Hl. by apply move_lines_other.
  - eexists. split; [done|]. apply Forall_fmap, Forall_true. done.
  - eexists. split; [done|]. apply Forall_fmap, Forall_true. done.
  - eexists. rewrite Hi. apply after_key_idem.
Qed.

Lemma adjust_write ctx t req env d d' :
  adjust_effect ctx t req (tx_now env) (after_key t (adj_IdempotencyKey req) req env d) d' →
  tenant_write t (adj_IdempotencyKey req) (tx_now env) (TraceparentText ctx) d d'.
Proof.
  intros [_ Hl He Hi Hw]. unfold after_key in *.
  rewrite recorded_levels, recorded_outbox in Hl. rewrite recorded_events in He.
  destruct Hl as [Hl Ho]. split; [| | | |done].
  - intros k Hk. rewrite Hl. apply lookup_insert_ne. intros <-. done.
  - eexists. split; [done|]. by repeat constructor.
  - eexists. split; [done|]. by repeat constructor.
  - eexists. rewrite Hi. apply after_key_idem.
Qed.

Lemma unlock_write t req now tp d d' : unlock_effect t req now d d' → tenant_write t "" now tp d d'.
Proof.
  intros [Hl He Ho Hi Hw]. split; [| | | |done].
  - intros k Hk. rewrite Hl. apply lookup_alter_ne. intros <-. done.
  - eexists. split; [done|]. by repeat constructor.
  - exists []. rewrite app_nil_r, Ho. done.
  - exists "". rewrite Hi. done.
Qed.

(** A delivery changes nothing, or its key is new and it writes for its own
    tenant. *)
Lemma deliver_cases env ctx c d :
  stock_wf d → call_ok c = true →
  deliver env ctx c d = d ∨
  ∃ t, uuid_scan (call_tenant_id c) = Some t ∧ key_seen t (call_key c) d = false ∧
    tenant_write t (call_key c) (tx_now env) (TraceparentText ctx) d (deliver env ctx c d).
Proof.
  intros Hd Hc. destruct c as [r|r|r|r|r|r]; cbn in *.
  - destruct (AdjustStock_cases env ctx r d Hd Hc) as [?|(t & ? & ? & ?)]; [by left|].
    right. exists t. do 2 (split; [done|]). by apply (adjust_write (WithTenantID ctx (adj_TenantId r))).
  - destruct (ReserveStock_cases env ctx r d Hd Hc) as [?|(t & ? & ? & He)]; [by left|].
    right. exists t. do 2 (split; [done|]). by apply (effect_write _ _ _ _ _ _ _ _ _ _ _ He).
  - destruct (ReleaseStock_cases env ctx r d Hd Hc) as [?|(t & ? & ? & He)]; [by left|].
    right. exists t. do 2 (split; [done|]). by apply (effect_write _ _ _ _ _ _ _ _ _ _ _ He).
  - destruct (ConfirmStockAllocation_cases env ctx r d Hd Hc) as [?|(t & ? & ? & He)]; [by left|].
    right. exists t. do 2 (split; [done|]). by apply (effect_write _ _ _ _ _ _ _ _ _ _ _ He).
  - destruct (FulfillStock_cases env ctx r d Hd Hc) as [?|(t & ? & ? & He)]; [by left|].
    right. exists t. do 2 (split; [done|]). by apply (effect_write _ _ _ _ _ _ _ _ _ _ _ He).
  - destruct (UnlockStockForAudit_cases env ctx r d Hd) as [?|(t & ? & ?)]; [by left|].
    right. exists t. eauto using unlock_write.
Qed.

Lemma SetAuditLock_sweeper k now d d' u :
  SetAuditLock k true (sweeper_session now) d = Ok (d', u) → d' = lock_row now k d.
Proof. unfold SetAuditLock. cbn. by intros [= <-]. Qed.

Lemma lock_row_wf now k d : stock_wf d → stock_wf (lock_row now k d).
Proof.
  intros [Hc Hwf]. split; [done|]. intros k' lv. cbn. rewrite lookup_alter.
  case_decide; [subst|apply Hwf].
  destruct (stock_levels d !! k') as [lv0|] eqn:E; intros [= <-]. apply (Hwf _ _ E).
Qed.

Lemma deliver_wf env ctx c d : stock_wf d → call_ok c = true → stock_wf (deliver env ctx c d).
Proof.
  intros Hd Hc. destruct (deliver_cases env ctx c d Hd Hc) as [->|(t & _ & _ & Hw)]; [done|].
  apply Hw.
Qed.

Lemma stock_step_wf d d' : stock_step d d' → stock_wf d → stock_wf d'.
Proof.
  intros [env ctx c d1 Hc|k now d1 d2 u Hs] Hd; [by apply deliver_wf|].
  apply SetAuditLock_sweeper in Hs as ->. by apply lock_row_wf.
Qed.

Lemma stock_steps_wf d d' : rtc stock_step d d' → stock_wf d → stock_wf d'.
Proof. induction 1; eauto using stock_step_wf. Qed.

(** Recorded keys stay recorded. *)
Lemma key_seen_write t key t' key' now tp d d' :
  tenant_write t' key' now tp d d' → key_seen t key d = true → key_seen t key d' = true.
Proof.
  intros [_ _ _ [row Hi] _]. unfold key_seen. rewrite Hi.
  intros [Hne Hs]%andb_prop. rewrite Hne, andb_true_l. apply bool_decide_eq_true in Hs.
  apply bool_decide_eq_true. destruct (bool_decide (key' = "")); [done|].
  rewrite lookup_insert. destruct (decide _); [by eexists|done].
Qed.

Lemma key_seen_step t key d d' :
  stock_step d d' → stock_wf d → key_seen t key d = true → key_seen t key d' = true.
Proof.
  intros [env ctx c d1 Hc|k now d1 d2 u Hs] Hd Hk.
  - destruct (deliver_cases env ctx c d1 Hd Hc) as [->|(t' & _ & _ & Hw)]; [done|].
    by eapply key_seen_write.
  - apply SetAuditLock_sweeper in Hs as ->. done.
Qed.

Lemma key_seen_steps t key d d' :
  rtc stock_step d d' → stock_wf d → key_seen t key d = true → key_seen t key d' = true.
Proof. induction 1; eauto using key_seen_step, stock_step_wf. Qed.

(** A delivery that changed the database has recorded its key. *)
Lemma key_seen_deliver env ctx c d t :
  stock_wf d → call_ok c = true → uuid_scan (call_tenant_id c) = Some t → call_key c ≠ "" →
  deliver env ctx c d ≠ d → key_seen t (call_key c) (deliver env ctx c d) = true.
Proof.
  intros Hd Hc Ht Hne Hch. destruct (deliver_cases env ctx c d Hd Hc) as [?|(t' & Ht' & _ & Hw)];
    [done|]. destruct Hw as [_ _ _ [row Hi] _]. simplify_eq.
  unfold key_seen. rewrite Hi, bool_decide_false, andb_true_l by done.
  apply bool_decide_eq_true. rewrite lookup_insert_eq. eauto.
Qed.

(** It is recorded at the time of the transaction, and a recorded row stays. *)
Lemma key_row_deliver env ctx c d t :
  stock_wf d → call_ok c = true → uuid_scan (call_tenant_id c) = Some t → call_key c ≠ "" →
  deliver env ctx c d ≠ d →
  ∃ hash, stock_idem (deliver env ctx c d) !! (t, call_key c) = Some (mkIdemRow hash (tx_now env)).
Proof.
  intros Hd Hc Ht Hne Hch. destruct (deliver_cases env ctx c d Hd Hc) as [?|(t' & Ht' & _ & Hw)];
    [done|]. destruct Hw as [_ _ _ [hash Hi] _]. simplify_eq. exists hash.
  by rewrite Hi, bool_decide_false, lookup_insert_eq.
Qed.

Lemma key_row_step d d' k row :
  stock_step d d' → stock_wf d → stock_idem d !! k = Some row → stock_idem d' !! k = Some row.
Proof.
  intros [env ctx c d1 Hc|k' now d1 d2 u Hs] Hd Hk.
  - destruct (deliver_cases env ctx c d1 Hd Hc) as [->|(t' & _ & Hnew & Hw)]; [done|].
    destruct Hw as [_ _ _ [hash Hi] _]. rewrite Hi. unfold key_seen in Hnew.
    destruct (bool_decide (call_key c = "")) eqn:He; [done|]. cbn [negb andb] in Hnew.
    apply bool_decide_eq_false in Hnew. rewrite lookup_insert_ne; [done|]. intros <-. apply Hnew. by eexists.
  - apply SetAuditLock_sweeper in Hs as ->. done.
Qed.

Lemma key_seen_absorbs env ctx c d t :
  stock_wf d → call_ok c = true → uuid_scan (call_tenant_id c) = Some t →
  key_seen t (call_key c) d = true → deliver env ctx c d = d.
Proof.
  intros Hd Hc Ht Hk. destruct (deliver_cases env ctx c d Hd Hc) as [?|(t' & Ht' & Hk' & _)];
    [done|]. simplify_eq. congruence.
Qed.

End Steps.
