(* ===== verification/StockReserve.v ===== *)
(** * ReserveStock: all or nothing, and exactly when

    The loop of ReserveStock holds every line or none.  Here the answer is
    characterised by the rows alone: the reservation goes through exactly when
    each location the lines name has an unlocked row with what all the lines
    together take from it. *)

From S2P Require Import Prelude Database StockDb StockApi StockService StockEffects StockRefine.

(** ** Specification *)

(** Every location of the lines has an unlocked row that covers what the lines
    take from it. *)
Definition reservable (t : uuid) (levels : gmap loc StockLevel) (lines : list StockLine) : bool :=
  forallb (λ l,
    match levels !! line_loc t l with
    | Some lv => negb (IsLockedForAudit lv) &&
                 (qty_at t (line_loc t l) lines <=? AvailableQty lv)
    | None => false
    end) lines.

(** The quantities are the non-negative ones a client sends. *)
Definition lines_nonneg (lines : list StockLine) : bool :=
  forallb (λ l, (0 <=? Quantity l) && in_int32 (Quantity l)) lines.

(** No row holds more goods than an int32 counts. *)
Definition physical_fits (levels : gmap loc StockLevel) : Prop :=
  map_Forall (λ _ lv, physical lv < 2147483648) levels.

(** What a reservation that went through did. *)
Definition reserve_effect `{UuidText} `{StockHashes} (env : TxEnv) (ctx : Ctx) (t : uuid)
    (req : ReserveStockRequest) (d d' : StockDB) : Prop :=
  stock_effect reserving t (reserve_event t (rsv_OrderId req))
    (line_outbox (WithTenantID ctx (rsv_TenantId req)) t "stock.reserved" "reserve"
                 (rsv_OrderId req))
    (sortedLines (rsv_Lines req)) (after_key t (rsv_IdempotencyKey req) req env d) d'.

(** ** Lemmas *)

Lemma qty_at_cons t k l lines :
  qty_at t k (l :: lines) = (if bool_decide (line_loc t l = k) then Quantity l else 0) + qty_at t k lines.
Proof. done. Qed.

Lemma qty_at_nonneg t k lines : lines_nonneg lines = true → 0 <= qty_at t k lines.
Proof.
  unfold lines_nonneg. rewrite forallb_forall. intros Hq. apply zsum_nonneg. intros l Hl.
  apply list_elem_of_In, Hq in Hl. bprop. case_bool_decide; lia.
Qed.

Lemma qty_at_absent (t : uuid) (k : loc) (lines : list StockLine) :
  (∀ l, l ∈ lines → line_loc t l ≠ k) → qty_at t k lines = 0.
Proof.
  intros Hk. unfold qty_at. rewrite (zsum_ext _ (λ _, 0)); [clear; induction lines; cbn; lia|].
  intros l Hl. by rewrite bool_decide_false by auto.
Qed.

Lemma reservable_spec t levels lines :
  reservable t levels lines = true ↔
  ∀ l, l ∈ lines → ∃ lv, levels !! line_loc t l = Some lv ∧ IsLockedForAudit lv = false ∧
    qty_at t (line_loc t l) lines <= AvailableQty lv.
Proof.
  unfold reservable. rewrite forallb_forall. split; intros Hr l Hl.
  - specialize (Hr l (proj1 (list_elem_of_In _ _) Hl)). case_match; [|done]. bprop. eauto.
  - apply list_elem_of_In, Hr in Hl as (lv & -> & -> & Hle). cbn. by apply Z.leb_le.
Qed.

Lemma holdable_spec t levels l :
  holdable t levels l = true ↔
  ∃ lv, levels !! line_loc t l = Some lv ∧ IsLockedForAudit lv = false ∧
    Quantity l <= AvailableQty lv.
Proof.
  unfold holdable. split.
  - case_match; [|done]. intros Hh. bprop. eauto.
  - intros (lv & -> & -> & Hle). cbn. by apply Z.leb_le.
Qed.

Lemma reservable_Permutation t levels l1 l2 :
  l1 ≡ₚ l2 → reservable t levels l1 = reservable t levels l2.
Proof.
  intros Hp. apply eq_bool_prop_intro. rewrite !Is_true_true, !reservable_spec.
  split; intros Hr l Hl.
  - rewrite <- Hp in Hl. destruct (Hr l Hl) as (lv & ? & ? & ?). exists lv.
    by rewrite <- (qty_at_Permutation _ _ _ _ Hp).
  - rewrite Hp in Hl. destruct (Hr l Hl) as (lv & ? & ? & ?). exists lv.
    by rewrite (qty_at_Permutation _ _ _ _ Hp).
Qed.

Lemma lines_nonneg_Permutation l1 l2 :
  l1 ≡ₚ l2 → lines_nonneg l1 = true → lines_nonneg l2 = true.
Proof.
  unfold lines_nonneg. rewrite !forallb_forall. intros Hp Hn l Hl. apply Hn.
  apply list_elem_of_In. rewrite Hp. by apply list_elem_of_In.
Qed.

Lemma lines_nonneg_ok lines : lines_nonneg lines = true → lines_ok lines = true.
Proof.
  unfold lines_nonneg, lines_ok. rewrite !forallb_forall. intros Hn l Hl.
  specialize (Hn l Hl). by bprop.
Qed.

(** Holding the first line leaves the rest as reservable as before. *)
Lemma reservable_cons t levels l lines :
  lines_nonneg (l :: lines) = true →
  reservable t levels (l :: lines) = true ↔
  holdable t levels l = true ∧ reservable t (move_lines reserving t [l] levels) lines = true.
Proof.
  intros Hn. pose proof (qty_at_nonneg t (line_loc t l) lines) as Hq0.
  cbn [lines_nonneg forallb] in Hn. apply andb_prop in Hn as [Hl0 Hn].
  specialize (Hq0 Hn). bprop.
  assert (∀ k, move_lines reserving t [l] levels !! k =
            shift reserving (if bool_decide (line_loc t l = k) then Quantity l else 0)
              <$> levels !! k) as Hmove.
  { intros k. rewrite lookup_move_lines. unfold qty_at. cbn [zsum]. by rewrite Z.add_0_r. }
  rewrite !reservable_spec, holdable_spec. setoid_rewrite Hmove. setoid_rewrite qty_at_cons. split.
  - intros Hr. split.
    + destruct (Hr l (list_elem_of_here _ _)) as (lv & ? & ? & Hle).
      rewrite bool_decide_true in Hle by done. exists lv. repeat split; auto; lia.
    + intros l' Hl'. destruct (Hr l') as (lv & -> & ? & ?); [by apply list_elem_of_further|].
      eexists. split; [done|]. split; [done|]. cbn. lia.
  - intros [(lv & Hlv & Hlk & Hle) Hr] l' [->|Hl']%elem_of_cons.
    + exists lv. do 2 (split; [done|]). rewrite bool_decide_true by done.
      destruct (decide (Exists (λ l', line_loc t l' = line_loc t l) lines)) as [Hex|Hnex].
      * apply Exists_exists in Hex as (l' & Hl' & Heq).
        destruct (Hr l' Hl') as (lv' & Hlv' & _ & Hle'). rewrite Heq, Hlv in Hlv'.
        rewrite Heq, bool_decide_true in * by done. simplify_eq/=. lia.
      * rewrite qty_at_absent; [lia|]. intros l' Hl' Heq. apply Hnex, Exists_exists. eauto.
    + destruct (Hr l' Hl') as (lv' & Hlv' & Hlk' & Hle').
      destruct (levels !! line_loc t l') as [lv0|] eqn:E; simplify_eq/=.
      exists lv0. split; [done|]. split; [done|]. lia.
Qed.

Section Reserve.
Context `{UuidText} `{StockHashes}.

Lemma physical_fits_move t lines levels :
  physical_fits levels → physical_fits (move_lines reserving t lines levels).
Proof.
  intros Hf k lv. rewrite lookup_move_lines.
  destruct (levels !! k) as [lv0|] eqn:E; intros [= <-].
  rewrite physical_shift. specialize (Hf _ _ E). cbn in *. lia.
Qed.

(** A line that can be held is held: no arithmetic and no constraint stops it. *)
Lemma reserve_line_progress ctx t order failed l now d :
  stock_wf d → physical_fits (stock_levels d) → 0 <= Quantity l → in_int32 (Quantity l) = true →
  ∃ d' failed', reserve_line ctx t order failed l (tenant_session t now) d = Ok (d', failed').
Proof.
  intros Hd Hf Hq Hq32. unfold reserve_line, attempt, GetStockLevelForUpdate, mbind, Q_bind.
  cbn [line_loc fst]. rewrite visible_tenant. cbn [negb].
  destruct (stock_levels d !! line_loc t l) as [lv|] eqn:Hlv; rewrite ?Hlv; [|by do 2 eexists].
  destruct (IsLockedForAudit lv || (AvailableQty lv <? Quantity l)) eqn:Hb; [by do 2 eexists|].
  bprop. destruct (level_wf _ _ _ Hd Hlv) as (HA & HR & HL). specialize (Hf _ _ Hlv).
  unfold physical, qty_ok in *.
  assert (wrap32 (AvailableQty lv - Quantity l) = AvailableQty lv - Quantity l) as ->.
  { apply wrap32_small. unfold in_int32. apply andb_true_intro.
    split; [apply Z.leb_le|apply Z.ltb_lt]; lia. }
  assert (wrap32 (ReservedQty lv + Quantity l) = ReservedQty lv + Quantity l) as ->.
  { apply wrap32_small. unfold in_int32. apply andb_true_intro.
    split; [apply Z.leb_le|apply Z.ltb_lt]; lia. }
  unfold UpdateStockLevel. cbn [line_loc fst]. rewrite visible_tenant. cbn [negb].
  rewrite Hlv, check_level_intro by (cbn; lia).
  unfold InsertStockEvent, InsertOutboxEvent, outbox_insert, mbind, Q_bind, gen_random_uuid.
  cbn [ev_TenantID]. rewrite visible_tenant. cbn [negb].
  cbn [stock_outbox_event ob_TenantID]. rewrite visible_tenant. by do 2 eexists.
Qed.

(** The loop over lines of non-negative quantities ends, and ends with no
    failed line exactly when the lines are reservable. *)
Lemma reserve_loop_iff ctx t order now lines :
  ∀ failed d, stock_wf d → physical_fits (stock_levels d) → lines_nonneg lines = true →
  ∃ d' more, foldM (reserve_line ctx t order) failed lines (tenant_session t now) d =
               Ok (d', failed ++ more) ∧
             (more = [] ↔ reservable t (stock_levels d) lines = true).
Proof.
  induction lines as [|l lines IH]; intros failed d Hd Hf Hn.
  { exists d, []. by rewrite app_nil_r. }
  pose proof Hn as Hn'. cbn [lines_nonneg forallb] in Hn'. apply andb_prop in Hn' as [Hl Hn'].
  bprop. cbn [foldM].
  destruct (reserve_line_progress ctx t order failed l now d) as (d1 & f1 & Hrun); [done..|].
  unfold mbind, Q_bind. rewrite Hrun. apply reserve_line_ok in Hrun; auto using visible_tenant.
  pose proof (reservable_cons t (stock_levels d) l lines Hn) as Hcons.
  destruct (holdable t (stock_levels d) l).
  - destruct Hrun as [-> He]. destruct (IH failed d1) as (d' & more & -> & Hm);
      [apply He|rewrite (se_levels _ _ _ _ _ _ _ He); by apply physical_fits_move|done|].
    exists d', more. split; [done|]. rewrite Hm, (se_levels _ _ _ _ _ _ _ He). tauto.
  - destruct Hrun as [-> ->].
    destruct (IH (failed ++ [SkuId l]) d) as (d' & more & -> & Hm); [done..|].
    exists d', (SkuId l :: more). rewrite <- app_assoc. split; [done|]. rewrite Hcons. by split; [|intros [? ?]].
Qed.

Lemma reserve_error env ctx req d d' e :
  ReserveStock env ctx req d = (d', Err e) →
  (∀ m, tx_commit env ≠ CommitUnacknowledged m) → d' = d.
Proof.
  intros Hrun Hm. unfold ReserveStock, ParseUUID in Hrun.
  destruct (uuid_scan _) as [t|]; [|by injection Hrun].
  destruct (sortedLines _) as [|l ls] eqn:Hls; [by injection Hrun|]. rewrite <- Hls in Hrun.
  destruct (exec_tx_scope env (WithTenantID ctx (rsv_TenantId req))
    (reserve_closure (WithTenantID ctx (rsv_TenantId req)) t (sortedLines (rsv_Lines req)) req) d)
    as [[e1 He]|(tid & _ & He)]; rewrite He in Hrun; [by injection Hrun|].
  unfold tx_run in Hrun. destruct (tx_conn_err env); [by injection Hrun|].
  unfold reserve_closure in Hrun at 1. destruct (_ ≫= _) as [[d1 [|f fs]]|e1] in Hrun;
    [|by injection Hrun..].
  destruct (tx_commit env); [by injection Hrun..|]. by edestruct Hm.
Qed.

(** A fresh reservation over a healthy connection answers, and says whether the
    lines are reservable. *)
Lemma reserve_decides `{!UuidTextLaws} now ctx req d t :
  stock_wf d → physical_fits (stock_levels d) →
  lines_nonneg (rsv_Lines req) = true → rsv_Lines req ≠ [] →
  uuid_scan (rsv_TenantId req) = Some t → key_seen t (rsv_IdempotencyKey req) d = false →
  ∃ d' resp, ReserveStock (healthy now) ctx req d = (d', Ok resp) ∧
    rsvr_Success resp = reservable t (stock_levels d) (rsv_Lines req).
Proof.
  intros Hd Hf Hn Hne Ht Hk. unfold ReserveStock, ParseUUID. rewrite Ht.
  assert (sortedLines (rsv_Lines req) ≠ []) as Hne'.
  { intros Hnil. apply Hne. pose proof (sortedLines_Permutation (rsv_Lines req)) as Hp.
    rewrite Hnil in Hp. by apply Permutation_nil_l in Hp. }
  destruct (sortedLines (rsv_Lines req)) as [|l ls] eqn:Hls; [done|]. rewrite <- Hls.
  rewrite (exec_tx_healthy _ _ _ _ (rsv_TenantId req));
    [|done|intros Hempty; rewrite Hempty, uuid_scan_empty in Ht; done].
  rewrite Ht, reserve_keyed. fold (tenant_session t now). rewrite keyed_run, Hk.
  pose proof (sortedLines_Permutation (rsv_Lines req)) as Hp.
  rewrite <- (reservable_Permutation t (stock_levels d) _ _ Hp).
  destruct (reserve_loop_iff (WithTenantID ctx (rsv_TenantId req)) t (rsv_OrderId req) now
    (sortedLines (rsv_Lines req)) []
    (recorded t (rsv_IdempotencyKey req) (payload_hash req) now d)) as (d' & more & -> & Hm).
  - by apply recorded_wf.
  - by rewrite recorded_levels.
  - by eapply lines_nonneg_Permutation.
  - rewrite recorded_levels in Hm. destruct more as [|f more]; cbn.
    + eexists _, _. split; [done|]. cbn. by rewrite (proj1 Hm eq_refl).
    + eexists _, _. split; [done|]. cbn. symmetry. apply not_true_is_false. naive_solver.
Qed.


(** ** Theorems *)

(** C17. ReserveStock holds every line or none, whatever happens to its
    transaction: an answer with success is a replay of a recorded key or the
    complete effect (every line moved from available to reserved, one audit
    event and one outbox event per line); an answer without success leaves the
    database as it was and names a SKU; an error leaves it as it was too,
    unless the COMMIT went through and only its acknowledgement was lost, and
    then the effect is the complete one. *)
Theorem reserve_all_or_nothing env ctx req d t :
  stock_wf d → lines_ok (rsv_Lines req) = true → uuid_scan (rsv_TenantId req) = Some t →
  match ReserveStock env ctx req d with
  | (d', Ok resp) =>
      if rsvr_Success resp
      then if key_seen t (rsv_IdempotencyKey req) d then d' = d
           else reserve_effect env ctx t req d d'
      else d' = d ∧ rsvr_FailedSkuIds resp ≠ []
  | (d', Err _) =>
      d' = d ∨ (∃ m, tx_commit env = CommitUnacknowledged m) ∧ reserve_effect env ctx t req d d'
  end.
Proof.
  intros Hd Hq Ht. pose proof (ReserveStock_cases env ctx req d Hd Hq) as Hcases.
  destruct (ReserveStock env ctx req d) as [d' [resp|e]] eqn:Hrun.
  - by eapply ReserveStock_answer.
  - cbn in Hcases. destruct Hcases as [->|(t' & Ht' & _ & He)]; [by left|]. simplify_eq.
    destruct (tx_commit env) eqn:Hc.
    3: right; by eauto.
    all: left; eapply reserve_error; [done|]; intros m; by rewrite Hc.
Qed.


End Reserve.
