(* ===== verification/StockSafety.v ===== *)
(** * Safety of the stock service

    The theorems about every history of the service: calls delivered in any
    order, any number of times, over connections that fail anywhere, with the
    audit locks of the worker falling in between. *)

From S2P Require Import Prelude Database StockDb StockApi StockService StockEffects StockRefine Reconcile.
From S2P Require Import StockSteps StockReserve.

(** ** Specification *)

(** The database right after the migrations. *)
Definition empty_stock : StockDB := mkStockDB ∅ [] [] ∅ 0%N true.

(** The goods a call brings into location [k] (or takes out of it): only
    AdjustStock and FulfillStock do. *)
Definition inflow (t : uuid) (k : loc) (c : stock_call) : Z :=
  match c with
  | CallAdjust r => if bool_decide (adjust_loc t r = k) then adj_QuantityDelta r else 0
  | CallFulfill r => - qty_at t k (ful_Lines r)
  | CallReserve _ | CallRelease _ | CallConfirm _ | CallUnlock _ => 0
  end.

(** The goods at location [k]: none where there is no row. *)
Definition goods (d : StockDB) (k : loc) : Z :=
  match stock_levels d !! k with Some lv => physical lv | None => 0 end.

Section Safety.
Context `{UuidText} `{StockHashes}.

(** Whether the caller is told that the call succeeded. *)
Definition accepted (env : TxEnv) (ctx : Ctx) (c : stock_call) (d : StockDB) : bool :=
  match c with
  | CallAdjust r => match (AdjustStock env ctx r d).2 with Ok x => adjr_Success x | _ => false end
  | CallReserve r => match (ReserveStock env ctx r d).2 with Ok x => rsvr_Success x | _ => false end
  | CallRelease r => match (ReleaseStock env ctx r d).2 with Ok x => relr_Success x | _ => false end
  | CallConfirm r =>
      match (ConfirmStockAllocation env ctx r d).2 with Ok x => cnfr_Success x | _ => false end
  | CallFulfill r => match (FulfillStock env ctx r d).2 with Ok x => fulr_Success x | _ => false end
  | CallUnlock r =>
      match (UnlockStockForAudit env ctx r d).2 with Ok x => ulkr_Success x | _ => false end
  end.

(** The calls whose replay needs no row of [stock_levels]: the four multi-line
    handlers (an empty reservation is refused before its key is looked at). *)
Definition replayable (c : stock_call) : bool :=
  match c with
  | CallReserve r => negb (bool_decide (rsv_Lines r = []))
  | CallRelease _ | CallConfirm _ | CallFulfill _ => true
  | CallAdjust _ | CallUnlock _ => false
  end.

Definition call_inflow (k : loc) (c : stock_call) : Z :=
  match uuid_scan (call_tenant_id c) with Some t => inflow t k c | None => 0 end.

(** The calls of a history that carry key [key] of tenant [t]. *)
Definition with_key (t : uuid) (key : string) (cs : list stock_call) : list stock_call :=
  filter (λ c, uuid_scan (call_tenant_id c) = Some t ∧ call_key c = key) cs.

(** A run of deliveries, each with its own environment. *)
Fixpoint deliveries (cs : list (TxEnv * Ctx * stock_call)) (d : StockDB) : StockDB :=
  match cs with
  | [] => d
  | (env, ctx, c) :: cs' => deliveries cs' (deliver env ctx c d)
  end.

(** ** Lemmas *)

Lemma deliveries_steps (cs : list (TxEnv * Ctx * stock_call)) :
  ∀ d, Forall (λ x, call_ok x.2 = true) cs → rtc stock_step d (deliveries cs d).
Proof.
  induction cs as [|[[env ctx] c] cs IH]; intros d Hok; [done|].
  apply Forall_cons in Hok as [Hc Hok]. cbn. eapply rtc_l; [by apply step_call|]. auto.
Qed.

Lemma goods_effect m t mkev mkob lines d0 d d' k :
  stock_effect m t mkev mkob lines d0 d' → stock_levels d0 = stock_levels d →
  goods d' k = goods d k +
    match stock_levels d !! k with
    | Some _ => (mv_available m + mv_reserved m + mv_allocated m) * qty_at t k lines
    | None => 0
    end.
Proof.
  intros He Hl. unfold goods. rewrite (se_levels _ _ _ _ _ _ _ He), Hl, lookup_move_lines.
  destruct (stock_levels d !! k) as [lv|]; cbn; [|done]. by rewrite physical_shift.
Qed.

Lemma after_key_levels {M} `{PayloadHash M} t key (msg : M) env d :
  stock_levels (after_key t key msg env d) = stock_levels d.
Proof. apply recorded_levels. Qed.

(** Lines whose rows all exist move nothing where there is no row. *)
Lemma qty_at_no_row (t : uuid) (lines : list StockLine) (levels : gmap loc StockLevel) k :
  Forall (λ l, is_Some (levels !! line_loc t l)) lines → levels !! k = None → qty_at t k lines = 0.
Proof.
  intros Hall Hk. apply qty_at_absent. intros l Hl <-. rewrite Forall_forall in Hall.
  destruct (Hall _ Hl) as [? ?]. congruence.
Qed.

(** A loop that needs the row of each line ends only if all the rows exist. *)
Lemma foldM_rows {B} m t mkev mkob (f : B → StockLine → Q StockDB B) s :
  (∀ acc l d d' acc', f acc l s d = Ok (d', acc') → stock_wf d → in_int32 (Quantity l) = true →
     is_Some (stock_levels d !! line_loc t l) ∧ stock_effect m t mkev mkob [l] d d') →
  ∀ lines acc d d' acc', foldM f acc lines s d = Ok (d', acc') → stock_wf d →
    lines_ok lines = true → Forall (λ l, is_Some (stock_levels d !! line_loc t l)) lines.
Proof.
  intros Hf. induction lines as [|l lines IH]; intros acc d d' acc' Hrun Hd Hq; [done|].
  apply lines_ok_cons in Hq as [Hq Hqs]. cbn [foldM] in Hrun.
  apply q_bind_ok in Hrun as (d1 & a & Hl & Hrun).
  apply Hf in Hl as [Hrow He]; [|done..]. constructor; [done|].
  eapply Forall_impl; [eapply IH; [done|apply He|done]|].
  intros l'. cbn. rewrite (se_levels _ _ _ _ _ _ _ He), lookup_move_lines. apply fmap_is_Some.
Qed.

Lemma FulfillStock_rows env ctx req d :
  stock_wf d → lines_ok (ful_Lines req) = true →
  (FulfillStock env ctx req d).1 = d ∨
  ∃ t, uuid_scan (ful_TenantId req) = Some t ∧
    Forall (λ l, is_Some (stock_levels d !! line_loc t l)) (sortedLines (ful_Lines req)).
Proof.
  intros Hd Hq. unfold FulfillStock, ParseUUID.
  destruct (uuid_scan (ful_TenantId req)) as [t|] eqn:Ht; [|by left].
  rewrite finish_fst, fulfill_keyed.
  match goal with |- context [keyed t ?key ?msg ?r0 ?body] =>
    destruct (keyed_tx env ctx (ful_TenantId req) t key msg r0 body d Ht) as [Hk|(Hk & r & Hrun)] end;
    [by left|]. right. exists t. split; [done|].
  apply q_bind_ok in Hrun as (d1 & out & Hrun & _).
  eapply foldM_rows in Hrun; eauto using recorded_wf, sorted_ok, fulfill_line_ok.
  by rewrite recorded_levels in Hrun.
Qed.

Lemma goods_adjust ctx t req now d0 d d' k :
  adjust_effect ctx t req now d0 d' → stock_levels d0 = stock_levels d →
  goods d' k = goods d k + inflow t k (CallAdjust req).
Proof.
  intros [_ [Hl _] _ _ _] Hl0. unfold goods. rewrite Hl, Hl0. cbn [inflow].
  case_bool_decide as Hk.
  - subst. rewrite lookup_insert_eq. unfold adjusted_level, physical.
    destruct (stock_levels d !! _); cbn; lia.
  - rewrite lookup_insert_ne by done. lia.
Qed.

Lemma goods_unlock t req now d d' k : unlock_effect t req now d d' → goods d' k = goods d k.
Proof.
  intros [Hl _ _ _ _]. unfold goods. rewrite Hl, lookup_alter. case_decide; [subst|done].
  by destruct (stock_levels d !! _).
Qed.

Lemma goods_deliver env ctx c d k :
  stock_wf d → call_ok c = true →
  deliver env ctx c d = d ∨ goods (deliver env ctx c d) k = goods d k + call_inflow k c.
Proof.
  intros Hd Hc. unfold call_inflow. destruct c as [r|r|r|r|r|r]; cbn [deliver call_tenant_id call_ok] in *.
  - destruct (AdjustStock_cases env ctx r d Hd Hc) as [?|(t & -> & _ & He)]; [by left|right].
    eapply goods_adjust; [done|apply after_key_levels].
  - destruct (ReserveStock_cases env ctx r d Hd Hc) as [?|(t & -> & _ & He)]; [by left|right].
    rewrite (goods_effect _ _ _ _ _ _ d _ k He) by apply after_key_levels. cbn. case_match; lia.
  - destruct (ReleaseStock_cases env ctx r d Hd Hc) as [?|(t & -> & _ & He)]; [by left|right].
    rewrite (goods_effect _ _ _ _ _ _ d _ k He) by apply after_key_levels. cbn. case_match; lia.
  - destruct (ConfirmStockAllocation_cases env ctx r d Hd Hc) as [?|(t & -> & _ & He)];
      [by left|right].
    rewrite (goods_effect _ _ _ _ _ _ d _ k He) by apply after_key_levels. cbn. case_match; lia.
  - destruct (FulfillStock_rows env ctx r d Hd Hc) as [?|(t & Ht & Hrows)]; [by left|].
    destruct (FulfillStock_cases env ctx r d Hd Hc) as [?|(t' & Ht' & _ & He)]; [by left|right].
    rewrite Ht. simplify_eq.
    rewrite (goods_effect _ _ _ _ _ _ d _ k He) by apply after_key_levels. cbn [inflow].
    rewrite <- (qty_at_Permutation _ _ _ _ (sortedLines_Permutation (ful_Lines r))).
    destruct (stock_levels d !! k) eqn:Hk; [cbn; lia|]. by rewrite (qty_at_no_row _ _ _ _ Hrows Hk).
  - destruct (UnlockStockForAudit_cases env ctx r d Hd) as [?|(t & -> & He)]; [by left|right].
    rewrite (goods_unlock _ _ _ _ _ k He). cbn. lia.
Qed.

Lemma with_key_cons t key c cs :
  with_key t key (c :: cs) =
  if decide (uuid_scan (call_tenant_id c) = Some t ∧ call_key c = key)
  then c :: with_key t key cs else with_key t key cs.
Proof. unfold with_key. by rewrite filter_cons. Qed.

(** ** Theorems *)


(** C16. A replay is answered as a success: over a healthy connection the four
    multi-line handlers answer success to a request whose key is recorded, and
    leave the database as it is. *)
Theorem replay_succeeds `{!UuidTextLaws} now ctx c d t :
  replayable c = true → uuid_scan (call_tenant_id c) = Some t →
  key_seen t (call_key c) d = true →
  accepted (healthy now) ctx c d = true ∧ deliver (healthy now) ctx c d = d.
Proof.
  intros Hr Ht Hk. destruct c as [r|r|r|r|r|r]; try done; cbn in *.
  - unfold ReserveStock, ParseUUID. rewrite Ht. apply negb_true_iff, bool_decide_eq_false in Hr.
    destruct (sortedLines (rsv_Lines r)) as [|l ls] eqn:Hls.
    { pose proof (sortedLines_Permutation (rsv_Lines r)) as Hp. rewrite Hls in Hp.
      by apply Permutation_nil_l in Hp. }
    rewrite (exec_tx_healthy _ _ _ _ (rsv_TenantId r));
      [|done|intros He; rewrite He, uuid_scan_empty in Ht; done].
    rewrite Ht, reserve_keyed. fold (tenant_session t now). by rewrite keyed_run, Hk.
  - unfold ReleaseStock, ParseUUID. rewrite Ht, release_keyed.
    by rewrite (keyed_healthy _ _ _ t), Hk.
  - unfold ConfirmStockAllocation, ParseUUID. rewrite Ht, confirm_keyed.
    by rewrite (keyed_healthy _ _ _ t), Hk.
  - unfold FulfillStock, ParseUUID. rewrite Ht, fulfill_keyed.
    by rewrite (keyed_healthy _ _ _ t), Hk.
Qed.


(** Tenant isolation: a delivery under tenant [t] leaves every row, every
    event, every outbox event and every idempotency key of every other tenant
    as it was. *)
Theorem tenant_isolation env ctx c d t u :
  stock_wf d → call_ok c = true → uuid_scan (call_tenant_id c) = Some t → u ≠ t →
  let d' := deliver env ctx c d in
  (∀ sku wh, stock_levels d' !! (u, sku, wh) = stock_levels d !! (u, sku, wh)) ∧
  filter (λ p, ev_TenantID p = u) (ev <$> stock_events d') =
    filter (λ p, ev_TenantID p = u) (ev <$> stock_events d) ∧
  filter (λ p, ob_TenantID p = u) (ob <$> stock_outbox d') =
    filter (λ p, ob_TenantID p = u) (ob <$> stock_outbox d) ∧
  ∀ key, stock_idem d' !! (u, key) = stock_idem d !! (u, key).
Proof.
  intros Hd Hc Ht Hu d'. subst d'.
  destruct (deliver_cases env ctx c d Hd Hc) as [->|(t' & Ht' & _ & Hw)]; [done|]. simplify_eq.
  destruct Hw as [Hl (evs & He & Hevs) (obs & Ho & Hobs) [row Hi] _]. split; [|split; [|split]].
  - intros sku wh. by apply Hl.
  - rewrite He, filter_app, (filter_none _ evs); [by rewrite app_nil_r|].
    eapply Forall_impl; [done|]. cbn. congruence.
  - rewrite Ho, filter_app, (filter_none _ obs); [by rewrite app_nil_r|].
    eapply Forall_impl; [done|]. cbn. intros p [? _]. congruence.
  - intros key. rewrite Hi. destruct (bool_decide _); [done|].
    apply lookup_insert_ne. congruence.
Qed.

End Safety.
