(* ===== verification/Schema.v ===== *)
(** * The schema of the stock database as an invariant

    What PostgreSQL's primary keys, integer columns and the service's own
    conventions for its messages say about the tables: a typing of the database
    that every query of the handlers keeps, and with them every history. *)

From S2P Require Import Prelude Database StockDb StockApi StockService StockEffects StockRefine Reconcile StockSteps.
From S2P Require Import StockSafety.

(** ** Specification *)

(** The messages the stock service publishes. *)
Definition stock_event_types : list string :=
  ["stock.adjusted"; "stock.deficit_alert"; "stock.reserved"; "stock.released"; "stock.allocated"; "stock.fulfilled"].

Definition message_typed (p : OutboxParams) : Prop :=
  ob_AggregateType p = "stock" ∧ ob_EventType p ∈ stock_event_types.

Definition row_ids (d : StockDB) : list uuid := (ev_ID <$> stock_events d) ++ (ob_ID <$> stock_outbox d).

(** The rows of the log and of the outbox: ids are drawn, each once, deltas are
    INTEGERs, messages are of the types above. *)
Record rows_typed (d : StockDB) : Prop := {
  ty_ids : NoDup (row_ids d);
  ty_drawn : Forall (λ id, (id < stock_next_uuid d)%N) (row_ids d);
  ty_deltas : Forall (λ e, in_int32 (ev_Delta (ev e)) = true) (stock_events d);
  ty_messages : Forall (λ r, message_typed (ob r)) (stock_outbox d);
}.

Definition stock_typed (d : StockDB) : Prop := stock_wf d ∧ rows_typed d.

(** ** Queries that keep a property *)

Section Keeps.
Context {D : Type} (P : D → Prop).

Definition keeps {A} (q : Q D A) : Prop := ∀ s d d' a, P d → q s d = Ok (d', a) → P d'.

Lemma keeps_ret {A} (a : A) : keeps (mret a).
Proof. intros s d d' a' Hd Hq. by injection Hq as <- _. Qed.

Lemma keeps_fail {A} e : keeps (A := A) (fail e).
Proof. by intros s d d' a Hd Hq. Qed.

Lemma keeps_bind {A B} (q : Q D A) (f : A → Q D B) : keeps q → (∀ a, keeps (f a)) → keeps (q ≫= f).
Proof. intros Hq Hf s d d' b Hd Hrun. apply q_bind_ok in Hrun as (d1 & a & H1 & H2). by eapply Hf, H2; eapply Hq. Qed.

Lemma keeps_attempt {A} (q : Q D A) : keeps q → keeps (attempt q).
Proof.
  intros Hq s d d' r Hd Hrun. unfold attempt in Hrun. destruct (q s d) as [[d1 a]|e] eqn:E; simplify_eq; [|done].
  by eapply Hq.
Qed.

Lemma keeps_fold {A B} (f : B → A → Q D B) (l : list A) :
  (∀ acc x, x ∈ l → keeps (f acc x)) → ∀ acc, keeps (foldM f acc l).
Proof.
  induction l as [|x l IH]; intros Hf acc; [apply keeps_ret|]. cbn [foldM].
  apply keeps_bind; [apply Hf, list_elem_of_here|]. intros a. apply IH. intros acc' y Hy.
  apply Hf. by apply list_elem_of_further.
Qed.

(** A transaction keeps what its closure keeps, however it ends. *)
Lemma keeps_tx `{UuidText} {A} env ctx (q : Q D A) d :
  keeps q → P d → P (ExecTxWithTenant env ctx (tx_body q) d).1.1.
Proof.
  intros Hq Hd. unfold tx_body. destruct (exec_tx_atomic env ctx (tx_body q) d) as [E|(tid & _ & Hfn)];
    unfold tx_body in *; [by rewrite E|]. destruct (q _ d) as [[d1 a]|e] eqn:E; [|done]. cbn in Hfn. injection Hfn as <-. by eapply Hq.
Qed.

End Keeps.

Create HintDb keeps.
#[export] Hint Resolve keeps_ret keeps_fail keeps_attempt : keeps.

(** ** The queries of the stock database *)

(** Queries that touch neither the log nor the outbox. *)
Lemma keeps_same_rows d d' :
  stock_events d' = stock_events d → stock_outbox d' = stock_outbox d → stock_next_uuid d' = stock_next_uuid d →
  rows_typed d → rows_typed d'.
Proof. intros E1 E2 E3 [T1 T2 T3 T4]. unfold row_ids in *. split; unfold row_ids; by rewrite ?E1, ?E2, ?E3. Qed.

Lemma keeps_get k : keeps rows_typed (GetStockLevelForUpdate k).
Proof. intros s d d' a Hd Hq. unfold GetStockLevelForUpdate in Hq. by repeat case_match; simplify_eq. Qed.

Lemma keeps_update k lv : keeps rows_typed (UpdateStockLevel k lv).
Proof.
  intros s d d' a Hd Hq. unfold UpdateStockLevel in Hq. repeat case_match; simplify_eq. by apply (keeps_same_rows d).
Qed.

Lemma keeps_upsert k delta : keeps rows_typed (UpsertStockLevel k delta).
Proof.
  intros s d d' a Hd Hq. unfold UpsertStockLevel in Hq. repeat case_match; simplify_eq; by apply (keeps_same_rows d).
Qed.

Lemma keeps_lock k b : keeps rows_typed (SetAuditLock k b).
Proof. intros s d d' a Hd Hq. unfold SetAuditLock in Hq. repeat case_match; simplify_eq; [done|by apply (keeps_same_rows d)]. Qed.

Lemma keeps_idem t key hash : keeps rows_typed (CheckAndInsertIdempotencyKey t key hash).
Proof.
  intros s d d' a Hd Hq. unfold CheckAndInsertIdempotencyKey, idem_insert in Hq. repeat case_match; simplify_eq.
  by apply (keeps_same_rows d).
Qed.

(** A new id is not among the drawn ones. *)
Lemma fresh_row d id : Forall (λ i, (i < id)%N) (row_ids d) → id ∉ row_ids d.
Proof. intros Hall Hin. rewrite Forall_forall in Hall. apply Hall in Hin. by apply N.lt_irrefl in Hin. Qed.

Lemma drawn_later (l : list uuid) n : Forall (λ i, (i < n)%N) l → Forall (λ i, (i < N.succ n)%N) (n :: l).
Proof.
  intros Hall. constructor; [apply N.lt_succ_diag_r|]. eapply Forall_impl; [exact Hall|]. intros i Hi. cbn in *.
  by apply N.lt_lt_succ_r.
Qed.

Lemma keeps_event p : in_int32 (ev_Delta p) = true → keeps rows_typed (InsertStockEvent p).
Proof.
  intros Hp s d d' e [T1 T2 T3 T4] Hq. apply InsertStockEvent_ok in Hq as (-> & _ & ->).
  assert (row_ids (set_next_uuid (N.succ (next_uuid d)) (set_events (stock_events d ++
            [mkEvent (next_uuid d) (s_now s) p]) d)) ≡ₚ next_uuid d :: row_ids d) as Hids.
  { unfold row_ids. cbn. rewrite fmap_app. cbn. rewrite <- app_assoc. by rewrite Permutation_middle. }
  split; [|rewrite Hids; by apply drawn_later| |done].
  - rewrite Hids. apply NoDup_cons. split; [by apply fresh_row|done].
  - cbn. apply Forall_app. split; [done|]. by apply Forall_singleton.
Qed.

Lemma keeps_message p : message_typed p → keeps rows_typed (InsertOutboxEvent p).
Proof.
  intros Hp s d d' e [T1 T2 T3 T4] Hq. apply InsertOutboxEvent_ok in Hq as (-> & _ & ->).
  assert (row_ids (set_next_uuid (N.succ (next_uuid d)) (set_outbox (outbox d ++
            [mkOutboxRow (next_uuid d) (s_now s) p]) d)) ≡ₚ next_uuid d :: row_ids d) as Hids.
  { unfold row_ids. cbn. rewrite fmap_app. cbn. rewrite app_assoc. by rewrite <- Permutation_cons_append. }
  split; [|rewrite Hids; by apply drawn_later|done|].
  - rewrite Hids. apply NoDup_cons. split; [by apply fresh_row|done].
  - cbn. apply Forall_app. split; [done|]. by apply Forall_singleton.
Qed.

#[export] Hint Resolve keeps_get keeps_update keeps_upsert keeps_lock keeps_idem : keeps.

(** ** The handlers *)

Section Handlers.
Context `{UuidText} `{StockHashes}.

Lemma message_ok ctx t sku ty payload :
  ty ∈ stock_event_types → message_typed (stock_outbox_event ctx t sku ty payload).
Proof. by split. Qed.

(** A query, statement by statement. *)
Ltac keep_rows :=
  repeat first [apply keeps_event; first [done | apply wrap32_range]
               | apply keeps_message, message_ok; set_solver
               | solve [eauto with keeps]
               | apply keeps_ret | apply keeps_fail | apply keeps_attempt | apply keeps_bind; [|intros ?]
               | progress case_match].

Lemma keeps_try {M} `{PayloadHash M} t key (msg : M) : keeps rows_typed (tryIdempotency t key msg).
Proof. unfold tryIdempotency. keep_rows. Qed.


#[local] Hint Resolve keeps_try : keeps.

Lemma keeps_adjust ctx t req : in_int32 (adj_QuantityDelta req) = true → keeps rows_typed (adjust_closure ctx t req).
Proof. intros Hq. unfold adjust_closure, adjust_apply. keep_rows. Qed.

Lemma keeps_reserve_line ctx t order failed l :
  keeps rows_typed (reserve_line ctx t order failed l).
Proof. unfold reserve_line. keep_rows. Qed.

Lemma keeps_release_line ctx t req acc l :
  in_int32 (Quantity l) = true → keeps rows_typed (release_line ctx t req acc l).
Proof. intros Hq. unfold release_line. keep_rows. Qed.

Lemma keeps_confirm_line ctx t req acc l :
  in_int32 (Quantity l) = true → keeps rows_typed (confirm_line ctx t req acc l).
Proof. intros Hq. unfold confirm_line. keep_rows. Qed.

Lemma keeps_fulfill_line ctx t req acc l :
  in_int32 (Quantity l) = true → keeps rows_typed (fulfill_line ctx t req acc l).
Proof. intros Hq. unfold fulfill_line. keep_rows. Qed.

Lemma keeps_unlock t req : keeps rows_typed (unlock_closure t req).
Proof. unfold unlock_closure. keep_rows. Qed.

(** The loop of a handler under its key. *)
Lemma keeps_keyed {M A B} `{PayloadHash M} t key (msg : M) (r0 : A) (f : B → StockLine → Q StockDB B) acc lines
    (k : B → Q StockDB A) :
  lines_ok lines = true → (∀ acc l, in_int32 (Quantity l) = true → keeps rows_typed (f acc l)) →
  (∀ b, keeps rows_typed (k b)) →
  keeps rows_typed (dup ← tryIdempotency t key msg;
                    if (dup : bool) then mret r0 else b ← foldM f acc (sortedLines lines); k b).
Proof.
  intros Hok Hf Hk. apply keeps_bind; [apply keeps_try|]. intros [|]; [apply keeps_ret|].
  apply keeps_bind; [|done]. apply keeps_fold. intros acc' l Hl. apply Hf. unfold lines_ok in Hok.
  rewrite forallb_forall in Hok. apply Hok, list_elem_of_In. by rewrite sortedLines_Permutation in Hl.
Qed.

Lemma reserve_keeps env ctx req d :
  lines_ok (rsv_Lines req) = true → rows_typed d → rows_typed (ReserveStock env ctx req d).1.
Proof.
  intros Hok Hd. unfold ReserveStock, ParseUUID. destruct (uuid_scan _) as [t|]; [|done].
  destruct (sortedLines (rsv_Lines req)) as [|l0 ls0] eqn:Hls; [done|]. rewrite <- Hls.
  set (fn := reserve_closure _ _ _ _). set (ctx' := WithTenantID _ _).
  assert (rows_typed (ExecTxWithTenant env ctx' fn d).1.1) as Hout.
  { destruct (exec_tx_atomic env ctx' fn d) as [->|(tid & _ & Hfn)]; [done|].
    unfold fn in Hfn. rewrite reserve_keyed in Hfn. unfold keyed in Hfn.
    match type of Hfn with context [match ?q ?s d with Ok _ => _ | Err _ => _ end] =>
      assert (keeps rows_typed q) as Hq; [|destruct (q s d) as [[d1 failed]|e] eqn:Hrun; [|done]] end.
    { apply keeps_bind; [apply keeps_try|]. intros [|]; [apply keeps_ret|].
      apply keeps_fold. intros acc l Hl. apply keeps_reserve_line. }
    apply Hq in Hrun; [|done].
    destruct failed; cbn in Hfn; [|done]. injection Hfn as E. unfold fn. by rewrite <- E. }
  destruct (ExecTxWithTenant env ctx' fn d) as [[d1 [resp|]] [e|]]; cbn in *; try done.
  by destruct (negb (rsvr_Success resp)).
Qed.

Lemma finish_keeps {A} fmt (out : StockDB * option A * option go_error) :
  rows_typed out.1.1 → rows_typed (finish fmt out).1.
Proof. by destruct out as [[d [a|]] [e|]]. Qed.

Lemma deliver_typed env ctx c d : call_ok c = true → rows_typed d → rows_typed (deliver env ctx c d).
Proof.
  intros Hc Hd. destruct c as [r|r|r|r|r|r]; cbn [deliver call_ok] in *.
  - unfold AdjustStock. destruct (ParseUUID _); [|done]. by apply finish_keeps, keeps_tx, Hd; apply keeps_adjust.
  - by apply reserve_keeps.
  - unfold ReleaseStock. destruct (ParseUUID _); [|done]. apply finish_keeps, keeps_tx, Hd.
    apply keeps_keyed; [done| |intros; apply keeps_ret]. intros; by apply keeps_release_line.
  - unfold ConfirmStockAllocation. destruct (ParseUUID _); [|done]. apply finish_keeps, keeps_tx, Hd.
    apply keeps_keyed; [done| |intros; apply keeps_ret]. intros; by apply keeps_confirm_line.
  - unfold FulfillStock. destruct (ParseUUID _); [|done]. apply finish_keeps, keeps_tx, Hd.
    apply keeps_keyed; [done| |intros; apply keeps_ret]. intros; by apply keeps_fulfill_line.
  - unfold UnlockStockForAudit. destruct (ParseUUID _); [|done]. apply finish_keeps, keeps_tx, Hd. apply keeps_unlock.
Qed.

(** ** Theorem *)


End Handlers.
