(* ===== verification/StockMoves.v ===== *)
(** * ReleaseStock, ConfirmStockAllocation and FulfillStock: exactly when

    A handler that moves goods between buckets succeeds exactly when the rows
    of its lines can take what all the lines together move: the CHECK
    constraints refuse everything else, and the int32 arithmetic in between
    never stops a movement whose end result is in range. *)

From S2P Require Import Prelude Database StockDb StockApi StockService StockEffects StockRefine Reconcile.
From S2P Require Import StockSteps StockReserve StockSafety.

(** ** Specification *)

Definition qty_okb (z : Z) : bool := (0 <=? z) && (z <? 2147483648).

Definition level_okb (lv : StockLevel) : bool :=
  qty_okb (AvailableQty lv) && qty_okb (ReservedQty lv) && qty_okb (AllocatedQty lv).

(** Every row the lines name exists and stays in range when all of them have
    moved. *)
Definition movable (m : motion) (t : uuid) (levels : gmap loc StockLevel) (lines : list StockLine)
  : bool :=
  forallb (λ l,
    match levels !! line_loc t l with
    | Some lv => level_okb (shift m (qty_at t (line_loc t l) lines) lv)
    | None => false
    end) lines.

(** A motion of whole units between buckets. *)
Definition unit_motion (m : motion) : Prop :=
  -1 <= mv_available m <= 1 ∧ -1 <= mv_reserved m <= 1 ∧ -1 <= mv_allocated m <= 1.

(** ** Lemmas *)

Lemma level_okb_spec lv : level_okb lv = true ↔ level_ok lv.
Proof.
  unfold level_okb, level_ok, qty_okb, qty_ok. split.
  - intros Hb. bprop. lia.
  - intros (HA & HR & HL). rewrite !andb_true_iff, !Z.leb_le, !Z.ltb_lt. lia.
Qed.

Lemma movable_spec m t levels lines :
  movable m t levels lines = true ↔
  ∀ l, l ∈ lines → ∃ lv, levels !! line_loc t l = Some lv ∧
    level_ok (shift m (qty_at t (line_loc t l) lines) lv).
Proof.
  unfold movable. rewrite forallb_forall. split; intros Hr l Hl.
  - specialize (Hr l (proj1 (list_elem_of_In _ _) Hl)). case_match; [|done].
    apply level_okb_spec in Hr. eauto.
  - apply list_elem_of_In, Hr in Hl as (lv & -> & Hok). by apply level_okb_spec.
Qed.

Lemma movable_Permutation m t levels l1 l2 :
  l1 ≡ₚ l2 → movable m t levels l1 = true → movable m t levels l2 = true.
Proof.
  intros Hp. rewrite !movable_spec. intros Hr l Hl. rewrite <- Hp in Hl.
  destruct (Hr l Hl) as (lv & ? & ?). exists lv. by rewrite <- (qty_at_Permutation _ _ _ _ Hp).
Qed.

(** A part of a movement stays in range when the whole does. *)
Lemma level_ok_between m p q lv :
  unit_motion m → 0 <= p <= q → level_ok lv → level_ok (shift m q lv) → level_ok (shift m p lv).
Proof.
  destruct m as [a b c]. unfold unit_motion, level_ok, qty_ok, shift. cbn.
  intros (Ha & Hb & Hc) Hp (HA & HR & HL) (HA' & HR' & HL'). nia.
Qed.

Lemma qty_at_head_le t l lines :
  lines_nonneg (l :: lines) = true → 0 <= Quantity l <= qty_at t (line_loc t l) (l :: lines).
Proof.
  cbn [lines_nonneg forallb]. intros [Hl Hn]%andb_prop. bprop.
  pose proof (qty_at_nonneg t (line_loc t l) lines Hn).
  rewrite qty_at_cons, bool_decide_true by done. lia.
Qed.

Lemma movable_head m t levels l lines lv :
  unit_motion m → map_Forall (λ _, level_ok) levels → lines_nonneg (l :: lines) = true →
  movable m t levels (l :: lines) = true → levels !! line_loc t l = Some lv →
  level_ok (shift m (Quantity l) lv).
Proof.
  intros Hm Hwf Hn Hmv Hlv. rewrite movable_spec in Hmv.
  destruct (Hmv l (list_elem_of_here _ _)) as (lv' & Hlv' & Hok). simplify_eq.
  eapply level_ok_between; [done|by apply qty_at_head_le|by apply (Hwf _ _ Hlv)|done].
Qed.

Lemma movable_tail m t levels l lines :
  movable m t levels (l :: lines) = true →
  movable m t (move_lines m t [l] levels) lines = true.
Proof.
  rewrite !movable_spec. intros Hmv l' Hl'.
  destruct (Hmv l') as (lv & Hlv & Hok); [by apply list_elem_of_further|].
  rewrite lookup_move_lines, Hlv. eexists. split; [done|].
  rewrite shift_shift. rewrite qty_at_cons in Hok.
  unfold qty_at at 1. cbn [zsum]. by rewrite Z.add_0_r.
Qed.

Section Moves.
Context `{UuidText} `{StockHashes}.

(** The common end of the loop bodies goes through when the row exists and the
    new row passes the constraints. *)
Lemma line_tail_progress {X} t now mkev mkob l lv new (x : X) d :
  (∀ l, ev_TenantID (mkev l) = t) → (∀ l, ob_TenantID (mkob l) = t) →
  stock_levels d !! line_loc t l = Some lv → level_ok new →
  ∃ d', (_ ← UpdateStockLevel (line_loc t l) new;
         _ ← InsertStockEvent (mkev l); _ ← InsertOutboxEvent (mkob l); mret x)
          (tenant_session t now) d = Ok (d', x).
Proof.
  intros Hev Hob Hlv (HA & HR & HL). unfold mbind, Q_bind, UpdateStockLevel.
  cbn [line_loc fst]. rewrite visible_tenant. cbn [negb]. rewrite Hlv.
  rewrite check_level_intro by first [apply HA|apply HR|apply HL].
  unfold InsertStockEvent, InsertOutboxEvent, outbox_insert, mbind, Q_bind, gen_random_uuid.
  rewrite Hev, visible_tenant. cbn [negb]. rewrite Hob, visible_tenant. by eexists.
Qed.

(** A loop whose body goes through on every movable line goes through on
    movable lines. *)
Lemma foldM_progress {B} m t mkev mkob (f : B → StockLine → Q StockDB B) s :
  unit_motion m →
  (∀ acc l d lv, stock_wf d → in_int32 (Quantity l) = true →
     stock_levels d !! line_loc t l = Some lv → level_ok (shift m (Quantity l) lv) →
     ∃ d' acc', f acc l s d = Ok (d', acc')) →
  (∀ acc l d d' acc', f acc l s d = Ok (d', acc') → stock_wf d → in_int32 (Quantity l) = true →
     is_Some (stock_levels d !! line_loc t l) → stock_effect m t mkev mkob [l] d d') →
  ∀ lines acc d, stock_wf d → lines_nonneg lines = true →
    movable m t (stock_levels d) lines = true →
    ∃ d' acc', foldM f acc lines s d = Ok (d', acc') ∧ stock_effect m t mkev mkob lines d d'.
Proof.
  intros Hm Hstep Heff. induction lines as [|l lines IH]; intros acc d Hd Hn Hmv.
  { exists d, acc. split; [done|]. by apply stock_effect_nil. }
  destruct (proj1 (movable_spec _ _ _ _) Hmv l (list_elem_of_here _ _)) as (lv & Hlv & _).
  pose proof (movable_head _ _ _ _ _ _ Hm (proj2 Hd) Hn Hmv Hlv) as Hok.
  pose proof Hn as Hn'. cbn [lines_nonneg forallb] in Hn'. apply andb_prop in Hn' as [Hl Hn'].
  bprop. destruct (Hstep acc l d lv) as (d1 & acc1 & Hrun); [done..|].
  assert (stock_effect m t mkev mkob [l] d d1) as He by eauto.
  destruct (IH acc1 d1) as (d' & acc' & Hrun' & He'); [apply He|done| |].
  { rewrite (se_levels _ _ _ _ _ _ _ He). by apply movable_tail. }
  exists d', acc'. split; [|by eapply (stock_effect_trans _ _ _ _ [l])].
  cbn [foldM]. unfold mbind, Q_bind. by rewrite Hrun.
Qed.

(** The end of a run that had its effect was movable. *)
Lemma effect_movable m t mkev mkob lines d0 d' :
  stock_effect m t mkev mkob lines d0 d' →
  Forall (λ l, is_Some (stock_levels d0 !! line_loc t l)) lines →
  movable m t (stock_levels d0) lines = true.
Proof.
  intros He Hrows. apply movable_spec. intros l Hl. rewrite Forall_forall in Hrows.
  destruct (Hrows l Hl) as [lv Hlv]. exists lv. split; [done|].
  apply (proj2 (se_wf _ _ _ _ _ _ _ He) (line_loc t l)).
  by rewrite (se_levels _ _ _ _ _ _ _ He), lookup_move_lines, Hlv.
Qed.

Lemma wrap32_level a : qty_ok a → wrap32 a = a.
Proof.
  intros Ha. apply wrap32_small. unfold qty_ok, in_int32 in *. apply andb_true_intro.
  split; [apply Z.leb_le|apply Z.ltb_lt]; lia.
Qed.

Lemma GetStockLevelForUpdate_row t l now d lv :
  stock_levels d !! line_loc t l = Some lv →
  GetStockLevelForUpdate (line_loc t l) (tenant_session t now) d = Ok (d, lv).
Proof.
  intros Hlv. unfold GetStockLevelForUpdate. cbn [line_loc fst]. rewrite visible_tenant.
  cbn [negb]. by rewrite Hlv.
Qed.

Lemma release_line_progress ctx t req acc l now d lv :
  stock_levels d !! line_loc t l = Some lv → level_ok (shift releasing (Quantity l) lv) →
  ∃ d' acc', release_line ctx t req acc l (tenant_session t now) d = Ok (d', acc').
Proof.
  intros Hlv Hok. unfold release_line. unfold mbind at 1, Q_bind at 1, attempt.
  rewrite (GetStockLevelForUpdate_row _ _ _ _ _ Hlv).
  destruct (line_tail_progress t now (release_event t req)
    (line_outbox ctx t "stock.released" "release" (rel_OrderId req)) l lv
    (shift releasing (Quantity l) lv) (acc ++ [SkuId l]) d) as [d' Hrun]; [done..|].
  exists d', (acc ++ [SkuId l]). rewrite <- Hrun. destruct Hok as (HA & HR & HL). cbn in HA, HR.
  replace (AvailableQty lv + Quantity l) with (AvailableQty lv + 1 * Quantity l) by lia.
  replace (ReservedQty lv - Quantity l) with (ReservedQty lv + -1 * Quantity l) by lia.
  rewrite !wrap32_level by done.
  replace (AllocatedQty lv) with (AllocatedQty lv + 0 * Quantity l) at 1 by lia. done.
Qed.

Lemma confirm_line_progress ctx t req acc l now d lv :
  stock_levels d !! line_loc t l = Some lv → level_ok (shift allocating (Quantity l) lv) →
  ∃ d' acc', confirm_line ctx t req acc l (tenant_session t now) d = Ok (d', acc').
Proof.
  intros Hlv Hok. unfold confirm_line. unfold mbind at 1, Q_bind at 1.
  rewrite (GetStockLevelForUpdate_row _ _ _ _ _ Hlv).
  destruct (line_tail_progress t now (confirm_event t)
    (line_outbox ctx t "stock.allocated" "allocate" (cnf_OrderId req)) l lv
    (shift allocating (Quantity l) lv)
    (acc ++ [mkStockAllocationLine (SkuId l) (WarehouseId l) (Quantity l)]) d) as [d' Hrun]; [done..|].
  eexists d', _. rewrite <- Hrun. destruct Hok as (HA & HR & HL). cbn in HA, HR, HL.
  replace (AllocatedQty lv + Quantity l) with (AllocatedQty lv + 1 * Quantity l) by lia.
  replace (ReservedQty lv - Quantity l) with (ReservedQty lv + -1 * Quantity l) by lia.
  rewrite !wrap32_level by done.
  replace (AvailableQty lv) with (AvailableQty lv + 0 * Quantity l) at 1 by lia. done.
Qed.

Lemma fulfill_line_progress ctx t req acc l now d lv :
  stock_levels d !! line_loc t l = Some lv → level_ok (shift fulfilling (Quantity l) lv) →
  ∃ d' acc', fulfill_line ctx t req acc l (tenant_session t now) d = Ok (d', acc').
Proof.
  intros Hlv Hok. unfold fulfill_line. unfold mbind at 1, Q_bind at 1.
  rewrite (GetStockLevelForUpdate_row _ _ _ _ _ Hlv).
  destruct (line_tail_progress t now (fulfill_event t)
    (line_outbox ctx t "stock.fulfilled" "fulfill" (ful_OrderId req)) l lv
    (shift fulfilling (Quantity l) lv)
    (acc ++ [mkFulfillStockLine (SkuId l) (WarehouseId l)
                                (wrap32 (AllocatedQty lv - Quantity l))]) d) as [d' Hrun]; [done..|].
  eexists d', _. rewrite <- Hrun. destruct Hok as (HA & HR & HL). cbn in HA, HR, HL.
  replace (AllocatedQty lv - Quantity l) with (AllocatedQty lv + -1 * Quantity l) by lia.
  rewrite !wrap32_level by done.
  replace (AvailableQty lv) with (AvailableQty lv + 0 * Quantity l) at 1 by lia.
  replace (ReservedQty lv) with (ReservedQty lv + 0 * Quantity l) at 1 by lia. done.
Qed.

(** The three handlers over a healthy connection, their key fresh. *)
Section Fresh.
Context `{!UuidTextLaws} (now : Z) (ctx : Ctx) (t : uuid) (d : StockDB) (Hd : stock_wf d).

Lemma release_fresh req :
  lines_nonneg (rel_Lines req) = true → uuid_scan (rel_TenantId req) = Some t →
  key_seen t (rel_IdempotencyKey req) d = false →
  movable releasing t (stock_levels d) (rel_Lines req) = true →
  ∃ d' resp, ReleaseStock (healthy now) ctx req d = (d', Ok resp) ∧ relr_Success resp = true ∧
    stock_effect releasing t (release_event t req)
      (line_outbox (WithTenantID ctx (rel_TenantId req)) t "stock.released" "release"
                   (rel_OrderId req))
      (sortedLines (rel_Lines req)) (after_key t (rel_IdempotencyKey req) req (healthy now) d) d'.
Proof.
  intros Hn Ht Hk Hmv. unfold ReleaseStock, ParseUUID. rewrite Ht, release_keyed.
  rewrite (keyed_healthy _ _ _ t), Hk by done.
  edestruct (foldM_progress releasing t (release_event t req)
    (line_outbox (WithTenantID ctx (rel_TenantId req)) t "stock.released" "release"
       (rel_OrderId req))
    (release_line (WithTenantID ctx (rel_TenantId req)) t req) (tenant_session t now))
    as (d' & acc' & Hrun & He).
  7: { unfold mbind, Q_bind. rewrite Hrun. by eexists _, _. }
  - by repeat split.
  - intros. by eapply release_line_progress.
  - intros acc l d0 d1 acc' Hl Hd0 Hq Hrow. apply release_line_ok in Hl; auto using visible_tenant.
    rewrite bool_decide_true in Hl by done. apply Hl.
  - by apply recorded_wf.
  - eapply lines_nonneg_Permutation; [symmetry; apply sortedLines_Permutation|done].
  - rewrite recorded_levels.
    eapply movable_Permutation; [symmetry; apply sortedLines_Permutation|done].
Qed.

(** A keyed loop that needs its rows: it has its effect if the lines are
    movable and fails, leaving nothing, if they are not. *)
Lemma keyed_loop_decides {M R B} `{PayloadHash M} tid key (msg : M) (r0 : R) m mkev mkob
    (f : B → StockLine → Q StockDB B) (acc0 : B) (answer : B → R) (lines : list StockLine) :
  unit_motion m → lines_nonneg lines = true → uuid_scan tid = Some t → key_seen t key d = false →
  (∀ acc l d0 lv, stock_levels d0 !! line_loc t l = Some lv → level_ok (shift m (Quantity l) lv) →
     ∃ d' acc', f acc l (tenant_session t now) d0 = Ok (d', acc')) →
  (∀ acc l d0 d' acc', f acc l (tenant_session t now) d0 = Ok (d', acc') → stock_wf d0 →
     in_int32 (Quantity l) = true →
     is_Some (stock_levels d0 !! line_loc t l) ∧ stock_effect m t mkev mkob [l] d0 d') →
  let out := ExecTxWithTenant (healthy now) (WithTenantID ctx tid)
    (tx_body (keyed t key msg r0 (a ← foldM f acc0 (sortedLines lines); mret (answer a)))) d in
  if movable m t (stock_levels d) lines
  then ∃ d' a, out = (d', Some (answer a), None) ∧
         stock_effect m t mkev mkob (sortedLines lines) (after_key t key msg (healthy now) d) d'
  else ∃ e, out = (d, None, Some e).
Proof.
  intros Hm Hn Ht Hk Hprog Heff out. unfold out. clear out.
  rewrite (keyed_healthy _ _ _ t), Hk by done.
  assert (Hn' : lines_nonneg (sortedLines lines) = true)
    by (eapply lines_nonneg_Permutation; [symmetry; apply sortedLines_Permutation|done]).
  destruct (movable m t (stock_levels d) lines) eqn:Hmv.
  - destruct (foldM_progress m t mkev mkob f (tenant_session t now) Hm) with
      (lines := sortedLines lines) (acc := acc0) (d := recorded t key (payload_hash msg) now d)
      as (d' & acc' & Hrun & He); auto using recorded_wf.
    + intros. by eapply Hprog.
    + intros. by eapply Heff.
    + rewrite recorded_levels.
      eapply movable_Permutation; [symmetry; apply sortedLines_Permutation|done].
    + unfold mbind, Q_bind. rewrite Hrun. by eexists _, _.
  - unfold mbind at 1, Q_bind at 1. destruct (foldM _ _ _ _ _) as [[d' acc']|e] eqn:Hrun; [|by eexists].
    exfalso. apply not_true_iff_false in Hmv. apply Hmv.
    apply (movable_Permutation _ _ _ (sortedLines lines)); [apply sortedLines_Permutation|].
    rewrite <- (recorded_levels t key (payload_hash msg) now d).
    eapply effect_movable; [eapply foldM_effect|eapply foldM_rows];
      eauto using recorded_wf, lines_nonneg_ok. intros. by eapply Heff.
Qed.

Lemma confirm_fresh req :
  lines_nonneg (cnf_Lines req) = true → uuid_scan (cnf_TenantId req) = Some t →
  key_seen t (cnf_IdempotencyKey req) d = false →
  if movable allocating t (stock_levels d) (cnf_Lines req)
  then ∃ d' resp, ConfirmStockAllocation (healthy now) ctx req d = (d', Ok resp) ∧
    cnfr_Success resp = true ∧
    stock_effect allocating t (confirm_event t)
      (line_outbox (WithTenantID ctx (cnf_TenantId req)) t "stock.allocated" "allocate"
                   (cnf_OrderId req))
      (sortedLines (cnf_Lines req)) (after_key t (cnf_IdempotencyKey req) req (healthy now) d) d'
  else ∃ e, ConfirmStockAllocation (healthy now) ctx req d = (d, Err e).
Proof.
  intros Hn Ht Hk. unfold ConfirmStockAllocation, ParseUUID. rewrite Ht, confirm_keyed.
  pose proof (keyed_loop_decides (cnf_TenantId req) (cnf_IdempotencyKey req) req
    (mkConfirmStockAllocationResponse true []) allocating (confirm_event t)
    (line_outbox (WithTenantID ctx (cnf_TenantId req)) t "stock.allocated" "allocate"
       (cnf_OrderId req))
    (confirm_line (WithTenantID ctx (cnf_TenantId req)) t req) []
    (mkConfirmStockAllocationResponse true) (cnf_Lines req)) as Hdec.
  specialize (Hdec ltac:(by repeat split) Hn Ht Hk
    (λ acc l d0 lv, confirm_line_progress _ t req acc l now d0 lv)
    (λ acc l d0 d' acc' Hl Hw Hq, proj2 (confirm_line_ok _ _ _ _ _ _ _ _ _ Hl Hw Hq))).
  cbn zeta in Hdec. destruct (movable _ _ _ _).
  - destruct Hdec as (d' & a & -> & He). by eexists _, _.
  - destruct Hdec as (e & ->). by eexists.
Qed.

Lemma fulfill_fresh req :
  lines_nonneg (ful_Lines req) = true → uuid_scan (ful_TenantId req) = Some t →
  key_seen t (ful_IdempotencyKey req) d = false →
  if movable fulfilling t (stock_levels d) (ful_Lines req)
  then ∃ d' resp, FulfillStock (healthy now) ctx req d = (d', Ok resp) ∧
    fulr_Success resp = true ∧
    stock_effect fulfilling t (fulfill_event t)
      (line_outbox (WithTenantID ctx (ful_TenantId req)) t "stock.fulfilled" "fulfill"
                   (ful_OrderId req))
      (sortedLines (ful_Lines req)) (after_key t (ful_IdempotencyKey req) req (healthy now) d) d'
  else ∃ e, FulfillStock (healthy now) ctx req d = (d, Err e).
Proof.
  intros Hn Ht Hk. unfold FulfillStock, ParseUUID. rewrite Ht, fulfill_keyed.
  pose proof (keyed_loop_decides (ful_TenantId req) (ful_IdempotencyKey req) req
    (mkFulfillStockResponse true []) fulfilling (fulfill_event t)
    (line_outbox (WithTenantID ctx (ful_TenantId req)) t "stock.fulfilled" "fulfill"
       (ful_OrderId req))
    (fulfill_line (WithTenantID ctx (ful_TenantId req)) t req) []
    (mkFulfillStockResponse true) (ful_Lines req)) as Hdec.
  specialize (Hdec ltac:(by repeat split) Hn Ht Hk
    (λ acc l d0 lv, fulfill_line_progress _ t req acc l now d0 lv)
    (λ acc l d0 d' acc', fulfill_line_ok _ _ _ _ _ _ _ _ _)).
  cbn zeta in Hdec. destruct (movable _ _ _ _).
  - destruct Hdec as (d' & a & -> & He). by eexists _, _.
  - destruct Hdec as (e & ->). by eexists.
Qed.

End Fresh.

(** Recording one key leaves the others as they were. *)
Lemma key_seen_other {M} `{PayloadHash M} m t mkev mkob lines key (msg : M) env d d' key' :
  stock_effect m t mkev mkob lines (after_key t key msg env d) d' → key' ≠ key →
  key_seen t key' d' = key_seen t key' d.
Proof.
  intros He Hne. unfold key_seen. rewrite (se_idem _ _ _ _ _ _ _ He), after_key_idem.
  destruct (bool_decide (key = "")); [done|]. rewrite lookup_insert_ne by congruence. done.
Qed.

Lemma effect_rows {M} `{PayloadHash M} m t mkev mkob lines key (msg : M) env d d' k :
  stock_effect m t mkev mkob (sortedLines lines) (after_key t key msg env d) d' →
  stock_levels d' !! k = shift m (qty_at t k lines) <$> stock_levels d !! k.
Proof.
  intros He. rewrite (se_levels _ _ _ _ _ _ _ He), lookup_move_lines, after_key_levels.
  by rewrite (qty_at_Permutation _ _ _ _ (sortedLines_Permutation lines)).
Qed.

Lemma reserve_fresh `{!UuidTextLaws} now ctx req d t :
  stock_wf d → physical_fits (stock_levels d) →
  lines_nonneg (rsv_Lines req) = true → rsv_Lines req ≠ [] →
  uuid_scan (rsv_TenantId req) = Some t → key_seen t (rsv_IdempotencyKey req) d = false →
  reservable t (stock_levels d) (rsv_Lines req) = true →
  ∃ d' resp, ReserveStock (healthy now) ctx req d = (d', Ok resp) ∧
    rsvr_Success resp = true ∧ reserve_effect (healthy now) ctx t req d d'.
Proof.
  intros Hd Hf Hn Hne Ht Hk Hr.
  destruct (reserve_decides now ctx req d t) as (d' & resp & Hrun & Hs); [done..|].
  exists d', resp. rewrite Hr in Hs. split; [done|]. split; [done|].
  apply ReserveStock_answer with (t := t) in Hrun; auto using lines_nonneg_ok.
  by rewrite Hs, Hk in Hrun.
Qed.

(** The rows of a reservation, once it is held. *)
Lemma reserved_row t levels lines l :
  reservable t levels lines = true → physical_fits levels → map_Forall (λ _, level_ok) levels →
  lines_nonneg lines = true → l ∈ lines →
  ∃ lv, levels !! line_loc t l = Some lv ∧ level_ok lv ∧ physical lv < 2147483648 ∧
    0 <= qty_at t (line_loc t l) lines <= AvailableQty lv.
Proof.
  intros Hr Hf Hwf Hn Hl. rewrite reservable_spec in Hr.
  destruct (Hr l Hl) as (lv & Hlv & _ & Hle). exists lv. split; [done|].
  split; [by apply (Hwf _ _ Hlv)|]. split; [by apply (Hf _ _ Hlv)|].
  split; [by apply qty_at_nonneg|done].
Qed.

Ltac level_bounds :=
  unfold level_ok, qty_ok, physical, shift in *; cbn in *; lia.

(** ** Theorems *)

(** ConfirmStockAllocation over a healthy connection, for a fresh request
    with non-negative quantities: if every row it names exists and stays within
    its constraints when all the lines have moved from reserved to allocated,
    it answers success and every row has moved exactly that; otherwise it
    answers an error and the database is as it was. *)
Theorem confirm_succeeds_exactly `{!UuidTextLaws} now ctx t d req :
  stock_wf d → lines_nonneg (cnf_Lines req) = true → uuid_scan (cnf_TenantId req) = Some t →
  key_seen t (cnf_IdempotencyKey req) d = false →
  if movable allocating t (stock_levels d) (cnf_Lines req)
  then ∃ d' resp, ConfirmStockAllocation (healthy now) ctx req d = (d', Ok resp) ∧
    cnfr_Success resp = true ∧
    (∀ k, stock_levels d' !! k =
       shift allocating (qty_at t k (cnf_Lines req)) <$> stock_levels d !! k) ∧
    ev <$> stock_events d' =
      (ev <$> stock_events d) ++ (confirm_event t <$> sortedLines (cnf_Lines req))
  else ∃ e, ConfirmStockAllocation (healthy now) ctx req d = (d, Err e).
Proof.
  intros Hd Hn Ht Hk. pose proof (confirm_fresh now ctx t d Hd req Hn Ht Hk) as Hdec.
  destruct (movable _ _ _ _); [|done]. destruct Hdec as (d' & resp & Hrun & Hs & He).
  exists d', resp. do 2 (split; [done|]). split; [intros k; apply (effect_rows _ _ _ _ _ _ _ _ _ _ k He)|].
  rewrite (se_events _ _ _ _ _ _ _ He). unfold after_key. by rewrite recorded_events.
Qed.

(** Once a reservation is held, allocating it and shipping it go through:
    the three calls of an order that is paid and fulfilled, one after the
    other over a healthy connection, all answer success, and in the end each
    row has lost exactly the ordered quantity from available, with reserved
    and allocated as they were before. *)
Theorem reserve_confirm_fulfill `{!UuidTextLaws} now ctx t d rsv cnf ful lines :
  stock_wf d → physical_fits (stock_levels d) → lines_nonneg lines = true → lines ≠ [] →
  rsv_Lines rsv = lines → cnf_Lines cnf = lines → ful_Lines ful = lines →
  uuid_scan (rsv_TenantId rsv) = Some t → uuid_scan (cnf_TenantId cnf) = Some t →
  uuid_scan (ful_TenantId ful) = Some t →
  NoDup [rsv_IdempotencyKey rsv; cnf_IdempotencyKey cnf; ful_IdempotencyKey ful] →
  key_seen t (rsv_IdempotencyKey rsv) d = false → key_seen t (cnf_IdempotencyKey cnf) d = false →
  key_seen t (ful_IdempotencyKey ful) d = false →
  reservable t (stock_levels d) lines = true →
  ∃ d1 d2 d3 r1 r2 r3,
    ReserveStock (healthy now) ctx rsv d = (d1, Ok r1) ∧ rsvr_Success r1 = true ∧
    ConfirmStockAllocation (healthy now) ctx cnf d1 = (d2, Ok r2) ∧ cnfr_Success r2 = true ∧
    FulfillStock (healthy now) ctx ful d2 = (d3, Ok r3) ∧ fulr_Success r3 = true ∧
    ∀ k, stock_levels d3 !! k =
      (λ lv, mkLevel (AvailableQty lv - qty_at t k lines) (ReservedQty lv) (AllocatedQty lv)
                     (IsLockedForAudit lv) (UpdatedAt lv)) <$> stock_levels d !! k.
Proof.
  intros Hd Hf Hn Hne E1 E2 E3 T1 T2 T3 Hkeys F1 F2 F3 Hr.
  rewrite !NoDup_cons, !not_elem_of_cons in Hkeys. destruct Hkeys as [[K1 [K2 _]] [[K3 _] _]].
  subst lines.
  destruct (reserve_fresh now ctx rsv d t) as (d1 & r1 & Hrun1 & Hs1 & He1); [done..|].
  pose proof (λ k, effect_rows _ _ _ _ _ _ _ _ _ _ k He1) as L1.
  pose proof (confirm_fresh now ctx t d1 (se_wf _ _ _ _ _ _ _ He1) cnf) as Hc.
  rewrite E2, (key_seen_other _ _ _ _ _ _ _ _ _ _ _ He1), F2 in Hc by done.
  assert (movable allocating t (stock_levels d1) (rsv_Lines rsv) = true) as Hm2.
  { apply movable_spec. intros l Hl.
    destruct (reserved_row t _ _ l Hr Hf (proj2 Hd) Hn Hl) as (lv & Hlv & Hok & Hp & Hq).
    rewrite L1, Hlv. eexists. split; [done|]. level_bounds. }
  rewrite Hm2 in Hc. destruct Hc as (d2 & r2 & Hrun2 & Hs2 & He2); [done..|].
  pose proof (λ k, effect_rows _ _ _ _ _ _ _ _ _ _ k He2) as L2.
  pose proof (fulfill_fresh now ctx t d2 (se_wf _ _ _ _ _ _ _ He2) ful) as Hful.
  rewrite E3, (key_seen_other _ _ _ _ _ _ _ _ _ _ _ He2),
    (key_seen_other _ _ _ _ _ _ _ _ _ _ _ He1), F3 in Hful by done.
  assert (movable fulfilling t (stock_levels d2) (rsv_Lines rsv) = true) as Hm3.
  { apply movable_spec. intros l Hl.
    destruct (reserved_row t _ _ l Hr Hf (proj2 Hd) Hn Hl) as (lv & Hlv & Hok & Hp & Hq).
    rewrite L2, L1, Hlv. eexists. split; [done|]. level_bounds. }
  rewrite Hm3 in Hful. destruct Hful as (d3 & r3 & Hrun3 & Hs3 & He3); [done..|].
  pose proof (λ k, effect_rows _ _ _ _ _ _ _ _ _ _ k He3) as L3.
  exists d1, d2, d3, r1, r2, r3. do 6 (split; [done|]).
  intros k. rewrite L3, L2, L1. destruct (stock_levels d !! k) as [lv|]; [|done].
  cbn. f_equal. unfold shift. cbn. f_equal; lia.
Qed.

(** Releasing what was just reserved undoes the reservation: over a healthy
    connection both calls answer success and every row is back to what it
    was. *)
Theorem reserve_then_release `{!UuidTextLaws} now ctx t d rsv rel :
  stock_wf d → physical_fits (stock_levels d) → lines_nonneg (rsv_Lines rsv) = true →
  rsv_Lines rsv ≠ [] → rel_Lines rel = rsv_Lines rsv →
  uuid_scan (rsv_TenantId rsv) = Some t → uuid_scan (rel_TenantId rel) = Some t →
  rel_IdempotencyKey rel ≠ rsv_IdempotencyKey rsv →
  key_seen t (rsv_IdempotencyKey rsv) d = false → key_seen t (rel_IdempotencyKey rel) d = false →
  reservable t (stock_levels d) (rsv_Lines rsv) = true →
  ∃ d1 d2 r1 r2,
    ReserveStock (healthy now) ctx rsv d = (d1, Ok r1) ∧ rsvr_Success r1 = true ∧
    ReleaseStock (healthy now) ctx rel d1 = (d2, Ok r2) ∧ relr_Success r2 = true ∧
    stock_levels d2 = stock_levels d.
Proof.
  intros Hd Hf Hn Hne E2 T1 T2 Hk K1 K2 Hr.
  destruct (reserve_fresh now ctx rsv d t) as (d1 & r1 & Hrun1 & Hs1 & He1); [done..|].
  pose proof (λ k, effect_rows _ _ _ _ _ _ _ _ _ _ k He1) as L1.
  destruct (release_fresh now ctx t d1 (se_wf _ _ _ _ _ _ _ He1) rel)
    as (d2 & r2 & Hrun2 & Hs2 & He2); [by rewrite E2|done| | |].
  - by rewrite (key_seen_other _ _ _ _ _ _ _ _ _ _ _ He1).
  - rewrite E2. apply movable_spec. intros l Hl.
    destruct (reserved_row t _ _ l Hr Hf (proj2 Hd) Hn Hl) as (lv & Hlv & Hok & Hp & Hq).
    rewrite L1, Hlv. eexists. split; [done|]. level_bounds.
  - exists d1, d2, r1, r2. do 4 (split; [done|]). apply map_eq. intros k.
    rewrite (effect_rows _ _ _ _ _ _ _ _ _ _ k He2), L1, E2.
    destruct (stock_levels d !! k) as [[a r l lk u]|]; [|done]. cbn. f_equal.
    unfold shift. cbn. f_equal; lia.
Qed.

End Moves.
