(* ===== verification/Ledger.v ===== *)
(** * The audit log against the rows

    Which histories leave the worker nothing to lock, and which do not: the
    derivation contract of reconcile.go holds of a call exactly when its events
    carry the reasons the contract knows. *)

From S2P Require Import Prelude Database StockDb StockApi StockService StockEffects StockRefine Reconcile.
From S2P Require Import StockSteps StockReserve StockSafety StockMoves.

(** ** Specification *)

(** The columns of every row are what its events add up to, and a location
    without a row has events that add up to nothing. *)
Definition ledger_ok (d : StockDB) : Prop :=
  ∀ k, ledger k (ev <$> stock_events d) =
       match stock_levels d !! k with Some lv => level_buckets lv | None => (0, 0, 0) end.

(** The reasons deriveBuckets gives a meaning of their own. *)
Definition contract_reason (r : string) : bool :=
  bool_decide (r = "allocate") || bool_decide (r = "fulfill") ||
  bool_decide (r = "reserve") || bool_decide (r = "release").

(** The calls that keep to the contract: a release says "release", an
    adjustment does not use one of the four words, a reservation does not ask
    for a negative quantity. *)
Definition conforming (c : stock_call) : bool :=
  call_ok c &&
  match c with
  | CallAdjust r => negb (contract_reason (adj_Reason r))
  | CallReserve r => lines_nonneg (rsv_Lines r)
  | CallRelease r => bool_decide (rel_Reason r = "release")
  | CallConfirm _ | CallFulfill _ | CallUnlock _ => true
  end.

Inductive conforming_step `{UuidText} `{StockHashes} : StockDB → StockDB → Prop :=
| conforming_call env ctx c d :
    conforming c = true → conforming_step d (deliver env ctx c d)
| conforming_lock k now d d' u :
    SetAuditLock k true (sweeper_session now) d = Ok (d', u) → conforming_step d d'.

Definition motion_vec (m : motion) : Z * Z * Z := (mv_available m, mv_reserved m, mv_allocated m).

(** ** Lemmas *)

Lemma level_buckets_shift m q lv :
  level_buckets (shift m q lv) = add3 (level_buckets lv) (scale3 (motion_vec m) q).
Proof. done. Qed.

Lemma scale3_add v p q : scale3 v (p + q) = add3 (scale3 v p) (scale3 v q).
Proof. unfold scale3, add3. cbn. f_equal; [f_equal|]; lia. Qed.

Lemma scale3_0 v : scale3 v 0 = (0, 0, 0).
Proof. unfold scale3. by rewrite !Z.mul_0_r. Qed.

(** The ledger of the events of a run over [lines]. *)
Lemma ledger_lines (mkev : StockLine → InsertStockEventParams) (t : uuid) (v : Z * Z * Z) (k : loc)
    (lines : list StockLine) :
  (∀ l, l ∈ lines → params_loc (mkev l) = line_loc t l ∧
                     event_buckets (mkev l) = scale3 v (Quantity l)) →
  ledger k (mkev <$> lines) = scale3 v (qty_at t k lines).
Proof.
  induction lines as [|l lines IH]; intros Hmk; [by rewrite scale3_0|].
  rewrite fmap_cons, qty_at_cons, scale3_add. cbn [ledger].
  destruct (Hmk l (list_elem_of_here _ _)) as [-> ->].
  rewrite IH by (intros l' Hl'; apply Hmk; by apply list_elem_of_further).
  case_bool_decide; [done|]. by rewrite scale3_0, add3_0_l.
Qed.

Lemma reason_effect_plain r : contract_reason r = false → reason_effect r = (1, 0, 0).
Proof.
  unfold contract_reason, reason_effect. intros Hr. bprop.
  repeat match goal with Hb : bool_decide _ = false |- _ => rewrite Hb; clear Hb end. done.
Qed.

Section Ledger.
Context `{UuidText} `{StockHashes}.

(** A run over lines adds to the log of every location what [mkev] says. *)
Lemma ledger_effect {M} `{PayloadHash M} m t mkev mkob lines v key (msg : M) env d d' k :
  stock_effect m t mkev mkob lines (after_key t key msg env d) d' →
  (∀ l, l ∈ lines → params_loc (mkev l) = line_loc t l ∧
                     event_buckets (mkev l) = scale3 v (Quantity l)) →
  ledger k (ev <$> stock_events d') =
  add3 (ledger k (ev <$> stock_events d)) (scale3 v (qty_at t k lines)).
Proof.
  intros He Hmk. rewrite (se_events _ _ _ _ _ _ _ He). unfold after_key.
  rewrite recorded_events, ledger_app. f_equal. by apply ledger_lines.
Qed.

(** A run whose events say what its rows did keeps the books. *)
Lemma ledger_ok_effect {M} `{PayloadHash M} m t mkev mkob lines key (msg : M) env d d' :
  stock_effect m t mkev mkob lines (after_key t key msg env d) d' →
  (∀ l, l ∈ lines → params_loc (mkev l) = line_loc t l ∧
                     event_buckets (mkev l) = scale3 (motion_vec m) (Quantity l)) →
  Forall (λ l, is_Some (stock_levels d !! line_loc t l)) lines →
  ledger_ok d → ledger_ok d'.
Proof.
  intros He Hmk Hrows Hok k. rewrite (ledger_effect _ _ _ _ _ _ _ _ _ _ _ k He Hmk), Hok.
  rewrite (se_levels _ _ _ _ _ _ _ He), lookup_move_lines, after_key_levels.
  destruct (stock_levels d !! k) as [lv|] eqn:Hk; cbn [fmap option_fmap option_map].
  - by rewrite level_buckets_shift.
  - by rewrite (qty_at_no_row _ _ _ _ Hrows Hk), scale3_0.
Qed.

Lemma reserve_rows ctx t order s lines :
  ∀ failed d d', foldM (reserve_line ctx t order) failed lines s d = Ok (d', failed) → stock_wf d →
  lines_ok lines = true → visible s t = true →
  Forall (λ l, is_Some (stock_levels d !! line_loc t l)) lines.
Proof.
  induction lines as [|l lines IH]; intros failed d d' Hrun Hd Hq Hvis; [done|].
  apply lines_ok_cons in Hq as [Hq Hqs]. cbn [foldM] in Hrun.
  apply q_bind_ok in Hrun as (d1 & a & Hl & Hrun).
  apply reserve_line_ok in Hl; [|done..]. destruct (holdable t (stock_levels d) l) eqn:Hh.
  - destruct Hl as [-> He]. constructor.
    { apply holdable_spec in Hh as (lv & -> & _). by eexists. }
    eapply Forall_impl; [eapply IH; [done|apply He|done..]|].
    intros l'. cbn. rewrite (se_levels _ _ _ _ _ _ _ He), lookup_move_lines. apply fmap_is_Some.
  - destruct Hl as [-> ->]. apply reserve_loop_grows in Hrun as (more & Heq & _); [|done..].
    rewrite <- app_assoc in Heq. apply (f_equal length) in Heq.
    rewrite !length_app in Heq. cbn in Heq. lia.
Qed.

(** ReserveStock ends as its transaction does. *)
Lemma ReserveStock_fst env ctx req d t :
  uuid_scan (rsv_TenantId req) = Some t →
  (ReserveStock env ctx req d).1 = d ∨
  (ReserveStock env ctx req d).1 =
  (ExecTxWithTenant env (WithTenantID ctx (rsv_TenantId req))
     (reserve_closure (WithTenantID ctx (rsv_TenantId req)) t (sortedLines (rsv_Lines req)) req)
     d).1.1.
Proof.
  intros Ht. unfold ReserveStock, ParseUUID. rewrite Ht.
  destruct (sortedLines (rsv_Lines req)) as [|l ls]; [by left|right].
  destruct (ExecTxWithTenant _ _ _ _) as [[d' [r|]] [e|]]; cbn; try done. by case_match.
Qed.

Lemma ReserveStock_rows env ctx req d t :
  stock_wf d → lines_ok (rsv_Lines req) = true → uuid_scan (rsv_TenantId req) = Some t →
  (ReserveStock env ctx req d).1 = d ∨
  Forall (λ l, is_Some (stock_levels d !! line_loc t l)) (sortedLines (rsv_Lines req)).
Proof.
  intros Hd Hq Ht. destruct (ReserveStock_fst env ctx req d t Ht) as [?| ->]; [by left|].
  set (ctx' := WithTenantID ctx (rsv_TenantId req)).
  destruct (exec_tx_atomic env ctx' (reserve_closure ctx' t (sortedLines (rsv_Lines req)) req) d)
    as [?|(tid & [= <-] & Hrun)]; [by left|].
  revert Hrun. generalize ((ExecTxWithTenant env ctx'
    (reserve_closure ctx' t (sortedLines (rsv_Lines req)) req) d).1.1). intros d' Hrun.
  rewrite Ht, reserve_keyed in Hrun. fold (tenant_session t (tx_now env)) in Hrun.
  rewrite keyed_run in Hrun. destruct (key_seen _ _ _); [left; by injection Hrun|right].
  destruct (foldM _ _ _ _ _) as [[d1 [|f fs]]|e] eqn:Hloop; [|done..].
  apply reserve_rows in Hloop; auto using recorded_wf, sorted_ok, visible_tenant.
  by rewrite recorded_levels in Hloop.
Qed.

Lemma ConfirmStockAllocation_rows env ctx req d t :
  stock_wf d → lines_ok (cnf_Lines req) = true → uuid_scan (cnf_TenantId req) = Some t →
  (ConfirmStockAllocation env ctx req d).1 = d ∨
  Forall (λ l, is_Some (stock_levels d !! line_loc t l)) (sortedLines (cnf_Lines req)).
Proof.
  intros Hd Hq Ht. unfold ConfirmStockAllocation, ParseUUID. rewrite Ht, finish_fst, confirm_keyed.
  match goal with |- context [keyed t ?key ?msg ?r0 ?body] =>
    destruct (keyed_tx env ctx (cnf_TenantId req) t key msg r0 body d Ht) as [Hk|(Hk & r & Hrun)] end;
    [by left|right]. apply q_bind_ok in Hrun as (d1 & out & Hrun & _).
  rewrite <- (recorded_levels t (cnf_IdempotencyKey req) (payload_hash req) (tx_now env) d).
  eapply foldM_rows; [|exact Hrun|by apply recorded_wf|by apply sorted_ok].
  intros acc l d0 d2 acc' Hl Hw Hl32. apply (confirm_line_ok _ _ _ _ _ _ _ _ _ Hl Hw Hl32).
Qed.

Lemma reserve_event_books t order l :
  0 <= Quantity l → in_int32 (Quantity l) = true →
  params_loc (reserve_event t order l) = line_loc t l ∧
  event_buckets (reserve_event t order l) = scale3 (motion_vec reserving) (Quantity l).
Proof.
  intros Hq Hq32. split; [done|]. unfold event_buckets. cbn [reserve_event ev_Reason ev_Delta].
  change (reason_effect "reserve") with (1, -1, 0). change (motion_vec reserving) with (-1, 1, 0).
  rewrite wrap32_small; [unfold scale3; cbn [fst snd]; f_equal; f_equal; lia|].
  unfold in_int32 in *. bprop. apply andb_true_intro. split; [apply Z.leb_le|apply Z.ltb_lt]; lia.
Qed.

Lemma ledger_ok_adjust ctx t req env d d' :
  adjust_effect ctx t req (tx_now env) (after_key t (adj_IdempotencyKey req) req env d) d' →
  contract_reason (adj_Reason req) = false → ledger_ok d → ledger_ok d'.
Proof.
  intros [_ [Hl _] He _ _] Hr Hok k. unfold after_key in *.
  rewrite recorded_levels in Hl. rewrite recorded_events in He.
  rewrite He, ledger_app, Hok, Hl. cbn [ledger].
  assert (params_loc (adjust_event t req) = adjust_loc t req) as -> by done.
  assert (event_buckets (adjust_event t req) = (adj_QuantityDelta req, 0, 0)) as ->.
  { unfold event_buckets. cbn [adjust_event ev_Reason ev_Delta].
    rewrite reason_effect_plain by done. unfold scale3. cbn [fst snd]. f_equal; f_equal; lia. }
  case_bool_decide as Hk.
  - subst k. rewrite lookup_insert_eq. unfold adjusted_level, level_buckets, add3.
    destruct (stock_levels d !! _); cbn; f_equal; [f_equal|..]; try f_equal; lia.
  - rewrite lookup_insert_ne by done. by rewrite add3_0_r.
Qed.

Lemma ledger_ok_unlock t req now d d' : unlock_effect t req now d d' → ledger_ok d → ledger_ok d'.
Proof.
  intros [Hl He _ _ _] Hok k. rewrite He, ledger_app, Hok, Hl. cbn [ledger].
  assert (event_buckets (unlock_event t req) = (0, 0, 0)) as -> by apply scale3_0.
  rewrite !add3_0_r. destruct (bool_decide _); rewrite add3_0_r, lookup_alter;
    (destruct (decide _); [subst; by destruct (stock_levels d !! _)|done]).
Qed.

Lemma conforming_deliver env ctx c d :
  stock_wf d → conforming c = true → ledger_ok d → ledger_ok (deliver env ctx c d).
Proof.
  intros Hd [Hc Hconf]%andb_prop Hok. destruct c as [r|r|r|r|r|r]; cbn [deliver call_ok] in *.
  - destruct (AdjustStock_cases env ctx r d Hd Hc) as [->|(t & _ & _ & He)]; [done|].
    apply negb_true_iff in Hconf. by eapply ledger_ok_adjust.
  - destruct (ReserveStock_cases env ctx r d Hd Hc) as [->|(t & Ht & _ & He)]; [done|].
    destruct (ReserveStock_rows env ctx r d t Hd Hc Ht) as [->|Hrows]; [done|].
    apply (ledger_ok_effect _ _ _ _ _ _ _ _ _ _ He); [|done|done].
    intros l Hl. rewrite (sortedLines_Permutation (rsv_Lines r)) in Hl.
    unfold lines_nonneg in Hconf. rewrite forallb_forall in Hconf.
    apply list_elem_of_In, Hconf in Hl. bprop. by apply reserve_event_books.
  - destruct (ReleaseStock_cases env ctx r d Hd Hc) as [->|(t & Ht & _ & He)]; [done|].
    apply bool_decide_eq_true in Hconf.
    apply (ledger_ok_effect _ _ _ _ _ _ _ _ _ _ He); [|apply Forall_forall|done].
    + intros l _. split; [done|]. unfold event_buckets, release_event. cbn. by rewrite Hconf.
    + intros l Hl. by apply list_elem_of_filter in Hl as [? _].
  - destruct (ConfirmStockAllocation_cases env ctx r d Hd Hc) as [->|(t & Ht & _ & He)]; [done|].
    destruct (ConfirmStockAllocation_rows env ctx r d t Hd Hc Ht) as [->|Hrows]; [done|].
    by apply (ledger_ok_effect _ _ _ _ _ _ _ _ _ _ He).
  - destruct (FulfillStock_cases env ctx r d Hd Hc) as [->|(t & Ht & _ & He)]; [done|].
    destruct (FulfillStock_rows env ctx r d Hd Hc) as [->|(t' & Ht' & Hrows)]; [done|]. simplify_eq.
    by apply (ledger_ok_effect _ _ _ _ _ _ _ _ _ _ He).
  - destruct (UnlockStockForAudit_cases env ctx r d Hd) as [->|(t & _ & He)]; [done|].
    by eapply ledger_ok_unlock.
Qed.

Lemma lock_row_ledger now k d : ledger_ok d → ledger_ok (lock_row now k d).
Proof.
  intros Hok k'. cbn. rewrite Hok, lookup_alter.
  destruct (decide _); [subst; by destruct (stock_levels d !! _)|done].
Qed.

Lemma conforming_steps_ok d d' :
  rtc conforming_step d d' → stock_wf d ∧ ledger_ok d → stock_wf d' ∧ ledger_ok d'.
Proof.
  induction 1 as [|d1 d2 d3 Hstep _ IH]; [done|]. intros [Hd Hok]. apply IH. clear IH.
  destruct Hstep as [env ctx c d1 Hc|k now d1 d2 u Hs].
  - split; [|by apply conforming_deliver]. apply deliver_wf; [done|]. by apply andb_prop in Hc as [? _].
  - apply SetAuditLock_sweeper in Hs as ->. auto using lock_row_wf, lock_row_ledger.
Qed.

Lemma wrap3_level lv : level_ok lv → wrap3 (level_buckets lv) = level_buckets lv.
Proof. intros (HA & HR & HL). unfold wrap3, level_buckets. cbn. by rewrite !wrap32_level. Qed.

Lemma ledger_ok_no_drift d k : stock_wf d → ledger_ok d → drift_at d k = false.
Proof.
  intros [_ Hwf] Hok. unfold drift_at. specialize (Hok k).
  destruct (stock_levels d !! k) as [lv|] eqn:Hk; [|done].
  apply negb_false_iff, bool_decide_eq_true. rewrite Hok. apply wrap3_level, (Hwf _ _ Hk).
Qed.

(** The effect of a release that was not a replay. *)
Lemma release_answer env ctx req d d' resp t :
  ReleaseStock env ctx req d = (d', Ok resp) → stock_wf d → lines_ok (rel_Lines req) = true →
  uuid_scan (rel_TenantId req) = Some t → key_seen t (rel_IdempotencyKey req) d = false →
  stock_effect releasing t (release_event t req)
    (line_outbox (WithTenantID ctx (rel_TenantId req)) t "stock.released" "release"
                 (rel_OrderId req))
    (filter (λ l, is_Some (stock_levels d !! line_loc t l)) (sortedLines (rel_Lines req)))
    (after_key t (rel_IdempotencyKey req) req env d) d'.
Proof.
  intros Hrun Hd Hq Ht Hk. unfold ReleaseStock, ParseUUID in Hrun. rewrite Ht in Hrun.
  apply finish_ok in Hrun. rewrite release_keyed in Hrun.
  apply (keyed_success _ _ _ t) in Hrun; [|done]. rewrite Hk in Hrun.
  apply q_bind_ok in Hrun as (d1 & rel & Hrun & [= <- _]).
  apply release_loop_effect in Hrun as [_ He]; auto using recorded_wf, sorted_ok, visible_tenant.
  by rewrite recorded_levels in He.
Qed.

Lemma qty_at_filter (t : uuid) (k : loc) (lines : list StockLine) (levels : gmap loc StockLevel) lv :
  levels !! k = Some lv →
  qty_at t k (filter (λ l, is_Some (levels !! line_loc t l)) lines) = qty_at t k lines.
Proof.
  intros Hk. unfold qty_at. induction lines as [|l lines IH]; [done|].
  rewrite filter_cons. case_decide as Hl; cbn [zsum]; rewrite IH; [done|].
  case_bool_decide; subst; [|lia]. by rewrite Hk in Hl; destruct Hl.
Qed.

(** ** Theorems *)

(** C21. As long as every call keeps to the derivation contract (releases say
    "release", adjustments use none of the four contract words, reservations
    are for non-negative quantities), whatever fails, repeats or interleaves,
    a pass of the reconciliation worker finds no drift and locks no row. *)
Theorem conforming_never_locked now d :
  rtc conforming_step empty_stock d → events_fit d = true →
  ∃ d', Reconcile now d = (d', Ok []) ∧ stock_levels d' = stock_levels d.
Proof.
  intros Hsteps Hfit. apply conforming_steps_ok in Hsteps as [Hd Hok]; [|by split; [|intros k]].
  unfold Reconcile, Reconcile_with, ListDistinctEventLocations. rewrite visible_events_bypass.
  destruct (reconcile_locations_spec now (remove_dups (ev_loc <$> stock_events d)) d [] Hfit)
    as (d' & drifts & -> & Hf & _ & Hl); [apply NoDup_remove_dups|].
  exists d'. rewrite filter_none in Hf.
  - apply fmap_nil_inv in Hf as ->. split; [done|]. apply map_eq. intros k. rewrite Hl.
    by rewrite ledger_ok_no_drift, andb_false_r, option_fmap_id by done.
  - apply Forall_forall. intros k _. by rewrite ledger_ok_no_drift.
Qed.

(** A release under any reason other than the contract words (the sweeper
    says "ttl_expiry", the saga "payment_failed" and "customer_cancel") breaks
    the books of every location it moves goods at: the row's reserved bucket
    drops and the derived one does not, so the next pass reports a drift where
    there is none and locks the row. *)
Theorem operational_release_drifts env ctx req d d' resp t k lv :
  stock_wf d → ledger_ok d → lines_ok (rel_Lines req) = true →
  uuid_scan (rel_TenantId req) = Some t → key_seen t (rel_IdempotencyKey req) d = false →
  contract_reason (rel_Reason req) = false →
  ReleaseStock env ctx req d = (d', Ok resp) →
  stock_levels d !! k = Some lv → qty_at t k (rel_Lines req) ≠ 0 →
  drift_at d' k = true.
Proof.
  intros Hd Hok Hq Ht Hk Hr Hrun Hlv Hne. apply (release_answer _ _ _ _ _ _ t) in Hrun as He; [|done..].
  unfold drift_at. rewrite (se_levels _ _ _ _ _ _ _ He), lookup_move_lines, after_key_levels, Hlv.
  cbn [fmap option_fmap option_map].
  rewrite (ledger_effect _ _ _ _ _ (1, 0, 0) _ _ _ _ _ k He).
  - rewrite Hok, Hlv, (qty_at_filter _ _ _ _ _ Hlv).
    rewrite (qty_at_Permutation _ _ _ _ (sortedLines_Permutation (rel_Lines req))).
    apply negb_true_iff, bool_decide_eq_false. intros Heq. apply (f_equal (λ x, x.1.2)) in Heq.
    cbn -[wrap32 Z.mul] in Heq. rewrite wrap32_level in Heq; [lia|].
    rewrite Z.mul_0_l, Z.add_0_r. apply (proj2 Hd _ _ Hlv).
  - intros l _. split; [done|]. unfold event_buckets. cbn [release_event ev_Reason ev_Delta].
    by rewrite reason_effect_plain.
Qed.

End Ledger.
