(* ===== verification/StockAdjust.v ===== *)
(** * AdjustStock: what the constraints leave of the clamping

    The handler clamps a row that would go below zero and raises a deficit
    alert.  With the CHECK constraints of migration 000004 the database tests
    the row the upsert proposes, whose available quantity is the delta itself,
    before it looks for a conflict: every negative delta is refused. *)

From S2P Require Import Prelude Database StockDb StockApi StockService StockEffects StockRefine Reconcile.
From S2P Require Import StockSteps StockReserve StockSafety StockMoves.

(** ** Specification *)

(** What is available at the location before the adjustment. *)
Definition available_at (d : StockDB) (k : loc) : Z :=
  match stock_levels d !! k with Some lv => AvailableQty lv | None => 0 end.

(** The columns an adjustment leaves: the quantity it is told, the rest as it
    was. *)
Definition with_available (old : option StockLevel) (q now : Z) : StockLevel :=
  match old with
  | None => mkLevel q 0 0 false now
  | Some lv => mkLevel q (ReservedQty lv) (AllocatedQty lv) (IsLockedForAudit lv) now
  end.

(** ** Lemmas *)

Section Adjust.
Context `{UuidText} `{StockHashes}.

Lemma AdjustStock_healthy `{!UuidTextLaws} now ctx req d t :
  uuid_scan (adj_TenantId req) = Some t → key_seen t (adj_IdempotencyKey req) d = false →
  AdjustStock (healthy now) ctx req d =
  match adjust_apply (WithTenantID ctx (adj_TenantId req)) t req (tenant_session t now)
          (recorded t (adj_IdempotencyKey req) (payload_hash req) now d) with
  | Ok (d', r) => (d', Ok r)
  | Err e => (d, Err (ErrStatusf Internal "adjust stock: %v" e))
  end.
Proof.
  intros Ht Hk. unfold AdjustStock, ParseUUID. rewrite Ht.
  rewrite (exec_tx_healthy _ _ _ _ (adj_TenantId req));
    [|done|intros He; rewrite He, uuid_scan_empty in Ht; done].
  rewrite Ht. unfold tx_body, adjust_closure, mbind, Q_bind. fold (tenant_session t now).
  rewrite tryIdempotency_run, Hk.
  by destruct (adjust_apply _ _ _ _ _) as [[d' r]|e].
Qed.

(** The statements after the upsert, on the row it left. *)
Lemma adjust_after_upsert ctx t req now d new :
  check_level d (mkLevel (AvailableQty new `max` 0) (ReservedQty new) (AllocatedQty new)
                         (IsLockedForAudit new) (UpdatedAt new)) = Ok () →
  UpsertStockLevel (adjust_loc t req) (adj_QuantityDelta req) (tenant_session t now) d =
    Ok (set_levels (<[adjust_loc t req := new]> (stock_levels d)) d, new) →
  ∃ d' r, adjust_apply ctx t req (tenant_session t now) d = Ok (d', r) ∧
    stock_levels d' = <[adjust_loc t req :=
       mkLevel (AvailableQty new `max` 0) (ReservedQty new) (AllocatedQty new)
               (IsLockedForAudit new) (UpdatedAt new)]> (stock_levels d) ∧
    adjr_Success r = true ∧ adjr_AvailableQty r = AvailableQty new `max` 0 ∧
    adjr_IsClampedZero r = (AvailableQty new <? 0) ∧
    ob_EventType ∘ ob <$> stock_outbox d' = (ob_EventType ∘ ob <$> stock_outbox d) ++
      "stock.adjusted" :: (if AvailableQty new <? 0 then ["stock.deficit_alert"] else []) ∧
    ev <$> stock_events d' = (ev <$> stock_events d) ++ [adjust_event t req].
Proof.
  intros Hck Hup. unfold adjust_apply. fold (adjust_loc t req).
  unfold mbind, Q_bind. rewrite Hup. unfold GetStockLevelForUpdate.
  cbn [adjust_loc fst]. rewrite visible_tenant. cbn [negb stock_levels set_levels].
  rewrite lookup_insert_eq. unfold UpdateStockLevel. cbn [adjust_loc fst].
  rewrite visible_tenant. cbn [negb stock_levels set_levels]. rewrite lookup_insert_eq.
  assert ((if AvailableQty new <? 0 then 0 else AvailableQty new) = AvailableQty new `max` 0) as ->.
  { case (Z.ltb_spec (AvailableQty new) 0); lia. }
  change (check_level (set_levels ?l d) ?lv) with (check_level d lv). rewrite Hck.
  unfold InsertStockEvent, InsertOutboxEvent, outbox_insert, mbind, Q_bind, gen_random_uuid.
  cbn [ev_TenantID]. rewrite visible_tenant. cbn [negb]. cbn [stock_outbox_event ob_TenantID].
  rewrite visible_tenant. cbn [negb]. destruct (AvailableQty new <? 0).
  all: rewrite ?visible_tenant; eexists _, _; split; [done|]; cbn.
  all: rewrite insert_insert_eq, !fmap_app; repeat split.
  by rewrite <- app_assoc.
Qed.

Lemma level_eta lv :
  mkLevel (AvailableQty lv) (ReservedQty lv) (AllocatedQty lv) (IsLockedForAudit lv) (UpdatedAt lv)
  = lv.
Proof. by destruct lv. Qed.

Lemma available_at_eq d0 d k : stock_levels d0 = stock_levels d → available_at d0 k = available_at d k.
Proof. unfold available_at. by intros ->. Qed.

Lemma upsert_row t req now d :
  check_level d (mkLevel (adj_QuantityDelta req) 0 0 false now) = Ok () →
  let k := adjust_loc t req in
  let sum := available_at d k + adj_QuantityDelta req in
  let new := with_available (stock_levels d !! k) sum now in
  in_int32 sum = true → check_level d new = Ok () →
  UpsertStockLevel k (adj_QuantityDelta req) (tenant_session t now) d =
    Ok (set_levels (<[k := new]> (stock_levels d)) d, new).
Proof.
  intros Hprop k sum new Hsum Hnew. unfold UpsertStockLevel. subst k sum new.
  cbn [adjust_loc fst] in *. rewrite visible_tenant. cbn [negb tenant_session s_now].
  rewrite Hprop. unfold available_at in *. fold (adjust_loc t req) in *.
  destruct (stock_levels d !! adjust_loc t req) as [old|]; cbn [with_available] in *.
  - rewrite Hsum. cbn [negb]. by rewrite Hnew.
  - by rewrite Z.add_0_l.
Qed.

(** ** Theorems *)

(** On the migrated schema AdjustStock decides as follows, for a fresh
    request over a healthy connection: a non-negative delta whose sum is an
    int32 is added to the available quantity and nothing else of the row
    moves; a negative delta, or one that overflows, is an error and changes
    nothing, so the row is never clamped and no deficit alert is ever
    raised. *)
Theorem adjust_decides `{!UuidTextLaws} now ctx req d t :
  stock_wf d → in_int32 (adj_QuantityDelta req) = true →
  uuid_scan (adj_TenantId req) = Some t → key_seen t (adj_IdempotencyKey req) d = false →
  let k := adjust_loc t req in
  let sum := available_at d k + adj_QuantityDelta req in
  if (0 <=? adj_QuantityDelta req) && in_int32 sum
  then ∃ d' r, AdjustStock (healthy now) ctx req d = (d', Ok r) ∧
    adjr_Success r = true ∧ adjr_AvailableQty r = sum ∧ adjr_IsClampedZero r = false ∧
    stock_levels d' = <[k := with_available (stock_levels d !! k) sum now]> (stock_levels d) ∧
    ev <$> stock_events d' = (ev <$> stock_events d) ++ [adjust_event t req]
  else ∃ e, AdjustStock (healthy now) ctx req d = (d, Err e).
Proof.
  intros Hd Hq Ht Hk k sum. rewrite (AdjustStock_healthy now ctx req d t Ht Hk).
  set (d0 := recorded t (adj_IdempotencyKey req) (payload_hash req) now d).
  assert (stock_levels d0 = stock_levels d) as Hl0 by apply recorded_levels.
  assert (stock_wf d0) as Hd0 by by apply recorded_wf.
  assert (∀ lv, stock_levels d !! k = Some lv → level_ok lv) as Hrow by (intros lv; apply Hd).
  destruct ((0 <=? adj_QuantityDelta req) && in_int32 sum) eqn:Hb.
  - apply andb_prop in Hb as [Hpos Hsum]. bprop.
    assert (0 <= sum) as Hsum0.
    { unfold sum, available_at. destruct (stock_levels d !! k) as [lv|] eqn:E; [|lia].
      destruct (Hrow _ eq_refl) as [[? ?] _]. lia. }
    set (new := with_available (stock_levels d !! k) sum now).
    assert (AvailableQty new = sum ∧ 0 <= ReservedQty new ∧ 0 <= AllocatedQty new) as (Ha & Hr & Hal).
    { unfold new, with_available. destruct (stock_levels d !! k) as [lv|] eqn:E; cbn; [|lia].
      destruct (Hrow _ eq_refl) as (_ & [? _] & [? _]). done. }
    assert (mkLevel sum (ReservedQty new) (AllocatedQty new) (IsLockedForAudit new) (UpdatedAt new)
            = new) as Heta by (rewrite <- Ha; apply level_eta).
    assert (check_level d0 new = Ok ()) as Hck by (apply check_level_intro; [lia|done..]).
    destruct (adjust_after_upsert (WithTenantID ctx (adj_TenantId req)) t req now d0 new)
      as (d' & r & -> & Hlv & Hs & Hav & Hcl & _ & Hev).
    + rewrite Z.max_l, level_eta by lia. done.
    + unfold new. rewrite (upsert_row t req now d0); rewrite ?(available_at_eq d0 d), ?Hl0; try done.
      by apply check_level_intro.
    + exists d', r. rewrite Hav, Hcl, Hlv, Hev, Ha, Z.max_l, Hl0 by lia.
      rewrite Heta.
      repeat split; try done; [by apply Z.ltb_ge|]. unfold d0. by rewrite recorded_events.
  - destruct (adjust_apply _ _ _ _ _) as [[d' r]|e] eqn:Hrun; [|by eexists]. exfalso.
    apply not_true_iff_false in Hb. apply Hb. apply adjust_apply_ok in Hrun; [|done..].
    pose proof (ae_delta _ _ _ _ _ _ Hrun) as Hpos. apply andb_true_intro.
    split; [by apply Z.leb_le|].
    pose proof (proj2 (ae_wf _ _ _ _ _ _ Hrun) k) as Hok.
    destruct (ae_levels _ _ _ _ _ _ Hrun) as [Hl _]. rewrite Hl in Hok.
    specialize (Hok _ (lookup_insert_eq _ _ _)). destruct Hok as [[? ?] _].
    clear Hl. rewrite Hl0 in *. unfold sum, k, available_at, adjusted_level in *.
    unfold in_int32. apply andb_true_intro. rewrite Z.leb_le, Z.ltb_lt.
    destruct (stock_levels d !! adjust_loc t req); cbn in *; lia.
Qed.

(** On the schema without the constraints (before migration 000004, or with
    it rolled back) the handler clamps as its comment says: a delta that would
    take the row below zero leaves zero, the answer says so, and a deficit
    alert follows the adjustment in the outbox. *)
Theorem adjust_clamps `{!UuidTextLaws} now ctx req d t :
  stock_checks d = false →
  uuid_scan (adj_TenantId req) = Some t → key_seen t (adj_IdempotencyKey req) d = false →
  let k := adjust_loc t req in
  let sum := available_at d k + adj_QuantityDelta req in
  in_int32 sum = true → sum < 0 →
  ∃ d' r, AdjustStock (healthy now) ctx req d = (d', Ok r) ∧
    adjr_AvailableQty r = 0 ∧ adjr_IsClampedZero r = true ∧
    stock_levels d' = <[k := with_available (stock_levels d !! k) 0 now]> (stock_levels d) ∧
    ob_EventType ∘ ob <$> stock_outbox d' =
      (ob_EventType ∘ ob <$> stock_outbox d) ++ ["stock.adjusted"; "stock.deficit_alert"].
Proof.
  intros Hc Ht Hk k sum Hsum Hneg. rewrite (AdjustStock_healthy now ctx req d t Ht Hk).
  set (d0 := recorded t (adj_IdempotencyKey req) (payload_hash req) now d).
  assert (stock_levels d0 = stock_levels d) as Hl0 by apply recorded_levels.
  assert (∀ lv, check_level d0 lv = Ok ()) as Hck.
  { intros lv. unfold check_level, d0, recorded. case_bool_decide; cbn; by rewrite Hc. }
  set (new := with_available (stock_levels d !! k) sum now).
  assert (AvailableQty new = sum) as Ha
    by (unfold new, with_available; by destruct (stock_levels d !! k)).
  destruct (adjust_after_upsert (WithTenantID ctx (adj_TenantId req)) t req now d0 new)
    as (d' & r & -> & Hlv & _ & Hav & Hcl & Hob & _); [done| |].
  - unfold new. rewrite (upsert_row t req now d0); rewrite ?(available_at_eq d0 d), ?Hl0; done.
  - exists d', r. rewrite Hav, Hcl, Hob, Hlv, Ha, Z.max_r, Hl0 by lia.
    assert ((sum <? 0) = true) as -> by by apply Z.ltb_lt. repeat split.
    + unfold new, with_available. by destruct (stock_levels d !! k).
    + unfold d0. by rewrite recorded_outbox.
Qed.

End Adjust.
