(* ===== verification/Locks.v ===== *)
(** * Row locks: sortedLines avoids deadlocks

    The transactions of the stock service take locks as they go: the row of
    their idempotency key (a concurrent INSERT of the same key waits for the
    first one to end), then the rows of [stock_levels] that SELECT ... FOR
    UPDATE names, line by line in the order of sortedLines.  Locks are held
    until the transaction ends.  Here the transactions run interleaved, one
    lock at a time. *)

From S2P Require Import Prelude Database StockDb StockApi StockService StockEffects StockSteps.

(** ** Locks *)

Inductive lock :=
| KeyLock (t : uuid) (key : string)
| RowLock (k : loc).

#[export] Instance lock_eq_dec : EqDecision lock.
Proof. solve_decision. Defined.

(** The locks a handler asks for, in the order of its statements. *)
Definition lock_requests (t : uuid) (c : stock_call) : list lock :=
  let key := if bool_decide (call_key c = "") then [] else [KeyLock t (call_key c)] in
  let rows lines := RowLock ∘ line_loc t <$> sortedLines lines in
  match c with
  | CallAdjust r => key ++ [RowLock (t, adj_SkuId r, adj_WarehouseId r)]
  | CallReserve r => key ++ rows (rsv_Lines r)
  | CallRelease r => key ++ rows (rel_Lines r)
  | CallConfirm r => key ++ rows (cnf_Lines r)
  | CallFulfill r => key ++ rows (ful_Lines r)
  | CallUnlock r => key ++ [RowLock (t, ulk_SkuId r, ulk_WarehouseId r)]
  end.

(** ** Interleaved transactions *)

Record tx := mkTx { tx_held : list lock; tx_todo : list lock }.

Definition tx_start (todo : list lock) : tx := mkTx [] todo.
Definition tx_over : tx := mkTx [] [].

(** [l] is not held by another transaction than [i]. *)
Definition free_for (i : nat) (l : lock) (txs : list tx) : Prop :=
  ∀ j x, j ≠ i → txs !! j = Some x → l ∉ tx_held x.

Inductive lock_step : list tx → list tx → Prop :=
| lock_acquire i held l todo txs :
    txs !! i = Some (mkTx held (l :: todo)) → free_for i l txs →
    lock_step txs (<[i := mkTx (l :: held) todo]> txs)
| lock_commit i held txs :
    txs !! i = Some (mkTx held []) → held ≠ [] → lock_step txs (<[i := tx_over]> txs).

(** A transaction that fails gives up its locks. *)
Inductive abort_step : list tx → list tx → Prop :=
| lock_abort i held l todo txs :
    txs !! i = Some (mkTx held (l :: todo)) → abort_step txs (<[i := tx_over]> txs).

Definition any_step (txs txs' : list tx) : Prop := lock_step txs txs' ∨ abort_step txs txs'.

Definition all_over (txs : list tx) : Prop := Forall (λ x, x = tx_over) txs.

(** ** The order *)

Definition row_le (k1 k2 : loc) : Prop :=
  k1.1.1 = k2.1.1 ∧
  if bool_decide (k1.1.2 = k2.1.2) then String.le k1.2 k2.2 else String.le k1.1.2 k2.1.2.

Definition lock_le (l1 l2 : lock) : Prop :=
  match l1, l2 with
  | KeyLock t1 k1, KeyLock t2 k2 => t1 = t2 ∧ k1 = k2
  | KeyLock _ _, RowLock _ => True
  | RowLock _, KeyLock _ _ => False
  | RowLock k1, RowLock k2 => row_le k1 k2
  end.

Definition lock_lt (l1 l2 : lock) : Prop := lock_le l1 l2 ∧ l1 ≠ l2.

#[export] Instance row_le_dec : RelDecision row_le.
Proof. intros k1 k2. unfold row_le. destruct (bool_decide _); apply _. Defined.

#[export] Instance lock_le_dec : RelDecision lock_le.
Proof. intros [t1 k1|k1] [t2 k2|k2]; cbn; apply _. Defined.

#[export] Instance lock_lt_dec : RelDecision lock_lt.
Proof. intros l1 l2. unfold lock_lt. apply _. Defined.

(** ** Lemmas *)

(** *** The order is one *)

(** Lexicographic comparison of (SKU, warehouse). *)
Definition lex_le (p q : string * string) : Prop :=
  if bool_decide (p.1 = q.1) then String.le p.2 q.2 else String.le p.1 q.1.

#[export] Instance lex_le_trans : Transitive lex_le.
Proof.
  intros [a1 b1] [a2 b2] [a3 b3]. unfold lex_le. cbn [fst snd].
  destruct (decide (a1 = a2)) as [<-|H12].
  - rewrite (bool_decide_true (a1 = a1)) by done. case_bool_decide; [|done]. intros. by etrans.
  - rewrite (bool_decide_false (a1 = a2)) by done. destruct (decide (a2 = a3)) as [<-|H23].
    + rewrite (bool_decide_true (a2 = a2)), bool_decide_false by done. done.
    + rewrite (bool_decide_false (a2 = a3)) by done. case_bool_decide; [|intros; by etrans].
      subst. intros. destruct H12. by apply (anti_symm String.le).
Qed.

#[export] Instance lex_le_antisym : AntiSymm (=) lex_le.
Proof.
  intros [a1 b1] [a2 b2]. unfold lex_le. cbn [fst snd].
  destruct (decide (a1 = a2)) as [<-|Hne].
  - rewrite !bool_decide_true by done. intros. f_equal. by apply (anti_symm String.le).
  - rewrite !bool_decide_false by done. intros. destruct Hne. by apply (anti_symm String.le).
Qed.

#[export] Instance lex_le_total : Total lex_le.
Proof.
  intros [a1 b1] [a2 b2]. unfold lex_le. cbn [fst snd].
  destruct (decide (a1 = a2)) as [<-|Hne].
  - rewrite !bool_decide_true by done. apply total, _.
  - rewrite !bool_decide_false by done. apply total, _.
Qed.

Lemma line_le_lex l1 l2 :
  line_le l1 l2 ↔ lex_le (SkuId l1, WarehouseId l1) (SkuId l2, WarehouseId l2).
Proof. done. Qed.

#[export] Instance line_le_trans : Transitive line_le.
Proof. intros l1 l2 l3. rewrite !line_le_lex. apply lex_le_trans. Qed.

#[export] Instance line_le_total : Total line_le.
Proof. intros l1 l2. rewrite !line_le_lex. apply lex_le_total. Qed.

#[export] Instance row_le_trans : Transitive row_le.
Proof.
  intros k1 k2 k3 [Ht1 H1] [Ht2 H2]. split; [congruence|].
  exact (lex_le_trans (k1.1.2, k1.2) (k2.1.2, k2.2) (k3.1.2, k3.2) H1 H2).
Qed.

#[export] Instance row_le_antisym : AntiSymm (=) row_le.
Proof.
  intros [[t1 s1] w1] [[t2 s2] w2] [Ht H1] [_ H2]. cbn in Ht. subst.
  pose proof (lex_le_antisym (s1, w1) (s2, w2) H1 H2). congruence.
Qed.

#[export] Instance lock_le_trans : Transitive lock_le.
Proof. intros [??|?] [??|?] [??|?]; cbn; try done; [naive_solver|apply row_le_trans]. Qed.

#[export] Instance lock_le_antisym : AntiSymm (=) lock_le.
Proof.
  intros [??|?] [??|?]; cbn; try done; [naive_solver|].
  intros. f_equal. by apply (anti_symm row_le).
Qed.

#[export] Instance lock_lt_trans : Transitive lock_lt.
Proof.
  intros l1 l2 l3 [H1 N1] [H2 N2]. split; [by etrans|]. intros ->. apply N1.
  by apply (anti_symm lock_le).
Qed.

#[export] Instance lock_lt_irrefl : Irreflexive lock_lt.
Proof. intros l [_ Hne]. done. Qed.

Lemma max_exists {A} (R : relation A) `{!Transitive R, !Irreflexive R, !RelDecision R} (l : list A) :
  l ≠ [] → ∃ x, x ∈ l ∧ ∀ y, y ∈ l → ¬ R x y.
Proof.
  induction l as [|x l IH]; [done|]. intros _. destruct l as [|y l].
  - exists x. split; [apply list_elem_of_here|]. intros y ->%list_elem_of_singleton.
    apply irreflexivity, _.
  - destruct IH as (m & Hm & Hmax); [done|]. destruct (decide (R m x)) as [Hr|Hr].
    + exists x. split; [apply list_elem_of_here|]. intros z [->|Hz]%elem_of_cons Hxz.
      * by apply (irreflexivity R x).
      * apply (Hmax z Hz). by etrans.
    + exists m. split; [by apply list_elem_of_further|]. intros z [->|Hz]%elem_of_cons; auto.
Qed.

(** *** What the lock steps keep *)

#[export] Instance tx_eq_dec : EqDecision tx.
Proof. solve_decision. Defined.

(** A transaction asks for its locks in order, above those it holds. *)
Definition tx_sorted (x : tx) : Prop :=
  StronglySorted lock_le (tx_todo x) ∧ ∀ h l, h ∈ tx_held x → l ∈ tx_todo x → lock_le h l.

(** No lock is held twice. *)
Definition exclusive (txs : list tx) : Prop :=
  ∀ i j x y l, i ≠ j → txs !! i = Some x → txs !! j = Some y → l ∈ tx_held x → l ∉ tx_held y.

Definition locks_ok (txs : list tx) : Prop := Forall tx_sorted txs ∧ exclusive txs.

Lemma sortedLines_locks t lines : StronglySorted lock_le (RowLock ∘ line_loc t <$> sortedLines lines).
Proof.
  assert (StronglySorted line_le (sortedLines lines)) as Hs
    by (apply StronglySorted_merge_sort; apply _).
  induction Hs as [|l ls Hs IH Hall]; [constructor|]. rewrite fmap_cons. constructor; [done|].
  apply Forall_fmap. eapply Forall_impl; [done|]. intros l' Hl'. by split.
Qed.

Lemma key_then_rows t key rows :
  StronglySorted lock_le (RowLock <$> rows) →
  StronglySorted lock_le
    ((if bool_decide (key = "") then [] else [KeyLock t key]) ++ (RowLock <$> rows)).
Proof.
  intros Hs. destruct (bool_decide _); [done|]. constructor; [done|].
  apply Forall_fmap, Forall_true. done.
Qed.

(** Every handler asks for its locks in order. *)
Lemma lock_requests_sorted t c : StronglySorted lock_le (lock_requests t c).
Proof.
  assert (∀ k, StronglySorted lock_le (RowLock <$> [k])) as H1 by (intros k; by repeat constructor).
  assert (∀ lines, StronglySorted lock_le (RowLock <$> (line_loc t <$> sortedLines lines))) as H2.
  { intros lines. rewrite <- list_fmap_compose. apply sortedLines_locks. }
  destruct c; unfold lock_requests; rewrite ?list_fmap_compose;
    first [apply (key_then_rows _ _ [_]), H1|apply key_then_rows, H2].
Qed.

Lemma locks_ok_start (todos : list (list lock)) :
  Forall (StronglySorted lock_le) todos → locks_ok (tx_start <$> todos).
Proof.
  intros Hs. split.
  - apply Forall_fmap. eapply Forall_impl; [done|]. intros todo Ht. split; [done|].
    by intros h l ?%elem_of_nil.
  - intros i j x y l _ Hx _. apply list_lookup_fmap_Some_1 in Hx as (? & -> & _).
    by intros ?%elem_of_nil.
Qed.

Lemma tx_over_sorted : tx_sorted tx_over.
Proof. split; [constructor|]. by intros h l ?%elem_of_nil. Qed.

Lemma exclusive_over i txs : exclusive txs → exclusive (<[i := tx_over]> txs).
Proof.
  intros Hex j k x y l Hne Hj Hk. apply list_lookup_insert_Some in Hj, Hk.
  destruct Hj as [(_ & <- & _)|[_ Hj]]; [by intros ?%elem_of_nil|].
  destruct Hk as [(_ & <- & _)|[_ Hk]]; [by intros _ ?%elem_of_nil|]. by eapply Hex.
Qed.

Lemma locks_ok_step txs txs' : any_step txs txs' → locks_ok txs → locks_ok txs'.
Proof.
  intros [[i held l todo txs1 Hi Hfree|i held txs1 Hi _]|[i held l todo txs1 Hi]] [Hs Hex].
  - pose proof (Forall_lookup_1 _ _ _ _ Hs Hi) as [Hsort Hle]. cbn in Hsort, Hle.
    apply StronglySorted_inv in Hsort as [Hsort Hall]. rewrite Forall_forall in Hall. split.
    + apply Forall_insert; [done|]. split; [done|]. cbn. intros h l' [->|Hh]%elem_of_cons Hl'; [auto|].
      apply Hle; [done|by apply list_elem_of_further].
    + intros j k x y l' Hne Hj Hk. apply list_lookup_insert_Some in Hj, Hk.
      destruct Hj as [(<- & <- & _)|[Hji Hj]], Hk as [(<- & <- & _)|[Hki Hk]]; try done; cbn.
      * intros [->|Hl]%elem_of_cons; [by apply (Hfree k y)|]. by eapply (Hex _ _ _ _ _ Hne Hi Hk).
      * intros Hl [->|Hl']%elem_of_cons; [by apply (Hfree j x) in Hl|].
        by eapply (Hex _ _ _ _ _ Hne Hj Hi).
      * intros Hl. by apply (Hex j k x y l').
  - split; [apply Forall_insert; [done|apply tx_over_sorted]|by apply exclusive_over].
  - split; [apply Forall_insert; [done|apply tx_over_sorted]|by apply exclusive_over].
Qed.

(** A lock that is not free has a holder. *)
Lemma free_or_held (i : nat) (l : lock) (txs : list tx) :
  free_for i l txs ∨ ∃ j x, j ≠ i ∧ txs !! j = Some x ∧ l ∈ tx_held x.
Proof.
  set (held_at j := match txs !! j with Some x => bool_decide (l ∈ tx_held x) | None => false end).
  destruct (decide (Exists (λ j, j ≠ i ∧ held_at j = true) (seq 0 (length txs)))) as [He|He].
  - right. apply Exists_exists in He as (j & _ & Hne & Hj). unfold held_at in Hj.
    destruct (txs !! j) as [x|] eqn:Hx; [|done]. apply bool_decide_eq_true in Hj. eauto.
  - left. intros j x Hne Hj Hl. apply He, Exists_exists. exists j. split.
    + apply elem_of_seq. apply lookup_lt_Some in Hj. lia.
    + split; [done|]. unfold held_at. rewrite Hj. by apply bool_decide_eq_true.
Qed.

(** The first lock each waiting transaction asks for. *)
Definition waits (txs : list tx) : list lock := omap (λ x, head (tx_todo x)) txs.

Lemma elem_of_waits l txs :
  l ∈ waits txs ↔ ∃ i held todo, txs !! i = Some (mkTx held (l :: todo)).
Proof.
  unfold waits. rewrite list_elem_of_omap. split.
  - intros ([held [|l' todo]] & Hx & Hl); [done|]. injection Hl as ->.
    apply list_elem_of_lookup in Hx as [i Hi]. eauto.
  - intros (i & held & todo & Hi). exists (mkTx held (l :: todo)). split; [|done].
    by eapply list_elem_of_lookup_2.
Qed.

(** Some transaction can always go on. *)
Lemma lock_progress txs : locks_ok txs → all_over txs ∨ ∃ txs', lock_step txs txs'.
Proof.
  intros [Hs Hex]. destruct (waits txs) as [|l0 ls] eqn:Hw.
  - destruct (decide (Forall (λ x, x = tx_over) txs)) as [|Hn]; [by left|right].
    apply not_Forall_Exists, Exists_exists in Hn as ([held todo] & Hx & Hne); [|apply _].
    apply list_elem_of_lookup in Hx as [i Hi]. destruct todo as [|l todo].
    + eexists. apply (lock_commit i held); [done|]. intros ->. by apply Hne.
    + assert (l ∈ waits txs) as Hl by (apply elem_of_waits; eauto). rewrite Hw in Hl.
      by apply elem_of_nil in Hl.
  - right. destruct (max_exists lock_lt (waits txs)) as (l & Hl & Hmax); [by rewrite Hw|].
    apply elem_of_waits in Hl as (i & held & todo & Hi).
    destruct (free_or_held i l txs) as [Hfree|(j & [hj tj] & Hji & Hj & Hlj)].
    { eexists. by eapply lock_acquire. }
    cbn in Hlj. destruct tj as [|l' tj].
    { eexists. apply (lock_commit j hj); [done|]. intros ->. by apply elem_of_nil in Hlj. }
    pose proof (Forall_lookup_1 _ _ _ _ Hs Hj) as [_ Hle]. cbn in Hle.
    specialize (Hle l l' Hlj (list_elem_of_here _ _)).
    destruct (decide (l = l')) as [<-|Hne].
    + eexists. eapply (lock_acquire j hj); [done|]. intros k x Hkj Hk Hlk.
      by eapply (Hex j k _ _ l).
    + destruct (Hmax l'); [|done]. apply elem_of_waits. eauto.
Qed.

(** *** Runs are finite *)

Definition tx_work (x : tx) : Z :=
  2 * Z.of_nat (length (tx_todo x)) + (if bool_decide (tx_held x = []) then 0 else 1).

Definition work (txs : list tx) : Z := zsum tx_work txs.

Lemma zsum_insert {A} (f : A → Z) (l : list A) i x y :
  l !! i = Some x → zsum f (<[i := y]> l) = zsum f l - f x + f y.
Proof.
  revert i. induction l as [|z l IH]; intros [|i] Hi; simplify_eq/=; [lia|].
  rewrite (IH i Hi). lia.
Qed.

Lemma work_nonneg txs : 0 <= work txs.
Proof. apply zsum_nonneg. intros x _. unfold tx_work. case_bool_decide; lia. Qed.

Lemma work_decreases txs txs' : any_step txs txs' → work txs' < work txs.
Proof.
  unfold work.
  intros [[i held l todo txs1 Hi _|i held txs1 Hi Hne]|[i held l todo txs1 Hi]];
    rewrite (zsum_insert _ _ _ _ _ Hi); unfold tx_work; cbn [tx_todo tx_held tx_over length].
  - rewrite (bool_decide_false (l :: held = [])) by done. case_bool_decide; lia.
  - rewrite (bool_decide_false (held = [])), bool_decide_true by done. lia.
  - rewrite (bool_decide_true ([] = [])) by done. case_bool_decide; lia.
Qed.

Lemma work_bounds_run n txs txs' : nsteps any_step n txs txs' → Z.of_nat n + work txs' <= work txs.
Proof.
  induction 1 as [|n x y z Hstep _ IH]; [lia|]. apply work_decreases in Hstep. lia.
Qed.

Lemma locks_ok_run txs txs' : rtc any_step txs txs' → locks_ok txs → locks_ok txs'.
Proof. induction 1; eauto using locks_ok_step. Qed.

Lemma run_to_end txs : locks_ok txs → ∃ txs', rtc lock_step txs txs' ∧ all_over txs'.
Proof.
  remember (Z.to_nat (work txs)) as n eqn:Hn. revert txs Hn.
  induction (lt_wf n) as [n _ IH]. intros txs -> Hok.
  destruct (lock_progress txs Hok) as [|[txs1 Hstep]]; [by exists txs|].
  assert (any_step txs txs1) as Hany by by left.
  pose proof (work_decreases _ _ Hany). pose proof (work_nonneg txs1).
  destruct (IH (Z.to_nat (work txs1)) ltac:(lia) txs1 eq_refl) as (txs' & Hrun & Hover).
  - by eapply locks_ok_step.
  - exists txs'. split; [|done]. by eapply rtc_l.
Qed.

(** The transactions of a set of calls, before any of them has run. *)
Definition start_calls (cs : list (uuid * stock_call)) : list tx :=
  (λ '(t, c), tx_start (lock_requests t c)) <$> cs.

Lemma locks_ok_calls cs : locks_ok (start_calls cs).
Proof.
  unfold start_calls.
  rewrite (list_fmap_ext _ (tx_start ∘ (λ p, lock_requests p.1 p.2)) cs) by (by intros ? []).
  rewrite list_fmap_compose. apply locks_ok_start, Forall_fmap, Forall_true.
  intros [t c]. apply lock_requests_sorted.
Qed.

(** ** Theorems *)

