(* ===== verification/Prune.v ===== *)
(** * Retention (pkg/idemprune, pkg/outboxprune)

    The two workers that delete, batch by batch, the oldest idempotency keys and
    outbox rows.  Instants of the database are microseconds, those of Go and the
    retention nanoseconds. *)

From S2P Require Import Prelude Database StockDb StockApi StockService StockEffects StockRefine Reconcile StockSteps.

(** ** Configuration *)

Record PruneConfig := mkPruneConfig { pc_Interval : Z; pc_Retention : Z; pc_BatchSize : Z }.

Definition hour : Z := 3600 * 1000000000.

Definition prune_defaults (retention : Z) (c : PruneConfig) : PruneConfig :=
  {| pc_Interval := if pc_Interval c <=? 0 then hour else pc_Interval c;
     pc_Retention := if pc_Retention c <=? 0 then retention else pc_Retention c;
     pc_BatchSize := if pc_BatchSize c <=? 0 then 1000 else pc_BatchSize c |}.

Definition idem_withDefaults : PruneConfig → PruneConfig := prune_defaults (7 * 24 * hour).

Definition outbox_withDefaults : PruneConfig → PruneConfig := prune_defaults (72 * hour).

(** ** One pass *)

(** What surrounds it: the clock of the worker, its transaction, and whether
    pg_try_advisory_xact_lock gives it the lock. *)
Record PruneEnv := mkPruneEnv { pr_now : Z; pr_tx : TxEnv; pr_locked : bool }.

Definition cutoff (cfg : PruneConfig) (env : PruneEnv) : Z := (pr_now env - pc_Retention cfg) / 1000.

(** SELECT ... WHERE created_at < $1 ORDER BY created_at LIMIT $2; [plan] is the
    order in which the rows come to the sort. *)
Section Oldest.
Context {A : Type} (created : A → Z).

Definition older_first (a b : A) : Prop := created a <= created b.

#[local] Instance older_first_dec : RelDecision older_first.
Proof. intros a b. unfold older_first. apply _. Defined.

Definition oldest (plan : list A → list A) (before limit : Z) (rows : list A) : list A :=
  take (Z.to_nat limit) (merge_sort older_first (plan (filter (λ r, created r < before) rows))).

End Oldest.

Section Prune.
Context {D : Type} `{PgStore D}.

(** The transaction of a pass: it ends with the lock not taken, or with the
    deletion and the commit. *)
Definition prune_tx (env : PruneEnv) (delete : D → D * Z) (d : D) : D * res Z :=
  match tx_begin_err (pr_tx env), tx_conn_err (pr_tx env) with
  | Some m, _ => (d, Err (ErrConn m))
  | None, Some m => (d, Err (ErrConn m))
  | None, None =>
      if negb (pr_locked env) then (d, Ok 0)
      else
        let '(d', n) := delete d in
        match tx_commit (pr_tx env) with
        | CommitOk => (d', Ok n)
        | CommitRolledBack m => (d, Err (ErrConn m))
        | CommitUnacknowledged m => (d', Err (ErrConn m))
        end
  end.

Definition keys_plan : Type := list (uuid * string * IdemRow) → list (uuid * string * IdemRow).

Definition old_keys (plan : keys_plan) (before limit : Z) (d : D) : list (uuid * string * IdemRow) :=
  oldest (λ kr, idem_created_at kr.2) plan before limit (map_to_list (idem d)).

(** DELETE FROM processed_idempotency_keys WHERE ... IN (...) *)
Definition delete_keys (plan : keys_plan) (before limit : Z) (d : D) : D * Z :=
  let old := old_keys plan before limit d in
  (set_idem (foldr (λ kr, delete kr.1) (idem d) old) d, Z.of_nat (length old)).

Definition idem_PruneBatch (plan : keys_plan) (cfg : PruneConfig) (env : PruneEnv) (d : D) : D * res Z :=
  prune_tx env (delete_keys plan (cutoff cfg env) (pc_BatchSize cfg)) d.

(** DELETE FROM outbox WHERE id IN (...) *)
Definition delete_outbox (plan : list OutboxRow → list OutboxRow) (before limit : Z) (d : D) : D * Z :=
  let old := oldest ob_CreatedAt plan before limit (outbox d) in
  let kept := filter (λ r, ob_ID r ∉ (ob_ID <$> old)) (outbox d) in
  (set_outbox kept d, Z.of_nat (length (outbox d)) - Z.of_nat (length kept)).

Definition outbox_PruneBatch (plan : list OutboxRow → list OutboxRow) (cfg : PruneConfig) (env : PruneEnv) (d : D)
  : D * res Z :=
  prune_tx env (delete_outbox plan (cutoff cfg env) (pc_BatchSize cfg)) d.

End Prune.

(** ** Lemmas *)

Section OldestFacts.
Context {A : Type} (created : A → Z).

#[local] Existing Instance older_first_dec.

#[local] Instance older_first_trans : Transitive (older_first created).
Proof. intros a b c. unfold older_first. lia. Qed.

#[local] Instance older_first_total : Total (older_first created).
Proof. intros a b. unfold older_first. lia. Qed.

Context (plan : list A → list A) (before limit : Z) (rows : list A).
Context (Hplan : ∀ l, plan l ≡ₚ l).

Lemma oldest_split : ∃ rest,
  oldest created plan before limit rows ++ rest ≡ₚ filter (λ r, created r < before) rows ∧
  (∀ a b, a ∈ oldest created plan before limit rows → b ∈ rest → created a <= created b) ∧
  length (oldest created plan before limit rows) =
    Nat.min (Z.to_nat limit) (length (filter (λ r, created r < before) rows)).
Proof.
  unfold oldest. set (sorted := merge_sort _ _).
  assert (sorted ≡ₚ filter (λ r, created r < before) rows) as Hperm
    by (unfold sorted; by rewrite merge_sort_Permutation, Hplan).
  exists (drop (Z.to_nat limit) sorted). rewrite take_drop. split; [done|]. split.
  - intros a b Ha Hb. assert (StronglySorted (older_first created) sorted) as Hss
      by apply (StronglySorted_merge_sort (older_first created)).
    rewrite <- (take_drop (Z.to_nat limit) sorted) in Hss. by apply (StronglySorted_app_1_elem_of _ _ _ a b Hss).
  - rewrite length_take. by rewrite Hperm.
Qed.

Lemma oldest_elem a : a ∈ oldest created plan before limit rows → a ∈ rows ∧ created a < before.
Proof.
  destruct oldest_split as (rest & Hperm & _). intros Ha.
  assert (a ∈ filter (λ r, created r < before) rows) as Hf by (rewrite <- Hperm; apply elem_of_app; by left).
  apply list_elem_of_filter in Hf. naive_solver.
Qed.

(** What is not taken is young, or no older than what is. *)
Lemma oldest_rest a b :
  a ∈ oldest created plan before limit rows → b ∈ rows → b ∉ oldest created plan before limit rows →
  created a <= created b.
Proof.
  destruct oldest_split as (rest & Hperm & Hle & _). intros Ha Hb Hnb.
  destruct (decide (created b < before)) as [Hlt|Hge].
  - assert (b ∈ oldest created plan before limit rows ++ rest) as [?|Hr]%elem_of_app; [|done|by apply Hle].
    rewrite Hperm. by apply list_elem_of_filter.
  - apply oldest_elem in Ha. lia.
Qed.

End OldestFacts.

(** *** Deleting keys *)

Lemma lookup_delete_all {A} (m : gmap (uuid * string) A) (l : list (uuid * string * A)) k :
  foldr (λ kr, delete kr.1) m l !! k = if bool_decide (k ∈ l.*1) then None else m !! k.
Proof.
  induction l as [|[k' a] l IH]; [done|]. cbn [foldr fst]. rewrite fmap_cons. cbn [fst].
  destruct (decide (k' = k)) as [->|Hne].
  - rewrite lookup_delete_eq, bool_decide_true; [done|]. apply list_elem_of_here.
  - rewrite lookup_delete_ne, IH by done. destruct (bool_decide (k ∈ l.*1)) eqn:Hb.
    + apply bool_decide_eq_true in Hb. rewrite bool_decide_true; [done|]. by apply list_elem_of_further.
    + apply bool_decide_eq_false in Hb. rewrite bool_decide_false; [done|]. rewrite not_elem_of_cons. naive_solver.
Qed.

(** The setters are of different columns. *)
Class PgStoreLaws (D : Type) `{PgStore D} : Prop := {
  idem_set_idem m (d : D) : idem (set_idem m d) = m;
  outbox_set_idem m (d : D) : outbox (set_idem m d) = outbox d;
}.

#[export] Instance stock_store_laws : PgStoreLaws StockDB.
Proof. by split. Qed.

#[export] Instance IdemRow_eq_dec : EqDecision IdemRow.
Proof. solve_decision. Defined.

Section PruneFacts.
Context {D : Type} `{PgStoreLaws D}.
Context (plan : keys_plan) (Hplan : ∀ l, plan l ≡ₚ l).

(** A row of the table. *)
Lemma old_key_row before limit (d : D) k row :
  (k, row) ∈ old_keys plan before limit d → idem d !! k = Some row ∧ idem_created_at row < before.
Proof.
  unfold old_keys. intros [Hin Hlt]%oldest_elem; [|done]. by apply elem_of_map_to_list in Hin.
Qed.

(** What a deletion leaves. *)
Lemma delete_keys_lookup before limit (d : D) k row :
  idem (delete_keys plan before limit d).1 !! k = Some row ↔
  idem d !! k = Some row ∧ (k, row) ∉ old_keys plan before limit d.
Proof.
  unfold delete_keys. cbn [fst]. rewrite idem_set_idem, lookup_delete_all.
  destruct (bool_decide (k ∈ _.*1)) eqn:Hb.
  - apply bool_decide_eq_true, list_elem_of_fmap in Hb as ([k' row'] & Hk & Hin). cbn in Hk. subst k'.
    split; [done|]. intros [Hrow Hnin]. apply old_key_row in Hin as Hrow'. destruct Hrow' as [Hrow' _]. congruence.
  - apply bool_decide_eq_false in Hb. split; [|naive_solver]. intros Hrow. split; [done|]. intros Hin. apply Hb.
    by apply (list_elem_of_fmap_2 fst _ (k, row)).
Qed.

Definition expired (before : Z) (d : D) : Z :=
  Z.of_nat (length (filter (λ kr, idem_created_at kr.2 < before) (map_to_list (idem d)))).

Lemma delete_keys_count before limit (d : D) :
  0 <= limit →
  (delete_keys plan before limit d).2 = Z.min limit (expired before d) ∧
  expired before (delete_keys plan before limit d).1 = expired before d - (delete_keys plan before limit d).2.
Proof.
  intros Hlim.
  destruct (oldest_split (λ kr : uuid * string * IdemRow, idem_created_at kr.2) plan before limit
              (map_to_list (idem d)) Hplan) as (rest & Hperm & _ & Hlen).
  fold (old_keys plan before limit d) in *.
  assert ((delete_keys plan before limit d).2 = Z.of_nat (length (old_keys plan before limit d))) as -> by done.
  split; [unfold expired; lia|]. unfold expired.
  assert (filter (λ kr : uuid * string * IdemRow, idem_created_at kr.2 < before)
            (map_to_list (idem (delete_keys plan before limit d).1)) ≡ₚ rest) as ->.
  - assert (NoDup (old_keys plan before limit d ++ rest)) as Hnd
      by (rewrite Hperm; apply NoDup_filter, NoDup_map_to_list).
    apply NoDup_app in Hnd as (_ & Hdis & Hnd). apply NoDup_Permutation; [|done|].
    { apply NoDup_filter, NoDup_map_to_list. }
    intros [k row]. rewrite list_elem_of_filter, elem_of_map_to_list, delete_keys_lookup.
    assert ((k, row) ∈ old_keys plan before limit d ++ rest ↔ idem_created_at row < before ∧ idem d !! k = Some row) as Hiff
      by (by rewrite Hperm, list_elem_of_filter, elem_of_map_to_list).
    rewrite elem_of_app in Hiff. cbn [snd]. specialize (Hdis (k, row)). tauto.
  - apply Permutation_length in Hperm. rewrite length_app in Hperm. lia.
Qed.

End PruneFacts.

Lemma prune_tx_cases {D} env (delete : D → D * Z) d :
  (prune_tx env delete d).1 = d ∨ (prune_tx env delete d).1 = (delete d).1.
Proof. unfold prune_tx. repeat case_match; auto. Qed.

(** A pass that is undisturbed. *)
Definition calm (now : Z) : PruneEnv := mkPruneEnv now (healthy 0) true.

Lemma prune_calm {D} now (delete : D → D * Z) d : prune_tx (calm now) delete d = ((delete d).1, Ok (delete d).2).
Proof. unfold prune_tx. cbn. by destruct (delete d). Qed.

(** ** Theorems *)

Section Theorems.
Context (plan : keys_plan) (Hplan : ∀ l, plan l ≡ₚ l).

(** Keys that are young enough outlive a pass. *)
Lemma prune_keeps {D} `{PgStoreLaws D} cfg env (d : D) k row :
  idem d !! k = Some row → cutoff cfg env <= idem_created_at row →
  idem (idem_PruneBatch plan cfg env d).1 !! k = Some row.
Proof.
  intros Hk Hyoung. unfold idem_PruneBatch.
  destruct (prune_tx_cases env (delete_keys plan (cutoff cfg env) (pc_BatchSize cfg)) d) as [-> | ->]; [done|].
  apply delete_keys_lookup; [done|]. split; [done|]. intros [_ Hlt]%old_key_row; [|done]. lia.
Qed.

Lemma prune_frame {D} `{PgStoreLaws D} cfg env (d : D) :
  outbox (idem_PruneBatch plan cfg env d).1 = outbox d ∧
  ∀ k row, idem (idem_PruneBatch plan cfg env d).1 !! k = Some row → idem d !! k = Some row.
Proof.
  unfold idem_PruneBatch.
  destruct (prune_tx_cases env (delete_keys plan (cutoff cfg env) (pc_BatchSize cfg)) d) as [-> | ->]; [done|].
  split; [apply outbox_set_idem|]. intros k row. rewrite delete_keys_lookup by done. naive_solver.
Qed.

(** C23. Retention: a pass of the idempotency worker, whatever fails in it, adds
    nothing, leaves the outbox and every key younger than the retention alone,
    and deletes no key while it keeps an older one; and [n] undisturbed passes
    leave exactly what a batch per pass does not reach of the keys that were
    past the retention, so that they come to an end. *)
Theorem retention {D} `{PgStoreLaws D} cfg env (d : D) :
  0 < pc_BatchSize cfg →
  (let d' := (idem_PruneBatch plan cfg env d).1 in
   outbox d' = outbox d ∧ (∀ k row, idem d' !! k = Some row → idem d !! k = Some row) ∧
   (∀ k row, idem d !! k = Some row → cutoff cfg env <= idem_created_at row → idem d' !! k = Some row) ∧
   (∀ k row k' row', idem d !! k = Some row → idem d' !! k = None → idem d' !! k' = Some row' →
      idem_created_at row <= idem_created_at row')) ∧
  ∀ now (n : nat),
    expired (cutoff cfg (calm now)) (Nat.iter n (λ d, (idem_PruneBatch plan cfg (calm now) d).1) d) =
    Z.max 0 (expired (cutoff cfg (calm now)) d - Z.of_nat n * pc_BatchSize cfg).
Proof.
  intros Hb. split.
  - cbn zeta. destruct (prune_frame cfg env d) as [Hob Hsub]. split; [done|]. split; [done|].
    split; [intros k row; apply prune_keeps|]. intros k row k' row' Hk Hk' Hkept.
    unfold idem_PruneBatch in *.
    destruct (prune_tx_cases env (delete_keys plan (cutoff cfg env) (pc_BatchSize cfg)) d) as [E|E];
      rewrite E in Hk', Hkept; [congruence|].
    apply delete_keys_lookup in Hkept as [Hk2 Hnin]; [|done].
    apply (oldest_rest (λ kr : uuid * string * IdemRow, idem_created_at kr.2) plan (cutoff cfg env) (pc_BatchSize cfg)
             (map_to_list (idem d)) Hplan (k, row) (k', row')); [|by apply elem_of_map_to_list|done].
    destruct (decide ((k, row) ∈ old_keys plan (cutoff cfg env) (pc_BatchSize cfg) d)) as [Hin|Hnot]; [done|].
    assert (idem (delete_keys plan (cutoff cfg env) (pc_BatchSize cfg) d).1 !! k = Some row) by by apply delete_keys_lookup.
    congruence.
  - intros now n. induction n as [|n IH]; [unfold expired; cbn; lia|].
    rewrite Nat.iter_succ. set (dn := Nat.iter n _ d) in *. unfold idem_PruneBatch at 1. rewrite prune_calm. cbn [fst].
    destruct (delete_keys_count plan Hplan (cutoff cfg (calm now)) (pc_BatchSize cfg) dn) as [Hc He]; [lia|].
    rewrite He, Hc, IH. lia.
Qed.

End Theorems.

(** ** Idempotency within the retention *)

Section Retained.
Context `{UuidText} `{StockHashes}.

(** Steps of the stock service, and passes whose cutoff is not past [since]. *)
Inductive retained_step (since : Z) : StockDB → StockDB → Prop :=
| retained_call d d' : stock_step d d' → retained_step since d d'
| retained_prune plan cfg env d : (∀ l, plan l ≡ₚ l) → cutoff cfg env <= since →
    retained_step since d (idem_PruneBatch plan cfg env d).1.

Lemma prune_stock_wf plan cfg env d : stock_wf d → stock_wf (idem_PruneBatch plan cfg env d).1.
Proof.
  intros Hd. unfold idem_PruneBatch.
  by destruct (prune_tx_cases env (delete_keys plan (cutoff cfg env) (pc_BatchSize cfg)) d) as [-> | ->].
Qed.

Lemma retained_row since d d' k row :
  rtc (retained_step since) d d' → stock_wf d → stock_idem d !! k = Some row → since <= idem_created_at row →
  stock_wf d' ∧ stock_idem d' !! k = Some row.
Proof.
  induction 1 as [|d1 d2 d3 Hstep _ IH]; [done|]. intros Hwf Hk Hrow.
  destruct Hstep as [d1 d2 Hs|plan cfg env d1 Hplan Hcut].
  - apply IH; [by eapply stock_step_wf|by eapply key_row_step|done].
  - apply IH; [by apply prune_stock_wf| |done].
    pose proof (prune_keeps (D := StockDB) plan Hplan cfg env d1 k row) as Hkeep. apply Hkeep; [done|lia].
Qed.

(** C15. At most once, as long as the key is retained: after a delivery of a keyed
    request took effect, no later delivery under the same tenant and key changes
    the database, whatever calls, audit locks and passes of the retention worker
    ran in between, as long as the worker's cutoff has not passed the instant of
    the first transaction; also if the first caller saw an error (a commit whose
    acknowledgement was lost) and retries, and whichever handler the key comes
    back with. *)
Theorem at_most_once env ctx env' ctx' c c' d d2 t :
  stock_wf d → call_ok c = true → call_ok c' = true →
  uuid_scan (call_tenant_id c) = Some t → uuid_scan (call_tenant_id c') = Some t →
  call_key c ≠ "" → call_key c' = call_key c →
  deliver env ctx c d ≠ d → rtc (retained_step (tx_now env)) (deliver env ctx c d) d2 →
  deliver env' ctx' c' d2 = d2.
Proof.
  intros Hd Hc Hc' Ht Ht' Hne Hkey Hch Hsteps.
  destruct (key_row_deliver env ctx c d t Hd Hc Ht Hne Hch) as [hash Hrow].
  destruct (retained_row _ _ _ _ _ Hsteps (deliver_wf _ _ _ _ Hd Hc) Hrow) as [Hwf2 Hrow2]; [cbn; lia|].
  apply (key_seen_absorbs _ _ _ _ t Hwf2 Hc' Ht'). unfold key_seen. rewrite Hkey, Hrow2.
  by rewrite (bool_decide_false _ Hne).
Qed.

End Retained.
