(* ===== verification/StockExamples.v ===== *)
(** * The stock service on a concrete shop

    Executions of the model: a small shop built with AdjustStock, on which the
    theorems of the stock service are applied, and two histories that show
    how reconciliation comes to lock rows that are right. *)

From S2P Require Import Prelude Database StockDb StockApi StockService StockEffects StockRefine Reconcile.
From S2P Require Import StockSteps StockReserve StockSafety StockMoves Ledger StockAdjust Locks Prune.

#[local] Existing Instance bits_text.

#[export] Instance plain_hashes : StockHashes := {|
  hash_adjust _ := "adjust"; hash_reserve _ := "reserve"; hash_release _ := "release";
  hash_confirm _ := "confirm"; hash_fulfill _ := "fulfill" |}.

(** ** The shop *)

(** The tenant 3, in the spelling of [bits_text]. *)
Definition tenant3 : string := "ih".

Definition no_ctx : Ctx := mkCtx None "".

Definition restock (sku wh : string) (q : Z) : stock_call :=
  CallAdjust (mkAdjustStockRequest tenant3 sku wh q "delivery" "warehouse" "").

(** Ten mugs and four plates. *)
Definition opening : list (TxEnv * Ctx * stock_call) :=
  [(healthy 1, no_ctx, restock "mug" "w1" 10); (healthy 2, no_ctx, restock "plate" "w1" 4)].

Definition shop : StockDB := deliveries opening empty_stock.

(** Three mugs in two lines, and a plate. *)
Definition basket : list StockLine := [mkLine "plate" "w1" 1; mkLine "mug" "w1" 2; mkLine "mug" "w1" 1].

Definition reserve_basket : ReserveStockRequest := mkReserveStockRequest tenant3 "o1" "k1" basket.
Definition confirm_basket : ConfirmStockAllocationRequest :=
  mkConfirmStockAllocationRequest tenant3 "o1" "k2" basket.
Definition fulfill_basket : FulfillStockRequest := mkFulfillStockRequest tenant3 "o1" "k3" basket.
Definition release_basket (reason : string) : ReleaseStockRequest :=
  mkReleaseStockRequest tenant3 "o1" reason "k4" basket.

(** The shop with the basket reserved. *)
Definition shop_reserved : StockDB := deliver (healthy 3) no_ctx (CallReserve reserve_basket) shop.

Lemma empty_wf : stock_wf empty_stock.
Proof. done. Qed.

Lemma shop_wf : stock_wf shop.
Proof.
  apply (stock_steps_wf empty_stock); [|done]. apply deliveries_steps. by repeat constructor.
Qed.

Lemma shop_reserved_wf : stock_wf shop_reserved.
Proof. apply deliver_wf; [apply shop_wf|done]. Qed.

Lemma shop_fits : physical_fits (stock_levels shop).
Proof. apply (bool_decide_unpack _). vm_compute. exact I. Qed.

(** ** The theorems at work *)

Lemma reserve_basket_run :
  ReserveStock (healthy 3) no_ctx reserve_basket shop =
  (shop_reserved, Ok (mkReserveStockResponse true [])).
Proof. vm_compute. reflexivity. Qed.

Lemma reserve_all_or_nothing_witness :
  reserve_effect (healthy 3) no_ctx 3%N reserve_basket shop shop_reserved.
Proof.
  pose proof (reserve_all_or_nothing (healthy 3) no_ctx reserve_basket shop 3%N shop_wf eq_refl
                eq_refl) as Heff.
  rewrite reserve_basket_run in Heff. exact Heff.
Defined.


Lemma confirm_succeeds_exactly_witness :
  ∃ d' resp, ConfirmStockAllocation (healthy 4) no_ctx confirm_basket shop_reserved = (d', Ok resp) ∧
    cnfr_Success resp = true.
Proof.
  pose proof (confirm_succeeds_exactly 4 no_ctx 3%N shop_reserved confirm_basket shop_reserved_wf
                eq_refl eq_refl ltac:(vm_compute; reflexivity)) as Hdec.
  replace (movable allocating 3%N (stock_levels shop_reserved) (cnf_Lines confirm_basket))
    with true in Hdec by (vm_compute; reflexivity).
  destruct Hdec as (d' & resp & Hrun & Hs & _). exists d', resp. split; assumption.
Defined.

Lemma reserve_confirm_fulfill_witness :
  ∃ d3, (∃ d2 r3, FulfillStock (healthy 5) no_ctx fulfill_basket d2 = (d3, Ok r3)) ∧
    AvailableQty <$> stock_levels d3 !! (3%N, "mug", "w1") = Some 7.
Proof.
  destruct (reserve_confirm_fulfill 5 no_ctx 3%N shop reserve_basket confirm_basket fulfill_basket
              basket shop_wf shop_fits eq_refl ltac:(done) eq_refl eq_refl eq_refl eq_refl eq_refl
              eq_refl ltac:(apply (bool_decide_unpack _); vm_compute; exact I)
              ltac:(vm_compute; reflexivity) ltac:(vm_compute; reflexivity)
              ltac:(vm_compute; reflexivity) ltac:(vm_compute; reflexivity))
    as (d1 & d2 & d3 & r1 & r2 & r3 & _ & _ & _ & _ & Hrun & _ & Hl).
  exists d3. split; [exists d2, r3; exact Hrun|]. rewrite Hl. vm_compute. reflexivity.
Defined.

Lemma reserve_then_release_witness :
  ∃ d1 d2 r2, ReleaseStock (healthy 5) no_ctx (release_basket "release") d1 = (d2, Ok r2) ∧
    stock_levels d2 = stock_levels shop.
Proof.
  destruct (reserve_then_release 5 no_ctx 3%N shop reserve_basket (release_basket "release")
              shop_wf shop_fits eq_refl ltac:(done) eq_refl eq_refl eq_refl ltac:(done)
              ltac:(vm_compute; reflexivity) ltac:(vm_compute; reflexivity)
              ltac:(vm_compute; reflexivity))
    as (d1 & d2 & r1 & r2 & _ & _ & Hrun & _ & Hl).
  exists d1, d2, r2. split; assumption.
Defined.

Lemma shop_steps : rtc stock_step empty_stock shop.
Proof. apply deliveries_steps. by repeat constructor. Qed.


(** The client retries after a commit whose acknowledgement was lost. *)
Definition lost_ack : TxEnv := mkTxEnv 3 None None None (CommitUnacknowledged "reset by peer").

(** A pass of the retention worker, with the key still young. *)
Definition pruned_shop : StockDB :=
  (idem_PruneBatch (λ l, l) (idem_withDefaults (mkPruneConfig 0 0 0)) (calm (168 * hour))
     (deliver lost_ack no_ctx (CallReserve reserve_basket) shop)).1.

Lemma at_most_once_witness : deliver (healthy 4) no_ctx (CallReserve reserve_basket) pruned_shop = pruned_shop.
Proof.
  apply (at_most_once lost_ack no_ctx (healthy 4) no_ctx (CallReserve reserve_basket)
           (CallReserve reserve_basket) shop _ 3%N shop_wf);
    [reflexivity|reflexivity|reflexivity|reflexivity|done|reflexivity| |].
  - intros Heq. apply (f_equal (λ d, length (stock_events d))) in Heq. vm_compute in Heq. discriminate.
  - apply rtc_once, retained_prune; [done|]. vm_compute. discriminate.
Defined.

Lemma replay_succeeds_witness :
  accepted (healthy 4) no_ctx (CallReserve reserve_basket) shop_reserved = true ∧
  deliver (healthy 4) no_ctx (CallReserve reserve_basket) shop_reserved = shop_reserved.
Proof.
  apply (replay_succeeds 4 no_ctx (CallReserve reserve_basket) shop_reserved 3%N);
    vm_compute; reflexivity.
Defined.


Lemma tenant_isolation_witness :
  stock_levels (deliver (healthy 3) no_ctx (CallReserve reserve_basket) shop) !! (5%N, "mug", "w1") =
  stock_levels shop !! (5%N, "mug", "w1").
Proof.
  apply (tenant_isolation (healthy 3) no_ctx (CallReserve reserve_basket) shop 3%N 5%N shop_wf);
    [reflexivity|reflexivity|done].
Defined.

Lemma reconcile_locks_exactly_drift_witness :
  ∃ d' drifts, Reconcile 9 shop = (d', Ok drifts).
Proof.
  destruct (reconcile_locks_exactly_drift 9 shop ltac:(vm_compute; reflexivity))
    as (d' & drifts & Hrun & _).
  exists d', drifts. exact Hrun.
Defined.

Lemma conforming_never_locked_witness :
  ∃ d', Reconcile 9 shop_reserved = (d', Ok []) ∧ stock_levels d' = stock_levels shop_reserved.
Proof.
  apply (conforming_never_locked 9 shop_reserved); [|vm_compute; reflexivity].
  eapply rtc_l; [apply (conforming_call (healthy 1) no_ctx (restock "mug" "w1" 10)); reflexivity|].
  eapply rtc_l; [apply (conforming_call (healthy 2) no_ctx (restock "plate" "w1" 4)); reflexivity|].
  eapply rtc_l; [apply (conforming_call (healthy 3) no_ctx (CallReserve reserve_basket)); reflexivity|].
  apply rtc_refl.
Defined.

(** The basket expires. *)
Definition shop_expired : StockDB :=
  (ReleaseStock (healthy 5) no_ctx (release_basket "ttl_expiry") shop_reserved).1.

Lemma shop_reserved_books : ledger_ok shop_reserved.
Proof.
  apply conforming_deliver; [apply shop_wf|done|].
  pose proof (deliver_wf (healthy 1) no_ctx (restock "mug" "w1" 10) empty_stock empty_wf eq_refl).
  unfold shop, opening. cbn [deliveries].
  apply conforming_deliver; [done|done|]. by apply conforming_deliver.
Qed.

Lemma operational_release_drifts_witness : drift_at shop_expired (3%N, "mug", "w1") = true.
Proof.
  apply (operational_release_drifts (healthy 5) no_ctx (release_basket "ttl_expiry") shop_reserved
           shop_expired (mkReleaseStockResponse true ["mug"; "mug"; "plate"]) 3%N
           (3%N, "mug", "w1") (mkLevel 7 3 0 false 1) shop_reserved_wf shop_reserved_books);
    vm_compute; first [reflexivity|discriminate].
Defined.

Lemma adjust_decides_witness :
  ∃ e, AdjustStock (healthy 3) no_ctx
    (mkAdjustStockRequest tenant3 "mug" "w1" (-2) "breakage" "warehouse" "") shop = (shop, Err e).
Proof.
  exact (adjust_decides 3 no_ctx
           (mkAdjustStockRequest tenant3 "mug" "w1" (-2) "breakage" "warehouse" "") shop 3%N
           shop_wf eq_refl eq_refl eq_refl).
Defined.

(** The shop before migration 000004. *)
Definition old_shop : StockDB :=
  mkStockDB (stock_levels shop) (stock_events shop) (stock_outbox shop) (stock_idem shop)
            (stock_next_uuid shop) false.

Lemma adjust_clamps_witness :
  ∃ d' r, AdjustStock (healthy 3) no_ctx
    (mkAdjustStockRequest tenant3 "mug" "w1" (-12) "breakage" "warehouse" "") old_shop = (d', Ok r) ∧
    adjr_IsClampedZero r = true.
Proof.
  destruct (adjust_clamps 3 no_ctx
    (mkAdjustStockRequest tenant3 "mug" "w1" (-12) "breakage" "warehouse" "") old_shop 3%N
    ltac:(reflexivity) ltac:(reflexivity) ltac:(vm_compute; reflexivity) ltac:(vm_compute; reflexivity)
    ltac:(vm_compute; reflexivity)) as (d' & r & Hrun & _ & Hc & _).
  exists d', r. split; assumption.
Defined.

(** Ten days on the retention worker forgets the keys of the shop. *)
Lemma retention_witness :
  expired (cutoff (idem_withDefaults (mkPruneConfig 0 0 0)) (calm (240 * hour)))
    (Nat.iter 1 (λ d, (idem_PruneBatch (λ l, l) (idem_withDefaults (mkPruneConfig 0 0 0)) (calm (240 * hour)) d).1)
       shop_reserved) = 0.
Proof.
  rewrite (proj2 (retention (λ l, l) (λ l, reflexivity l) (idem_withDefaults (mkPruneConfig 0 0 0)) (calm 0)
                    shop_reserved eq_refl)).
  vm_compute. reflexivity.
Defined.

Definition two_orders : list (uuid * stock_call) :=
  [(3%N, CallReserve reserve_basket); (3%N, CallRelease (release_basket "release"))].


(** ** Two histories of reconciliation *)

(** After an expiry the worker locks both rows of the basket, though every
    quantity is right: all ten mugs and four plates are back on the shelf. *)
Example expired_basket_locked :
  let d := (Reconcile 9 shop_expired).1 in
  (λ lv, (AvailableQty lv, ReservedQty lv, IsLockedForAudit lv))
    <$> stock_levels d !! (3%N, "mug", "w1") = Some (10, 0, true).
Proof. vm_compute. reflexivity. Qed.

(** The worker reads the row, a reservation commits, the worker reads the
    events: it locks rows that agree with their events before and after. *)
Theorem reconcile_race :
  let d := (Reconcile_with (λ d, deliver (healthy 3) no_ctx (CallReserve reserve_basket) d) 9 shop).1 in
  drift_at shop (3%N, "mug", "w1") = false ∧
  drift_at shop_reserved (3%N, "mug", "w1") = false ∧
  IsLockedForAudit <$> stock_levels d !! (3%N, "mug", "w1") = Some true.
Proof. vm_compute. repeat split. Qed.
