(* ===== verification/ReservationDb.v ===== *)
(** * The reservation service's database (db/migrations/reservation, gen/go/db/reservation)

    The table [reservations] as a list of rows with distinct ids, in insertion
    order, and the sqlc queries on it.  Instants are microseconds since the
    epoch, the precision of TIMESTAMPTZ. *)

From S2P Require Import Prelude Database.

(** ** Rows *)

Record Reservation := mkReservation {
  r_ID : uuid;
  r_TenantID : uuid;
  r_OrderID : string;
  r_SkuID : string;
  r_WarehouseID : string;
  r_Quantity : Z;
  r_Status : string;
  r_ExpiresAt : Z;
  r_CreatedAt : Z;
}.

Record ResDB := mkResDB {
  reservations : list Reservation;
  res_outbox : list OutboxRow;
  res_idem : gmap (uuid * string) IdemRow;
  res_next_uuid : uuid;
}.

Definition set_reservations (l : list Reservation) (d : ResDB) : ResDB :=
  mkResDB l (res_outbox d) (res_idem d) (res_next_uuid d).

#[export] Instance res_store : PgStore ResDB := {|
  idem := res_idem;
  set_idem m d := mkResDB (reservations d) (res_outbox d) m (res_next_uuid d);
  outbox := res_outbox;
  set_outbox l d := mkResDB (reservations d) l (res_idem d) (res_next_uuid d);
  next_uuid := res_next_uuid;
  set_next_uuid n d := mkResDB (reservations d) (res_outbox d) (res_idem d) n;
|}.

(** domain.go *)
Definition StatusActive : string := "ACTIVE".
Definition StatusAllocated : string := "ALLOCATED".
Definition StatusReleased : string := "RELEASED".
Definition StatusExpired : string := "EXPIRED".

(** ** Constraints of migration 000003 *)

Definition status_in_enum (s : string) : bool :=
  bool_decide (s = StatusActive) || bool_decide (s = StatusAllocated) ||
  bool_decide (s = StatusReleased) || bool_decide (s = StatusExpired).

Definition check_reservation (q : Z) (status : string) : res unit :=
  if q <=? 0 then Err (ErrCheckViolation "reservations_quantity_positive")
  else if negb (status_in_enum status) then Err (ErrCheckViolation "reservations_status_in_enum")
  else Ok ().

(** ** Queries *)

Record InsertReservationParams := mkInsertReservationParams {
  ir_TenantID : uuid;
  ir_OrderID : string;
  ir_SkuID : string;
  ir_WarehouseID : string;
  ir_Quantity : Z;
  ir_Status : string;
  ir_ExpiresAt : Z;
}.

Definition new_reservation (uid : uuid) (now : Z) (p : InsertReservationParams) : Reservation :=
  mkReservation uid (ir_TenantID p) (ir_OrderID p) (ir_SkuID p) (ir_WarehouseID p)
    (ir_Quantity p) (ir_Status p) (ir_ExpiresAt p) now.

Definition InsertReservation (p : InsertReservationParams) : Q ResDB Reservation :=
  uid ← gen_random_uuid;
  (λ s d,
    if negb (visible s (ir_TenantID p)) then Err ErrRowSecurity
    else match check_reservation (ir_Quantity p) (ir_Status p) with
         | Err e => Err e
         | Ok _ =>
             let row := new_reservation uid (s_now s) p in
             Ok (set_reservations (reservations d ++ [row]) d, row)
         end) : Q ResDB Reservation.

(** ORDER BY id *)
Definition id_le (r1 r2 : Reservation) : Prop := (r_ID r1 <= r_ID r2)%N.

#[export] Instance id_le_dec : RelDecision id_le.
Proof. intros r1 r2. unfold id_le. apply _. Defined.

(** WHERE order_id = $1 AND status = 'ACTIVE' ORDER BY id FOR UPDATE SKIP LOCKED:
    [locked] says which rows other transactions have locked. *)
Definition active_of_order (s : Session) (locked : uuid → bool) (orderID : string) (r : Reservation)
  : bool :=
  visible s (r_TenantID r) && bool_decide (r_OrderID r = orderID) &&
  bool_decide (r_Status r = StatusActive) && negb (locked (r_ID r)).

Definition GetActiveReservationsByOrder (locked : uuid → bool) (orderID : string)
  : Q ResDB (list Reservation) := λ s d,
  Ok (d, merge_sort id_le (filter (λ r, active_of_order s locked orderID r = true) (reservations d))).

Definition set_status (status : string) (r : Reservation) : Reservation :=
  mkReservation (r_ID r) (r_TenantID r) (r_OrderID r) (r_SkuID r) (r_WarehouseID r)
    (r_Quantity r) status (r_ExpiresAt r) (r_CreatedAt r).

(** The row of an id, among those the session sees. *)
Definition find_reservation (s : Session) (id : uuid) (d : ResDB) : option Reservation :=
  head (filter (λ r, visible s (r_TenantID r) = true ∧ r_ID r = id) (reservations d)).

(** UPDATE reservations SET status = $2 WHERE id = $1 RETURNING: whatever the
    status was. *)
Definition UpdateReservationStatus (id : uuid) (status : string) : Q ResDB Reservation := λ s d,
  match find_reservation s id d with
  | None => Err ErrNoRows
  | Some r =>
      match check_reservation (r_Quantity r) status with
      | Err e => Err e
      | Ok _ =>
          Ok (set_reservations
                ((λ r, if bool_decide (r_ID r = id) && visible s (r_TenantID r)
                       then set_status status r else r) <$> reservations d) d,
              set_status status r)
      end
  end.

(** WHERE expires_at < $1 AND status = 'ACTIVE' LIMIT $2 FOR UPDATE SKIP LOCKED:
    no ORDER BY, so [plan] is the order the rows are scanned in. *)
Definition expired_active (s : Session) (locked : uuid → bool) (now : Z) (r : Reservation) : bool :=
  visible s (r_TenantID r) && (r_ExpiresAt r <? now) &&
  bool_decide (r_Status r = StatusActive) && negb (locked (r_ID r)).

(** By id alone: the policy is what keeps the tenants apart. *)
Definition GetReservation (id : uuid) : Q ResDB Reservation := λ s d,
  match list_find (λ r, r_ID r = id ∧ visible s (r_TenantID r) = true) (reservations d) with
  | Some (_, r) => Ok (d, r)
  | None => Err ErrNoRows
  end.

Definition GetExpiredReservations (plan : list Reservation → list Reservation)
    (locked : uuid → bool) (now limit : Z) : Q ResDB (list Reservation) := λ s d,
  Ok (d, take (Z.to_nat limit)
           (plan (filter (λ r, expired_active s locked now r = true) (reservations d)))).

Definition CheckAndInsertIdempotencyKey (tenant : uuid) (key hash : string) : Q ResDB string :=
  idem_insert tenant key hash.

(** The payload is raw bytes here; the column is JSONB. *)
Record RawOutboxParams := mkRawOutboxParams {
  raw_TenantID : uuid;
  raw_AggregateType : string;
  raw_AggregateID : string;
  raw_EventType : string;
  raw_Payload : string;
  raw_Traceparent : option string;
}.

Definition outbox_of_raw (p : RawOutboxParams) (j : json) : OutboxParams :=
  mkOutboxParams (raw_TenantID p) (raw_AggregateType p) (raw_AggregateID p) (raw_EventType p) j
    (raw_Traceparent p).

Definition InsertOutboxEvent `{JsonbText} (p : RawOutboxParams) : Q ResDB OutboxRow :=
  match jsonb_parse (raw_Payload p) with
  | None => fail ErrInvalidText
  | Some j => outbox_insert (outbox_of_raw p j)
  end.
