(* ===== verification/StockClient.v ===== *)
(** * The stock service as its clients see it

    The generated client of stock.v1 as an interface on the state [X] of
    whatever lies behind it, what the other services rely on of it over a
    working network and of a repeated call, and the stock service as an
    implementation. *)

From S2P Require Import Prelude Database StockDb StockApi StockService StockEffects StockRefine Reconcile.
From S2P Require Import StockSteps StockReserve StockSafety StockMoves.

(** ** The interface *)

Class StockClient (X : Type) := {
  rpc_ReserveStock : Ctx → ReserveStockRequest → X → X * res ReserveStockResponse;
  rpc_ReleaseStock : Ctx → ReleaseStockRequest → X → X * res ReleaseStockResponse;
  rpc_ConfirmStockAllocation :
    Ctx → ConfirmStockAllocationRequest → X → X * res ConfirmStockAllocationResponse;
}.

(** ** What a client relies on

    [stock_fine x]: the service behind [x] answers and is in a good state.
    The laws only speak of requests under a key that was not seen before. *)
Class StockClientLaws (X : Type) `{UuidText} `{StockClient X} := {
  stock_fine : X → Prop;
  available_in : X → loc → Z;
  reserved_in : X → loc → Z;
  allocated_in : X → loc → Z;
  can_reserve : X → uuid → list StockLine → bool;
  key_used : X → uuid → string → bool;

  law_reserve x ctx req t :
    stock_fine x → uuid_scan (rsv_TenantId req) = Some t →
    key_used x t (rsv_IdempotencyKey req) = false →
    lines_nonneg (rsv_Lines req) = true → rsv_Lines req ≠ [] →
    ∃ x' resp, rpc_ReserveStock ctx req x = (x', Ok resp) ∧ stock_fine x' ∧
      (∀ key, key ≠ rsv_IdempotencyKey req → key_used x' t key = key_used x t key) ∧
      (∀ u key, u ≠ t → key_used x' u key = key_used x u key) ∧
      (∀ k, reserved_in x' k =
         reserved_in x k + (if rsvr_Success resp then qty_at t k (rsv_Lines req) else 0)) ∧
      (rsvr_Success resp = false → rsvr_FailedSkuIds resp ≠ []);

  law_release x ctx req t :
    stock_fine x → uuid_scan (rel_TenantId req) = Some t →
    key_used x t (rel_IdempotencyKey req) = false →
    lines_nonneg (rel_Lines req) = true →
    (∀ l, l ∈ rel_Lines req → 0 < Quantity l) →
    (∀ k, qty_at t k (rel_Lines req) <= reserved_in x k) →
    ∃ x' resp, rpc_ReleaseStock ctx req x = (x', Ok resp) ∧ stock_fine x' ∧
      (∀ key, key ≠ rel_IdempotencyKey req → key_used x' t key = key_used x t key) ∧
      (∀ u key, u ≠ t → key_used x' u key = key_used x u key) ∧
      (∀ k, reserved_in x' k = reserved_in x k - qty_at t k (rel_Lines req));

  law_confirm x ctx req t :
    stock_fine x → uuid_scan (cnf_TenantId req) = Some t →
    key_used x t (cnf_IdempotencyKey req) = false →
    lines_nonneg (cnf_Lines req) = true →
    (∀ l, l ∈ cnf_Lines req → 0 < Quantity l) →
    (∀ k, qty_at t k (cnf_Lines req) <= reserved_in x k) →
    ∃ x' resp, rpc_ConfirmStockAllocation ctx req x = (x', Ok resp) ∧ stock_fine x' ∧
      (∀ k, available_in x' k = available_in x k) ∧
      (∀ k, reserved_in x' k = reserved_in x k - qty_at t k (cnf_Lines req)) ∧
      (∀ k, allocated_in x' k = allocated_in x k + qty_at t k (cnf_Lines req));

  (** The other two buckets of a reservation and of a release, and when a
      reservation succeeds. *)
  law_reserve_moves x ctx req t x' resp :
    stock_fine x → uuid_scan (rsv_TenantId req) = Some t →
    key_used x t (rsv_IdempotencyKey req) = false →
    lines_nonneg (rsv_Lines req) = true → rsv_Lines req ≠ [] →
    rpc_ReserveStock ctx req x = (x', Ok resp) →
    rsvr_Success resp = can_reserve x t (rsv_Lines req) ∧
    ∀ k, available_in x' k =
           available_in x k - (if rsvr_Success resp then qty_at t k (rsv_Lines req) else 0) ∧
         allocated_in x' k = allocated_in x k;

  law_release_moves x ctx req t x' resp :
    stock_fine x → uuid_scan (rel_TenantId req) = Some t →
    key_used x t (rel_IdempotencyKey req) = false →
    lines_nonneg (rel_Lines req) = true →
    (∀ l, l ∈ rel_Lines req → 0 < Quantity l) →
    (∀ k, qty_at t k (rel_Lines req) <= reserved_in x k) →
    rpc_ReleaseStock ctx req x = (x', Ok resp) →
    ∀ k, available_in x' k = available_in x k + qty_at t k (rel_Lines req) ∧
         allocated_in x' k = allocated_in x k;
}.

(** ** The stock service behind the interface *)

Section Remote.
Context `{UuidText} `{StockHashes}.

(** What can happen to one call: the request is lost, or the handler runs in
    [rpc_tx] and its answer arrives or is lost. *)
Record RpcEnv := mkRpcEnv {
  rpc_request_lost : option string;
  rpc_tx : TxEnv;
  rpc_answer_lost : option string;
}.

Definition unavailable (m : string) : go_error := ErrStatus Unavailable m.

(** One call; the context of the server has the trace and no tenant. *)
Definition remote {Req Resp} (handler : TxEnv → Ctx → Req → StockDB → StockDB * res Resp)
    (env : RpcEnv) (ctx : Ctx) (req : Req) (d : StockDB) : StockDB * res Resp :=
  match rpc_request_lost env with
  | Some m => (d, Err (unavailable m))
  | None =>
      let '(d', r) := handler (rpc_tx env) (mkCtx None (ctx_traceparent ctx)) req d in
      match rpc_answer_lost env with
      | Some m => (d', Err (unavailable m))
      | None => (d', r)
      end
  end.

(** The stock service and the faults of the calls to come; after them the
    network is healthy. *)
Record StockWorld := mkStockWorld { sw_db : StockDB; sw_faults : list RpcEnv }.

Definition healthy_rpc : RpcEnv := mkRpcEnv None (healthy 0) None.

Definition next_fault (x : StockWorld) : RpcEnv * list RpcEnv :=
  match sw_faults x with [] => (healthy_rpc, []) | e :: es => (e, es) end.

Definition call_stock {Req Resp} (handler : TxEnv → Ctx → Req → StockDB → StockDB * res Resp)
    (ctx : Ctx) (req : Req) (x : StockWorld) : StockWorld * res Resp :=
  let '(env, faults) := next_fault x in
  let '(d', r) := remote handler env ctx req (sw_db x) in
  (mkStockWorld d' faults, r).

#[export] Instance stock_remote : StockClient StockWorld := {|
  rpc_ReserveStock := call_stock ReserveStock;
  rpc_ReleaseStock := call_stock ReleaseStock;
  rpc_ConfirmStockAllocation := call_stock ConfirmStockAllocation;
|}.

(** ** The implementation keeps the laws *)

Definition bucket (f : StockLevel → Z) (d : StockDB) (k : loc) : Z :=
  match stock_levels d !! k with Some lv => f lv | None => 0 end.

Definition stock_world_fine (x : StockWorld) : Prop :=
  stock_wf (sw_db x) ∧ physical_fits (stock_levels (sw_db x)) ∧ sw_faults x = [].

Lemma call_healthy {Req Resp} (handler : TxEnv → Ctx → Req → StockDB → StockDB * res Resp) ctx req x
    d' r :
  sw_faults x = [] → handler (healthy 0) (mkCtx None (ctx_traceparent ctx)) req (sw_db x) = (d', r) →
  call_stock handler ctx req x = (mkStockWorld d' [], r).
Proof. intros Hf Hr. unfold call_stock, next_fault, remote. rewrite Hf. cbn. by rewrite Hr. Qed.

Lemma physical_fits_effect {M} `{PayloadHash M} m t mkev mkob lines key (msg : M) env d d' :
  stock_effect m t mkev mkob lines (after_key t key msg env d) d' →
  mv_available m + mv_reserved m + mv_allocated m = 0 →
  physical_fits (stock_levels d) → physical_fits (stock_levels d').
Proof.
  intros He Hm Hf k lv. rewrite (se_levels _ _ _ _ _ _ _ He), after_key_levels, lookup_move_lines.
  destruct (stock_levels d !! k) as [lv0|] eqn:E; intros [= <-]. rewrite physical_shift, Hm.
  specialize (Hf _ _ E). cbn in Hf. lia.
Qed.

Lemma bucket_effect {M} `{PayloadHash M} m t mkev mkob lines key (msg : M) env d d' k :
  stock_effect m t mkev mkob (sortedLines lines) (after_key t key msg env d) d' →
  Forall (λ l, is_Some (stock_levels d !! line_loc t l)) lines →
  bucket AvailableQty d' k = bucket AvailableQty d k + mv_available m * qty_at t k lines ∧
  bucket ReservedQty d' k = bucket ReservedQty d k + mv_reserved m * qty_at t k lines ∧
  bucket AllocatedQty d' k = bucket AllocatedQty d k + mv_allocated m * qty_at t k lines.
Proof.
  intros He Hrows. unfold bucket. rewrite (effect_rows _ _ _ _ _ _ _ _ _ _ k He).
  destruct (stock_levels d !! k) as [lv|] eqn:Hk; [done|]. cbn.
  rewrite (qty_at_no_row _ _ _ _ Hrows Hk). lia.
Qed.

Lemma key_seen_other_tenant {M} `{PayloadHash M} m t mkev mkob lines key (msg : M) env d d' u key' :
  stock_effect m t mkev mkob lines (after_key t key msg env d) d' → u ≠ t →
  key_seen u key' d' = key_seen u key' d.
Proof.
  intros He Hne. unfold key_seen. rewrite (se_idem _ _ _ _ _ _ _ He), after_key_idem.
  destruct (bool_decide (key = "")); [done|]. rewrite lookup_insert_ne by congruence. done.
Qed.

Lemma reservable_rows t levels lines :
  reservable t levels lines = true → Forall (λ l, is_Some (levels !! line_loc t l)) lines.
Proof.
  rewrite reservable_spec, Forall_forall. intros Hr l Hl. destruct (Hr l Hl) as (lv & -> & _). by eexists.
Qed.

(** What is reserved can be released, or allocated. *)
Lemma reserved_movable m t lines d :
  m = releasing ∨ m = allocating →
  stock_wf d → physical_fits (stock_levels d) → lines_nonneg lines = true →
  (∀ l, l ∈ lines → 0 < Quantity l) → (∀ k, qty_at t k lines <= bucket ReservedQty d k) →
  movable m t (stock_levels d) lines = true.
Proof.
  intros Hm [_ Hwf] Hf Hn Hpos Hres. apply movable_spec. intros l Hl.
  pose proof (Hres (line_loc t l)) as Hle. unfold bucket in Hle.
  assert (0 < qty_at t (line_loc t l) lines) as Hq.
  { apply list_elem_of_split in Hl as (l1 & l2 & ->). unfold qty_at. rewrite zsum_app. cbn [zsum].
    rewrite bool_decide_true by done.
    assert (lines_nonneg l1 = true ∧ lines_nonneg l2 = true) as [N1 N2].
    { unfold lines_nonneg in *. rewrite forallb_app in Hn. cbn in Hn. bprop. done. }
    pose proof (qty_at_nonneg t (line_loc t l) l1 N1). pose proof (qty_at_nonneg t (line_loc t l) l2 N2).
    unfold qty_at in *. specialize (Hpos l ltac:(set_solver)). lia. }
  destruct (stock_levels d !! line_loc t l) as [lv|] eqn:Hlv; [|lia].
  exists lv. split; [done|]. specialize (Hwf _ _ Hlv). specialize (Hf _ _ Hlv).
  unfold level_ok, qty_ok, physical, shift in *. destruct Hm as [-> | ->]; cbn in *; lia.
Qed.

Lemma movable_rows m t levels lines :
  movable m t levels lines = true → Forall (λ l, is_Some (levels !! line_loc t l)) lines.
Proof.
  intros Hmv. apply Forall_forall. intros l Hl.
  destruct (proj1 (movable_spec _ _ _ _) Hmv l Hl) as (lv & Hlv & _). by exists lv.
Qed.

Lemma call_healthy_inv {Req Resp} (handler : TxEnv → Ctx → Req → StockDB → StockDB * res Resp) ctx req x x' r :
  sw_faults x = [] → call_stock handler ctx req x = (x', r) →
  handler (healthy 0) (mkCtx None (ctx_traceparent ctx)) req (sw_db x) = (sw_db x', r).
Proof.
  intros Hf. unfold call_stock, next_fault, remote. rewrite Hf. cbn.
  destruct (handler _ _ _ _) as [d' r']. by intros [= <- <-].
Qed.

#[export] Program Instance stock_remote_laws `{!UuidTextLaws} : StockClientLaws StockWorld := {|
  stock_fine := stock_world_fine;
  available_in x := bucket AvailableQty (sw_db x);
  reserved_in x := bucket ReservedQty (sw_db x);
  allocated_in x := bucket AllocatedQty (sw_db x);
  can_reserve x t lines := reservable t (stock_levels (sw_db x)) lines;
  key_used x t key := key_seen t key (sw_db x);
|}.
Next Obligation.
  intros Hlaws x ctx req t (Hd & Hf & Hnf) Ht Hk Hn Hne.
  set (ctx' := mkCtx None (ctx_traceparent ctx)).
  destruct (reserve_decides 0 ctx' req (sw_db x) t) as (d' & resp & Hrun & Hs); [done..|].
  pose proof (ReserveStock_answer _ _ _ _ _ _ t Hrun Hd (lines_nonneg_ok _ Hn) Ht) as Hans.
  rewrite Hk in Hans. exists (mkStockWorld d' []), resp. split; [by apply call_healthy|]. cbn.
  destruct (rsvr_Success resp).
  - split; [split; [apply Hans|split; [|done]]|].
    { by apply (physical_fits_effect _ _ _ _ _ _ _ _ _ _ Hans). }
    split; [intros key Hkey; by apply (key_seen_other _ _ _ _ _ _ _ _ _ _ _ Hans)|].
    split; [intros u key Hu; by apply (key_seen_other_tenant _ _ _ _ _ _ _ _ _ _ _ _ Hans)|].
    split; [|done]. intros k. destruct (bucket_effect _ _ _ _ _ _ _ _ _ _ k Hans) as (_ & -> & _);
      [|cbn; lia]. apply reservable_rows. by rewrite <- Hs.
  - destruct Hans as [-> Hsku]. split; [by split|]. do 2 (split; [done|]).
    split; [intros k; lia|done].
Qed.
Next Obligation.
  intros Hlaws x ctx req t (Hd & Hf & Hnf) Ht Hk Hn Hpos Hres.
  set (ctx' := mkCtx None (ctx_traceparent ctx)).
  pose proof (reserved_movable releasing t _ _ ltac:(by left) Hd Hf Hn Hpos Hres) as Hmv.
  destruct (release_fresh 0 ctx' t (sw_db x) Hd req) as (d' & resp & Hrun & Hs & He); [done..|].
  exists (mkStockWorld d' []), resp. split; [by apply call_healthy|]. cbn.
  split; [split; [apply He|split; [|done]]|].
  { by apply (physical_fits_effect _ _ _ _ _ _ _ _ _ _ He). }
  split; [intros key Hkey; by apply (key_seen_other _ _ _ _ _ _ _ _ _ _ _ He)|].
  split; [intros u key Hu; by apply (key_seen_other_tenant _ _ _ _ _ _ _ _ _ _ _ _ He)|].
  intros k. destruct (bucket_effect _ _ _ _ _ _ _ _ _ _ k He) as (_ & -> & _); [|cbn; lia].
  by eapply movable_rows.
Qed.
Next Obligation.
  intros Hlaws x ctx req t (Hd & Hf & Hnf) Ht Hk Hn Hpos Hres.
  set (ctx' := mkCtx None (ctx_traceparent ctx)).
  pose proof (reserved_movable allocating t _ _ ltac:(by right) Hd Hf Hn Hpos Hres) as Hmv.
  pose proof (confirm_fresh 0 ctx' t (sw_db x) Hd req Hn Ht Hk) as Hc. rewrite Hmv in Hc.
  destruct Hc as (d' & resp & Hrun & Hs & He).
  exists (mkStockWorld d' []), resp. split; [by apply call_healthy|]. cbn.
  split; [split; [apply He|split; [|done]]|].
  { by apply (physical_fits_effect _ _ _ _ _ _ _ _ _ _ He). }
  pose proof (movable_rows _ _ _ _ Hmv) as Hrows.
  split; [|split]; intros k; destruct (bucket_effect _ _ _ _ _ _ _ _ _ _ k He Hrows) as (E1 & E2 & E3);
    cbn in *; lia.
Qed.
Next Obligation.
  intros Hlaws x ctx req t x' resp (Hd & Hf & Hnf) Ht Hk Hn Hne Hcall.
  apply call_healthy_inv in Hcall as Hrun; [|done].
  set (ctx' := mkCtx None (ctx_traceparent ctx)) in *.
  destruct (reserve_decides 0 ctx' req (sw_db x) t) as (d' & resp' & Hrun' & Hs); [done..|].
  rewrite Hrun in Hrun'. injection Hrun' as <- <-. split; [done|].
  pose proof (ReserveStock_answer _ _ _ _ _ _ t Hrun Hd (lines_nonneg_ok _ Hn) Ht) as Hans.
  rewrite Hk in Hans. destruct (rsvr_Success resp).
  - intros k. destruct (bucket_effect _ _ _ _ _ _ _ _ _ _ k Hans) as (-> & _ & ->); [|cbn; lia].
    apply reservable_rows. by rewrite <- Hs.
  - destruct Hans as [Hsame _]. intros k. rewrite Hsame. lia.
Qed.
Next Obligation.
  intros Hlaws x ctx req t x' resp (Hd & Hf & Hnf) Ht Hk Hn Hpos Hres Hcall k.
  apply call_healthy_inv in Hcall as Hrun; [|done].
  set (ctx' := mkCtx None (ctx_traceparent ctx)) in *.
  pose proof (reserved_movable releasing t _ _ ltac:(by left) Hd Hf Hn Hpos Hres) as Hmv.
  destruct (release_fresh 0 ctx' t (sw_db x) Hd req) as (d' & resp' & Hrun' & Hs & He); [done..|].
  rewrite Hrun in Hrun'. injection Hrun' as <- <-.
  destruct (bucket_effect _ _ _ _ _ _ _ _ _ _ k He) as (-> & _ & ->); [|cbn; lia].
  by eapply movable_rows.
Qed.

End Remote.

(** ** Replays

    What a client that repeats a call relies on: a request whose key is
    recorded is answered as a success and changes nothing, a request that went
    through has its key recorded, and a refusal leaves no trace.  The stock
    service behind [StockWorld] keeps these laws. *)

Class StockReplayLaws (X : Type) `{StockClientLaws X} : Prop := {
  law_can_reserve_perm x t ls ls' : ls ≡ₚ ls' → can_reserve x t ls = can_reserve x t ls';

  law_reserve_replay x ctx req t :
    stock_fine x → uuid_scan (rsv_TenantId req) = Some t →
    key_used x t (rsv_IdempotencyKey req) = true → rsv_Lines req ≠ [] →
    ∃ resp, rpc_ReserveStock ctx req x = (x, Ok resp) ∧ rsvr_Success resp = true;

  law_release_replay x ctx req t :
    stock_fine x → uuid_scan (rel_TenantId req) = Some t →
    key_used x t (rel_IdempotencyKey req) = true →
    ∃ resp, rpc_ReleaseStock ctx req x = (x, Ok resp);

  law_confirm_replay x ctx req t :
    stock_fine x → uuid_scan (cnf_TenantId req) = Some t →
    key_used x t (cnf_IdempotencyKey req) = true →
    ∃ resp, rpc_ConfirmStockAllocation ctx req x = (x, Ok resp);

  law_reserve_done x ctx req t x' resp :
    stock_fine x → uuid_scan (rsv_TenantId req) = Some t →
    key_used x t (rsv_IdempotencyKey req) = false →
    lines_nonneg (rsv_Lines req) = true → rsv_Lines req ≠ [] → rsv_IdempotencyKey req ≠ "" →
    rpc_ReserveStock ctx req x = (x', Ok resp) →
    if rsvr_Success resp then key_used x' t (rsv_IdempotencyKey req) = true else x' = x;

  law_confirm_done x ctx req t x' resp :
    stock_fine x → uuid_scan (cnf_TenantId req) = Some t →
    key_used x t (cnf_IdempotencyKey req) = false →
    lines_nonneg (cnf_Lines req) = true →
    (∀ l, l ∈ cnf_Lines req → 0 < Quantity l) →
    (∀ k, qty_at t k (cnf_Lines req) <= reserved_in x k) → cnf_IdempotencyKey req ≠ "" →
    rpc_ConfirmStockAllocation ctx req x = (x', Ok resp) →
    key_used x' t (cnf_IdempotencyKey req) = true ∧
    ∀ key, key ≠ cnf_IdempotencyKey req → key_used x' t key = key_used x t key;
}.

(** ** The implementation *)

Section Remote.
Context `{UuidText} `{StockHashes} `{!UuidTextLaws}.

Lemma reservable_perm t levels ls ls' :
  ls ≡ₚ ls' → reservable t levels ls = reservable t levels ls'.
Proof.
  intros Hp. apply eq_iff_eq_true. rewrite !reservable_spec.
  assert (∀ k, qty_at t k ls = qty_at t k ls') as Hq by (intros k; unfold qty_at; by rewrite Hp).
  split; intros Hr l Hl; [rewrite <- Hp in Hl|rewrite Hp in Hl];
    destruct (Hr l Hl) as (lv & Hlv & Hlk & Hle); exists lv; [rewrite <- Hq|rewrite Hq]; done.
Qed.

(** The key of a call that had its effect. *)
Lemma key_seen_self {M} `{PayloadHash M} m t mkev mkob lines key (msg : M) env d d' :
  stock_effect m t mkev mkob lines (after_key t key msg env d) d' → key ≠ "" → key_seen t key d' = true.
Proof.
  intros He Hne. unfold key_seen. rewrite (se_idem _ _ _ _ _ _ _ He), after_key_idem, (bool_decide_false (key = "")) by done.
  cbn [negb andb]. rewrite lookup_insert_eq. by rewrite bool_decide_true by eauto.
Qed.

Lemma world_eta x : sw_faults x = [] → mkStockWorld (sw_db x) [] = x.
Proof. destruct x; cbn. by intros ->. Qed.

#[export] Instance stock_remote_replays : StockReplayLaws StockWorld.
Proof.
  split.
  - intros x t ls ls' Hp. by apply reservable_perm.
  - intros x ctx req t (Hd & Hf & Hnf) Ht Hk Hne. exists (mkReserveStockResponse true []). split; [|done].
    rewrite <- (world_eta x Hnf) at 2. apply call_healthy; [done|].
    unfold ReserveStock, ParseUUID. rewrite Ht. destruct (sortedLines (rsv_Lines req)) as [|l ls] eqn:Hls.
    { pose proof (sortedLines_Permutation (rsv_Lines req)) as Hp. rewrite Hls in Hp.
      by apply Permutation_nil_l in Hp. }
    rewrite (exec_tx_healthy _ _ _ _ (rsv_TenantId req));
      [|done|intros He; rewrite He, uuid_scan_empty in Ht; done].
    rewrite Ht, reserve_keyed. fold (tenant_session t 0). cbn in Hk. by rewrite keyed_run, Hk.
  - intros x ctx req t (Hd & Hf & Hnf) Ht Hk. eexists. rewrite <- (world_eta x Hnf) at 2.
    apply call_healthy; [done|]. unfold ReleaseStock, ParseUUID. rewrite Ht, release_keyed.
    rewrite (keyed_healthy _ _ _ t) by done. cbn in Hk. by rewrite Hk.
  - intros x ctx req t (Hd & Hf & Hnf) Ht Hk. eexists. rewrite <- (world_eta x Hnf) at 2.
    apply call_healthy; [done|]. unfold ConfirmStockAllocation, ParseUUID. rewrite Ht, confirm_keyed.
    rewrite (keyed_healthy _ _ _ t) by done. cbn in Hk. by rewrite Hk.
  - intros x ctx req t x' resp (Hd & Hf & Hnf) Ht Hk Hn Hne Hkey Hcall.
    apply call_healthy_inv in Hcall as Hrun; [|done].
    pose proof (ReserveStock_answer _ _ _ _ _ _ t Hrun Hd (lines_nonneg_ok _ Hn) Ht) as Hans.
    cbn in Hk. rewrite Hk in Hans. destruct (rsvr_Success resp);
      [exact (key_seen_self _ _ _ _ _ _ _ _ _ _ Hans Hkey)|].
    destruct Hans as [Hsame _]. rewrite <- (world_eta x Hnf), <- Hsame.
    change (call_stock ReserveStock ctx req x = (x', Ok resp)) in Hcall.
    unfold call_stock, next_fault in Hcall. rewrite Hnf in Hcall.
    destruct (remote _ _ _ _ _) as [d1 r1]. by injection Hcall as <- _.
  - intros x ctx req t x' resp (Hd & Hf & Hnf) Ht Hk Hn Hpos Hres Hkey Hcall.
    apply call_healthy_inv in Hcall as Hrun; [|done].
    pose proof (reserved_movable allocating t _ _ ltac:(by right) Hd Hf Hn Hpos Hres) as Hmv.
    pose proof (confirm_fresh 0 (mkCtx None (ctx_traceparent ctx)) t (sw_db x) Hd req Hn Ht Hk) as Hc.
    rewrite Hmv in Hc. destruct Hc as (d' & resp' & Hrun' & _ & He). rewrite Hrun in Hrun'.
    injection Hrun' as Hd' _. rewrite <- Hd' in He.
    split; [exact (key_seen_self _ _ _ _ _ _ _ _ _ _ He Hkey)|].
    intros key Hne. by apply (key_seen_other _ _ _ _ _ _ _ _ _ _ _ He).
Qed.

End Remote.
