(* ===== verification/ReservationService.v ===== *)
(** * The reservation service (internal/reservationservice/server.go, sweeper.go)

    The three handlers of reservation.v1.ReservationService and the TTL
    sweeper, as functions on the service's database and on the state [X]
    behind its stock client. *)

From S2P Require Import Prelude Database StockApi StockClient ReservationDb.

(** ** Messages of reservation.v1 *)

Record ReservationItem := mkReservationItem {
  it_SkuId : string;
  it_WarehouseId : string;
  it_Quantity : Z;
}.

Record ReserveRequest := mkReserveRequest {
  rq_TenantId : string;
  rq_OrderId : string;
  rq_IdempotencyKey : string;
  rq_Items : list ReservationItem;
  rq_TtlSeconds : Z;
}.

Record ReserveResponse := mkReserveResponse {
  rr_Success : bool;
  rr_ReservationId : string;
  rr_FailedSkuIds : list string;
  rr_ExpiresAtUnix : Z;
}.

Record ReleaseRequest := mkReleaseRequest {
  rl_TenantId : string;
  rl_ReservationId : string;
  rl_OrderId : string;
  rl_Reason : string;
  rl_IdempotencyKey : string;
}.

Record ReleaseResponse := mkReleaseResponse {
  rlr_Success : bool;
  rlr_ReleasedSkuIds : list string;
}.

Record AllocateReservationRequest := mkAllocateReservationRequest {
  al_TenantId : string;
  al_OrderId : string;
  al_IdempotencyKey : string;
}.

Record AllocateReservationResponse := mkAllocateReservationResponse {
  alr_Success : bool;
  alr_AllocatedCount : Z;
}.

Class ReservationHashes := {
  hash_res_reserve :: PayloadHash ReserveRequest;
  hash_res_release :: PayloadHash ReleaseRequest;
  hash_res_allocate :: PayloadHash AllocateReservationRequest;
}.

(** What surrounds one run of a handler: the clock, its transactions and the
    rows that other transactions hold. *)
Record ResEnv := mkResEnv {
  re_now : Z;
  re_tx : TxEnv;
  re_tx2 : TxEnv;
  re_locked : uuid → bool;
}.

Definition res_healthy (now : Z) : ResEnv := mkResEnv now (healthy now) (healthy now) (λ _, false).

(** 15 * time.Minute, in microseconds. *)
Definition defaultTTL : Z := 900000000.

(** The key of a group of the sweeper: tenant and order. *)
Abbreviation groupKey := (string * string)%type.

Section Service.
Context `{UuidText} `{ReservationHashes} `{JsonbText} {X : Type} `{StockClient X}.

(** ** helpers *)

Definition partitionKey (tenant : uuid) (entityID : string) : string :=
  uuid_string tenant +:+ ":" +:+ entityID.

(** The raw payloads: string concatenation around the ids. *)
Definition dq : string := String (Ascii.ascii_of_nat 34) EmptyString.

Definition payload_order_sku (orderID sku : string) : string :=
  "{" +:+ dq +:+ "order_id" +:+ dq +:+ ":" +:+ dq +:+ orderID +:+ dq +:+ "," +:+
  dq +:+ "sku_id" +:+ dq +:+ ":" +:+ dq +:+ sku +:+ dq +:+ "}".

Definition payload_order (orderID : string) : string :=
  "{" +:+ dq +:+ "order_id" +:+ dq +:+ ":" +:+ dq +:+ orderID +:+ dq +:+ "}".

Definition reservation_event (ctx : Ctx) (tenant : uuid) (orderID event_type payload : string)
  : RawOutboxParams :=
  mkRawOutboxParams tenant "reservation" (partitionKey tenant orderID) event_type payload
    (TraceparentText ctx).

Definition item_line (it : ReservationItem) : StockLine :=
  mkLine (it_SkuId it) (it_WarehouseId it) (it_Quantity it).

Definition row_line (r : Reservation) : StockLine :=
  mkLine (r_SkuID r) (r_WarehouseID r) (r_Quantity r).

(** The idempotency step the three handlers open their transaction with. *)
Definition check_key {M} `{PayloadHash M} (tenant : uuid) (key : string) (msg : M) : Q ResDB bool :=
  if bool_decide (key = "") then mret false
  else
    r ← attempt (CheckAndInsertIdempotencyKey tenant key (payload_hash msg));
    match r with
    | Err ErrNoRows => mret true
    | Err e => fail e
    | Ok _ => mret false
    end.

(** ** Reserve *)

Definition insert_item (ctx : Ctx) (tenant : uuid) (req : ReserveRequest) (expiresAt : Z)
    (firstID : string) (it : ReservationItem) : Q ResDB string :=
  row ← InsertReservation
    {| ir_TenantID := tenant; ir_OrderID := rq_OrderId req; ir_SkuID := it_SkuId it;
       ir_WarehouseID := it_WarehouseId it; ir_Quantity := it_Quantity it;
       ir_Status := StatusActive; ir_ExpiresAt := expiresAt |};
  let firstID' := if bool_decide (firstID = "") then uuid_string (r_ID row) else firstID in
  _ ← InsertOutboxEvent (reservation_event ctx tenant (rq_OrderId req) "reservation.created"
                           (payload_order_sku (rq_OrderId req) (it_SkuId it)));
  mret firstID'.

Definition insert_closure (ctx : Ctx) (tenant : uuid) (req : ReserveRequest) (expiresAt : Z)
  : Q ResDB string :=
  dup ← check_key tenant (rq_IdempotencyKey req) req;
  if (dup : bool) then fail ErrAlreadyProcessed
  else foldM (insert_item ctx tenant req expiresAt) "" (rq_Items req).

Definition insertReservations (env : TxEnv) (ctx : Ctx) (tenant : uuid) (req : ReserveRequest)
    (expiresAt : Z) (d : ResDB) : ResDB * res string :=
  match ExecTxWithTenant env ctx (tx_body (insert_closure ctx tenant req expiresAt)) d with
  | (d', _, Some e) => (d', Err e)
  | (d', Some id, None) => (d', Ok id)
  | (d', None, None) => (d', Ok "")
  end.

(** Errors are ignored: the id stays empty. *)
Definition firstReservationID (env : TxEnv) (locked : uuid → bool) (ctx : Ctx) (orderID : string)
    (d : ResDB) : string :=
  let fn : Q ResDB string :=
    r ← attempt (GetActiveReservationsByOrder locked orderID);
    match r with
    | Ok (row :: _) => mret (uuid_string (r_ID row))
    | _ => mret ""
    end in
  match ExecTxWithTenant env ctx (tx_body fn) d with
  | (_, Some id, _) => id
  | (_, None, _) => ""
  end.

Definition Reserve (env : ResEnv) (ctx : Ctx) (req : ReserveRequest) (d : ResDB) (x : X)
  : ResDB * X * res ReserveResponse :=
  match ParseUUID (rq_TenantId req) with
  | Err e => (d, x, Err (ErrStatusf InvalidArgument "%v" e))
  | Ok tenant =>
      let ctx := WithTenantID ctx (rq_TenantId req) in
      match rq_Items req with
      | [] => (d, x, Err (ErrStatus InvalidArgument "no items provided"))
      | _ =>
          let ttl := if 0 <? rq_TtlSeconds req then rq_TtlSeconds req * 1000000 else defaultTTL in
          let stockLines := item_line <$> rq_Items req in
          let '(x, sr) := rpc_ReserveStock ctx
            {| rsv_TenantId := rq_TenantId req; rsv_OrderId := rq_OrderId req;
               rsv_IdempotencyKey := rq_IdempotencyKey req; rsv_Lines := stockLines |} x in
          match sr with
          | Err e => (d, x, Err (ErrStatusf Internal "reserve stock: %v" e))
          | Ok stockResp =>
              if negb (rsvr_Success stockResp)
              then (d, x, Ok (mkReserveResponse false "" (rsvr_FailedSkuIds stockResp) 0))
              else
                let expiresAt := re_now env + ttl in
                match insertReservations (re_tx env) ctx tenant req expiresAt d with
                | (d, Ok reservationID) =>
                    (d, x, Ok (mkReserveResponse true reservationID [] (expiresAt / 1000000)))
                | (d, Err e) =>
                    if errors_Is e ErrAlreadyProcessed then
                      let id := firstReservationID (re_tx2 env) (re_locked env) ctx
                                  (rq_OrderId req) d in
                      (d, x, Ok (mkReserveResponse true id [] 0))
                    else
                      let '(x, _) := rpc_ReleaseStock (mkCtx None "")
                        {| rel_TenantId := rq_TenantId req; rel_OrderId := rq_OrderId req;
                           rel_Reason := "reserve_failure";
                           rel_IdempotencyKey := CompensationKey (rq_TenantId req) (rq_OrderId req);
                           rel_Lines := stockLines |} x in
                      (d, x, Err (ErrStatusf Internal "persist reservation: %v" e))
                end
          end
      end
  end.

(** ** Release *)

Definition mark_row (ctx : Ctx) (tenant : uuid) (orderID status event_type : string) (r : Reservation)
  : Q ResDB unit :=
  _ ← UpdateReservationStatus (r_ID r) status;
  _ ← InsertOutboxEvent (reservation_event ctx tenant orderID event_type (payload_order orderID));
  mret ().

Definition release_rows (ctx : Ctx) (tenant : uuid) (orderID : string) (rows : list Reservation)
  : Q ResDB unit :=
  foldM (λ _ r, mark_row ctx tenant orderID StatusReleased "reservation.released" r) () rows.

(** The closure, with the call to the stock service inside the transaction. *)
Definition res_release_closure (locked : uuid → bool) (ctx : Ctx) (tenant : uuid)
    (req : ReleaseRequest) : QX ResDB X (list string) :=
  dup ← query (check_key tenant (rl_IdempotencyKey req) req);
  if (dup : bool) then query (fail ErrAlreadyProcessed)
  else
    rows ← query (GetActiveReservationsByOrder locked (rl_OrderId req));
    match rows with
    | [] => mret []
    | _ =>
        stockResp ← rpc (rpc_ReleaseStock ctx
          {| rel_TenantId := rl_TenantId req; rel_OrderId := rl_OrderId req;
             rel_Reason := rl_Reason req; rel_IdempotencyKey := rl_IdempotencyKey req;
             rel_Lines := row_line <$> rows |});
        _ ← query (release_rows ctx tenant (rl_OrderId req) rows);
        mret (relr_ReleasedSkuIds stockResp)
    end.

Definition Release (env : ResEnv) (ctx : Ctx) (req : ReleaseRequest) (d : ResDB) (x : X)
  : ResDB * X * res ReleaseResponse :=
  match ParseUUID (rl_TenantId req) with
  | Err e => (d, x, Err (ErrStatusf InvalidArgument "%v" e))
  | Ok tenant =>
      let ctx := WithTenantID ctx (rl_TenantId req) in
      match ExecTxWithTenantX (re_tx env) ctx (res_release_closure (re_locked env) ctx tenant req) d x with
      | (d, x, Ok released) => (d, x, Ok (mkReleaseResponse true released))
      | (d, x, Err e) =>
          if errors_Is e ErrAlreadyProcessed then (d, x, Ok (mkReleaseResponse true []))
          else (d, x, Err (ErrStatusf Internal "release: %v" e))
      end
  end.

(** ** AllocateReservation *)

Definition allocate_closure (locked : uuid → bool) (ctx : Ctx) (tenant : uuid)
    (req : AllocateReservationRequest) : Q ResDB Z :=
  dup ← check_key tenant (al_IdempotencyKey req) req;
  if (dup : bool) then mret 0
  else
    rows ← GetActiveReservationsByOrder locked (al_OrderId req);
    foldM (λ count r,
             _ ← mark_row ctx tenant (al_OrderId req) StatusAllocated "reservation.allocated" r;
             mret (wrap32 (count + 1))) 0 rows.

Definition AllocateReservation (env : ResEnv) (ctx : Ctx) (req : AllocateReservationRequest)
    (d : ResDB) : ResDB * res AllocateReservationResponse :=
  match ParseUUID (al_TenantId req) with
  | Err e => (d, Err (ErrStatusf InvalidArgument "%v" e))
  | Ok tenant =>
      let ctx := WithTenantID ctx (al_TenantId req) in
      match ExecTxWithTenant (re_tx env) ctx (tx_body (allocate_closure (re_locked env) ctx tenant req)) d with
      | (d, _, Some e) => (d, Err (ErrStatusf Internal "allocate reservation: %v" e))
      | (d, Some count, None) => (d, Ok (mkAllocateReservationResponse true count))
      | (d, None, None) => (d, Ok (mkAllocateReservationResponse true 0))
      end
  end.

(** ** The sweeper *)

Definition row_key (r : Reservation) : groupKey := (uuid_string (r_TenantID r), r_OrderID r).

(** groups[k] = append(groups[k], r), the map as an association list. *)
Fixpoint add_to_group (k : groupKey) (r : Reservation) (groups : list (groupKey * list Reservation))
  : list (groupKey * list Reservation) :=
  match groups with
  | [] => [(k, [r])]
  | (k', rs) :: groups' =>
      if bool_decide (k = k') then (k', rs ++ [r]) :: groups'
      else (k', rs) :: add_to_group k r groups'
  end.

Definition groupByOrder (rows : list Reservation) : list (groupKey * list Reservation) :=
  foldl (λ groups r, add_to_group (row_key r) r groups) [] rows.

Definition releaseRequest (tenant orderID : string) (rows : list Reservation) : ReleaseStockRequest :=
  {| rel_TenantId := tenant; rel_OrderId := orderID; rel_Reason := "ttl_expiry";
     rel_IdempotencyKey := CompensationKey tenant orderID; rel_Lines := row_line <$> rows |}.

(** What surrounds one sweep: its statements run on the pool, each on its own,
    and each can fail; [sw_shuffle] is the order Go iterates the map in,
    [sw_meanwhile] what other requests commit after the fetch. *)
Record SweepEnv := mkSweepEnv {
  sw_now : Z;
  sw_fetch_err : option string;
  sw_mark_err : uuid → option string;
  sw_outbox_err : uuid → option string;
  sw_locked : uuid → bool;
  sw_plan : list Reservation → list Reservation;
  sw_shuffle : list (groupKey * list Reservation) → list (groupKey * list Reservation);
  sw_meanwhile : ResDB → ResDB;
}.

Definition sweep_session (env : SweepEnv) : Session := mkSession RlsBypass (sw_now env).

Definition markExpired (env : SweepEnv) (ctx : Ctx) (d : ResDB) (r : Reservation) : ResDB :=
  match sw_mark_err env (r_ID r) with
  | Some _ => d
  | None =>
      match UpdateReservationStatus (r_ID r) StatusExpired (sweep_session env) d with
      | Err _ => d
      | Ok (d, _) =>
          match sw_outbox_err env (r_ID r) with
          | Some _ => d
          | None =>
              match InsertOutboxEvent
                      (mkRawOutboxParams (r_TenantID r) "reservation"
                         (partitionKey (r_TenantID r) (r_OrderID r)) "reservation.expired"
                         (payload_order_sku (r_OrderID r) (r_SkuID r)) (TraceparentText ctx))
                      (sweep_session env) d with
              | Err _ => d
              | Ok (d, _) => d
              end
          end
      end
  end.

(** One group: release its stock, then mark its rows. *)
Definition sweep_group (env : SweepEnv) (ctx : Ctx) (st : ResDB * X) (g : groupKey * list Reservation)
  : ResDB * X :=
  let '(d, x) := st in
  let '((tenant, orderID), rows) := g in
  match rpc_ReleaseStock ctx (releaseRequest tenant orderID rows) x with
  | (x, Err _) => (d, x)
  | (x, Ok _) => (foldl (markExpired env ctx) d rows, x)
  end.

(** The settings of the sweeper: a hundred rows every thirty seconds. *)
Record Sweeper := mkSweeper { sp_interval : Z; sp_batch : Z }.

Definition NewSweeper : Sweeper := mkSweeper (30 * 1000000000) 100.

Definition sweepOnce (env : SweepEnv) (ctx : Ctx) (d : ResDB) (x : X) : ResDB * X :=
  match sw_fetch_err env with
  | Some _ => (d, x)
  | None =>
      match GetExpiredReservations (sw_plan env) (sw_locked env) (sw_now env) (sp_batch NewSweeper)
              (sweep_session env) d with
      | Err _ => (d, x)
      | Ok (d, expired) =>
          foldl (sweep_group env ctx) (sw_meanwhile env d, x) (sw_shuffle env (groupByOrder expired))
      end
  end.

End Service.
