(* ===== verification/ReservationBooks.v ===== *)
(** * The reservation service keeps the books of the stock service

    What the rows say is held is what the stock service has reserved: the
    invariant that ties the two databases, kept by every handler and by the
    sweeper over a working network, and proved against the stock client's
    interface alone. *)

From S2P Require Import Prelude Database StockDb StockApi StockService StockEffects StockReserve StockClient.
From S2P Require Import ReservationDb ReservationService.

(** ** Specification *)

Definition is_active (r : Reservation) : bool := bool_decide (r_Status r = StatusActive).

Definition row_loc (r : Reservation) : loc := (r_TenantID r, r_SkuID r, r_WarehouseID r).

(** What an active row holds at location [k]. *)
Definition holds_at (k : loc) (r : Reservation) : Z :=
  if is_active r && bool_decide (row_loc r = k) then r_Quantity r else 0.

Definition held_at (d : ResDB) (k : loc) : Z := zsum (holds_at k) (reservations d).

(** Ids are distinct and drawn already, quantities are positive int32s: what
    the primary key and the CHECK constraint ensure. *)
Record res_wf (d : ResDB) : Prop := {
  rw_ids : NoDup (r_ID <$> reservations d);
  rw_drawn : Forall (λ r, (r_ID r < res_next_uuid d)%N) (reservations d);
  rw_qty : Forall (λ r, 0 < r_Quantity r ∧ in_int32 (r_Quantity r) = true) (reservations d);
}.

Definition res_key_seen (t : uuid) (key : string) (d : ResDB) : bool :=
  negb (bool_decide (key = "")) && bool_decide (is_Some (res_idem d !! (t, key))).

(** The rows and the stock service agree. *)
Definition books_agree {X} `{StockClientLaws X} (d : ResDB) (x : X) : Prop :=
  ∀ k, reserved_in x k = held_at d k.

(** [status] on the rows whose id is in [ids]. *)
Definition mark (ids : list uuid) (status : string) (r : Reservation) : Reservation :=
  if bool_decide (r_ID r ∈ ids) then set_status status r else r.

(** ** Lemmas on the tables *)

Lemma mark_id ids status r : r_ID (mark ids status r) = r_ID r.
Proof. unfold mark. by destruct (bool_decide _). Qed.

Lemma mark_ids ids status (l : list Reservation) : r_ID <$> (mark ids status <$> l) = r_ID <$> l.
Proof. rewrite <- list_fmap_compose. apply list_fmap_ext. intros i r _. apply mark_id. Qed.

Lemma mark_mark ids1 ids2 status r :
  mark ids2 status (mark ids1 status r) = mark (ids1 ++ ids2) status r.
Proof.
  unfold mark. destruct (bool_decide (r_ID r ∈ ids1)) eqn:H1.
  - apply bool_decide_eq_true in H1. rewrite (bool_decide_true (_ ∈ ids1 ++ ids2)) by set_solver.
    by destruct (bool_decide _).
  - apply bool_decide_eq_false in H1.
    rewrite (bool_decide_ext (r_ID r ∈ ids1 ++ ids2) (r_ID r ∈ ids2)) by set_solver. done.
Qed.

Lemma mark_nil status r : mark [] status r = r.
Proof. unfold mark. rewrite bool_decide_false; [done|]. by intros ?%elem_of_nil. Qed.

Lemma same_id (l : list Reservation) r1 r2 :
  NoDup (r_ID <$> l) → r1 ∈ l → r2 ∈ l → r_ID r1 = r_ID r2 → r1 = r2.
Proof.
  induction l as [|r l IH]; [by intros _ ?%elem_of_nil|]. rewrite fmap_cons, NoDup_cons.
  intros [Hr Hnd] [->|H1]%elem_of_cons [->|H2]%elem_of_cons Heq; [done| | |by apply IH].
  - destruct Hr. rewrite Heq. by apply list_elem_of_fmap_2.
  - destruct Hr. rewrite <- Heq. by apply list_elem_of_fmap_2.
Qed.

Lemma head_filter (P : Reservation → Prop) `{!∀ r, Decision (P r)} (l : list Reservation) r :
  r ∈ l → P r → (∀ r', r' ∈ l → P r' → r' = r) → head (filter P l) = Some r.
Proof.
  intros Hr HP Huniq. assert (r ∈ filter P l) as Hin by by apply list_elem_of_filter.
  destruct (filter P l) as [|r' l'] eqn:Hf; [by apply elem_of_nil in Hin|].
  assert (r' ∈ filter P l) as Hr' by (rewrite Hf; apply list_elem_of_here).
  apply list_elem_of_filter in Hr' as [HP' Hr']. cbn. f_equal. by apply Huniq.
Qed.

(** The update of one row, in a session that sees it. *)
Lemma update_status_ok s r status d :
  res_wf d → r ∈ reservations d → visible s (r_TenantID r) = true → status_in_enum status = true →
  UpdateReservationStatus (r_ID r) status s d =
  Ok (set_reservations (mark [r_ID r] status <$> reservations d) d, set_status status r).
Proof.
  intros [Hids _ Hq] Hr Hvis Hst. unfold UpdateReservationStatus, find_reservation.
  rewrite (head_filter _ _ r); [|done|done|].
  - rewrite Forall_forall in Hq. destruct (Hq r Hr) as [Hpos _].
    unfold check_reservation. rewrite (proj2 (Z.leb_gt _ _) Hpos), Hst. cbn [negb].
    do 3 f_equal. apply list_fmap_ext. intros i r' Hr'. apply list_elem_of_lookup_2 in Hr'.
    unfold mark. destruct (decide (r_ID r' = r_ID r)) as [Heq|Hne].
    + assert (r' = r) as -> by by eapply same_id. rewrite Hvis.
      rewrite !bool_decide_true by (done || set_solver). done.
    + rewrite !bool_decide_false by (done || set_solver). done.
  - intros r' Hr' [_ Heq]. by eapply same_id.
Qed.

Lemma set_status_qty status r : r_Quantity (set_status status r) = r_Quantity r.
Proof. done. Qed.

Lemma mark_wf ids status d d' :
  res_wf d → reservations d' = mark ids status <$> reservations d →
  (res_next_uuid d <= res_next_uuid d')%N → res_wf d'.
Proof.
  intros [Hids Hdr Hq] Hl Hn. split.
  - by rewrite Hl, mark_ids.
  - rewrite Hl. apply Forall_fmap. eapply Forall_impl; [exact Hdr|]. intros r Hr. cbn in *.
    rewrite mark_id. by eapply N.lt_le_trans.
  - rewrite Hl. apply Forall_fmap. eapply Forall_impl; [exact Hq|]. intros r Hr. cbn in *.
    unfold mark. by destruct (bool_decide _).
Qed.

(** Taking the rows of [rows] out of the active ones takes their share out of
    every sum over the active ones. *)
Lemma sum_mark (f : Reservation → Z) (rows l : list Reservation) status :
  (∀ r, f (set_status status r) = 0) → NoDup (r_ID <$> l) → NoDup rows → (∀ r, r ∈ rows → r ∈ l) →
  zsum f (mark (r_ID <$> rows) status <$> l) = zsum f l - zsum f rows.
Proof.
  intros Hst Hids Hnd Hsub.
  assert (rows ≡ₚ filter (λ r, r_ID r ∈ r_ID <$> rows) l) as Hp.
  { apply NoDup_Permutation; [done|by apply NoDup_filter, (NoDup_fmap_1 r_ID)|]. intros r.
    rewrite list_elem_of_filter, list_elem_of_fmap. split.
    - intros Hr. split; [by exists r|auto].
    - intros [(r' & Heq & Hr') Hr]. assert (r = r') as -> by (eapply same_id; eauto). done. }
  rewrite Hp at 2. revert Hids. clear Hp Hnd Hsub. generalize (r_ID <$> rows) as ids. intros ids _.
  induction l as [|r l IH]; [done|]. rewrite fmap_cons, filter_cons. cbn [zsum]. rewrite IH.
  unfold mark. case_decide as Hr.
  - rewrite bool_decide_true by done. cbn [zsum]. rewrite Hst. lia.
  - rewrite bool_decide_false by done. lia.
Qed.

Lemma held_mark (k : loc) (rows l : list Reservation) status :
  status ≠ StatusActive → NoDup (r_ID <$> l) → NoDup rows → (∀ r, r ∈ rows → r ∈ l) →
  zsum (holds_at k) (mark (r_ID <$> rows) status <$> l) =
  zsum (holds_at k) l - zsum (holds_at k) rows.
Proof.
  intros Hst. apply sum_mark. intros r. unfold holds_at, is_active. cbn [r_Status set_status].
  by rewrite bool_decide_false.
Qed.

(** What active rows of tenant [t] hold is what the lines built from them
    carry. *)
Lemma qty_at_rows (t : uuid) (k : loc) (rows : list Reservation) :
  Forall (λ r, is_active r = true ∧ r_TenantID r = t) rows →
  qty_at t k (row_line <$> rows) = zsum (holds_at k) rows.
Proof.
  intros Hall. unfold qty_at. rewrite zsum_fmap. apply zsum_ext. intros r Hr.
  rewrite Forall_forall in Hall. destruct (Hall r Hr) as [Ha <-]. unfold holds_at. cbn.
  by rewrite Ha.
Qed.

Lemma held_nonneg k (l : list Reservation) :
  Forall (λ r, 0 < r_Quantity r ∧ in_int32 (r_Quantity r) = true) l → 0 <= zsum (holds_at k) l.
Proof.
  intros Hq. apply zsum_nonneg. intros r Hr. rewrite Forall_forall in Hq. destruct (Hq r Hr) as [? _].
  unfold holds_at. case_match; lia.
Qed.

(** Some of the rows hold at most what all of them hold. *)
Lemma held_sub (k : loc) (rows : list Reservation) d :
  res_wf d → NoDup rows → (∀ r, r ∈ rows → r ∈ reservations d) →
  zsum (holds_at k) rows <= held_at d k.
Proof.
  intros [Hids Hdr Hq] Hnd Hsub.
  pose proof (held_mark k rows (reservations d) StatusExpired ltac:(done) Hids Hnd Hsub) as Hm.
  assert (0 <= zsum (holds_at k) (mark (r_ID <$> rows) StatusExpired <$> reservations d)); [|unfold held_at; lia].
  apply held_nonneg, Forall_fmap. eapply Forall_impl; [exact Hq|]. intros r Hr. cbn in *.
  unfold mark. by destruct (bool_decide _).
Qed.

Lemma row_lines_nonneg (rows : list Reservation) d :
  res_wf d → (∀ r, r ∈ rows → r ∈ reservations d) →
  lines_nonneg (row_line <$> rows) = true ∧ ∀ l, l ∈ row_line <$> rows → 0 < Quantity l.
Proof.
  intros [_ _ Hq] Hsub. rewrite Forall_forall in Hq. split.
  - unfold lines_nonneg. apply forallb_forall. intros l Hl%list_elem_of_In.
    apply list_elem_of_fmap in Hl as (r & -> & Hr). cbn.
    destruct (Hq r (Hsub r Hr)) as [Hpos ->]. rewrite andb_true_r. apply Z.leb_le. lia.
  - intros l Hl. apply list_elem_of_fmap in Hl as (r & -> & Hr). cbn. apply Hq, Hsub, Hr.
Qed.

(** Active rows of a tenant, as a request to stock: it asks for no more than stock
    has reserved. *)
Lemma rows_covered {X} `{StockClientLaws X} t (rows : list Reservation) d (x : X) :
  res_wf d → books_agree d x → NoDup rows →
  (∀ r, r ∈ rows → r ∈ reservations d ∧ is_active r = true ∧ r_TenantID r = t) →
  Forall (λ r, is_active r = true ∧ r_TenantID r = t) rows ∧ lines_nonneg (row_line <$> rows) = true ∧
  (∀ l, l ∈ row_line <$> rows → 0 < Quantity l) ∧ ∀ k, qty_at t k (row_line <$> rows) <= reserved_in x k.
Proof.
  intros Hd Hb Hnd Hsub.
  assert (Forall (λ r, is_active r = true ∧ r_TenantID r = t) rows) as Hact
    by (apply Forall_forall; intros r Hr; by apply Hsub).
  destruct (row_lines_nonneg rows d Hd (λ r Hr, proj1 (Hsub r Hr))) as [Hn Hpos].
  do 3 (split; [done|]). intros k. rewrite Hb, (qty_at_rows _ _ _ Hact).
  apply held_sub; [done|done|]. intros r Hr. by apply Hsub.
Qed.
