(* ===== verification/ReservationProps.v ===== *)
(** * Reserve, Release and AllocateReservation keep the books

    The handlers over a working database and network, step by step: what each
    leaves in the table, and that the stock service agrees with it. *)

From S2P Require Import Prelude Database StockDb StockApi StockService StockEffects StockRefine StockReserve.
From S2P Require Import StockClient ReservationDb ReservationService ReservationBooks.

(** ** Specification *)

(** The active rows of an order of tenant [t]. *)
Definition of_order (t : uuid) (orderID : string) (r : Reservation) : bool :=
  bool_decide (r_TenantID r = t) && bool_decide (r_OrderID r = orderID) && is_active r.

Definition close_order (t : uuid) (orderID status : string) (r : Reservation) : Reservation :=
  if of_order t orderID r then set_status status r else r.

Definition items_ok (items : list ReservationItem) : bool :=
  forallb (λ it, (0 <? it_Quantity it) && in_int32 (it_Quantity it)) items.

(** The row an item becomes. *)
Definition item_row (t : uuid) (orderID : string) (expiresAt : Z) (it : ReservationItem)
    (r : Reservation) : Prop :=
  r_TenantID r = t ∧ r_OrderID r = orderID ∧ row_line r = item_line it ∧
  r_Status r = StatusActive ∧ r_ExpiresAt r = expiresAt.

(** The database once the key of a request is recorded. *)
Definition res_recorded (t : uuid) (key hash : string) (now : Z) (d : ResDB) : ResDB :=
  if bool_decide (key = "") then d
  else set_idem (<[(t, key) := mkIdemRow hash now]> (idem d)) d.

(** ** Lemmas *)

Section Steps.
Context `{UuidText} `{ReservationHashes} `{JsonbText} (t : uuid) (now : Z).

Lemma res_visible : visible (tenant_session t now) t = true.
Proof. apply visible_tenant. Qed.

Lemma check_key_run {M} `{PayloadHash M} key (msg : M) d :
  check_key t key msg (tenant_session t now) d =
  Ok (if res_key_seen t key d then d else res_recorded t key (payload_hash msg) now d,
      res_key_seen t key d).
Proof.
  unfold check_key, res_key_seen, res_recorded. case_bool_decide; [done|].
  unfold mbind, Q_bind, attempt, CheckAndInsertIdempotencyKey, idem_insert.
  rewrite res_visible. change (idem d) with (res_idem d).
  destruct (res_idem d !! (t, key)) as [row|] eqn:E.
  - by rewrite bool_decide_true by eauto.
  - by rewrite bool_decide_false by (intros [? ?]; done).
Qed.

Lemma res_recorded_rows key hash d : reservations (res_recorded t key hash now d) = reservations d.
Proof. unfold res_recorded. by case_bool_decide. Qed.

Lemma res_recorded_wf key hash d : res_wf d → res_wf (res_recorded t key hash now d).
Proof. unfold res_recorded. case_bool_decide; [done|]. intros [? ? ?]. by split. Qed.

(** An outbox row whose payload parses is queued and nothing else changes. *)
Lemma raw_outbox_run p s d :
  visible s (raw_TenantID p) = true → is_Some (jsonb_parse (raw_Payload p)) →
  ∃ d' row, InsertOutboxEvent p s d = Ok (d', row) ∧ reservations d' = reservations d ∧
    res_idem d' = res_idem d ∧ res_next_uuid d' = N.succ (res_next_uuid d).
Proof.
  intros Hvis [j Hj]. unfold InsertOutboxEvent. rewrite Hj.
  unfold outbox_insert, mbind, Q_bind, gen_random_uuid. cbn [outbox_of_raw ob_TenantID].
  rewrite Hvis. cbn [negb]. by eexists _, _.
Qed.

Lemma same_rows_wf d d' :
  res_wf d → reservations d' = reservations d → (res_next_uuid d <= res_next_uuid d')%N → res_wf d'.
Proof.
  intros Hd Hl Hn. apply (mark_wf [] StatusActive d); [done| |done].
  rewrite Hl. symmetry. rewrite <- (list_fmap_id (reservations d)) at 2.
  apply list_fmap_ext. intros i r _. apply mark_nil.
Qed.

(** One row marked. *)
Lemma mark_row_run ctx orderID status event r d :
  res_wf d → r ∈ reservations d → r_TenantID r = t → status_in_enum status = true →
  is_Some (jsonb_parse (payload_order orderID)) →
  ∃ d', mark_row ctx t orderID status event r (tenant_session t now) d = Ok (d', ()) ∧
    reservations d' = mark [r_ID r] status <$> reservations d ∧ res_idem d' = res_idem d ∧ res_wf d'.
Proof.
  intros Hd Hr Ht Hst Hp. unfold mark_row, mbind, Q_bind.
  rewrite (update_status_ok _ r) by (rewrite ?Ht; auto using res_visible).
  destruct (raw_outbox_run (reservation_event ctx t orderID event (payload_order orderID))
    (tenant_session t now) (set_reservations (mark [r_ID r] status <$> reservations d) d))
    as (d' & row & -> & Hl & Hi & Hn); [apply res_visible|done|].
  exists d'. split; [done|]. split; [done|]. split; [done|].
  apply (mark_wf [r_ID r] status d); [done|done|]. rewrite Hn. cbn. apply N.le_succ_diag_r.
Qed.

(** The loop over the rows of an order. *)
Lemma mark_rows_run {B} ctx orderID status event (f : B → Reservation → Q ResDB B) (g : B → B) rows :
  (∀ acc r d d', mark_row ctx t orderID status event r (tenant_session t now) d = Ok (d', ()) →
     f acc r (tenant_session t now) d = Ok (d', g acc)) →
  status_in_enum status = true → is_Some (jsonb_parse (payload_order orderID)) →
  ∀ acc d, res_wf d → NoDup (r_ID <$> rows) →
  (∀ r, r ∈ rows → r ∈ reservations d ∧ r_TenantID r = t) →
  ∃ d', foldM f acc rows (tenant_session t now) d = Ok (d', Nat.iter (length rows) g acc) ∧
    reservations d' = mark (r_ID <$> rows) status <$> reservations d ∧
    res_idem d' = res_idem d ∧ res_wf d'.
Proof.
  intros Hf Hst Hp. induction rows as [|r rows IH]; intros acc d Hd Hnd Hsub.
  { exists d. split; [done|]. split; [|done]. symmetry.
    rewrite <- (list_fmap_id (reservations d)) at 2. apply list_fmap_ext. intros i r _. apply mark_nil. }
  rewrite fmap_cons, NoDup_cons in Hnd. destruct Hnd as [Hr Hnd].
  destruct (Hsub r (list_elem_of_here _ _)) as [Hin Ht].
  destruct (mark_row_run ctx orderID status event r d) as (d1 & Hrun & Hl1 & Hi1 & Hd1); [done..|].
  destruct (IH (g acc) d1 Hd1 Hnd) as (d' & Hrun' & Hl' & Hi' & Hd').
  { intros r' Hr'. destruct (Hsub r') as [Hin' Ht']; [by apply list_elem_of_further|].
    split; [|done]. rewrite Hl1. apply list_elem_of_fmap. exists r'. split; [|done].
    unfold mark. rewrite bool_decide_false; [done|]. intros Heq%list_elem_of_singleton.
    destruct Hr. rewrite <- Heq. by apply list_elem_of_fmap_2. }
  exists d'. split.
  - cbn [foldM]. unfold mbind, Q_bind. rewrite (Hf acc r d d1 Hrun), Hrun'.
    by rewrite Nat.iter_swap.
  - split; [|by rewrite Hi', Hi1]. rewrite Hl', Hl1, <- list_fmap_compose.
    apply list_fmap_ext. intros i r' _. cbn [compose]. rewrite mark_mark. done.
Qed.

(** The rows GetActiveReservationsByOrder returns when none is locked. *)
Lemma active_rows orderID d :
  res_wf d →
  ∃ rows, GetActiveReservationsByOrder (λ _, false) orderID (tenant_session t now) d = Ok (d, rows) ∧
    NoDup rows ∧ NoDup (r_ID <$> rows) ∧
    (∀ r, (r ∈ rows) ↔ r ∈ reservations d ∧ of_order t orderID r = true).
Proof.
  intros Hd. unfold GetActiveReservationsByOrder. set (P r := active_of_order _ _ _ r = true).
  eexists. split; [done|].
  assert (∀ r, r ∈ merge_sort id_le (filter P (reservations d)) ↔
               r ∈ reservations d ∧ of_order t orderID r = true) as Hiff.
  { intros r. rewrite merge_sort_Permutation, list_elem_of_filter. unfold P, active_of_order, of_order.
    unfold visible, is_active. cbn [tenant_session s_rls]. rewrite andb_true_r.
    rewrite (bool_decide_ext (t = r_TenantID r) (r_TenantID r = t)) by done.
    rewrite <- !andb_assoc. tauto. }
  assert (NoDup (r_ID <$> filter P (reservations d))) as Hnd.
  { pose proof (rw_ids d Hd) as Hids. revert Hids. generalize (reservations d). clear.
    induction l as [|r l IH]; [done|]. rewrite fmap_cons, NoDup_cons, filter_cons. intros [Hr Hnd].
    case_decide; [|by apply IH]. rewrite fmap_cons, NoDup_cons. split; [|by apply IH].
    intros Hin. apply Hr. apply list_elem_of_fmap in Hin as (r' & -> & Hr').
    apply list_elem_of_filter in Hr' as [_ ?]. by apply list_elem_of_fmap_2. }
  split; [|split; [|done]].
  - rewrite merge_sort_Permutation. by apply (NoDup_fmap_1 r_ID).
  - rewrite merge_sort_Permutation. done.
Qed.

(** Marking those rows closes the order. *)
Lemma mark_closes orderID status (rows : list Reservation) d :
  res_wf d → (∀ r, r ∈ rows ↔ r ∈ reservations d ∧ of_order t orderID r = true) →
  mark (r_ID <$> rows) status <$> reservations d =
  close_order t orderID status <$> reservations d.
Proof.
  intros Hd Hrows. apply list_fmap_ext. intros i r Hr. apply list_elem_of_lookup_2 in Hr.
  unfold mark, close_order. destruct (of_order t orderID r) eqn:Ho.
  - rewrite bool_decide_true; [done|]. apply list_elem_of_fmap. exists r. split; [done|].
    by apply Hrows.
  - rewrite bool_decide_false; [done|]. intros (r' & Heq & Hr')%list_elem_of_fmap.
    apply Hrows in Hr' as [Hin' Ho'].
    assert (r = r') as -> by (eapply same_id; [apply (rw_ids d Hd)|done|done|done]). congruence.
Qed.

(** A row with a drawn id and a good quantity. *)
Lemma pushed_wf d row :
  res_wf d → r_ID row = res_next_uuid d → 0 < r_Quantity row → in_int32 (r_Quantity row) = true →
  res_wf (set_reservations (reservations d ++ [row]) (set_next_uuid (N.succ (next_uuid d)) d)).
Proof.
  intros [Hids Hdr Hq] Hid Hpos H32. split; cbn.
  - rewrite fmap_app. cbn. apply NoDup_app. split; [done|]. split; [|apply NoDup_singleton].
    intros id (r & -> & Hr)%list_elem_of_fmap Hnew%list_elem_of_singleton.
    rewrite Forall_forall in Hdr. apply Hdr in Hr. rewrite Hnew, Hid in Hr. by apply N.lt_irrefl in Hr.
  - apply Forall_app. split.
    + eapply Forall_impl; [exact Hdr|]. intros r Hr. cbn in *. by apply N.lt_lt_succ_r.
    + apply Forall_singleton. rewrite Hid. apply N.lt_succ_diag_r.
  - apply Forall_app. split; [done|]. by apply Forall_singleton.
Qed.

(** The loop of insertReservations. *)
Lemma insert_items_run ctx req expiresAt items :
  items_ok items = true →
  (∀ it, it ∈ items → is_Some (jsonb_parse (payload_order_sku (rq_OrderId req) (it_SkuId it)))) →
  ∀ first d, res_wf d →
  ∃ d' first' new, foldM (insert_item ctx t req expiresAt) first items (tenant_session t now) d =
      Ok (d', first') ∧
    reservations d' = reservations d ++ new ∧
    Forall2 (item_row t (rq_OrderId req) expiresAt) items new ∧ res_idem d' = res_idem d ∧ res_wf d'.
Proof.
  induction items as [|it items IH]; intros Hok Hp first d Hd.
  { exists d, first, []. by rewrite app_nil_r. }
  cbn [items_ok forallb] in Hok. apply andb_prop in Hok as [Hit Hok]. apply andb_prop in Hit as [Hpos H32].
  apply Z.ltb_lt in Hpos.
  set (p := mkInsertReservationParams t (rq_OrderId req) (it_SkuId it) (it_WarehouseId it)
              (it_Quantity it) StatusActive expiresAt).
  set (row := new_reservation (res_next_uuid d) now p).
  set (d1 := set_reservations (reservations d ++ [row]) (set_next_uuid (N.succ (next_uuid d)) d)).
  assert (InsertReservation p (tenant_session t now) d = Ok (d1, row)) as Hins.
  { unfold InsertReservation, mbind, Q_bind, gen_random_uuid. cbn [p ir_TenantID].
    rewrite res_visible. cbn [negb]. unfold check_reservation. cbn [p ir_Quantity ir_Status].
    by rewrite (proj2 (Z.leb_gt _ _) Hpos). }
  assert (res_wf d1) as Hd1.
  { by apply pushed_wf. }
  destruct (raw_outbox_run (reservation_event ctx t (rq_OrderId req) "reservation.created"
    (payload_order_sku (rq_OrderId req) (it_SkuId it))) (tenant_session t now) d1)
    as (d2 & orow & Hout & Hl2 & Hi2 & Hn2); [apply res_visible|apply Hp, list_elem_of_here|].
  destruct (IH Hok (λ it' Hit', Hp it' (list_elem_of_further _ _ _ Hit'))
    (if bool_decide (first = "") then uuid_string (r_ID row) else first) d2)
    as (d' & first' & new & Hrun & Hl & Hnew & Hi & Hd').
  { apply (same_rows_wf d1); [done|done|]. rewrite Hn2. apply N.le_succ_diag_r. }
  exists d', first', (row :: new). split; [|split; [|split; [|split]]].
  - assert (insert_item ctx t req expiresAt first it (tenant_session t now) d =
      Ok (d2, if bool_decide (first = "") then uuid_string (r_ID row) else first)) as Hone.
    { unfold insert_item. change (mkInsertReservationParams _ _ _ _ _ _ _) with p.
      unfold mbind, Q_bind. by rewrite Hins, Hout. }
    cbn [foldM]. unfold mbind, Q_bind. rewrite Hone. exact Hrun.
  - rewrite Hl, Hl2. cbn. by rewrite <- app_assoc.
  - constructor; [|done]. done.
  - by rewrite Hi, Hi2.
  - done.
Qed.

Lemma new_rows_lines orderID expiresAt items new :
  Forall2 (item_row t orderID expiresAt) items new →
  row_line <$> new = item_line <$> items ∧ Forall (λ r, is_active r = true ∧ r_TenantID r = t) new.
Proof.
  induction 1 as [|it r items new (Ht & _ & Hl & Hst & _) _ [IH1 IH2]]; [done|].
  rewrite !fmap_cons, IH1, Hl. split; [done|]. constructor; [|done].
  split; [|done]. by apply bool_decide_eq_true.
Qed.

End Steps.

Section Handlers.
Context `{UuidText} `{!UuidTextLaws} `{ReservationHashes} `{JsonbText} {X : Type}
  `{!StockClient X} `{!StockClientLaws X}.

Lemma insertReservations_run now ctx t req expiresAt d :
  uuid_scan (rq_TenantId req) = Some t → res_wf d → items_ok (rq_Items req) = true →
  res_key_seen t (rq_IdempotencyKey req) d = false →
  (∀ it, it ∈ rq_Items req → is_Some (jsonb_parse (payload_order_sku (rq_OrderId req) (it_SkuId it)))) →
  ∃ d' id new, insertReservations (healthy now) (WithTenantID ctx (rq_TenantId req)) t req expiresAt d
      = (d', Ok id) ∧
    reservations d' = reservations d ++ new ∧
    Forall2 (item_row t (rq_OrderId req) expiresAt) (rq_Items req) new ∧ res_wf d' ∧
    res_idem d' = res_idem (res_recorded t (rq_IdempotencyKey req) (payload_hash req) now d).
Proof.
  intros Ht Hd Hok Hk Hp. unfold insertReservations.
  rewrite (exec_tx_healthy _ _ _ _ (rq_TenantId req));
    [|done|intros He; rewrite He, uuid_scan_empty in Ht; done].
  rewrite Ht. unfold tx_body, insert_closure. fold (tenant_session t now).
  unfold mbind at 1, Q_bind at 1. rewrite check_key_run, Hk.
  destruct (insert_items_run t now (WithTenantID ctx (rq_TenantId req)) req expiresAt (rq_Items req) Hok Hp
    "" (res_recorded t (rq_IdempotencyKey req) (payload_hash req) now d))
    as (d' & id & new & -> & Hl & Hnew & Hi & Hd'); [by apply res_recorded_wf|].
  exists d', id, new. rewrite res_recorded_rows in Hl. done.
Qed.

Lemma item_lines_ok (items : list ReservationItem) :
  items_ok items = true → lines_nonneg (item_line <$> items) = true.
Proof.
  unfold items_ok, lines_nonneg. rewrite !forallb_forall. intros Hok l Hl%list_elem_of_In.
  apply list_elem_of_fmap in Hl as (it & -> & Hit). cbn.
  apply list_elem_of_In, Hok, andb_prop in Hit as [Hpos ->]. apply Z.ltb_lt in Hpos.
  rewrite andb_true_r. apply Z.leb_le. lia.
Qed.

Lemma res_key_other d d' u key key' hash now :
  res_idem d' = res_idem (res_recorded u key hash now d) → key' ≠ key →
  res_key_seen u key' d' = res_key_seen u key' d.
Proof.
  intros Hi Hne. unfold res_key_seen. rewrite Hi. unfold res_recorded.
  destruct (bool_decide (key = "")); [done|]. cbn. rewrite lookup_insert_ne by congruence. done.
Qed.

(** The expiry of a reservation made at [now]. *)
Definition expiry (now : Z) (req : ReserveRequest) : Z :=
  now + (if 0 <? rq_TtlSeconds req then rq_TtlSeconds req * 1000000 else defaultTTL).

(** A fresh Reserve over a working database and network. *)
Lemma reserve_run now ctx req d (x : X) t :
  uuid_scan (rq_TenantId req) = Some t → rq_Items req ≠ [] → items_ok (rq_Items req) = true →
  (∀ it, it ∈ rq_Items req → is_Some (jsonb_parse (payload_order_sku (rq_OrderId req) (it_SkuId it)))) →
  res_wf d → stock_fine x → books_agree d x →
  res_key_seen t (rq_IdempotencyKey req) d = false →
  key_used x t (rq_IdempotencyKey req) = false →
  ∃ d' x' resp, Reserve (res_healthy now) ctx req d x = (d', x', Ok resp) ∧
    res_wf d' ∧ stock_fine x' ∧ books_agree d' x' ∧
    rr_Success resp = can_reserve x t (item_line <$> rq_Items req) ∧
    (∀ key, key ≠ rq_IdempotencyKey req →
       key_used x' t key = key_used x t key ∧ res_key_seen t key d' = res_key_seen t key d) ∧
    (∀ k, available_in x' k =
            available_in x k - (if rr_Success resp then qty_at t k (item_line <$> rq_Items req) else 0) ∧
          allocated_in x' k = allocated_in x k) ∧
    if rr_Success resp
    then ∃ new, reservations d' = reservations d ++ new ∧
           Forall2 (item_row t (rq_OrderId req) (expiry now req)) (rq_Items req) new
    else d' = d.
Proof.
  intros Ht Hne Hok Hp Hd Hx Hbooks Hk1 Hk2. unfold Reserve, ParseUUID. rewrite Ht.
  destruct (rq_Items req) as [|it items] eqn:Hitems; [done|]. rewrite <- Hitems in *.
  set (sreq := mkReserveStockRequest (rq_TenantId req) (rq_OrderId req) (rq_IdempotencyKey req)
                 (item_line <$> rq_Items req)).
  assert (rsv_Lines sreq ≠ []) as Hne' by by intros ?%fmap_nil_inv.
  destruct (law_reserve x (WithTenantID ctx (rq_TenantId req)) sreq t)
    as (x' & sr & Hcall & Hx' & Hkeys & _ & Hres & _); cbn; auto using item_lines_ok.
  destruct (law_reserve_moves x _ sreq t x' sr Hx Ht Hk2 (item_lines_ok _ Hok) Hne' Hcall) as [Hcan Hmv].
  fold sreq. rewrite Hcall. destruct (rsvr_Success sr) eqn:Hs; cbn [negb].
  - destruct (insertReservations_run now ctx t req (expiry now req) d)
      as (d' & id & new & Hins & Hl & Hnew & Hd' & Hi); [done..|].
    unfold expiry in Hins. cbn [res_healthy re_tx re_now]. rewrite Hins.
    eexists d', x', _. split; [done|]. split; [done|]. split; [done|]. split; [|split; [done|]].
    { intros k. destruct (new_rows_lines _ _ _ _ _ Hnew) as [Hlines Hact].
      rewrite Hres, Hbooks. cbn [sreq rsv_Lines]. unfold held_at. rewrite Hl, zsum_app.
      rewrite <- Hlines, (qty_at_rows _ _ _ Hact). done. }
    split; [|split; [done|by exists new]]. intros key Hkey. split; [by apply Hkeys|by eapply res_key_other].
  - eexists d, x', _. split; [done|]. split; [done|]. split; [done|]. split; [|split; [done|]].
    { intros k. rewrite Hres, Hbooks. lia. }
    split; [|done]. intros key Hkey. split; [by apply Hkeys|done].
Qed.

(** A fresh Release over a working database and network. *)
Lemma release_run now ctx req d (x : X) t :
  uuid_scan (rl_TenantId req) = Some t → is_Some (jsonb_parse (payload_order (rl_OrderId req))) →
  res_wf d → stock_fine x → books_agree d x →
  res_key_seen t (rl_IdempotencyKey req) d = false →
  key_used x t (rl_IdempotencyKey req) = false →
  ∃ d' x' resp, Release (res_healthy now) ctx req d x = (d', x', Ok resp) ∧
    rlr_Success resp = true ∧ res_wf d' ∧ stock_fine x' ∧ books_agree d' x' ∧
    reservations d' = close_order t (rl_OrderId req) StatusReleased <$> reservations d ∧
    ∀ k, available_in x' k = available_in x k + (held_at d k - held_at d' k) ∧
         allocated_in x' k = allocated_in x k.
Proof.
  intros Ht Hp Hd Hx Hbooks Hk1 Hk2. unfold Release, ParseUUID. rewrite Ht.
  cbn [res_healthy re_tx re_locked].
  rewrite (exec_tx_x_healthy _ _ _ _ _ (rl_TenantId req));
    [|done|intros He; rewrite He, uuid_scan_empty in Ht; done].
  rewrite Ht. fold (tenant_session t now). unfold res_release_closure.
  set (d0 := res_recorded t (rl_IdempotencyKey req) (payload_hash req) now d).
  assert (res_wf d0) as Hd0 by by apply res_recorded_wf.
  assert (reservations d0 = reservations d) as Hl0 by apply res_recorded_rows.
  destruct (active_rows t now (rl_OrderId req) d0 Hd0) as (rows & Hrows & Hnd & Hids & Hiff).
  pose proof (mark_closes t (rl_OrderId req) StatusReleased rows d0 Hd0 Hiff) as Hclose.
  unfold mbind, QX_bind, query. rewrite check_key_run, Hk1. fold d0. rewrite Hrows.
  destruct rows as [|r rows'] eqn:Hr; [|rewrite <- Hr in *; clear Hr].
  { eexists d0, x, _. split; [done|]. split; [done|]. split; [done|]. split; [done|].
    split; [|split; [|unfold held_at; rewrite Hl0; intros k; split; [lia|done]]].
    - intros k. unfold held_at. rewrite Hl0. apply Hbooks.
    - rewrite <- Hl0, <- Hclose. rewrite <- (list_fmap_id (reservations d0)) at 1.
      apply list_fmap_ext. intros i r _. symmetry. apply mark_nil. }
  assert (∀ r, r ∈ rows → r ∈ reservations d0 ∧ is_active r = true ∧ r_TenantID r = t) as Hsub.
  { intros r0 Hr0. apply Hiff in Hr0 as [? Ho]. split; [done|]. unfold of_order in Ho. bprop.
    split; [done|]. by eapply bool_decide_eq_true. }
  destruct (rows_covered t rows d0 x Hd0) as (Hact & Hn & Hpos & Hle); [|done|done|].
  { intros k. unfold held_at. rewrite Hl0. apply Hbooks. }
  set (sreq := mkReleaseStockRequest (rl_TenantId req) (rl_OrderId req) (rl_Reason req)
                 (rl_IdempotencyKey req) (row_line <$> rows)).
  destruct (law_release x (WithTenantID ctx (rl_TenantId req)) sreq t)
    as (x' & sr & Hcall & Hx' & _ & _ & Hres); [done..|].
  pose proof (law_release_moves x _ sreq t x' sr Hx Ht Hk2 Hn Hpos Hle Hcall) as Hmv.
  destruct (mark_rows_run t now (WithTenantID ctx (rl_TenantId req)) (rl_OrderId req) StatusReleased
    "reservation.released"
    (λ _ r, mark_row (WithTenantID ctx (rl_TenantId req)) t (rl_OrderId req) StatusReleased
              "reservation.released" r) id rows) with (acc := tt) (d := d0)
    as (d' & Hrun & Hl & _ & Hd'); try done.
  { intros [] r0 d1 d2 Hm. exact Hm. }
  { intros r0 Hr0. split; by apply Hsub. }
  unfold rpc. rewrite Hcall. unfold release_rows. rewrite Hrun.
  eexists d', x', _. split; [done|]. split; [done|]. split; [done|]. split; [done|].
  assert (∀ k, held_at d' k = held_at d k - qty_at t k (row_line <$> rows)) as Hheld.
  { intros k. rewrite (qty_at_rows _ _ _ Hact). unfold held_at.
    rewrite Hl, (held_mark k rows (reservations d0)); try done; [by rewrite Hl0|apply Hd0|].
    intros r0 Hr0. by apply Hsub. }
  split; [intros k; by rewrite Hres, Hbooks, Hheld|]. split; [by rewrite Hl, Hclose, Hl0|].
  intros k. rewrite Hheld. destruct (Hmv k) as [-> ->]. cbn [sreq rel_Lines]. lia.
Qed.

(** ** Theorems *)


(** A fresh Release over a working database and network answers success,
    closes every active row of the order (and no other row), and gives exactly
    their quantities back, so that the rows and the stock service agree
    again. *)
Theorem release_keeps_books now ctx req d (x : X) t :
  uuid_scan (rl_TenantId req) = Some t → is_Some (jsonb_parse (payload_order (rl_OrderId req))) →
  res_wf d → stock_fine x → books_agree d x →
  res_key_seen t (rl_IdempotencyKey req) d = false →
  key_used x t (rl_IdempotencyKey req) = false →
  ∃ d' x' resp, Release (res_healthy now) ctx req d x = (d', x', Ok resp) ∧
    rlr_Success resp = true ∧ res_wf d' ∧ stock_fine x' ∧ books_agree d' x' ∧
    reservations d' = close_order t (rl_OrderId req) StatusReleased <$> reservations d.
Proof.
  intros Ht Hp Hd Hx Hbooks Hk1 Hk2.
  destruct (release_run now ctx req d x t) as (d' & x' & resp & ? & ? & ? & ? & ? & ? & _); [done..|].
  by exists d', x', resp.
Qed.

End Handlers.
