(* ===== verification/ReservationSweep.v ===== *)
(** * The TTL sweeper, allocation and compensation

    groupByOrder splits a batch into its orders; a sweep gives back exactly
    what the expired rows hold; a reservation that could not be persisted is
    compensated. *)

From S2P Require Import Prelude Database StockDb StockApi StockService StockEffects StockRefine StockReserve.
From S2P Require Import StockClient ReservationDb ReservationService ReservationBooks ReservationProps.

(** ** Specification *)

(** A sweep whose statements all succeed, with nothing else going on. *)
Definition quiet_sweep (now : Z) (plan : list Reservation → list Reservation)
    (shuffle : list (groupKey * list Reservation) → list (groupKey * list Reservation)) : SweepEnv :=
  mkSweepEnv now None (λ _, None) (λ _, None) (λ _, false) plan shuffle (λ d, d).

Definition row_expired (now : Z) (r : Reservation) : bool := (r_ExpiresAt r <? now) && is_active r.

(** The batch a sweep works on. *)
Definition sweep_rows (env : SweepEnv) (d : ResDB) : list Reservation :=
  take (Z.to_nat (sp_batch NewSweeper))
    (sw_plan env (filter (λ r, expired_active (sweep_session env) (sw_locked env) (sw_now env) r = true)
                         (reservations d))).

(** The key under which an order is compensated. *)
Definition comp_key `{UuidText} (r : Reservation) : string :=
  CompensationKey (uuid_string (r_TenantID r)) (r_OrderID r).

(** ** Groups *)

Section Groups.
Context `{UuidText}.

Lemma add_to_group_concat k r groups :
  concat (add_to_group k r groups).*2 ≡ₚ r :: concat groups.*2.
Proof.
  induction groups as [|[k' rs] groups IH]; cbn; [done|].
  destruct (bool_decide (k = k')); cbn.
  - rewrite <- app_assoc. cbn. by rewrite Permutation_middle.
  - rewrite IH. by rewrite Permutation_middle.
Qed.

Lemma add_to_group_keys k r groups :
  (add_to_group k r groups).*1 = if decide (k ∈ groups.*1) then groups.*1 else groups.*1 ++ [k].
Proof.
  induction groups as [|[k' rs] groups IH]; cbn [add_to_group fmap list_fmap fst]; [done|].
  destruct (decide (k = k')) as [->|Hne].
  - rewrite bool_decide_true, decide_True by (done || set_solver). done.
  - rewrite bool_decide_false by done. cbn [fmap list_fmap fst].
    change (list_fmap _ _ fst ?l) with (l.*1). rewrite IH.
    destruct (decide (k ∈ groups.*1)); [rewrite decide_True by set_solver|rewrite decide_False by set_solver];
      done.
Qed.

(** Every group has rows, all of its key. *)
Definition group_ok (g : groupKey * list Reservation) : Prop :=
  g.2 ≠ [] ∧ Forall (λ r, row_key r = g.1) g.2.

Lemma add_to_group_ok r groups :
  Forall group_ok groups → Forall group_ok (add_to_group (row_key r) r groups).
Proof.
  induction 1 as [|[k rs] groups [Hne Hk] Hall IH]; cbn [add_to_group].
  - apply Forall_singleton. split; [done|]. by apply Forall_singleton.
  - case_bool_decide as Heq; apply Forall_cons.
    + split; [|done]. split; cbn in *; [by destruct rs|]. apply Forall_app. split; [done|].
      by apply Forall_singleton.
    + by split.
Qed.

(** What a group holds after a row is added. *)
Lemma add_to_group_elem k0 r groups k rs :
  NoDup groups.*1 →
  ((k, rs) ∈ add_to_group k0 r groups) ↔
  if decide (k0 = k)
  then (∃ rs0, (k, rs0) ∈ groups ∧ rs = rs0 ++ [r]) ∨ ((k ∉ groups.*1) ∧ rs = [r])
  else (k, rs) ∈ groups.
Proof.
  induction groups as [|[k' rs'] groups IH]; cbn [add_to_group fmap list_fmap fst].
  { intros _. rewrite list_elem_of_singleton. destruct (decide (k0 = k)) as [->|Hne].
    - split; [intros [= ->]; right; split; [by intros ?%elem_of_nil|done]|].
      intros [(rs0 & ?%elem_of_nil & _)|[_ ->]]; done.
    - split; [naive_solver|by intros ?%elem_of_nil]. }
  change (list_fmap _ _ fst groups) with (groups.*1). rewrite NoDup_cons. intros [Hk' Hnd].
  assert (∀ rs1, (k', rs1) ∈ groups → False) as Hnot.
  { intros rs1 Hin. apply Hk'. apply list_elem_of_fmap. by exists (k', rs1). }
  destruct (decide (k0 = k')) as [<-|Hne].
  - rewrite bool_decide_true by done. rewrite !elem_of_cons. destruct (decide (k0 = k)) as [<-|Hne].
    + split.
      * intros [Heq|Hin]; [|by destruct (Hnot rs)]. left. exists rs'. split; [|congruence].
        apply list_elem_of_here.
      * intros [(rs0 & [Heq|Hin]%elem_of_cons & ->)|[Hnin _]]; [left; congruence|by destruct (Hnot rs0)|].
        destruct Hnin. apply list_elem_of_here.
    + rewrite elem_of_cons. split; (intros [Heq|?]; [congruence|by right]).
  - rewrite bool_decide_false by done. rewrite !elem_of_cons, IH by done.
    destruct (decide (k0 = k)) as [<-|Hne2].
    + split.
      * intros [Heq|[(rs0 & Hin & ->)|[Hnin ->]]]; [congruence| |].
        -- left. exists rs0. split; [by apply list_elem_of_further|done].
        -- right. split; [|done]. by intros [?|?]%elem_of_cons.
      * intros [(rs0 & [Heq|Hin]%elem_of_cons & ->)|[Hnin ->]]; [congruence|right; left; eauto|].
        right. right. split; [|done]. intros Hin. apply Hnin. by apply list_elem_of_further.
    + by rewrite elem_of_cons.
Qed.

Lemma groupByOrder_spec rows :
  concat (groupByOrder rows).*2 ≡ₚ rows ∧ NoDup (groupByOrder rows).*1 ∧
  Forall group_ok (groupByOrder rows).
Proof.
  unfold groupByOrder. induction rows as [|r rows IH] using rev_ind.
  - split; [done|]. split; [apply NoDup_nil_2|constructor].
  - rewrite foldl_app. cbn [foldl]. destruct IH as (Hc & Hk & Hg). split; [|split].
    + rewrite add_to_group_concat, Hc. by rewrite Permutation_cons_append.
    + rewrite add_to_group_keys. case_decide; [done|]. apply NoDup_app. split; [done|].
      split; [|apply NoDup_singleton]. intros k Hk1 Hk2%list_elem_of_singleton. congruence.
    + by apply add_to_group_ok.
Qed.

(** Distinct orders are compensated under distinct keys. *)
Lemma no_colon_split s1 s2 r1 r2 :
  no_colon s1 = true → no_colon s2 = true →
  s1 +:+ ":" +:+ r1 = s2 +:+ ":" +:+ r2 → s1 = s2 ∧ r1 = r2.
Proof.
  revert s2. induction s1 as [|c s1 IH]; intros [|c' s2]; cbn; intros N1 N2 Heq.
  - by injection Heq.
  - injection Heq as <- _. by rewrite Ascii.eqb_refl in N2.
  - injection Heq as -> _. by rewrite Ascii.eqb_refl in N1.
  - injection Heq as <- Heq. bprop. destruct (IH s2) as [-> ->]; done.
Qed.

Lemma comp_key_inj `{!UuidTextLaws} u1 o1 u2 o2 :
  CompensationKey (uuid_string u1) o1 = CompensationKey (uuid_string u2) o2 → u1 = u2 ∧ o1 = o2.
Proof.
  unfold CompensationKey. cbn. intros Heq. injection Heq as Heq.
  apply no_colon_split in Heq as [Hu Ho]; [|apply uuid_string_no_colon..]. split; [|done].
  apply (f_equal uuid_scan) in Hu. rewrite !uuid_scan_string in Hu. by injection Hu.
Qed.

End Groups.

(** ** One sweep *)

Section Sweep.
Context `{UuidText} `{!UuidTextLaws} `{ReservationHashes} `{JsonbText} {X : Type}
  `{!StockClient X} `{!StockClientLaws X}.

Lemma markExpired_quiet now plan shuffle ctx d r :
  res_wf d → r ∈ reservations d →
  ∃ d', markExpired (quiet_sweep now plan shuffle) ctx d r = d' ∧
    reservations d' = mark [r_ID r] StatusExpired <$> reservations d ∧ res_wf d'.
Proof.
  intros Hd Hr. eexists. split; [done|]. unfold markExpired. cbn [quiet_sweep sw_mark_err sw_outbox_err].
  rewrite (update_status_ok _ r) by done.
  set (d1 := set_reservations _ d).
  assert (res_wf d1) as Hd1 by by apply (mark_wf [r_ID r] StatusExpired d).
  unfold InsertOutboxEvent. destruct (jsonb_parse _) as [j|]; [|done].
  unfold outbox_insert, mbind, Q_bind, gen_random_uuid. cbn. split; [done|].
  apply (same_rows_wf d1); [done|done|]. apply N.le_succ_diag_r.
Qed.

(** Marking the rows of a group, whatever fails: each row is marked or left. *)
Lemma markExpired_rows_quiet now plan shuffle ctx rows :
  ∀ d, res_wf d → NoDup (r_ID <$> rows) → (∀ r, r ∈ rows → r ∈ reservations d) →
  let d' := foldl (markExpired (quiet_sweep now plan shuffle) ctx) d rows in
  reservations d' = mark (r_ID <$> rows) StatusExpired <$> reservations d ∧ res_wf d'.
Proof.
  induction rows as [|r rows IH]; intros d Hd Hnd Hsub; cbn [foldl].
  { split; [|done]. rewrite <- (list_fmap_id (reservations d)) at 1.
    apply list_fmap_ext. intros i r _. symmetry. apply mark_nil. }
  rewrite fmap_cons, NoDup_cons in Hnd. destruct Hnd as [Hr Hnd].
  destruct (markExpired_quiet now plan shuffle ctx d r Hd) as (d1 & -> & Hl1 & Hd1);
    [apply Hsub, list_elem_of_here|].
  destruct (IH d1 Hd1 Hnd) as [Hl Hd'].
  { intros r' Hr'. rewrite Hl1. apply list_elem_of_fmap. exists r'.
    split; [|apply Hsub; by apply list_elem_of_further].
    unfold mark. rewrite bool_decide_false; [done|]. intros Heq%list_elem_of_singleton.
    destruct Hr. rewrite <- Heq. by apply list_elem_of_fmap_2. }
  split; [|done]. rewrite Hl, Hl1, <- list_fmap_compose. apply list_fmap_ext. intros i r' _.
  cbn [compose]. by rewrite mark_mark.
Qed.

(** The state between two groups: books in order, the rows of the remaining
    groups still there and active, their keys unused. *)
Record sweep_inv (groups : list (groupKey * list Reservation)) (d : ResDB) (x : X) : Prop := {
  si_wf : res_wf d;
  si_fine : stock_fine x;
  si_books : books_agree d x;
  si_rows : ∀ r, r ∈ concat groups.*2 → r ∈ reservations d ∧ is_active r = true;
  si_ids : NoDup (r_ID <$> concat groups.*2);
  si_keys : ∀ r, r ∈ concat groups.*2 → key_used x (r_TenantID r) (comp_key r) = false;
  si_groups : NoDup groups.*1 ∧ Forall group_ok groups;
}.

Lemma group_row_keys k rows t o :
  group_ok (k, rows) → k = (uuid_string t, o) →
  Forall (λ r, r_TenantID r = t ∧ r_OrderID r = o) rows.
Proof.
  intros [_ Hk] ->. eapply Forall_impl; [exact Hk|]. cbn. intros r Hr.
  injection Hr as Hu Ho. split; [|done]. apply (f_equal uuid_scan) in Hu.
  rewrite !uuid_scan_string in Hu. by injection Hu.
Qed.

(** A row of another group has another tenant or another key. *)
Lemma other_group t o r groups :
  Forall group_ok groups → (uuid_string t, o) ∉ groups.*1 → r ∈ concat groups.*2 →
  r_TenantID r ≠ t ∨ comp_key r ≠ CompensationKey (uuid_string t) o.
Proof.
  intros Hall Hk Hr. destruct (decide (r_TenantID r = t)) as [Ht|]; [|by left]. right.
  intros Heq. unfold comp_key in Heq. apply comp_key_inj in Heq as [_ Ho]. apply Hk.
  apply list_elem_of_In, in_concat in Hr as (rs & Hrs & Hin).
  apply list_elem_of_In, list_elem_of_fmap in Hrs as ([k rs'] & -> & Hg).
  rewrite Forall_forall in Hall. destruct (Hall _ Hg) as [_ Hkey]. cbn in *.
  rewrite Forall_forall in Hkey. apply list_elem_of_In, Hkey in Hin.
  apply list_elem_of_fmap. exists (k, rs'). split; [|done]. cbn. rewrite <- Hin. unfold row_key.
  by rewrite Ht, Ho.
Qed.

Lemma sweep_group_quiet now plan shuffle ctx k rows groups d x :
  sweep_inv ((k, rows) :: groups) d x →
  ∃ d' x', sweep_group (quiet_sweep now plan shuffle) ctx (d, x) (k, rows) = (d', x') ∧
    sweep_inv groups d' x' ∧
    reservations d' = mark (r_ID <$> rows) StatusExpired <$> reservations d.
Proof.
  intros [Hd Hx Hb Hrows Hids Hkeys [Hnd Hall]]. destruct k as [tenant o].
  cbn [fmap list_fmap fst snd concat] in *. apply NoDup_cons in Hnd as [Hk Hnd].
  apply Forall_cons in Hall as [Hg Hall].
  change (list_fmap _ _ snd groups) with (groups.*2) in *.
  change (list_fmap _ _ fst groups) with (groups.*1) in *.
  rewrite fmap_app, NoDup_app in Hids. destruct Hids as (Hids1 & Hdisj & Hids2).
  assert (∃ r rows', rows = r :: rows') as (r & rows' & Hr).
  { destruct Hg as [Hne _]. destruct rows; [done|eauto]. }
  assert (tenant = uuid_string (r_TenantID r)) as ->.
  { destruct Hg as [_ Hg]. cbn in Hg. subst rows. apply Forall_cons in Hg as [Hg _]. by injection Hg. }
  set (t := r_TenantID r) in *.
  pose proof (group_row_keys _ rows t o Hg eq_refl) as Hto.
  assert (∀ r0, r0 ∈ rows → r0 ∈ reservations d ∧ is_active r0 = true) as Hin.
  { intros r0 Hr0. apply Hrows. set_solver. }
  pose proof (NoDup_fmap_1 r_ID rows Hids1) as Hnd1.
  destruct (rows_covered t rows d x Hd Hb Hnd1) as (Hact & Hn & Hpos & Hle).
  { intros r0 Hr0. rewrite Forall_forall in Hto. destruct (Hin r0 Hr0), (Hto r0 Hr0). done. }
  assert (key_used x t (CompensationKey (uuid_string t) o) = false) as Hku.
  { assert (r ∈ rows) as Hr0 by (subst rows; apply list_elem_of_here).
    rewrite Forall_forall in Hto. destruct (Hto r Hr0) as [_ <-]. apply (Hkeys r). set_solver. }
  destruct (law_release x ctx (releaseRequest (uuid_string t) o rows) t)
    as (x' & sr & Hcall & Hx' & Hsame & Hother & Hres);
    cbn [releaseRequest rel_TenantId rel_IdempotencyKey rel_Lines]; try done.
  { apply uuid_scan_string. }
  destruct (markExpired_rows_quiet now plan shuffle ctx rows d Hd Hids1) as [Hl Hd'].
  { intros r0 Hr0. by apply Hin. }
  eexists _, x'. split; [unfold sweep_group; by rewrite Hcall|]. split; [|done].
  split; try done.
  - intros k. rewrite Hres, Hb. cbn [releaseRequest rel_Lines]. rewrite (qty_at_rows _ _ _ Hact).
    unfold held_at. rewrite Hl, (held_mark k rows); try done; [apply Hd|]. intros r0 Hr0. by apply Hin.
  - intros r0 Hr0. destruct (Hrows r0) as [Hin0 Ha0]; [set_solver|]. split; [|done].
    rewrite Hl. apply list_elem_of_fmap. exists r0. split; [|done]. unfold mark.
    rewrite bool_decide_false; [done|]. intros Hid. apply (Hdisj _ Hid). by apply list_elem_of_fmap_2.
  - intros r0 Hr0. destruct (other_group t o r0 groups) as [Ht|Hc]; try done.
    + rewrite Hother by done. apply Hkeys. set_solver.
    + destruct (decide (r_TenantID r0 = t)) as [Ht|Ht].
      * rewrite Ht, Hsame by done. rewrite <- Ht. apply Hkeys. set_solver.
      * rewrite Hother by done. apply Hkeys. set_solver.
Qed.

Lemma sweep_groups_quiet now plan shuffle ctx groups :
  ∀ d x, sweep_inv groups d x →
  ∃ d' x', foldl (sweep_group (quiet_sweep now plan shuffle) ctx) (d, x) groups = (d', x') ∧
    res_wf d' ∧ stock_fine x' ∧ books_agree d' x' ∧
    reservations d' = mark (r_ID <$> concat groups.*2) StatusExpired <$> reservations d.
Proof.
  induction groups as [|[k rows] groups IH]; intros d x Hinv.
  { exists d, x. destruct Hinv as [Hd Hx Hb _ _ _ _]. do 4 (split; [done|]).
    rewrite <- (list_fmap_id (reservations d)) at 1. apply list_fmap_ext. intros i r _.
    symmetry. apply mark_nil. }
  destruct (sweep_group_quiet now plan shuffle ctx k rows groups d x Hinv)
    as (d1 & x1 & Hrun & Hinv1 & Hl1). cbn [foldl]. rewrite Hrun.
  destruct (IH d1 x1 Hinv1) as (d' & x' & -> & Hd' & Hx' & Hb' & Hl').
  exists d', x'. do 4 (split; [done|]). rewrite Hl', Hl1, <- list_fmap_compose.
  apply list_fmap_ext. intros i r _. cbn [compose fmap list_fmap snd concat].
  rewrite mark_mark, fmap_app. done.
Qed.

(** The batch of a quiet sweep. *)
Lemma quiet_batch now plan shuffle ctx d (x : X) :
  (∀ l, plan l ≡ₚ l) → (∀ g, shuffle g ≡ₚ g) → res_wf d →
  ∃ batch, sweepOnce (quiet_sweep now plan shuffle) ctx d x =
      foldl (sweep_group (quiet_sweep now plan shuffle) ctx) (d, x) (shuffle (groupByOrder batch)) ∧
    (∀ r, r ∈ batch → r ∈ reservations d ∧ row_expired now r = true) ∧ NoDup (r_ID <$> batch) ∧
    length batch = Nat.min 100 (length (filter (λ r, row_expired now r = true) (reservations d))) ∧
    concat (shuffle (groupByOrder batch)).*2 ≡ₚ batch ∧
    NoDup (shuffle (groupByOrder batch)).*1 ∧ Forall group_ok (shuffle (groupByOrder batch)).
Proof.
  intros Hplan Hshuf Hd.
  set (cand := filter (λ r, row_expired now r = true) (reservations d)).
  set (batch := take (Z.to_nat (sp_batch NewSweeper)) (plan cand)). exists batch. split; [|split; [|split; [|split]]].
  - unfold sweepOnce, GetExpiredReservations. cbn -[sweep_group groupByOrder filter]. do 5 f_equal.
    apply filter_ext. intros r _. unfold expired_active, row_expired, is_active, visible.
    cbn -[bool_decide]. by rewrite andb_true_r.
  - intros r Hr. apply subseteq_take in Hr. rewrite Hplan in Hr.
    by apply list_elem_of_filter in Hr as [? ?].
  - unfold batch. rewrite fmap_take. apply (sublist_NoDup _ (r_ID <$> plan cand)); [|apply sublist_take].
    rewrite Hplan. unfold cand. apply (sublist_NoDup _ (r_ID <$> reservations d)); [apply Hd|].
    apply fmap_sublist, sublist_filter.
  - unfold batch. by rewrite length_take, (Permutation_length (Hplan cand)).
  - destruct (groupByOrder_spec batch) as (Hconcat & Hnd & Hgroups). by rewrite !Hshuf.
Qed.

Lemma mark_perm ids ids' status (l : list Reservation) :
  ids ≡ₚ ids' → mark ids status <$> l = mark ids' status <$> l.
Proof.
  intros Hp. apply list_fmap_ext. intros i r _. unfold mark.
  by rewrite (bool_decide_ext (r_ID r ∈ ids) (r_ID r ∈ ids')) by (by rewrite Hp).
Qed.

(** ** A sweep that may fail *)

(** A row that is not in the batch is never touched, whatever fails. *)
Lemma markExpired_other env ctx d r r0 :
  r0 ∈ reservations d → r_ID r0 ≠ r_ID r → r0 ∈ reservations (markExpired env ctx d r).
Proof.
  intros Hr0 Hne. unfold markExpired. destruct (sw_mark_err env (r_ID r)); [done|].
  destruct (UpdateReservationStatus _ _ _ _) as [[d1 u]|] eqn:Hup; [|done].
  assert (r0 ∈ reservations d1) as Hr1.
  { unfold UpdateReservationStatus in Hup. repeat case_match; simplify_eq. cbn.
    apply list_elem_of_fmap. exists r0. split; [|done]. by rewrite bool_decide_false. }
  destruct (sw_outbox_err env (r_ID r)); [done|].
  destruct (InsertOutboxEvent _ _ _) as [[d2 v]|] eqn:Hout; [|done].
  unfold InsertOutboxEvent in Hout. destruct (jsonb_parse _); [|done].
  unfold outbox_insert, mbind, Q_bind, gen_random_uuid in Hout. cbn in Hout.
  by simplify_eq.
Qed.

Lemma sweep_groups_other env ctx r0 groups : ∀ d (x : X),
  r0 ∈ reservations d → (∀ r, r ∈ concat groups.*2 → r_ID r0 ≠ r_ID r) →
  r0 ∈ reservations (foldl (sweep_group env ctx) (d, x) groups).1.
Proof.
  induction groups as [|[[tenant o] rows] groups IH]; intros d x Hr0 Hne; [done|]. cbn [foldl].
  cbn [fmap list_fmap snd concat] in Hne. change (list_fmap _ _ snd groups) with (groups.*2) in Hne.
  unfold sweep_group at 2.
  destruct (rpc_ReleaseStock ctx _ x) as [x' [sr|e]].
  - apply IH; [|intros r Hr; apply Hne; set_solver].
    assert (∀ r, r ∈ rows → r_ID r0 ≠ r_ID r) as Hne' by (intros r Hr; apply Hne; set_solver).
    clear Hne IH. revert d Hr0. induction rows as [|r rows IH]; intros d Hr0; [done|]. cbn [foldl].
    apply IH; [set_solver|]. apply markExpired_other; [done|]. apply Hne'. set_solver.
  - apply IH; [done|]. intros r Hr. apply Hne. set_solver.
Qed.

(** An insert that failed left nothing, unless only its acknowledgement was
    lost. *)
Lemma insert_error env ctx t req expiresAt d d' e :
  insertReservations env ctx t req expiresAt d = (d', Err e) →
  (∀ m, tx_commit env ≠ CommitUnacknowledged m) → d' = d.
Proof.
  unfold insertReservations. intros Hrun Hcm.
  destruct (exec_tx_scope env ctx (tx_body (insert_closure ctx t req expiresAt)) d)
    as [[e1 He]|(tid & _ & He)]; rewrite He in Hrun; [by injection Hrun|].
  unfold tx_run in Hrun. destruct (tx_conn_err env); [by injection Hrun|].
  destruct (tx_body _ _ _) as [[r|] [d1|e1]]; try (by injection Hrun);
    destruct (tx_commit env); try (by injection Hrun); by edestruct Hcm.
Qed.

(** ** Theorems *)

(** groupByOrder partitions a batch: its keys are distinct, and the group of
    a (tenant, order) is the rows of that tenant and order, all of them, in the
    order they came. *)
Theorem groupByOrder_partition (rows : list Reservation) :
  NoDup (groupByOrder rows).*1 ∧
  ∀ k rs, (k, rs) ∈ groupByOrder rows ↔ rs = filter (λ r, row_key r = k) rows ∧ rs ≠ [].
Proof.
  split; [apply groupByOrder_spec|]. unfold groupByOrder.
  induction rows as [|r rows IH] using rev_ind; intros k rs.
  { cbn. split; [by intros ?%elem_of_nil|]. by intros [-> ?]. }
  rewrite foldl_app. cbn [foldl]. pose proof (groupByOrder_spec rows) as (_ & Hnd & _).
  unfold groupByOrder in Hnd. rewrite filter_app, add_to_group_elem by done.
  rewrite filter_cons, filter_nil. destruct (decide (row_key r = k)) as [Hk|Hk].
  - split.
    + intros [(rs0 & Hrs0 & ->)|[Hnone ->]].
      * apply IH in Hrs0 as [-> _]. split; [done|]. by destruct (filter _ rows).
      * split; [|done]. assert (filter (λ r, row_key r = k) rows = []) as ->; [|done].
        destruct (filter _ rows) as [|r' rs'] eqn:Hf; [done|]. exfalso. apply Hnone.
        apply list_elem_of_fmap. exists (k, r' :: rs'). split; [done|]. apply IH. by rewrite Hf.
    + intros [-> _]. destruct (filter (λ r, row_key r = k) rows) as [|r' rs'] eqn:Hf.
      * right. split; [|done]. intros ([k' rs''] & Heq & Hin)%list_elem_of_fmap. cbn in Heq. subst k'.
        apply IH in Hin as [-> Hne]. by rewrite Hf in Hne.
      * left. exists (r' :: rs'). split; [|done]. apply IH. by rewrite Hf.
  - rewrite app_nil_r. apply IH.
Qed.

(** A sweep whose statements succeed marks the rows of its batch (active
    rows past their expiry, at most 100 of them, whichever the database picks)
    as expired, leaves every other row alone, and gives back exactly what the
    batch held, so that the rows and the stock service agree again; provided
    no order of the batch was compensated before, whatever the order in which
    the groups are visited. *)
Theorem sweep_keeps_books now plan shuffle ctx d (x : X) :
  (∀ l, plan l ≡ₚ l) → (∀ g, shuffle g ≡ₚ g) →
  res_wf d → stock_fine x → books_agree d x →
  (∀ r, r ∈ reservations d → row_expired now r = true →
        key_used x (r_TenantID r) (comp_key r) = false) →
  ∃ d' x' batch, sweepOnce (quiet_sweep now plan shuffle) ctx d x = (d', x') ∧
    res_wf d' ∧ stock_fine x' ∧ books_agree d' x' ∧
    (∀ r, r ∈ batch → r ∈ reservations d ∧ row_expired now r = true) ∧
    length batch = Nat.min 100 (length (filter (λ r, row_expired now r = true) (reservations d))) ∧
    reservations d' = mark (r_ID <$> batch) StatusExpired <$> reservations d.
Proof.
  intros Hplan Hshuf Hd Hx Hb Hkeys.
  destruct (quiet_batch now plan shuffle ctx d x Hplan Hshuf Hd)
    as (batch & Hrun & Hbatch & Hids & Hlen & Hperm & Hnd & Hgroups).
  destruct (sweep_groups_quiet now plan shuffle ctx (shuffle (groupByOrder batch)) d x)
    as (d' & x' & Hfold & Hd' & Hx' & Hb' & Hl').
  { split; try done.
    - intros r Hr. rewrite Hperm in Hr. destruct (Hbatch r Hr) as [? He]. split; [done|].
      unfold row_expired in He. by bprop.
    - by rewrite Hperm.
    - intros r Hr. rewrite Hperm in Hr. destruct (Hbatch r Hr). by apply Hkeys. }
  exists d', x', batch. split; [by rewrite Hrun|]. do 3 (split; [done|]). split; [done|]. split; [done|].
  rewrite Hl'. by apply mark_perm, fmap_Permutation.
Qed.

(** Whatever of a sweep fails (the fetch, a release, an update, an outbox
    insert), a row that was allocated, released, not yet expired, or locked by
    another transaction when the sweep fetched its batch is the same after
    it. *)
Theorem sweep_only_expired env ctx d (x : X) r0 :
  res_wf d → (∀ l, sw_plan env l ≡ₚ l) → (∀ g, sw_shuffle env g ≡ₚ g) →
  (∀ d, sw_meanwhile env d = d) → r0 ∈ reservations d →
  row_expired (sw_now env) r0 = false ∨ sw_locked env (r_ID r0) = true →
  r0 ∈ reservations (sweepOnce env ctx d x).1.
Proof.
  intros Hd Hplan Hshuf Hmw Hr0 Hnot. unfold sweepOnce. destruct (sw_fetch_err env); [done|].
  unfold GetExpiredReservations. rewrite Hmw. apply sweep_groups_other; [done|].
  intros r Hr Heq. rewrite Hshuf in Hr. destruct (groupByOrder_spec
    (take (Z.to_nat (sp_batch NewSweeper)) (sw_plan env (filter (λ r, expired_active (sweep_session env)
       (sw_locked env) (sw_now env) r = true) (reservations d))))) as (Hconcat & _ & _).
  rewrite Hconcat in Hr. apply subseteq_take in Hr.
  rewrite Hplan in Hr. apply list_elem_of_filter in Hr as [He Hr].
  assert (r0 = r) as -> by (eapply same_id; [apply Hd|done..]).
  unfold expired_active, row_expired, is_active in *. rewrite !andb_true_iff in He.
  destruct He as [[[_ Hexp] Hact] Hlk].
  destruct Hnot as [Hnot|Hnot]; [by rewrite Hexp, Hact in Hnot|by rewrite Hnot in Hlk].
Qed.

(** The work of AllocateReservation. *)
Lemma allocate_run now ctx req d t :
  uuid_scan (al_TenantId req) = Some t → is_Some (jsonb_parse (payload_order (al_OrderId req))) →
  res_wf d → res_key_seen t (al_IdempotencyKey req) d = false →
  Z.of_nat (length (reservations d)) < 2147483648 →
  ∃ d', AllocateReservation (res_healthy now) ctx req d =
    (d', Ok (mkAllocateReservationResponse true
       (Z.of_nat (length (filter (λ r, of_order t (al_OrderId req) r = true) (reservations d)))))) ∧
    reservations d' = close_order t (al_OrderId req) StatusAllocated <$> reservations d ∧ res_wf d' ∧
    res_idem d' = res_idem (res_recorded t (al_IdempotencyKey req) (payload_hash req) now d).
Proof.
  intros Ht Hp Hd Hk Hlen. unfold AllocateReservation, ParseUUID. rewrite Ht.
  cbn [res_healthy re_tx re_locked].
  rewrite (exec_tx_healthy _ _ _ _ (al_TenantId req));
    [|done|intros He; rewrite He, uuid_scan_empty in Ht; done].
  rewrite Ht. fold (tenant_session t now). unfold tx_body, allocate_closure.
  set (d0 := res_recorded t (al_IdempotencyKey req) (payload_hash req) now d).
  assert (res_wf d0) as Hd0 by by apply res_recorded_wf.
  assert (reservations d0 = reservations d) as Hl0 by apply res_recorded_rows.
  destruct (active_rows t now (al_OrderId req) d0 Hd0) as (rows & Hrows & Hnd & Hids & Hiff).
  pose proof (mark_closes t (al_OrderId req) StatusAllocated rows d0 Hd0 Hiff) as Hclose.
  unfold mbind, Q_bind. rewrite check_key_run, Hk. fold d0. rewrite Hrows.
  destruct (mark_rows_run t now (WithTenantID ctx (al_TenantId req)) (al_OrderId req) StatusAllocated
    "reservation.allocated"
    (λ count r, _ ← mark_row (WithTenantID ctx (al_TenantId req)) t (al_OrderId req) StatusAllocated
                      "reservation.allocated" r; mret (wrap32 (count + 1)))
    (λ count, wrap32 (count + 1)) rows) with (acc := 0) (d := d0)
    as (d' & Hrun & Hl & Hi & Hd'); try done.
  { intros acc r d1 d2 Hm. unfold mbind, Q_bind. by rewrite Hm. }
  { intros r Hr. apply Hiff in Hr as [? Ho]. split; [done|]. unfold of_order in Ho. bprop.
    by eapply bool_decide_eq_true. }
  unfold mbind, Q_bind in Hrun. rewrite Hrun. exists d'.
  assert (length rows = length (filter (λ r, of_order t (al_OrderId req) r = true) (reservations d))) as Hlr.
  { apply Permutation_length, NoDup_Permutation; [done| |].
    - apply NoDup_filter, (NoDup_fmap_1 r_ID), Hd.
    - intros r. rewrite Hiff, Hl0, list_elem_of_filter. tauto. }
  assert (∀ n, (n <= length rows)%nat → Nat.iter n (λ count, wrap32 (count + 1)) 0 = Z.of_nat n) as Hiter.
  { assert (length rows <= length (reservations d))%nat by (rewrite Hlr; apply length_filter).
    induction n as [|n IH]; intros Hn; [done|]. cbn [Nat.iter nat_rect].
    unfold Nat.iter in IH. rewrite IH by lia. rewrite wrap32_small; [lia|].
    unfold in_int32. apply andb_true_intro. split; [apply Z.leb_le|apply Z.ltb_lt]; lia. }
  rewrite Hiter by done. rewrite <- Hlr. split; [done|]. split; [by rewrite Hl, Hclose, Hl0|by split].
Qed.

(** AllocateReservation over a working database marks every active row of
    the order as allocated, no other row, and reports how many there were. *)
Theorem allocate_closes_order now ctx req d t :
  uuid_scan (al_TenantId req) = Some t → is_Some (jsonb_parse (payload_order (al_OrderId req))) →
  res_wf d → res_key_seen t (al_IdempotencyKey req) d = false →
  Z.of_nat (length (reservations d)) < 2147483648 →
  ∃ d', AllocateReservation (res_healthy now) ctx req d =
    (d', Ok (mkAllocateReservationResponse true
       (Z.of_nat (length (filter (λ r, of_order t (al_OrderId req) r = true) (reservations d)))))) ∧
    reservations d' = close_order t (al_OrderId req) StatusAllocated <$> reservations d ∧ res_wf d'.
Proof. intros. edestruct allocate_run as (d' & ? & ? & ? & _); eauto. Qed.

(** C27. When the rows of a reservation cannot be stored (any error that is not a
    replay and not a lost acknowledgement), the hold taken in the stock service
    is given back under the order's compensation key: neither database is left
    with anything. *)
Theorem reserve_failure_compensates env ctx req d (x : X) t d' e :
  uuid_scan (rq_TenantId req) = Some t → rq_Items req ≠ [] → items_ok (rq_Items req) = true →
  res_wf d → stock_fine x → books_agree d x →
  (∀ m, tx_commit (re_tx env) ≠ CommitUnacknowledged m) →
  key_used x t (rq_IdempotencyKey req) = false →
  key_used x t (CompensationKey (rq_TenantId req) (rq_OrderId req)) = false →
  CompensationKey (rq_TenantId req) (rq_OrderId req) ≠ rq_IdempotencyKey req →
  insertReservations (re_tx env) (WithTenantID ctx (rq_TenantId req)) t req
    (re_now env + (if 0 <? rq_TtlSeconds req then rq_TtlSeconds req * 1000000 else defaultTTL)) d =
    (d', Err e) →
  errors_Is e ErrAlreadyProcessed = false →
  ∃ x' r, Reserve env ctx req d x = (d, x', r) ∧ stock_fine x' ∧
    ∀ k, reserved_in x' k = reserved_in x k.
Proof.
  intros Ht Hne Hok Hd Hx Hb Hcm Hk1 Hk2 Hkne Hins He.
  assert (d' = d) as -> by by eapply insert_error. unfold Reserve, ParseUUID. rewrite Ht.
  destruct (rq_Items req) as [|it items] eqn:Hitems; [done|]. rewrite <- Hitems in *.
  destruct (law_reserve x (WithTenantID ctx (rq_TenantId req))
    (mkReserveStockRequest (rq_TenantId req) (rq_OrderId req) (rq_IdempotencyKey req)
       (item_line <$> rq_Items req)) t)
    as (x1 & sr & -> & Hx1 & Hsame & _ & Hres & _);
    cbn [rsv_TenantId rsv_IdempotencyKey rsv_Lines] in *; auto using item_lines_ok.
  { by intros ?%fmap_nil_inv. }
  destruct (rsvr_Success sr) eqn:Hs; cbn [negb].
  2:{ eexists x1, _. split; [done|]. split; [done|]. intros k. rewrite Hres. lia. }
  rewrite Hins, He.
  destruct (law_release x1 (mkCtx None "")
    (mkReleaseStockRequest (rq_TenantId req) (rq_OrderId req) "reserve_failure"
       (CompensationKey (rq_TenantId req) (rq_OrderId req)) (item_line <$> rq_Items req)) t)
    as (x2 & sr2 & -> & Hx2 & _ & _ & Hres2);
    cbn [rel_TenantId rel_IdempotencyKey rel_Lines] in *; auto using item_lines_ok.
  - by rewrite Hsame.
  - intros l (it0 & -> & Hit0)%list_elem_of_fmap. unfold items_ok in Hok.
    rewrite forallb_forall in Hok. apply list_elem_of_In, Hok in Hit0. bprop. done.
  - intros k. rewrite Hres, Hb. pose proof (held_nonneg k (reservations d) (rw_qty d Hd)).
    unfold held_at. lia.
  - eexists x2, _. split; [done|]. split; [done|]. intros k. rewrite Hres2, Hres. lia.
Qed.

End Sweep.
