(* ===== verification/ReservationExamples.v ===== *)
(** * The reservation service on the concrete shop

    The theorems of the reservation service applied on top of the stock
    service of StockExamples.v, and histories that show where its keys and its
    sweeper let the two databases drift apart. *)

From S2P Require Import Prelude Database StockDb StockApi StockService StockEffects StockReserve StockClient.
From S2P Require Import StockExamples ReservationDb ReservationService ReservationBooks ReservationProps.
From S2P Require Import ReservationSweep.

#[local] Existing Instance bits_text.

#[export] Instance plain_res_hashes : ReservationHashes := {|
  hash_res_reserve r := rq_OrderId r; hash_res_release r := rl_OrderId r;
  hash_res_allocate r := al_OrderId r |}.

(** A reading of JSONB that takes every text. *)
#[export] Instance any_json : JsonbText := λ s, Some (JStr s).

(** ** The shop behind the reservation service *)

Definition shelf : StockWorld := mkStockWorld shop [].

Definition no_reservations : ResDB := mkResDB [] [] ∅ 1%N.

Definition mugs_and_plate : list ReservationItem :=
  [mkReservationItem "plate" "w1" 1; mkReservationItem "mug" "w1" 3].

Definition reserve_o1 : ReserveRequest := mkReserveRequest tenant3 "o1" "k1:reserve" mugs_and_plate 60.

Lemma shelf_fine : stock_fine shelf.
Proof. split; [apply shop_wf|]. split; [apply shop_fits|done]. Qed.

Lemma nothing_held (d : StockDB) :
  map_Forall (λ _ lv, ReservedQty lv = 0) (stock_levels d) → ∀ k, bucket ReservedQty d k = 0.
Proof.
  intros Hall k. unfold bucket. destruct (stock_levels d !! k) as [lv|] eqn:Hk; [|done].
  exact (Hall k lv Hk).
Qed.

Lemma shelf_agrees : books_agree no_reservations shelf.
Proof. intros k. apply nothing_held. apply (bool_decide_unpack _). vm_compute. exact I. Qed.

Lemma no_reservations_wf : res_wf no_reservations.
Proof. split; constructor. Qed.

(** The two databases with the order's hold. *)
Definition held : ResDB * StockWorld := (Reserve (res_healthy 3) no_ctx reserve_o1 no_reservations shelf).1.

Lemma held_ok : res_wf held.1 ∧ stock_fine held.2 ∧ books_agree held.1 held.2.
Proof.
  destruct (reserve_run 3 no_ctx reserve_o1 no_reservations shelf 3%N) as (d' & x' & resp & Hrun & Hrest);
    [reflexivity|done|reflexivity|intros; by eexists|apply no_reservations_wf|apply shelf_fine|apply shelf_agrees
    |reflexivity|vm_compute; reflexivity|].
  unfold held. rewrite Hrun. destruct Hrest as (Hd & Hx & Hb & _). exact (conj Hd (conj Hx Hb)).
Qed.

(** ** The theorems at work *)


Definition release_o1 : ReleaseRequest := mkReleaseRequest tenant3 "" "o1" "customer_cancel" "k1:release".

Lemma release_keeps_books_witness :
  ∃ d' x' resp, Release (res_healthy 4) no_ctx release_o1 held.1 held.2 = (d', x', Ok resp) ∧
    books_agree d' x'.
Proof.
  destruct held_ok as (Hd & Hx & Hb).
  destruct (release_keeps_books 4 no_ctx release_o1 held.1 held.2 3%N)
    as (d' & x' & resp & Hrun & _ & _ & _ & Hb' & _);
    [reflexivity|by eexists|exact Hd|exact Hx|exact Hb|vm_compute; reflexivity|vm_compute; reflexivity|].
  exists d', x', resp. split; [exact Hrun|exact Hb'].
Defined.

Lemma sweep_keeps_books_witness :
  ∃ d' x', sweepOnce (quiet_sweep 70000000 id (@reverse _)) no_ctx held.1 held.2 = (d', x') ∧ books_agree d' x'.
Proof.
  destruct held_ok as (Hd & Hx & Hb).
  destruct (sweep_keeps_books 70000000 id (@reverse _) no_ctx held.1 held.2)
    as (d' & x' & batch & Hrun & _ & _ & Hb' & _);
    [done|apply reverse_Permutation|exact Hd|exact Hx|exact Hb| |].
  - assert (Forall (λ r, key_used held.2 (r_TenantID r) (comp_key r) = false) (reservations held.1)) as Hall
      by (apply (bool_decide_unpack _); vm_compute; exact I).
    intros r Hr _. exact (proj1 (Forall_forall _ _) Hall r Hr).
  - exists d', x'. split; [exact Hrun|exact Hb'].
Defined.

(** The row of the plate. *)
Definition plate_row : Reservation :=
  mkReservation 1%N 3%N "o1" "plate" "w1" 1 "ACTIVE" 60000003 3.

Lemma plate_row_held : plate_row ∈ reservations held.1.
Proof. apply (list_elem_of_lookup_2 _ 0). vm_compute. reflexivity. Qed.

Lemma sweep_only_expired_witness :
  plate_row ∈ reservations (sweepOnce (quiet_sweep 50000000 id id) no_ctx held.1 held.2).1.
Proof.
  destruct held_ok as (Hd & _ & _).
  apply (sweep_only_expired (quiet_sweep 50000000 id id) no_ctx held.1 held.2 plate_row Hd);
    [done|done|done|exact plate_row_held|left; vm_compute; reflexivity].
Defined.

Lemma allocate_closes_order_witness :
  ∃ d', AllocateReservation (res_healthy 5) no_ctx (mkAllocateReservationRequest tenant3 "o1" "k1:allocate") held.1 =
    (d', Ok (mkAllocateReservationResponse true 2)).
Proof.
  destruct held_ok as (Hd & _ & _).
  destruct (allocate_closes_order 5 no_ctx (mkAllocateReservationRequest tenant3 "o1" "k1:allocate") held.1 3%N)
    as (d' & Hrun & _); [reflexivity|by eexists|exact Hd|vm_compute; reflexivity|vm_compute; reflexivity|].
  exists d'. rewrite Hrun. do 3 f_equal.
Defined.

(** The database is down when the rows are to be stored. *)
Definition storm : ResEnv :=
  mkResEnv 3 (mkTxEnv 3 (Some "refused") None None CommitOk) (healthy 3) (λ _, false).

Lemma reserve_failure_compensates_witness :
  ∃ x' r, Reserve storm no_ctx reserve_o1 no_reservations shelf = (no_reservations, x', r) ∧
    ∀ k, reserved_in x' k = reserved_in shelf k.
Proof.
  destruct (reserve_failure_compensates storm no_ctx reserve_o1 no_reservations shelf 3%N no_reservations
              (ErrWrap "failed to begin transaction" (ErrConn "refused"))) as (x' & r & Hrun & _ & Hres);
    [reflexivity|done|reflexivity|apply no_reservations_wf|apply shelf_fine|apply shelf_agrees|done
    |vm_compute; reflexivity|vm_compute; reflexivity|done|reflexivity|reflexivity|].
  exists x', r. split; [exact Hrun|exact Hres].
Defined.

(** ** Where the books part *)

Definition mug_at : loc := (3%N, "mug", "w1").

Definition sweep_at (now : Z) (st : ResDB * StockWorld) : ResDB * StockWorld :=
  sweepOnce (quiet_sweep now id id) no_ctx st.1 st.2.

(** An order is compensated under one key for good: reserved again after its
    first hold expired, the second expiry marks the rows but the stock service
    takes the release for a repetition, and the mugs stay reserved. *)
Definition reserved_again : ResDB * StockWorld :=
  let st := sweep_at 70000000 held in
  (Reserve (res_healthy 80000000) no_ctx (mkReserveRequest tenant3 "o1" "k2:reserve" mugs_and_plate 60) st.1 st.2).1.

Example second_expiry_leaks :
  let st := sweep_at 150000000 reserved_again in
  held_at st.1 mug_at = 0 ∧ reserved_in st.2 mug_at = 3.
Proof. vm_compute. split; reflexivity. Qed.

(** The sweeper's FOR UPDATE ends with its statement: an order that is
    allocated between the fetch and the release loses its stock all the same,
    and its rows end as EXPIRED. *)
Definition allocated_meanwhile (d : ResDB) : ResDB :=
  (AllocateReservation (res_healthy 70000000) no_ctx (mkAllocateReservationRequest tenant3 "o1" "k1:allocate") d).1.

Example sweep_takes_allocated :
  let env := mkSweepEnv 70000000 None (λ _, None) (λ _, None) (λ _, false) id id allocated_meanwhile in
  let st := sweepOnce env no_ctx held.1 held.2 in
  r_Status <$> reservations (allocated_meanwhile held.1) = [StatusAllocated; StatusAllocated] ∧
  r_Status <$> reservations st.1 = [StatusExpired; StatusExpired] ∧ reserved_in st.2 mug_at = 0.
Proof. vm_compute. repeat split; reflexivity. Qed.
