(* ===== verification/CircuitBreaker.v ===== *)
(** * The circuit breaker (pkg/circuitbreaker/circuitbreaker.go)

    The breaker as a state machine.  Its methods run under the mutex, so a
    history of a breaker shared by any number of goroutines is a sequence of
    method calls, each at the instant [time.Now] gave it.  Instants and
    durations are nanoseconds; [failures] never passes the threshold, so the
    Go int does not overflow. *)

From S2P Require Import Prelude Database.

(** ** State *)

Inductive breaker_state := Closed | Open | HalfOpen.

#[export] Instance breaker_state_eq_dec : EqDecision breaker_state.
Proof. solve_decision. Defined.

Record Config := mkConfig { FailureThreshold : Z; Cooldown : Z }.

Record Breaker := mkBreaker {
  cfg : Config;
  state : breaker_state;
  failures : Z;
  openedAt : Z;
}.

Definition second : Z := 1000000000.

(** ** Methods *)

Definition New (c : Config) : Breaker :=
  let threshold := if FailureThreshold c <=? 0 then 5 else FailureThreshold c in
  let cooldown := if Cooldown c <=? 0 then 10 * second else Cooldown c in
  mkBreaker (mkConfig threshold cooldown) Closed 0 0.

Definition Allow (now : Z) (b : Breaker) : Breaker * option go_error :=
  match state b with
  | Closed => (b, None)
  | Open =>
      if Cooldown (cfg b) <=? now - openedAt b
      then (mkBreaker (cfg b) HalfOpen (failures b) (openedAt b), None)
      else (b, Some ErrOpen)
  | HalfOpen => (b, None)
  end.

Definition RecordSuccess (b : Breaker) : Breaker := mkBreaker (cfg b) Closed 0 (openedAt b).

Definition RecordFailure (now : Z) (b : Breaker) : Breaker :=
  match state b with
  | HalfOpen => mkBreaker (cfg b) Open (failures b) now
  | Closed =>
      let n := failures b + 1 in
      if FailureThreshold (cfg b) <=? n then mkBreaker (cfg b) Open n now
      else mkBreaker (cfg b) Closed n (openedAt b)
  | Open => b
  end.

(** ** Histories *)

Inductive breaker_op := OpAllow (now : Z) | OpSuccess | OpFailure (now : Z).

Definition op_run (o : breaker_op) (b : Breaker) : Breaker :=
  match o with
  | OpAllow now => (Allow now b).1
  | OpSuccess => RecordSuccess b
  | OpFailure now => RecordFailure now b
  end.

Definition breaker_run (os : list breaker_op) (b : Breaker) : Breaker :=
  foldl (λ b o, op_run o b) b os.

(** The failures recorded since the last success. *)
Fixpoint failure_streak (os : list breaker_op) (n : Z) : Z :=
  match os with
  | [] => n
  | OpAllow _ :: os' => failure_streak os' n
  | OpSuccess :: os' => failure_streak os' 0
  | OpFailure _ :: os' => failure_streak os' (n + 1)
  end.

Definition op_time (o : breaker_op) : option Z :=
  match o with OpAllow t => Some t | OpFailure t => Some t | OpSuccess => None end.

(** Every call of the history is made before [t], and none records a success. *)
Definition quiet_until (t : Z) (os : list breaker_op) : bool :=
  forallb (λ o, match op_time o with Some u => u <? t | None => false end) os.

(** ** Lemmas *)

Lemma op_run_cfg o b : cfg (op_run o b) = cfg b.
Proof. destruct o; cbn; unfold Allow, RecordFailure; repeat case_match; done. Qed.

Lemma breaker_run_cfg os b : cfg (breaker_run os b) = cfg b.
Proof.
  revert b. induction os as [|o os IH]; intros b; [done|].
  cbn [breaker_run foldl]. by rewrite (IH (op_run o b) : cfg (foldl _ _ _) = _), op_run_cfg.
Qed.

Lemma breaker_run_app os1 os2 b : breaker_run (os1 ++ os2) b = breaker_run os2 (breaker_run os1 b).
Proof. apply foldl_app. Qed.

(** A breaker that opened stays as it is until its cooldown is over. *)
Lemma open_stays os b :
  state b = Open → quiet_until (openedAt b + Cooldown (cfg b)) os = true → breaker_run os b = b.
Proof.
  intros Hs. induction os as [|o os IH]; [done|]. cbn [quiet_until forallb breaker_run foldl].
  intros [Ho Hq]%andb_prop.
  assert (op_run o b = b) as ->; [|by apply IH].
  destruct o as [u| |u]; cbn in Ho |- *; [|done|].
  - unfold Allow. rewrite Hs. bprop. by rewrite (proj2 (Z.leb_gt _ _)) by lia.
  - unfold RecordFailure. by rewrite Hs.
Qed.

(** As long as the threshold is not reached a closed breaker only counts. *)
Lemma closed_counts os b :
  state b = Closed → 0 <= failures b →
  (∀ os1 os2, os = os1 ++ os2 → failure_streak os1 (failures b) < FailureThreshold (cfg b)) →
  state (breaker_run os b) = Closed ∧ failures (breaker_run os b) = failure_streak os (failures b).
Proof.
  revert b. induction os as [|o os IH]; intros b Hs Hf Hlt; [done|].
  cbn [breaker_run foldl]. destruct o as [u| |u].
  - cbn [op_run]. unfold Allow. rewrite Hs. cbn [fst failure_streak]. apply IH; [done..|].
    intros os1 os2 ->. by apply (Hlt (OpAllow u :: os1) os2).
  - cbn [op_run failure_streak]. apply (IH (RecordSuccess b)); [done..|].
    intros os1 os2 ->. by apply (Hlt (OpSuccess :: os1) os2).
  - pose proof (Hlt [OpFailure u] os eq_refl) as H1. cbn in H1.
    cbn [op_run failure_streak]. unfold RecordFailure. rewrite Hs.
    rewrite (proj2 (Z.leb_gt _ _)) by lia.
    apply (IH (mkBreaker (cfg b) Closed (failures b + 1) (openedAt b))); cbn; [done|lia|].
    intros os1 os2 ->. by apply (Hlt (OpFailure u :: os1) os2).
Qed.

(** ** Theorems *)

(** A breaker that is open, at its first call after the cooldown. *)
Lemma open_then_probe b os now :
  state b = Open → quiet_until (openedAt b + Cooldown (cfg b)) os = true →
  (now < openedAt b + Cooldown (cfg b) → Allow now (breaker_run os b) = (b, Some ErrOpen)) ∧
  (openedAt b + Cooldown (cfg b) <= now →
     ∃ b', Allow now (breaker_run os b) = (b', None) ∧ state b' = HalfOpen ∧ cfg b' = cfg b).
Proof.
  intros Hs Hq. rewrite (open_stays os b Hs Hq). unfold Allow. rewrite Hs. split; intros Hnow.
  - by rewrite (proj2 (Z.leb_gt _ _)) by lia.
  - rewrite (proj2 (Z.leb_le _ _)) by lia. by eexists.
Qed.

(** C28. The life of a breaker.  Along any history [os] of calls in which no
    streak of failures has reached the threshold, a new breaker is closed, lets
    calls through, and counts the failures since the last success; one more
    failure leaves it closed if the streak stays below the threshold, and
    otherwise opens it at that instant.  From then on, whatever calls and stray
    failure reports [os'] come in, every call is refused with ErrOpen until the
    cooldown is over; the first call after it goes through and leaves the breaker
    half-open, where a success closes it with a clean counter and a failure
    opens it again for a full cooldown. *)
Theorem breaker_life c os now os' later :
  (∀ os1 os2, os = os1 ++ os2 → failure_streak os1 0 < FailureThreshold (cfg (New c))) →
  quiet_until (now + Cooldown (cfg (New c))) os' = true →
  let b := breaker_run os (New c) in
  let b1 := RecordFailure now b in
  state b = Closed ∧ failures b = failure_streak os 0 ∧ Allow now b = (b, None) ∧
  (failure_streak os 0 + 1 < FailureThreshold (cfg (New c)) →
     state b1 = Closed ∧ failures b1 = failure_streak os 0 + 1) ∧
  (FailureThreshold (cfg (New c)) <= failure_streak os 0 + 1 →
     state b1 = Open ∧
     (later < now + Cooldown (cfg (New c)) → Allow later (breaker_run os' b1) = (b1, Some ErrOpen)) ∧
     (now + Cooldown (cfg (New c)) <= later → ∃ b2,
        Allow later (breaker_run os' b1) = (b2, None) ∧ state b2 = HalfOpen ∧
        state (RecordSuccess b2) = Closed ∧ failures (RecordSuccess b2) = 0 ∧
        ∀ again t, state (RecordFailure again b2) = Open ∧
          (again <= t < again + Cooldown (cfg (New c)) →
           (Allow t (RecordFailure again b2)).2 = Some ErrOpen))).
Proof.
  intros Hlt Hq b b1. destruct (closed_counts os (New c)) as [Hs Hf]; [done|done|done|]. fold b in Hs, Hf.
  assert (cfg b = cfg (New c)) as Hcfg by apply breaker_run_cfg.
  change (failures (New c)) with 0 in Hf.
  assert (b1 = RecordFailure now b) as E by done. unfold RecordFailure in E. rewrite Hs, Hf, Hcfg in E.
  split; [done|]. split; [done|]. split; [unfold Allow; by rewrite Hs|]. split.
  - intros Hb. rewrite (proj2 (Z.leb_gt _ _)) in E by lia. by rewrite E.
  - intros Hb. rewrite (proj2 (Z.leb_le _ _)) in E by lia.
    assert (state b1 = Open ∧ openedAt b1 = now ∧ cfg b1 = cfg (New c)) as (Ho & Hat & Hc1) by by rewrite E.
    destruct (open_then_probe b1 os' later) as [Hfast Hprobe]; [done|by rewrite Hat, Hc1|].
    rewrite Hat, Hc1 in Hfast, Hprobe.
    split; [done|]. split; [done|]. intros Hl. destruct (Hprobe Hl) as (b2 & Ha & Hh & Hc2).
    exists b2. split; [done|]. split; [done|]. split; [done|]. split; [done|].
    intros again t. unfold RecordFailure. rewrite Hh. split; [done|]. intros Ht. unfold Allow. cbn.
    rewrite Hc2. by rewrite (proj2 (Z.leb_gt _ _)) by lia.
Qed.

Lemma breaker_life_witness :
  Allow 20 (breaker_run [OpAllow 9; OpFailure 10]
              (RecordFailure 7 (breaker_run [OpFailure 1; OpSuccess; OpFailure 2] (New (mkConfig 2 30))))) =
  (RecordFailure 7 (breaker_run [OpFailure 1; OpSuccess; OpFailure 2] (New (mkConfig 2 30))), Some ErrOpen).
Proof.
  destruct (breaker_life (mkConfig 2 30) [OpFailure 1; OpSuccess; OpFailure 2] 7 [OpAllow 9; OpFailure 10] 20)
    as (_ & _ & _ & _ & Hopen).
  - intros os1 os2 Heq. destruct os1 as [|o1 [|o2 [|o3 [|]]]]; simplify_eq/=; reflexivity.
  - reflexivity.
  - apply Hopen; [discriminate|reflexivity].
Defined.
