(* ===== verification/Closer.v ===== *)
(** * The shutdown harness (pkg/closer/closer.go)

    Registration and execution of cleanups.  A cleanup is a function on the
    state [W] of the process (pools, servers, exporters) that may fail; the
    drain window only bounds how long it may take, and a cleanup that runs
    over it is one that fails. *)

From S2P Require Import Prelude Database.

Section Closer.
Context {W : Type}.

Definition CleanupFunc : Type := W → W * option go_error.

Record Closer := mkCloser {
  drain : Z;                (* nanoseconds *)
  defers : list CleanupFunc;
  cleaned : bool;
  ctx_cancelled : bool;     (* the root context *)
  sig_closed : bool;        (* the channel behind WaitChan *)
}.

Definition DefaultDrain : Z := 15 * 1000000000.

Definition newCloser (d : Z) : Closer :=
  mkCloser (if d <=? 0 then DefaultDrain else d) [] false false false.

(** signal: cancel the root context, then release WaitChan (New's goroutine
    calls it once: a second signal ends the process). *)
Definition closer_signal (c : Closer) : Closer := mkCloser (drain c) (defers c) (cleaned c) true true.

Definition Defer (f : CleanupFunc) (c : Closer) : Closer :=
  mkCloser (drain c) (defers c ++ [f]) (cleaned c) (ctx_cancelled c) (sig_closed c).

Definition DeferFirst (f : CleanupFunc) (c : Closer) : Closer :=
  mkCloser (drain c) (f :: defers c) (cleaned c) (ctx_cancelled c) (sig_closed c).

(** The loop of Cleanup, already in the order it visits the slice. *)
Fixpoint run_cleanups (fs : list CleanupFunc) (w : W) (code : Z) : W * Z :=
  match fs with
  | [] => (w, code)
  | f :: fs' =>
      let '(w', err) := f w in
      run_cleanups fs' w' (match err with Some _ => 1 | None => code end)
  end.

(** [for i := len(defers) - 1; i >= 0; i--] *)
Definition Cleanup (c : Closer) (w : W) : Closer * W * Z :=
  if cleaned c then (c, w, 0)
  else
    let '(w', code) := run_cleanups (reverse (defers c)) w 0 in
    (mkCloser (drain c) [] true true (sig_closed c), w', code).

(** [Wait]: [None] while it blocks. *)
Definition Wait (c : Closer) (w : W) : option (Closer * W * Z) :=
  if sig_closed c then Some (Cleanup c w) else None.

(** ** Histories of registrations *)

Inductive registration := RegDefer (f : CleanupFunc) | RegDeferFirst (f : CleanupFunc).

Definition register (c : Closer) (r : registration) : Closer :=
  match r with RegDefer f => Defer f c | RegDeferFirst f => DeferFirst f c end.

Definition deferred (rs : list registration) : list CleanupFunc :=
  omap (λ r, match r with RegDefer f => Some f | _ => None end) rs.

Definition deferred_first (rs : list registration) : list CleanupFunc :=
  omap (λ r, match r with RegDeferFirst f => Some f | _ => None end) rs.

(** The errors met when the cleanups run in the order [fs]. *)
Fixpoint cleanup_errors (fs : list CleanupFunc) (w : W) : list go_error :=
  match fs with
  | [] => []
  | f :: fs' => option_list (f w).2 ++ cleanup_errors fs' (f w).1
  end.

Definition cleanup_world (fs : list CleanupFunc) (w : W) : W := foldl (λ w f, (f w).1) w fs.

(** ** Lemmas *)

Lemma run_cleanups_spec fs : ∀ w code,
  run_cleanups fs w code =
  (cleanup_world fs w, match cleanup_errors fs w with [] => code | _ => 1 end).
Proof.
  induction fs as [|f fs IH]; intros w code; cbn [run_cleanups cleanup_errors cleanup_world foldl];
    [done|].
  destruct (f w) as [w' [e|]] eqn:Hf; cbn; rewrite IH; [|done]. by destruct (cleanup_errors fs w').
Qed.

Lemma register_defers rs : ∀ c,
  defers (foldl register c rs) = reverse (deferred_first rs) ++ defers c ++ deferred rs.
Proof.
  induction rs as [|[f|f] rs IH]; intros c; cbn [foldl]; [by rewrite app_nil_r| |]; rewrite IH.
  - change (deferred (RegDefer f :: rs)) with (f :: deferred rs). cbn [register Defer defers].
    by rewrite <- app_assoc.
  - change (deferred_first (RegDeferFirst f :: rs)) with (f :: deferred_first rs).
    rewrite reverse_cons, <- app_assoc. done.
Qed.

Lemma register_cleaned rs : ∀ c, cleaned (foldl register c rs) = cleaned c.
Proof. induction rs as [|[f|f] rs IH]; intros c; cbn [foldl]; [done| |]; by rewrite IH. Qed.

Lemma register_sig rs : ∀ c, sig_closed (foldl register c rs) = sig_closed c.
Proof. induction rs as [|[f|f] rs IH]; intros c; cbn [foldl]; [done| |]; by rewrite IH. Qed.

Lemma register_cancelled rs : ∀ c, ctx_cancelled (foldl register c rs) = ctx_cancelled c.
Proof. induction rs as [|[f|f] rs IH]; intros c; cbn [foldl]; [done| |]; by rewrite IH. Qed.

(** What Wait does once the signal is there. *)
Lemma wait_runs window rs w :
  let order := reverse (deferred rs) ++ deferred_first rs in
  ∃ c', Wait (closer_signal (foldl register (newCloser window) rs)) w =
    Some (c', cleanup_world order w, match cleanup_errors order w with [] => 0 | _ => 1 end) ∧
    cleaned c' = true ∧ ctx_cancelled c' = true.
Proof.
  intros order. set (c := foldl register (newCloser window) rs).
  exists (mkCloser (drain c) [] true true true). split; [|done]. unfold Wait. cbn [closer_signal sig_closed]. unfold Cleanup.
  cbn [closer_signal cleaned defers drain sig_closed]. unfold c.
  rewrite register_cleaned, register_defers. cbn [newCloser cleaned defers app].
  rewrite run_cleanups_spec. unfold order. by rewrite reverse_app, reverse_involutive.
Qed.

(** ** Theorem *)

(** Shutdown after any sequence of registrations: Wait blocks, with the root
    context live, until the signal comes, and then runs every registered cleanup
    exactly once, whether or not others fail: those of Defer first, the last
    registered first, and then, after all of them, those of DeferFirst in the
    order they were registered (the comment on DeferFirst promises that they run
    before everything registered with Defer).  The exit code is 0 exactly when
    none failed, the root context is cancelled, and a second Cleanup runs nothing
    and reports 0. *)
Theorem cleanup_order window rs w :
  let c := foldl register (newCloser window) rs in
  let order := reverse (deferred rs) ++ deferred_first rs in
  Wait c w = None ∧ ctx_cancelled c = false ∧ 0 < drain (newCloser window) ∧
  ∃ c', Wait (closer_signal c) w = Some (c', cleanup_world order w,
                                         match cleanup_errors order w with [] => 0 | _ => 1 end) ∧
    ctx_cancelled c' = true ∧ ∀ w', Cleanup c' w' = (c', w', 0).
Proof.
  intros c order. split; [unfold Wait, c; by rewrite register_sig|].
  split; [unfold c; by rewrite register_cancelled|]. split; [cbn; unfold DefaultDrain; destruct (Z.leb_spec window 0); lia|].
  destruct (wait_runs window rs w) as (c' & Hw & Hcl & Hctx). exists c'. split; [done|]. split; [done|].
  intros w'. unfold Cleanup. by rewrite Hcl.
Qed.

End Closer.
