(* ===== verification/Loops.v ===== *)
(** * A process and its background loops (pkg/closer/closer.go and the Run loops)

    The goroutine of closer.New that watches the signals, the loops of the
    background workers (a pass at the start, and then
    [select { case <-ctx.Done(): return; case <-ticker.C: pass }]), and main
    waiting in Closer.Wait, as one transition system over the state [W] of the
    process.  Go's select picks any case that is ready: a tick that is waiting
    may be taken after the context was cancelled. *)

From S2P Require Import Prelude Database Closer.

(** ** The watcher *)

(** Where the goroutine of New is: in its select, past the first signal and
    waiting for a second one, or gone. *)
Inductive watcher := Watching | Signalled | Gone.

#[export] Instance watcher_eq_dec : EqDecision watcher.
Proof. solve_decision. Defined.

Inductive watch_event := OsSignal | RootDone.

Section Process.
Context {W E : Type}.

Definition closer_New (window : Z) : Closer (W := W) * watcher := (newCloser window, Watching).

(** What an event does to the goroutine of New; [Some code] is os.Exit. *)
Definition watch (ev : watch_event) (g : watcher) (c : Closer (W := W)) : watcher * Closer * option Z :=
  match g, ev with
  | Watching, OsSignal => (Signalled, closer_signal c, None)
  | Watching, RootDone => (Gone, c, None)
  | Signalled, OsSignal => (Signalled, c, Some 1)
  | Signalled, RootDone => (Signalled, c, None)
  | Gone, _ => (Gone, c, None)
  end.

(** The goroutine of NewWithSignal: [fired] is closed once, and nothing exits. *)
Definition watch_fired (ev : watch_event) (g : watcher) (c : Closer (W := W)) : watcher * Closer :=
  match g, ev with
  | Watching, OsSignal => (Gone, closer_signal c)
  | Watching, RootDone => (Gone, c)
  | _, _ => (g, c)
  end.

(** Closer.Context, WaitChan and Drain: what the rest of the process sees. *)
Definition Context_done (c : Closer (W := W)) : bool := ctx_cancelled c.
Definition WaitChan_closed (c : Closer (W := W)) : bool := sig_closed c.
Definition Drain_of (c : Closer (W := W)) : Z := drain c.

(** ** The loops *)

(** A loop in its select: whether a tick waits in the channel (which holds one,
    further ticks are dropped), and whether the loop has returned. *)
Record Loop := mkLoop { lp_tick : bool; lp_returned : bool }.

(** A loop that has done its first pass. *)
Definition started : Loop := mkLoop false false.

Record Process := mkProcess {
  ps_world : W;
  ps_loops : list Loop;
  ps_closer : Closer (W := W);
  ps_watch : watcher;
  ps_exit : option Z;
}.

Inductive proc_event :=
| Signal                     (* SIGTERM or SIGINT *)
| Cancelled                  (* the watcher sees the root context done *)
| Tick (i : nat)             (* the timer of loop i fires *)
| Pass (i : nat) (e : E)     (* loop i takes a waiting tick *)
| Leave (i : nat)            (* loop i takes ctx.Done *)
| Finish.                    (* main returns from Wait *)

Context (passes : list (E → W → W)).

Definition set_loop (i : nat) (l : Loop) (p : Process) : Process :=
  mkProcess (ps_world p) (<[i := l]> (ps_loops p)) (ps_closer p) (ps_watch p) (ps_exit p).

Definition set_world (x : W) (p : Process) : Process :=
  mkProcess x (ps_loops p) (ps_closer p) (ps_watch p) (ps_exit p).

Definition watched (ev : watch_event) (p : Process) : Process :=
  let '(g, c, code) := watch ev (ps_watch p) (ps_closer p) in
  mkProcess (ps_world p) (ps_loops p) c g code.

(** One step, [None] when it is not possible. *)
Definition proc_step (ev : proc_event) (p : Process) : option Process :=
  match ps_exit p with
  | Some _ => None
  | None =>
      match ev with
      | Signal => Some (watched OsSignal p)
      | Cancelled => if ctx_cancelled (ps_closer p) then Some (watched RootDone p) else None
      | Tick i =>
          l ← ps_loops p !! i;
          if lp_returned l then None else Some (set_loop i (mkLoop true false) p)
      | Pass i e =>
          l ← ps_loops p !! i;
          f ← passes !! i;
          if lp_returned l || negb (lp_tick l) then None
          else Some (set_world (f e (ps_world p)) (set_loop i (mkLoop false false) p))
      | Leave i =>
          l ← ps_loops p !! i;
          if lp_returned l || negb (ctx_cancelled (ps_closer p)) then None
          else Some (set_loop i (mkLoop (lp_tick l) true) p)
      | Finish =>
          '(c, x, code) ← Wait (ps_closer p) (ps_world p);
          Some (mkProcess x (ps_loops p) c (ps_watch p) (Some code))
      end
  end.

Fixpoint proc_run (evs : list proc_event) (p : Process) : option Process :=
  match evs with
  | [] => Some p
  | ev :: evs' => p' ← proc_step ev p; proc_run evs' p'
  end.

(** Every worker sweeps once and enters its select. *)
Definition proc_boot (first : list E) (rs : list (registration (W := W))) (window : Z) (x : W) : Process :=
  mkProcess (foldl (λ x fe, fe.1 fe.2 x) x (zip passes first)) (replicate (length passes) started)
    (foldl register (closer_New window).1 rs) (closer_New window).2 None.

(** ** Specification *)

(** What a process may still do by itself: main's return, and per loop a
    return and the tick that waits. *)
Definition loop_work (l : Loop) : nat := if lp_returned l then 0 else if lp_tick l then 2 else 1.

Definition process_work (p : Process) : nat :=
  (match ps_exit p with Some _ => 0 | None => 1 end) + (match ps_watch p with Watching => 1 | _ => 0 end) +
  sum_list_with loop_work (ps_loops p).

(** The events the process does not cause: signals and timers. *)
Definition external (ev : proc_event) : bool := match ev with Signal | Tick _ => true | _ => false end.

(** It goes on by itself. *)
Definition useful (ev : proc_event) (p : Process) : bool :=
  negb (external ev) && match ev with Cancelled => bool_decide (ps_watch p = Watching) | _ => true end.

(** ** Lemmas *)

Lemma sum_loops_insert (ls : list Loop) i l l' :
  ls !! i = Some l →
  (sum_list_with loop_work (<[i := l']> ls) + loop_work l = sum_list_with loop_work ls + loop_work l')%nat.
Proof.
  revert i. induction ls as [|l0 ls IH]; intros [|i] Hi; simplify_eq/=; [lia|]. specialize (IH i Hi). lia.
Qed.

(** Every step of its own brings the process closer to its end. *)
Lemma step_works ev p p' :
  proc_step ev p = Some p' → useful ev p = true → (process_work p' < process_work p)%nat.
Proof.
  unfold proc_step, useful, process_work. destruct (ps_exit p) eqn:Hx; [done|].
  destruct ev as [| |i|i e|i|]; cbn [external negb andb]; intros Hs Hu; try done.
  - destruct (ctx_cancelled _); [|done]. injection Hs as <-. apply bool_decide_eq_true in Hu. unfold watched.
    rewrite Hu. cbn. lia.
  - destruct (ps_loops p !! i) as [l|] eqn:Hl; [|done]. cbn in Hs. destruct (passes !! i); [|done]. cbn in Hs.
    destruct (lp_returned l) eqn:Hr, (lp_tick l) eqn:Ht; cbn in Hs; try done. injection Hs as <-. cbn.
    rewrite Hx. pose proof (sum_loops_insert _ _ _ (mkLoop false false) Hl) as Hsum.
    unfold loop_work in Hsum at 2 4. rewrite Hr, Ht in Hsum. cbn in Hsum. lia.
  - destruct (ps_loops p !! i) as [l|] eqn:Hl; [|done]. cbn in Hs.
    destruct (lp_returned l) eqn:Hr, (ctx_cancelled _); cbn in Hs; try done. injection Hs as <-. cbn.
    rewrite Hx. pose proof (sum_loops_insert _ _ _ (mkLoop (lp_tick l) true) Hl) as Hsum.
    unfold loop_work in Hsum at 2 4. rewrite Hr in Hsum. cbn in Hsum. destruct (lp_tick l); lia.
  - unfold Wait in Hs. destruct (sig_closed _); [|done]. destruct (Cleanup _ _) as [[c x] code]. cbn in Hs.
    injection Hs as <-. cbn. lia.
Qed.

Lemma step_cancelled ev p p' :
  proc_step ev p = Some p' → ctx_cancelled (ps_closer p) = true → ctx_cancelled (ps_closer p') = true.
Proof.
  unfold proc_step. destruct (ps_exit p); [done|]. destruct ev as [| |i|i e|i|]; intros Hs Hc.
  - injection Hs as <-. unfold watched, watch. by destruct (ps_watch p).
  - rewrite Hc in Hs. injection Hs as <-. unfold watched, watch. by destruct (ps_watch p).
  - destruct (ps_loops p !! i); [|done]. cbn in Hs. destruct (lp_returned _); [done|]. by injection Hs as <-.
  - destruct (ps_loops p !! i); [|done]. cbn in Hs. destruct (passes !! i); [|done]. cbn in Hs.
    destruct (_ || _); [done|]. by injection Hs as <-.
  - destruct (ps_loops p !! i); [|done]. cbn in Hs. destruct (_ || _); [done|]. by injection Hs as <-.
  - unfold Wait, Cleanup in Hs. destruct (sig_closed _); [|done].
    destruct (cleaned _); [by injection Hs as <-|]. destruct (run_cleanups _ _ _). by injection Hs as <-.
Qed.

(** The steps of a run that are the process's own. *)
Fixpoint own_steps (evs : list proc_event) (p : Process) : nat :=
  match evs with
  | [] => 0
  | ev :: evs' =>
      (if useful ev p then 1 else 0) + match proc_step ev p with Some p' => own_steps evs' p' | None => 0 end
  end.

Definition ticks (evs : list proc_event) : nat :=
  sum_list_with (λ ev, match ev with Tick _ => 1%nat | _ => 0%nat end) evs.

Lemma step_idle ev p p' :
  proc_step ev p = Some p' → useful ev p = false →
  (process_work p' <= process_work p + match ev with Tick _ => 1 | _ => 0 end)%nat.
Proof.
  unfold proc_step, useful, process_work. destruct (ps_exit p) eqn:Hx; [done|].
  destruct ev as [| |i|i e|i|]; cbn [external negb andb]; intros Hs Hu; try done.
  - injection Hs as <-. unfold watched, watch. destruct (ps_watch p); cbn; lia.
  - destruct (ctx_cancelled _); [|done]. injection Hs as <-. unfold watched, watch. destruct (ps_watch p); cbn; lia.
  - destruct (ps_loops p !! i) as [l|] eqn:Hl; [|done]. cbn in Hs. destruct (lp_returned l) eqn:Hr; [done|].
    injection Hs as <-. cbn. rewrite Hx. pose proof (sum_loops_insert _ _ _ (mkLoop true false) Hl) as Hsum.
    unfold loop_work in Hsum at 2 4. rewrite Hr in Hsum. cbn in Hsum. destruct (lp_tick l); lia.
Qed.

Lemma own_steps_bounded evs : ∀ p p', proc_run evs p = Some p' →
  (own_steps evs p + process_work p' <= process_work p + ticks evs)%nat.
Proof.
  induction evs as [|ev evs IH]; intros p p' Hrun; [injection Hrun as <-; cbn; lia|].
  cbn [proc_run own_steps] in *. destruct (proc_step ev p) as [p1|] eqn:Hs; [|done]. cbn in Hrun.
  specialize (IH p1 p' Hrun). unfold ticks in *. cbn [sum_list_with].
  destruct (useful ev p) eqn:Hu.
  - apply step_works in Hs; [|done]. lia.
  - apply step_idle in Hs; [|done]. destruct ev; lia.
Qed.

(** What a step does to the state of the process while it runs. *)
Lemma step_world ev p p' :
  proc_step ev p = Some p' → ps_exit p' = None →
  ps_world p' = (match ev with
                 | Pass i e => match passes !! i with Some f => f e (ps_world p) | None => ps_world p end
                 | _ => ps_world p
                 end).
Proof.
  unfold proc_step. destruct (ps_exit p); [done|]. destruct ev as [| |i|i e|i|]; intros Hs Hx.
  - injection Hs as <-. unfold watched. by destruct (watch _ _ _) as [[? ?] ?].
  - destruct (ctx_cancelled _); [|done]. injection Hs as <-. unfold watched. by destruct (watch _ _ _) as [[? ?] ?].
  - destruct (ps_loops p !! i); [|done]. cbn in Hs. destruct (lp_returned _); [done|]. by injection Hs as <-.
  - destruct (ps_loops p !! i); [|done]. cbn in Hs. destruct (passes !! i); [|done]. cbn in Hs.
    destruct (_ || _); [done|]. by injection Hs as <-.
  - destruct (ps_loops p !! i); [|done]. cbn in Hs. destruct (_ || _); [done|]. by injection Hs as <-.
  - destruct (Wait _ _) as [[[c x] code]|]; [|done]. by injection Hs as <-.
Qed.

(** A process that has ended takes no further step. *)
Lemma run_alive ev evs p p1 p' :
  proc_step ev p = Some p1 → proc_run evs p1 = Some p' → ps_exit p' = None → ps_exit p1 = None.
Proof.
  intros _ Hrun Hx. destruct evs as [|ev1 evs]; [by injection Hrun as ->|]. cbn in Hrun. unfold proc_step in Hrun.
  by destruct (ps_exit p1).
Qed.

(** The passes of a run, by their loops. *)
Definition passes_of (evs : list proc_event) : list (nat * E) :=
  omap (λ ev, match ev with Pass i e => Some (i, e) | _ => None end) evs.

Definition run_pass (x : W) (ie : nat * E) : W := match passes !! ie.1 with Some f => f ie.2 x | None => x end.

(** While the process runs, its state is what the passes have made of it. *)
Lemma world_of_passes evs : ∀ p p',
  proc_run evs p = Some p' → ps_exit p' = None → ps_world p' = foldl run_pass (ps_world p) (passes_of evs).
Proof.
  induction evs as [|ev evs IH]; intros p p' Hrun Hx; [by injection Hrun as <-|].
  cbn [proc_run] in Hrun. destruct (proc_step ev p) as [p1|] eqn:Hs; [|done]. cbn in Hrun.
  pose proof (run_alive _ _ _ _ _ Hs Hrun Hx) as Hx1.
  rewrite (IH p1 p' Hrun Hx), (step_world _ _ _ Hs Hx1). by destruct ev.
Qed.

(** A property of the state that every pass keeps whose surroundings are as in
    [G]. *)
Section Invariant.
Context (I : W → Prop) (G : E → Prop).
Context (Hkeep : ∀ i f e x, passes !! i = Some f → G e → I x → I (f e x)).

Lemma run_invariant evs : ∀ p p',
  Forall (λ ev, match ev with Pass _ e => G e | _ => True end) evs →
  I (ps_world p) → proc_run evs p = Some p' → ps_exit p' = None → I (ps_world p').
Proof using Hkeep.
  induction evs as [|ev evs IH]; intros p p' Hall HI Hrun Hx; [by injection Hrun as <-|].
  apply Forall_cons in Hall as [Hev Hall].
  cbn in Hrun. destruct (proc_step ev p) as [p1|] eqn:Hs; [|done]. cbn in Hrun.
  pose proof (run_alive _ _ _ _ _ Hs Hrun Hx) as Hx1. apply (IH p1 p'); [done| |done|done].
  rewrite (step_world _ _ _ Hs Hx1). destruct ev as [| | |i e| |]; try done.
  destruct (passes !! i) as [f|] eqn:Hf; [|done]. by eapply Hkeep.
Qed.

Lemma boot_invariant first rs window x :
  Forall G first → I x → I (ps_world (proc_boot first rs window x)).
Proof using Hkeep.
  intros HG HI. cbn [proc_boot ps_world].
  assert (∀ f e, (f, e) ∈ zip passes first → ∀ y, I y → I (f e y)) as Hz.
  { intros f e Hin y Hy. apply list_elem_of_lookup in Hin as [i Hi]. apply lookup_zip_Some in Hi as [Hf He].
    apply (Hkeep i); [done| |done]. rewrite Forall_forall in HG. by eapply HG, list_elem_of_lookup_2. }
  revert x HI Hz. generalize (zip passes first) as l. induction l as [|[f e] l IH]; intros x HI Hz; [done|].
  cbn [foldl fst snd]. apply IH; [|intros f' e' Hin; apply Hz; by apply list_elem_of_further].
  apply Hz; [apply list_elem_of_here|done].
Qed.

End Invariant.

(** The harness of a process that was booted: as registered, or signalled, or
    the process has ended. *)
Definition harness_ok (rs : list (registration (W := W))) (window : Z) (p : Process) : Prop :=
  let c := foldl register (newCloser window) rs in
  ps_exit p = None → ps_closer p = c ∧ ps_watch p = Watching ∨ ps_closer p = closer_signal c.

Lemma watched_ok rs window ev p :
  harness_ok rs window p → ps_exit p = None → (ev = RootDone → ctx_cancelled (ps_closer p) = true) →
  harness_ok rs window (watched ev p).
Proof.
  unfold harness_ok, watched. intros Hok Hx Hc. destruct (Hok Hx) as [[Hc0 Hw]|Hc0].
  - rewrite Hc0 in Hc. destruct ev; [rewrite Hw; cbn; intros _; right; by rewrite Hc0|].
    specialize (Hc eq_refl). by rewrite register_cancelled in Hc.
  - unfold watch. destruct (ps_watch p), ev; cbn; intros ?; try done; right; by rewrite Hc0.
Qed.

Lemma harness_step rs window ev p p' :
  harness_ok rs window p → proc_step ev p = Some p' → harness_ok rs window p'.
Proof.
  intros Hok. unfold proc_step. destruct (ps_exit p) eqn:Hx; [done|].
  destruct ev as [| |i|i e|i|]; intros Hs.
  - injection Hs as <-. by apply watched_ok.
  - destruct (ctx_cancelled _) eqn:Hc; [|done]. injection Hs as <-. by apply watched_ok.
  - destruct (ps_loops p !! i); [|done]. cbn in Hs. destruct (lp_returned _); [done|]. by injection Hs as <-.
  - destruct (ps_loops p !! i); [|done]. cbn in Hs. destruct (passes !! i); [|done]. cbn in Hs.
    destruct (_ || _); [done|]. by injection Hs as <-.
  - destruct (ps_loops p !! i); [|done]. cbn in Hs. destruct (_ || _); [done|]. by injection Hs as <-.
  - destruct (Wait _ _) as [[[c x] code]|]; [|done]. by injection Hs as <-.
Qed.

Lemma harness_run rs window evs : ∀ p p', harness_ok rs window p → proc_run evs p = Some p' → harness_ok rs window p'.
Proof.
  induction evs as [|ev evs IH]; intros p p' Hok Hrun; [by injection Hrun as <-|].
  cbn in Hrun. destruct (proc_step ev p) as [p1|] eqn:Hs; [|done]. by eapply IH; [eapply harness_step|].
Qed.

(** Past a signal the context stays cancelled. *)
Lemma signalled_run evs : ∀ p p', ctx_cancelled (ps_closer p) = true → proc_run evs p = Some p' →
  ctx_cancelled (ps_closer p') = true.
Proof.
  induction evs as [|ev evs IH]; intros p p' Hc Hrun; [by injection Hrun as <-|].
  cbn in Hrun. destruct (proc_step ev p) as [p1|] eqn:Hs; [|done]. by eapply IH; [eapply step_cancelled|].
Qed.

Lemma boot_ok first rs window x : harness_ok rs window (proc_boot first rs window x).
Proof. by left. Qed.

(** ** Theorem *)


End Process.
