(* ===== verification/SweepLoop.v ===== *)
(** * The sweeper's loop

    Sweeper.Run sweeps, waits and sweeps again.  Over working services its
    passes drain the expired reservations, and never give back more than the
    stock service has reserved, whichever rows the batches split and whatever
    was compensated before. *)

From S2P Require Import Prelude Database StockDb StockApi StockService StockEffects StockRefine StockReserve.
From S2P Require Import StockClient ReservationDb ReservationService ReservationBooks ReservationProps.
From S2P Require Import ReservationSweep.

Section SweepLoop.
Context `{UuidText} `{!UuidTextLaws} `{ReservationHashes} `{JsonbText} {X : Type}
  `{!StockClient X} `{!StockClientLaws X} `{!StockReplayLaws X}.

(** ** The loop *)

(** One turn of the loop of Run. *)
Definition sweeper_pass (e : SweepEnv * Ctx) (st : ResDB * X) : ResDB * X := sweepOnce e.1 e.2 st.1 st.2.

(** ** Specification *)

(** The stock service has reserved at least what the rows hold. *)
Definition books_cover (d : ResDB) (x : X) : Prop := ∀ k, held_at d k <= reserved_in x k.

(** A pass at [t0] or later whose statements succeed. *)
Definition quiet_after (t0 : Z) (e : SweepEnv * Ctx) : Prop :=
  ∃ now plan shuffle ctx, e = (quiet_sweep now plan shuffle, ctx) ∧ t0 <= now ∧
    (∀ l, plan l ≡ₚ l) ∧ (∀ g, shuffle g ≡ₚ g).

Definition active_rows_of (d : ResDB) : Z := zsum (λ r, if is_active r then 1 else 0) (reservations d).

(** ** One group *)

(** The state between two groups, without a word on keys. *)
Record cover_inv (groups : list (groupKey * list Reservation)) (d : ResDB) (x : X) : Prop := {
  ci_wf : res_wf d;
  ci_fine : stock_fine x;
  ci_books : books_cover d x;
  ci_rows : ∀ r, r ∈ concat groups.*2 → r ∈ reservations d ∧ is_active r = true;
  ci_ids : NoDup (r_ID <$> concat groups.*2);
  ci_groups : Forall group_ok groups;
}.

Lemma release_covers ctx t o (rows : list Reservation) d (x : X) :
  stock_fine x → books_cover d x → res_wf d → NoDup rows → (∀ r, r ∈ rows → r ∈ reservations d) →
  Forall (λ r, is_active r = true ∧ r_TenantID r = t) rows →
  ∃ x' sr, rpc_ReleaseStock ctx (releaseRequest (uuid_string t) o rows) x = (x', Ok sr) ∧ stock_fine x' ∧
    ∀ k, held_at d k - zsum (holds_at k) rows <= reserved_in x' k.
Proof.
  intros Hx Hb Hd Hnd Hin Hact.
  destruct (row_lines_nonneg rows d Hd Hin) as [Hn Hpos].
  destruct (key_used x t (CompensationKey (uuid_string t) o)) eqn:Hk.
  - destruct (law_release_replay x ctx (releaseRequest (uuid_string t) o rows) t) as [sr Hcall];
      [done|apply uuid_scan_string|done|].
    exists x, sr. split; [done|]. split; [done|]. intros k. specialize (Hb k).
    assert (0 <= zsum (holds_at k) rows); [|lia]. apply held_nonneg, Forall_forall.
    intros r Hr. destruct Hd as [_ _ Hq]. rewrite Forall_forall in Hq. by apply Hq, Hin.
  - destruct (law_release x ctx (releaseRequest (uuid_string t) o rows) t)
      as (x' & sr & Hcall & Hx' & _ & _ & Hres); try done.
    + apply uuid_scan_string.
    + intros k. cbn [releaseRequest rel_Lines]. rewrite (qty_at_rows _ _ _ Hact).
      etrans; [by apply (held_sub k rows d)|apply Hb].
    + exists x', sr. split; [done|]. split; [done|]. intros k. rewrite Hres. cbn [releaseRequest rel_Lines].
      rewrite (qty_at_rows _ _ _ Hact). specialize (Hb k). lia.
Qed.

Lemma sweep_group_covers now plan shuffle ctx k rows groups d x :
  cover_inv ((k, rows) :: groups) d x →
  ∃ d' x', sweep_group (quiet_sweep now plan shuffle) ctx (d, x) (k, rows) = (d', x') ∧
    cover_inv groups d' x' ∧ reservations d' = mark (r_ID <$> rows) StatusExpired <$> reservations d.
Proof.
  intros [Hd Hx Hb Hrows Hids Hall]. destruct k as [tenant o].
  cbn [fmap list_fmap fst snd concat] in *. apply Forall_cons in Hall as [Hg Hall].
  change (list_fmap _ _ snd groups) with (groups.*2) in *.
  rewrite fmap_app, NoDup_app in Hids. destruct Hids as (Hids1 & Hdisj & Hids2).
  assert (∃ t, tenant = uuid_string t ∧ Forall (λ r, is_active r = true ∧ r_TenantID r = t) rows) as (t & -> & Hact).
  { destruct rows as [|r rows']; [by destruct Hg|]. exists (r_TenantID r).
    assert (tenant = uuid_string (r_TenantID r)) as ->.
    { destruct Hg as [_ Hg]. cbn in Hg. apply Forall_cons in Hg as [Hg _]. by injection Hg. }
    split; [done|]. pose proof (group_row_keys _ _ _ _ Hg eq_refl) as Hto.
    apply Forall_forall. intros r0 Hr0. rewrite Forall_forall in Hto. split; [|by apply Hto]. apply Hrows. set_solver. }
  assert (∀ r, r ∈ rows → r ∈ reservations d) as Hin by (intros r Hr; apply Hrows; set_solver).
  pose proof (NoDup_fmap_1 r_ID rows Hids1) as Hnd.
  destruct (release_covers ctx t o rows d x Hx Hb Hd Hnd Hin Hact) as (x' & sr & Hcall & Hx' & Hres).
  destruct (markExpired_rows_quiet now plan shuffle ctx rows d Hd Hids1 Hin) as [Hl Hd'].
  eexists _, x'. split; [unfold sweep_group; by rewrite Hcall|]. split; [|done]. split; try done.
  - intros k. unfold held_at. rewrite Hl, (held_mark k rows); [apply Hres|done|apply Hd|done|done].
  - intros r0 Hr0. destruct (Hrows r0) as [Hin0 Ha0]; [set_solver|]. split; [|done].
    rewrite Hl. apply list_elem_of_fmap. exists r0. split; [|done]. unfold mark.
    rewrite bool_decide_false; [done|]. intros Hid. apply (Hdisj _ Hid). by apply list_elem_of_fmap_2.
Qed.

Lemma sweep_groups_cover now plan shuffle ctx groups :
  ∀ d x, cover_inv groups d x →
  ∃ d' x', foldl (sweep_group (quiet_sweep now plan shuffle) ctx) (d, x) groups = (d', x') ∧
    res_wf d' ∧ stock_fine x' ∧ books_cover d' x' ∧
    reservations d' = mark (r_ID <$> concat groups.*2) StatusExpired <$> reservations d.
Proof.
  induction groups as [|[k rows] groups IH]; intros d x Hinv.
  { exists d, x. destruct Hinv as [Hd Hx Hb _ _ _]. do 4 (split; [done|]).
    rewrite <- (list_fmap_id (reservations d)) at 1. apply list_fmap_ext. intros i r _. symmetry. apply mark_nil. }
  destruct (sweep_group_covers now plan shuffle ctx k rows groups d x Hinv) as (d1 & x1 & Hrun & Hinv1 & Hl1).
  cbn [foldl]. rewrite Hrun. destruct (IH d1 x1 Hinv1) as (d' & x' & -> & Hd' & Hx' & Hb' & Hl').
  exists d', x'. do 4 (split; [done|]). rewrite Hl', Hl1, <- list_fmap_compose.
  apply list_fmap_ext. intros i r _. cbn [compose fmap list_fmap snd concat]. by rewrite mark_mark, fmap_app.
Qed.

(** ** One pass *)

Lemma expired_later t0 now r : t0 <= now → row_expired t0 r = true → row_expired now r = true.
Proof. unfold row_expired. intros Hle Hr. bprop. apply andb_true_intro. split; [apply Z.ltb_lt; lia|done]. Qed.

Lemma count_active (rows : list Reservation) :
  Forall (λ r, is_active r = true) rows → zsum (λ r, if is_active r then 1 else 0) rows = Z.of_nat (length rows).
Proof. induction 1 as [|r rows Hr _ IH]; [done|]. cbn [zsum length]. rewrite Hr, IH. lia. Qed.

Lemma active_rows_nonneg d : 0 <= active_rows_of d.
Proof. apply zsum_nonneg. intros r _. destruct (is_active r); lia. Qed.

Lemma no_active_none d t0 : active_rows_of d <= 0 → ∀ r, r ∈ reservations d → row_expired t0 r = false.
Proof.
  intros Ha r Hr. apply not_true_is_false. intros He. unfold row_expired in He. bprop.
  apply list_elem_of_split in Hr as (l1 & l2 & E). unfold active_rows_of in Ha. rewrite E, zsum_app in Ha.
  cbn [zsum] in Ha. assert (is_active r = true) as Hact by done. rewrite Hact in Ha.
  assert (∀ l : list Reservation, 0 <= zsum (λ r, if is_active r then 1 else 0) l) as Hn
    by (intros l; apply zsum_nonneg; intros r0 _; destruct (is_active r0); lia).
  pose proof (Hn l1). pose proof (Hn l2). lia.
Qed.

(** A pass keeps the books covered, marks no row that is not past its time, and
    leaves no row that is, or closes a hundred of them. *)
Lemma pass_progress t0 e d x :
  quiet_after t0 e → res_wf d → stock_fine x → books_cover d x →
  ∃ d' x', sweeper_pass e (d, x) = (d', x') ∧ res_wf d' ∧ stock_fine x' ∧ books_cover d' x' ∧
    ((∀ r, r ∈ reservations d → row_expired t0 r = false) → ∀ r, r ∈ reservations d' → row_expired t0 r = false) ∧
    ((∀ r, r ∈ reservations d' → row_expired t0 r = false) ∨ active_rows_of d' + 100 <= active_rows_of d).
Proof.
  intros (now & plan & shuffle & ctx & -> & Hle & Hplan & Hshuf) Hd Hx Hb. unfold sweeper_pass. cbn [fst snd].
  destruct (quiet_batch now plan shuffle ctx d x Hplan Hshuf Hd)
    as (batch & -> & Hbatch & Hids & Hlen & Hperm & Hnd & Hgroups).
  destruct (sweep_groups_cover now plan shuffle ctx (shuffle (groupByOrder batch)) d x)
    as (d' & x' & Hfold & Hd' & Hx' & Hb' & Hl').
  { split; try done.
    - intros r Hr. rewrite Hperm in Hr. destruct (Hbatch r Hr) as [? He]. split; [done|].
      unfold row_expired in He. by bprop.
    - by rewrite Hperm. }
  rewrite (mark_perm _ (r_ID <$> batch)) in Hl' by by apply fmap_Permutation.
  exists d', x'. do 4 (split; [done|]).
  assert (∀ r, r ∈ reservations d' → row_expired t0 r = true →
            r ∈ reservations d ∧ r_ID r ∉ r_ID <$> batch) as Hleft.
  { intros r Hr He. rewrite Hl' in Hr. apply list_elem_of_fmap in Hr as (r0 & -> & Hr0). unfold mark in *.
    destruct (bool_decide (r_ID r0 ∈ r_ID <$> batch)) eqn:Hm; [|by apply bool_decide_eq_false in Hm].
    unfold row_expired, is_active in He. cbn in He. by rewrite andb_false_r in He. }
  split.
  - intros Hnone r Hr. apply not_true_is_false. intros He. destruct (Hleft r Hr He) as [Hr0 _].
    by rewrite Hnone in He.
  - destruct (decide (length batch = 100%nat)) as [H100|Hless].
    + right. unfold active_rows_of. rewrite Hl', (sum_mark _ batch); [|done|apply Hd|by eapply NoDup_fmap_1|].
      * rewrite (count_active batch); [lia|]. apply Forall_forall. intros r Hr. destruct (Hbatch r Hr) as [_ He].
        unfold row_expired in He. by bprop.
      * intros r Hr. by apply Hbatch.
    + left. intros r Hr. apply not_true_is_false. intros He. destruct (Hleft r Hr He) as [Hr0 Hnot].
      apply Hnot, list_elem_of_fmap_2.
      assert (batch ≡ₚ filter (λ r, row_expired now r = true) (reservations d)) as Hall.
      { apply submseteq_length_Permutation; [|lia]. apply NoDup_submseteq; [by eapply NoDup_fmap_1|].
        intros r1 Hr1. apply list_elem_of_filter. destruct (Hbatch r1 Hr1). done. }
      rewrite Hall. apply list_elem_of_filter. split; [by eapply expired_later|done].
Qed.

(** ** Any number of passes *)

Definition drained (t0 : Z) (d : ResDB) : Prop := ∀ r, r ∈ reservations d → row_expired t0 r = false.

(** The state after [n] passes, from one with [a] active rows. *)
Record swept_by (t0 a : Z) (n : nat) (st : ResDB * X) : Prop := {
  sb_wf : res_wf st.1;
  sb_fine : stock_fine st.2;
  sb_cover : books_cover st.1 st.2;
  sb_progress : drained t0 st.1 ∨ active_rows_of st.1 + 100 * Z.of_nat n <= a;
}.

Lemma swept_start t0 d x : res_wf d → stock_fine x → books_cover d x → swept_by t0 (active_rows_of d) 0 (d, x).
Proof. intros Hd Hx Hb. split; [done|done|done|]. right. cbn. lia. Qed.

Lemma swept_pass t0 a n e st : quiet_after t0 e → swept_by t0 a n st → swept_by t0 a (S n) (sweeper_pass e st).
Proof.
  intros He [Hd Hx Hb Hp]. destruct st as [d x]. cbn [fst snd] in *.
  destruct (pass_progress t0 e d x He Hd Hx Hb) as (d1 & x1 & -> & Hd1 & Hx1 & Hb1 & Hkeep & Hprog).
  split; [done|done|done|]. cbn [fst]. destruct Hprog as [Hnone|Hless]; [by left|].
  destruct Hp as [Hp|Hp]; [left; exact (Hkeep Hp)|]. right. lia.
Qed.

(** A step that leaves the rows and the stock service alone. *)
Definition neutral (st st' : ResDB * X) : Prop :=
  reservations st'.1 = reservations st.1 ∧ res_next_uuid st'.1 = res_next_uuid st.1 ∧ st'.2 = st.2.

Lemma swept_neutral t0 a n st st' : neutral st st' → swept_by t0 a n st → swept_by t0 a n st'.
Proof.
  intros (Hr & Hn & Hx) [[W1 W2 W3] Hf Hb Hp]. split.
  - split; by rewrite ?Hr, ?Hn.
  - by rewrite Hx.
  - intros k. unfold held_at. rewrite Hr, Hx. apply Hb.
  - destruct Hp as [Hp|Hp]; [left|right].
    + intros r Hin. apply Hp. by rewrite <- Hr.
    + unfold active_rows_of in *. by rewrite Hr.
Qed.

(** As many passes as there are hundreds of active rows drain them. *)
Lemma swept_drained t0 a n st : swept_by t0 a n st → a <= 100 * Z.of_nat n → drained t0 st.1.
Proof. intros [_ _ _ [Hp|Hp]] Ha; [done|]. intros r. apply no_active_none. lia. Qed.

End SweepLoop.
