(* ===== verification/Shutdown.v ===== *)
(** * Draining the servers (pkg/closer/servers.go and the mains under cmd/)

    What the shutdown of a binary does to the requests that are in flight.  The
    clock starts with the drain window.  Closing a resource takes the time its
    Close takes; from then on a request that reaches for it fails. *)

From S2P Require Import Prelude GoStrings Database Closer.

(** ** The process *)

(** A request: when it arrives, the resources it reaches for and when, and when
    it is over. *)
Record Flight := mkFlight { fl_at : Z; fl_uses : list (string * Z); fl_until : Z }.

(** The process while it shuts down: the clock, when each resource was closed,
    when the server stopped accepting, and when it was torn down by force. *)
Record Proc := mkProc {
  po_clock : Z;
  po_closed : gmap string Z;
  po_stopped : option Z;
  po_cut : option Z;
}.

Definition running : Proc := mkProc 0 ∅ None None.

(** [pool.Close()], [conn.Close()], [stopObs()]: how long they take is an
    argument. *)
Definition close_resources (takes : string → Z) (rs : list string) : CleanupFunc (W := Proc) := λ p,
  (foldl (λ p r, mkProc (po_clock p + takes r) (<[r := po_clock p]> (po_closed p)) (po_stopped p) (po_cut p)) p rs, None).

(** ** pkg/closer/servers.go *)

Definition http_ErrServerClosed : go_error := ErrNew "http: Server closed".

(** The instant at which the last of the requests accepted before [t] is over. *)
Definition last_flight (fs : list Flight) (t : Z) : Z :=
  foldr (λ f acc, if fl_at f <? t then Z.max (fl_until f) acc else acc) t fs.

(** GracefulStop and Shutdown stop accepting at once and wait for the accepted
    requests; the drain window ends the wait, and Stop or Close tears the server
    down. *)
Definition graceful (what : string) (window : Z) (fs : list Flight) : CleanupFunc (W := Proc) := λ p,
  let t := po_clock p in
  let ends := last_flight fs t in
  if ends <? window then (mkProc ends (po_closed p) (Some t) (po_cut p), None)
  else (mkProc (Z.max t window) (po_closed p) (Some t) (Some (Z.max t window)),
        Some (ErrWrap what (ErrStatus DeadlineExceeded "context deadline exceeded"))).

Definition DeferGRPC (window : Z) (fs : list Flight) : CleanupFunc := graceful "grpc drain exceeded window" window fs.

Definition DeferHTTP (window : Z) (fs : list Flight) : CleanupFunc := graceful "http drain exceeded window" window fs.

(** errors.Join: here only whether there is an error matters. *)
Definition errors_Join (a b : option go_error) : option go_error :=
  match a with Some e => Some e | None => b end.

Definition Drain (stop : CleanupFunc (W := Proc)) (run : option go_error) : CleanupFunc := λ p,
  let '(p, stopErr) := stop p in
  let runErr := match run with
                | Some e => if errors_Is e http_ErrServerClosed then None else run
                | None => None
                end in
  (p, errors_Join stopErr runErr).

(** ** The mains *)

Inductive binary := BStock | BReservation | BOrder | BGateway.

(** What each registers with Defer, in order. *)
Definition stock_closes : list (list string) := [["obs"]; ["sweeperPool"]; ["pool"]].

Definition reservation_closes : list (list string) := [["obs"]; ["sweeperPool"]; ["pool"]; ["conn"]].

Definition order_closes : list (list string) := [["obs"]; ["sweeperPool"]; ["pool"]; ["stockConn"; "resConn"]].

Definition gateway_closes : list (list string) := [["obs"]; ["orderConn"; "resConn"; "stockConn"]].

Definition boot_closes (b : binary) : list (list string) :=
  match b with
  | BStock => stock_closes
  | BReservation => reservation_closes
  | BOrder => order_closes
  | BGateway => gateway_closes
  end.

(** The server's stop, and the error of its serve loop. *)
Definition server_drain (b : binary) (window : Z) (fs : list Flight) (serveErr : option go_error) : CleanupFunc :=
  Drain (match b with BGateway => DeferHTTP window fs | _ => DeferGRPC window fs end) serveErr.

(** The registrations of a main that adds the server's drain with [reg]. *)
Definition boot_with (reg : CleanupFunc → registration) (b : binary) (takes : string → Z) (window : Z) (fs : list Flight)
    (serveErr : option go_error) : list registration :=
  (RegDefer ∘ close_resources takes <$> boot_closes b) ++ [reg (server_drain b window fs serveErr)].

(** ** Outcomes *)

Inductive outcome := Refused | Completed | Failed | CutOff.

Definition flight_outcome (p : Proc) (f : Flight) : outcome :=
  if match po_stopped p with Some t => t <=? fl_at f | None => false end then Refused
  else if negb (forallb (λ u, match po_closed p !! u.1 with Some t => u.2 <? t | None => true end) (fl_uses f)) then Failed
  else if match po_cut p with Some t => t <? fl_until f | None => false end then CutOff
  else Completed.

(** The process that is left when a main with these registrations gets the
    signal, and its exit code. *)
Definition shut_down (window : Z) (rs : list registration) : option (Proc * Z) :=
  '(_, p, code) ← Wait (closer_signal (foldl register (newCloser window) rs)) running; Some (p, code).

(** ** Lemmas *)

Section Facts.
Context (takes : string → Z) (Htakes : ∀ r, 0 <= takes r).

(** Time passes, what is closed stays closed, and the server goes on. *)
Record later (p p' : Proc) : Prop := {
  lt_clock : po_clock p <= po_clock p';
  lt_closed r t : po_closed p !! r = Some t → ∃ t', po_closed p' !! r = Some t' ∧ t' <= po_clock p';
  lt_new r t : po_closed p' !! r = Some t → po_closed p !! r = Some t ∨ po_clock p <= t;
  lt_stopped : po_stopped p' = po_stopped p;
  lt_cut : po_cut p' = po_cut p;
}.

Definition in_past (p : Proc) : Prop := ∀ r t, po_closed p !! r = Some t → t <= po_clock p.

Lemma close_one p r :
  in_past p →
  let p' := mkProc (po_clock p + takes r) (<[r := po_clock p]> (po_closed p)) (po_stopped p) (po_cut p) in
  in_past p' ∧ later p p' ∧ is_Some (po_closed p' !! r).
Proof.
  intros Hp p'. assert (in_past p') as Hp'.
  { intros q t. unfold p'. cbn. specialize (Htakes r). rewrite lookup_insert_Some.
    intros [[_ <-]|[_ Ht]]; [lia|]. specialize (Hp q t Ht). lia. }
  split; [done|]. split; [|unfold p'; cbn; rewrite lookup_insert_eq; by eexists].
  specialize (Htakes r). split; unfold p' in *; cbn in *; [lia| | |done|done]; intros q t Hq;
    [|apply lookup_insert_Some in Hq as [[_ <-]|[_ Hq]]; [by right|by left]].
  destruct (<[r:=po_clock p]> (po_closed p) !! q) as [t'|] eqn:E; [exists t'; split; [done|]; by apply (Hp' q)|].
  apply lookup_insert_None in E as [E _]. congruence.
Qed.

Lemma later_refl p : in_past p → later p p.
Proof. intros Hp. split; [lia| |auto|done|done]. intros r t Hr. exists t. split; [done|by apply (Hp r)]. Qed.

Lemma later_trans p1 p2 p3 : later p1 p2 → later p2 p3 → later p1 p3.
Proof.
  intros [A1 A2 A3 A4 A5] [B1 B2 B3 B4 B5]. split; [lia| | |congruence|congruence]; intros r t Hr.
  - apply A2 in Hr as (t' & Hr & _). by apply B2 in Hr.
  - apply B3 in Hr as [Hr|Hr]; [by apply A3|right; lia].
Qed.

Lemma close_many rs : ∀ p, in_past p →
  let p' := (close_resources takes rs p).1 in
  in_past p' ∧ later p p' ∧ ∀ r, r ∈ rs → ∃ t, po_closed p' !! r = Some t ∧ t <= po_clock p'.
Proof.
  induction rs as [|r rs IH]; intros p Hp; cbn zeta.
  { split; [done|]. split; [by apply later_refl|]. by intros r ?%elem_of_nil. }
  destruct (close_one p r Hp) as (Hp1 & H1 & [t Hr]). cbn zeta in *.
  set (p1 := mkProc _ _ _ _) in *. destruct (IH p1 Hp1) as (Hp2 & H2 & Hrs). cbn zeta in *.
  change (close_resources takes (r :: rs) p).1 with (close_resources takes rs p1).1.
  split; [done|]. split; [by eapply later_trans|]. intros q [-> |Hq]%elem_of_cons; [|by apply Hrs].
  by apply (lt_closed _ _ H2 _ t).
Qed.

Lemma close_groups gs : ∀ p, in_past p →
  let p' := cleanup_world (close_resources takes <$> gs) p in
  in_past p' ∧ later p p' ∧ ∀ r, r ∈ mjoin gs → ∃ t, po_closed p' !! r = Some t ∧ t <= po_clock p'.
Proof.
  induction gs as [|g gs IH]; intros p Hp; cbn zeta.
  { split; [done|]. split; [by apply later_refl|]. by intros r ?%elem_of_nil. }
  destruct (close_many g p Hp) as (Hp1 & H1 & Hg). destruct (IH _ Hp1) as (Hp2 & H2 & Hgs). cbn zeta in *.
  change (cleanup_world (close_resources takes <$> g :: gs) p)
    with (cleanup_world (close_resources takes <$> gs) (close_resources takes g p).1).
  split; [done|]. split; [by eapply later_trans|]. change (mjoin (g :: gs)) with (g ++ mjoin gs). intros r [Hr|Hr]%elem_of_app; [|by apply Hgs].
  destruct (Hg r Hr) as (t & Ht & _). by apply (lt_closed _ _ H2 _ t).
Qed.

Lemma close_groups_errors gs : ∀ p, cleanup_errors (close_resources takes <$> gs) p = [].
Proof. induction gs as [|g gs IH]; intros p; [done|]. rewrite fmap_cons. cbn [cleanup_errors]. apply IH. Qed.

End Facts.

(** The end of the wait is not before its start, nor before any accepted
    request is over. *)
Lemma last_flight_spec fs t :
  t <= last_flight fs t ∧ ∀ f, f ∈ fs → fl_at f < t → fl_until f <= last_flight fs t.
Proof.
  induction fs as [|g fs [IH1 IH2]]; cbn [last_flight foldr].
  { split; [lia|]. by intros f ?%elem_of_nil. }
  fold (last_flight fs t).
  split; [case_match; lia|]. intros f [-> |Hf]%elem_of_cons Hat.
  - rewrite (proj2 (Z.ltb_lt _ _)) by done. lia.
  - specialize (IH2 f Hf Hat). case_match; lia.
Qed.

(** The drain of a server at [p]. *)
Lemma server_drain_spec b window fs serveErr p :
  let fine := match serveErr with Some e => errors_Is e http_ErrServerClosed | None => true end in
  let r := server_drain b window fs serveErr p in
  po_stopped r.1 = Some (po_clock p) ∧ po_closed r.1 = po_closed p ∧ po_clock p <= po_clock r.1 ∧
  (r.2 = None ↔ last_flight fs (po_clock p) < window ∧ fine = true) ∧
  (last_flight fs (po_clock p) < window → po_cut r.1 = po_cut p ∧ po_clock r.1 = last_flight fs (po_clock p)).
Proof.
  cbn zeta. assert (server_drain b window fs serveErr p =
    Drain (graceful match b with BGateway => "http drain exceeded window" | _ => "grpc drain exceeded window" end window fs)
      serveErr p) as -> by by destruct b.
  unfold Drain, graceful. pose proof (proj1 (last_flight_spec fs (po_clock p))).
  destruct (Z.ltb_spec (last_flight fs (po_clock p)) window) as [Hlt|Hge]; cbn.
  - repeat (split; [done|]). split; [|done]. destruct serveErr as [e|]; [|done]. destruct (errors_Is _ _); naive_solver.
  - repeat (split; [done|]). split; [lia|]. split; [|lia]. split; [done|lia].
Qed.

(** The order of the mains, and the other one. *)
Lemma shut_down_run window rs :
  shut_down window rs =
  (let order := reverse (deferred rs) ++ deferred_first rs in
   Some (cleanup_world order running, match cleanup_errors order running with [] => 0 | _ => 1 end)).
Proof. unfold shut_down. destruct (wait_runs window rs running) as (c' & -> & _). done. Qed.

Lemma deferred_closes takes gs : deferred (RegDefer ∘ close_resources takes <$> gs) = close_resources takes <$> gs.
Proof. induction gs as [|g gs IH]; [done|]. rewrite !fmap_cons. cbn. by f_equal. Qed.

Lemma deferred_first_closes takes gs : deferred_first (RegDefer ∘ close_resources takes <$> gs) = [].
Proof. by induction gs as [|g gs IH]. Qed.

Lemma cleanup_world_app {W} (fs gs : list (CleanupFunc (W := W))) w :
  cleanup_world (fs ++ gs) w = cleanup_world gs (cleanup_world fs w).
Proof. unfold cleanup_world. by rewrite foldl_app. Qed.

Lemma cleanup_errors_app {W} (fs gs : list (CleanupFunc (W := W))) : ∀ w,
  cleanup_errors (fs ++ gs) w = cleanup_errors fs w ++ cleanup_errors gs (cleanup_world fs w).
Proof.
  induction fs as [|f fs IH]; intros w; [done|]. cbn [app cleanup_errors]. by rewrite IH, <- app_assoc.
Qed.

Lemma boot_order reg b takes window fs serveErr :
  let drain := server_drain b window fs serveErr in
  let closes := close_resources takes <$> reverse (boot_closes b) in
  (reg = RegDeferFirst →
     reverse (deferred (boot_with reg b takes window fs serveErr)) ++ deferred_first (boot_with reg b takes window fs serveErr) =
     closes ++ [drain]) ∧
  (reg = RegDefer →
     reverse (deferred (boot_with reg b takes window fs serveErr)) ++ deferred_first (boot_with reg b takes window fs serveErr) =
     drain :: closes).
Proof.
  cbn zeta. unfold boot_with, deferred, deferred_first. rewrite !omap_app.
  fold (deferred (RegDefer ∘ close_resources takes <$> boot_closes b)).
  fold (deferred_first (RegDefer ∘ close_resources takes <$> boot_closes b)).
  rewrite deferred_closes, deferred_first_closes, fmap_reverse. split; intros ->; cbn.
  - by rewrite app_nil_r.
  - by rewrite reverse_app, app_nil_r.
Qed.

(** The instants at which a request reached for its resources, against when they
    were closed. *)
Lemma completed_iff p f t :
  po_stopped p = Some t → fl_at f < t → po_cut p = None →
  flight_outcome p f = Completed ↔ ∀ r u tc, (r, u) ∈ fl_uses f → po_closed p !! r = Some tc → u < tc.
Proof.
  intros Hs Hat Hc. unfold flight_outcome. rewrite Hs, Hc, (proj2 (Z.leb_gt _ _)) by done.
  destruct (forallb _ (fl_uses f)) eqn:Hall; cbn [negb].
  - split; [|done]. intros _ r u tc Hin Htc. rewrite forallb_forall in Hall.
    specialize (Hall (r, u) (proj1 (list_elem_of_In _ _) Hin)). cbn in Hall. rewrite Htc in Hall. by apply Z.ltb_lt.
  - split; [done|]. intros Huses. apply not_true_iff_false in Hall. destruct Hall. apply forallb_forall.
    intros [r u] Hin%list_elem_of_In. cbn. destruct (po_closed p !! r) as [tc|] eqn:Htc; [|done].
    apply Z.ltb_lt. by apply (Huses r u tc).
Qed.

(** ** Theorem *)

(** The shutdown of a main. *)
Definition main_shutdown (reg : CleanupFunc → registration) (b : binary) (takes : string → Z) (window : Z)
    (fs : list Flight) (serveErr : option go_error) : option (Proc * Z) :=
  shut_down window (boot_with reg b takes (drain (W := Proc) (newCloser window)) fs serveErr).

