(* ===== verification/Readiness.v ===== *)
(** * Readiness (pkg/closer/readiness.go, and the probes of
    pkg/observability/observability.go)

    The dependency checks and their aggregation.  The checks of a probe run in
    goroutines and report under a mutex; [sched] is the order in which they get
    it.  What pings, dials and calls answer at the instant of the probe is the
    argument [Net]. *)

From S2P Require Import Prelude GoStrings Database.

(** ** Checks *)

Inductive health := SERVING | NOT_SERVING | UNKNOWN | SERVICE_UNKNOWN.

#[export] Instance health_eq_dec : EqDecision health.
Proof. solve_decision. Defined.

(** pool.Ping, a TCP dial, and the health rpc by connection; the errors include
    the timeouts of the probes. *)
Record Net := mkNet {
  nt_ping : string → option go_error;
  nt_dial : string → option go_error;
  nt_health : string → res health;
}.

Definition Check : Type := Net → option go_error.

Definition Ping (pool : string) : Check := λ n, nt_ping n pool.

Definition TCPDial (addr : string) : Check := λ n, nt_dial n addr.

Definition GRPCHealth (conn : string) : Check := λ n,
  match nt_health n conn with
  | Err e => Some e
  | Ok s => if bool_decide (s = SERVING) then None else Some (ErrNew "health status")
  end.

Definition GRPCReach (conn : string) : Check := λ n,
  match nt_health n conn with
  | Ok _ => None
  | Err e => if bool_decide (status_Code e = Unimplemented) then None else Some e
  end.

(** ** Aggregation *)

Section Readiness.
Context `{ErrorText}.

(** A goroutine that has the mutex. *)
Definition report (n : Net) (firstEr : string) (c : string * Check) : string :=
  match c.2 n with
  | None => firstEr
  | Some e => if bool_decide (firstEr = "") then c.1 +:+ ": " +:+ error_text e else firstEr
  end.

Definition Readiness (checks : gmap string Check) (sched : list (string * Check) → list (string * Check)) (n : Net)
  : option go_error :=
  let firstEr := foldl (report n) "" (sched (map_to_list checks)) in
  if bool_decide (firstEr = "") then None else Some (ErrNew firstEr).

(** ** The probes *)

(** The readiness registry of the providers; the metrics are modelled apart. *)
Record Providers := mkProviders { pv_readiness : gmap string Check; degraded : bool }.

Definition newProviders : Providers := mkProviders ∅ false.

Definition RegisterReadiness (name : string) (check : Check) (p : Providers) : Providers :=
  mkProviders (<[name := check]> (pv_readiness p)) (degraded p).

Definition SetDegraded (d : bool) (p : Providers) : Providers := mkProviders (pv_readiness p) d.

Definition readyError (p : Providers) (sched : list (string * Check) → list (string * Check)) (n : Net)
  : option go_error :=
  if degraded p then Some (ErrNew "degraded: planned maintenance (SetDegraded)")
  else Readiness (pv_readiness p) sched n.

(** Status and body. *)
Definition LiveHandler : Z * string := (200, "live").

Definition ReadyHandler (p : Providers) (sched : list (string * Check) → list (string * Check)) (n : Net) : Z * string :=
  match readyError p sched n with
  | Some e => (503, "not ready: " +:+ error_text e)
  | None => (200, "ready")
  end.

(** ** Histories of the registry *)

Inductive probe_op := OpRegister (name : string) (check : Check) | OpDegraded (d : bool).

Definition probe_op_run (p : Providers) (o : probe_op) : Providers :=
  match o with OpRegister name check => RegisterReadiness name check p | OpDegraded d => SetDegraded d p end.

(** The check that a name has after [os]: the last one registered. *)
Definition registered (os : list probe_op) (name : string) : option Check :=
  foldl (λ acc o, match o with OpRegister n c => if bool_decide (n = name) then Some c else acc | _ => acc end) None os.

Definition last_degraded (os : list probe_op) : bool :=
  foldl (λ acc o, match o with OpDegraded d => d | _ => acc end) false os.

(** ** Lemmas *)

Lemma report_nonempty n (c : string * Check) e first : c.2 n = Some e → report n first c ≠ "".
Proof.
  unfold report. intros ->. destruct (bool_decide (first = "")) eqn:Hf; [|by apply bool_decide_eq_false in Hf].
  destruct c as [name check]. cbn. by destruct name.
Qed.

(** The goroutines leave the message of one that failed, or none. *)
Lemma report_all n (cs : list (string * Check)) : ∀ first,
  (first ≠ "" → foldl (report n) first cs = first) ∧
  (first = "" →
     (foldl (report n) first cs = "" ∧ ∀ c, c ∈ cs → c.2 n = None) ∨
     (∃ c e, c ∈ cs ∧ c.2 n = Some e ∧ foldl (report n) first cs = c.1 +:+ ": " +:+ error_text e)).
Proof.
  induction cs as [|c cs IH]; intros first; cbn [foldl].
  { split; [done|]. intros ->. left. split; [done|]. by intros c ?%elem_of_nil. }
  split.
  - intros Hf. assert (report n first c = first) as ->; [|by apply IH].
    unfold report. destruct (c.2 n); [|done]. by rewrite bool_decide_false.
  - intros ->. destruct (c.2 n) as [e|] eqn:Hc.
    + right. exists c, e. split; [apply list_elem_of_here|]. split; [done|].
      rewrite (proj1 (IH _) (report_nonempty n c e "" Hc)). unfold report. by rewrite Hc.
    + assert (report n "" c = "") as -> by (unfold report; by rewrite Hc).
      destruct (proj2 (IH "") eq_refl) as [[-> Hall]|(c' & e & Hin & He & ->)].
      * left. split; [done|]. intros c' [-> |Hc']%elem_of_cons; [done|by apply Hall].
      * right. exists c', e. split; [by apply list_elem_of_further|done].
Qed.

Lemma registry os : ∀ name,
  pv_readiness (foldl probe_op_run newProviders os) !! name = registered os name.
Proof.
  unfold registered. induction os as [|o os IH] using rev_ind; intros name; [done|]. rewrite !foldl_app. cbn [foldl].
  destruct o as [nm c|d]; cbn [probe_op_run RegisterReadiness SetDegraded pv_readiness]; [|done].
  destruct (decide (nm = name)) as [->|Hne].
  - by rewrite lookup_insert_eq, bool_decide_true.
  - by rewrite lookup_insert_ne, bool_decide_false.
Qed.

Lemma registry_degraded os : degraded (foldl probe_op_run newProviders os) = last_degraded os.
Proof.
  unfold last_degraded. induction os as [|o os IH] using rev_ind; [done|]. rewrite !foldl_app. cbn [foldl].
  by destruct o.
Qed.

(** ** Theorem *)

(** C31. The readiness probe: after any history of registrations and of flips of
    the maintenance lever, in whatever order the goroutines of the checks report,
    the probe answers 200 exactly when the lever is off and the last check
    registered under every name passes; otherwise it answers 503, and blames the
    lever if that is on and else a check that really failed.  Liveness answers
    200 whatever the dependencies do. *)
Theorem ready_exactly os sched n :
  (∀ l, sched l ≡ₚ l) →
  let p := foldl probe_op_run newProviders os in
  let r := ReadyHandler p sched n in
  (r = (200, "ready") ↔ last_degraded os = false ∧ ∀ name c, registered os name = Some c → c n = None) ∧
  (r = (200, "ready") ∨
   ∃ e, r = (503, "not ready: " +:+ error_text e) ∧
     if last_degraded os then e = ErrNew "degraded: planned maintenance (SetDegraded)"
     else ∃ name c e', registered os name = Some c ∧ c n = Some e' ∧ e = ErrNew (name +:+ ": " +:+ error_text e')) ∧
  LiveHandler.1 = 200.
Proof.
  intros Hs p r. assert (degraded p = last_degraded os) as Hd by apply registry_degraded.
  unfold r, ReadyHandler, readyError, Readiness. rewrite Hd.
  destruct (last_degraded os); [split; [split; [done|by intros [? _]]|]; split; [right; by eexists (ErrNew _)|done]|].
  destruct (proj2 (report_all n (sched (map_to_list (pv_readiness p))) "") eq_refl)
    as [[-> Hall]|([name c] & e & Hin & He & ->)].
  - split; [|by split; [left|]]. split; [|done]. intros _. split; [done|]. intros name c Hc.
    apply (Hall (name, c)). rewrite Hs. apply elem_of_map_to_list. unfold p. by rewrite registry.
  - rewrite Hs in Hin. apply elem_of_map_to_list in Hin. unfold p in Hin. rewrite registry in Hin. cbn [fst snd] in *.
    rewrite bool_decide_false by (by destruct name). split; [|split; [right|done]].
    + split; [done|]. intros [_ Hall]. specialize (Hall name c Hin). congruence.
    + eexists. split; [done|]. by exists name, c, e.
Qed.

End Readiness.
