(* ===== verification/Payment.v ===== *)
(** * The sandbox payment gateway (pkg/payment/payment.go) *)

From S2P Require Import Prelude GoStrings Database.

Record ChargeRequest := mkChargeRequest {
  cr_OrderID : string;
  cr_TenantID : string;
  cr_Amount : Z;
  cr_Currency : string;
  cr_IdemKey : string;
  cr_ForceFail : bool;
}.

Record ChargeResult := mkChargeResult {
  TransactionID : string;
  AuthorizedAt : Z;
}.

(** [fail_orders] is the value of TAPER_SANDBOX_FAIL_ORDERS. *)
Definition sandboxFailListed (fail_orders orderID : string) : bool :=
  if bool_decide (fail_orders = "") then false
  else existsb (λ id, bool_decide (id = orderID)) (split_on ","%char fail_orders "").

(** [uid] is what uuid.NewString draws, [now] what time.Now reads. *)
Definition Charge (fail_orders uid : string) (now : Z) (req : ChargeRequest) : res ChargeResult :=
  if cr_Amount req <=? 0 then Err (ErrWrap "amount must be positive" ErrPaymentDeclined)
  else if cr_ForceFail req || sandboxFailListed fail_orders (cr_OrderID req)
  then Err (ErrWrap "order" ErrPaymentDeclined)
  else Ok (mkChargeResult ("sbx_" +:+ uid) now).

(** ** Lemmas *)

(** The sandbox only ever declines: it has no infrastructure errors. *)
Lemma charge_error fail_orders uid now req e :
  Charge fail_orders uid now req = Err e → errors_Is e ErrPaymentDeclined = true.
Proof. unfold Charge. repeat case_match; intros [= <-]; reflexivity. Qed.

Lemma charge_ok fail_orders uid now req r :
  Charge fail_orders uid now req = Ok r →
  0 < cr_Amount req ∧ cr_ForceFail req = false ∧
  sandboxFailListed fail_orders (cr_OrderID req) = false ∧ TransactionID r = "sbx_" +:+ uid.
Proof.
  unfold Charge. repeat case_match; intros [= <-]; try done. bprop. auto.
Qed.
