(* ===== verification/OrderDb.v ===== *)
(** * The order service's database (db/migrations/order, gen/go/db/order)

    [orders] and [saga_instances] are unique by (tenant_id, order_id), the key
    of the finite maps here; [order_lines] is a list with its UNIQUE constraint
    tested on insert.  Queries that name a row by order_id alone see, under
    row-level security, the row of the session's tenant. *)

From S2P Require Import Prelude Database Payment.

(** ** Rows *)

Record Order := mkOrder {
  o_ID : uuid;
  o_Status : string;
  o_TotalAmount : Z;
  o_Currency : string;
  o_TransactionID : string;
  o_CreatedAt : Z;
  o_UpdatedAt : Z;
}.

Record OrderLineRow := mkOrderLineRow {
  ol_ID : uuid;
  ol_TenantID : uuid;
  ol_OrderID : string;
  ol_SkuID : string;
  ol_WarehouseID : string;
  ol_Quantity : Z;
  ol_UnitPrice : Z;
  ol_CreatedAt : Z;
}.

Record SagaInstance := mkSagaInstance {
  sg_ID : uuid;
  sg_State : string;
  sg_Step : Z;
  sg_IdempotencyKey : string;
  sg_Error : string;
  sg_CreatedAt : Z;
  sg_UpdatedAt : Z;
}.

Abbreviation okey := (uuid * string)%type.

Record OrderDB := mkOrderDB {
  orders : gmap okey Order;
  order_lines : list OrderLineRow;
  sagas : gmap okey SagaInstance;
  ord_outbox : list OutboxRow;
  ord_idem : gmap (uuid * string) IdemRow;
  ord_next_uuid : uuid;
}.

Definition set_orders (m : gmap okey Order) (d : OrderDB) : OrderDB :=
  mkOrderDB m (order_lines d) (sagas d) (ord_outbox d) (ord_idem d) (ord_next_uuid d).
Definition set_order_lines (l : list OrderLineRow) (d : OrderDB) : OrderDB :=
  mkOrderDB (orders d) l (sagas d) (ord_outbox d) (ord_idem d) (ord_next_uuid d).
Definition set_sagas (m : gmap okey SagaInstance) (d : OrderDB) : OrderDB :=
  mkOrderDB (orders d) (order_lines d) m (ord_outbox d) (ord_idem d) (ord_next_uuid d).

#[export] Instance order_store : PgStore OrderDB := {|
  idem := ord_idem;
  set_idem m d :=
    mkOrderDB (orders d) (order_lines d) (sagas d) (ord_outbox d) m (ord_next_uuid d);
  outbox := ord_outbox;
  set_outbox l d :=
    mkOrderDB (orders d) (order_lines d) (sagas d) l (ord_idem d) (ord_next_uuid d);
  next_uuid := ord_next_uuid;
  set_next_uuid n d :=
    mkOrderDB (orders d) (order_lines d) (sagas d) (ord_outbox d) (ord_idem d) n;
|}.

(** domain.go *)
Definition SagaPendingPayment : string := "PENDING_PAYMENT".
Definition SagaReserved : string := "RESERVED".
Definition SagaAllocated : string := "ALLOCATED".
Definition SagaConfirmed : string := "CONFIRMED".
Definition SagaCompensated : string := "COMPENSATED".
Definition SagaFailed : string := "FAILED".

Definition OrderPending : string := "PENDING".
Definition OrderConfirmed : string := "CONFIRMED".
Definition OrderFulfilled : string := "FULFILLED".
Definition OrderCompensated : string := "COMPENSATED".
Definition OrderFailed : string := "FAILED".

(** ** Constraints of migration 000003 *)

Definition order_status_ok (s : string) : bool :=
  bool_decide (s ∈ [OrderPending; OrderConfirmed; OrderFulfilled; OrderCompensated; OrderFailed]).

Definition saga_state_ok (s : string) : bool :=
  bool_decide (s ∈ [SagaPendingPayment; SagaReserved; SagaAllocated; SagaConfirmed;
                    SagaCompensated; SagaFailed]).

Definition check_order (status : string) (total : Z) : res unit :=
  if negb (order_status_ok status) then Err (ErrCheckViolation "orders_status_in_enum")
  else if total <? 0 then Err (ErrCheckViolation "orders_total_amount_nonneg")
  else Ok ().

Definition check_line (quantity price : Z) : res unit :=
  if quantity <=? 0 then Err (ErrCheckViolation "order_lines_quantity_positive")
  else if price <? 0 then Err (ErrCheckViolation "order_lines_unit_price_nonneg")
  else Ok ().

(** ** Queries *)

(** The row of an order_id that the session sees. *)
Definition row_of {R} (s : Session) (m : gmap okey R) (orderID : string) : option R :=
  match s_rls s with
  | RlsTenant (Some t) => m !! (t, orderID)
  | RlsTenant None => None
  | RlsBypass =>
      snd <$> head (filter (λ row : okey * R, row.1.2 = orderID) (map_to_list m))
  end.

(** UPDATE ... WHERE order_id = $1 on the rows the session sees. *)
Definition update_rows {R} (s : Session) (f : R → R) (orderID : string) (m : gmap okey R)
  : gmap okey R :=
  match s_rls s with
  | RlsTenant (Some t) => alter f (t, orderID) m
  | RlsTenant None => m
  | RlsBypass => map_imap (λ k row, Some (if bool_decide (k.2 = orderID) then f row else row)) m
  end.

(** INSERT ... ON CONFLICT (tenant_id, order_id) DO NOTHING RETURNING: no row
    comes back on a conflict. *)
Definition UpsertOrder (tenant : uuid) (orderID status : string) (total : Z) (currency : string)
  : Q OrderDB Order :=
  uid ← gen_random_uuid;
  (λ s d,
    if negb (visible s tenant) then Err ErrRowSecurity
    else match check_order status total with
         | Err e => Err e
         | Ok _ =>
             match orders d !! (tenant, orderID) with
             | Some _ => Err ErrNoRows
             | None =>
                 let row := mkOrder uid status total currency "" (s_now s) (s_now s) in
                 Ok (set_orders (<[(tenant, orderID) := row]> (orders d)) d, row)
             end
         end) : Q OrderDB Order.

Definition GetOrderById (orderID : string) : Q OrderDB Order := λ s d,
  match row_of s (orders d) orderID with
  | Some o => Ok (d, o)
  | None => Err ErrNoRows
  end.

Definition with_status (now : Z) (status txn : string) (o : Order) : Order :=
  mkOrder (o_ID o) status (o_TotalAmount o) (o_Currency o) txn (o_CreatedAt o) now.

Definition UpdateOrderStatus (orderID status txn : string) : Q OrderDB Order := λ s d,
  match row_of s (orders d) orderID with
  | None => Err ErrNoRows
  | Some o =>
      match check_order status (o_TotalAmount o) with
      | Err e => Err e
      | Ok _ =>
          Ok (set_orders (update_rows s (with_status (s_now s) status txn) orderID (orders d)) d,
              with_status (s_now s) status txn o)
      end
  end.

Definition InsertOrderLine (tenant : uuid) (orderID sku wh : string) (quantity price : Z)
  : Q OrderDB OrderLineRow :=
  uid ← gen_random_uuid;
  (λ s d,
    if negb (visible s tenant) then Err ErrRowSecurity
    else match check_line quantity price with
         | Err e => Err e
         | Ok _ =>
             if existsb (λ l, bool_decide ((ol_TenantID l, ol_OrderID l, ol_SkuID l, ol_WarehouseID l)
                                           = (tenant, orderID, sku, wh))) (order_lines d)
             then Err (ErrUniqueViolation "order_lines_tenant_id_order_id_sku_id_warehouse_id_key")
             else
               let row := mkOrderLineRow uid tenant orderID sku wh quantity price (s_now s) in
               Ok (set_order_lines (order_lines d ++ [row]) d, row)
         end) : Q OrderDB OrderLineRow.

(** ORDER BY sku_id, warehouse_id *)
Definition ol_le (l1 l2 : OrderLineRow) : Prop :=
  if bool_decide (ol_SkuID l1 = ol_SkuID l2) then String.le (ol_WarehouseID l1) (ol_WarehouseID l2)
  else String.le (ol_SkuID l1) (ol_SkuID l2).

#[export] Instance ol_le_dec : RelDecision ol_le.
Proof. intros l1 l2. unfold ol_le. destruct (bool_decide _); apply _. Defined.

Definition GetOrderLines (orderID : string) : Q OrderDB (list OrderLineRow) := λ s d,
  Ok (d, merge_sort ol_le
           (filter (λ l, visible s (ol_TenantID l) = true ∧ ol_OrderID l = orderID) (order_lines d))).

Definition UpsertSagaInstance (tenant : uuid) (orderID st : string) (step : Z) (key : string)
  : Q OrderDB SagaInstance :=
  uid ← gen_random_uuid;
  (λ s d,
    if negb (visible s tenant) then Err ErrRowSecurity
    else if negb (saga_state_ok st) then Err (ErrCheckViolation "saga_instances_state_in_enum")
    else match sagas d !! (tenant, orderID) with
         | Some _ => Err ErrNoRows
         | None =>
             let row := mkSagaInstance uid st step key "" (s_now s) (s_now s) in
             Ok (set_sagas (<[(tenant, orderID) := row]> (sagas d)) d, row)
         end) : Q OrderDB SagaInstance.

Definition GetSagaInstance (orderID : string) : Q OrderDB SagaInstance := λ s d,
  match row_of s (sagas d) orderID with
  | Some g => Ok (d, g)
  | None => Err ErrNoRows
  end.

Definition with_state (now : Z) (st : string) (step : Z) (err : string) (g : SagaInstance)
  : SagaInstance :=
  mkSagaInstance (sg_ID g) st step (sg_IdempotencyKey g) err (sg_CreatedAt g) now.

Definition UpdateSagaState (orderID st : string) (step : Z) (err : string) : Q OrderDB SagaInstance :=
  λ s d,
  match row_of s (sagas d) orderID with
  | None => Err ErrNoRows
  | Some g =>
      if negb (saga_state_ok st) then Err (ErrCheckViolation "saga_instances_state_in_enum")
      else Ok (set_sagas (update_rows s (with_state (s_now s) st step err) orderID (sagas d)) d,
               with_state (s_now s) st step err g)
  end.

(** WHERE state IN ('PENDING_PAYMENT', 'RESERVED') ORDER BY created_at LIMIT $1
    FOR UPDATE SKIP LOCKED *)
Definition resumable (g : SagaInstance) : bool :=
  bool_decide (sg_State g = SagaPendingPayment) || bool_decide (sg_State g = SagaReserved).

Definition created_le (a b : okey * SagaInstance) : Prop := sg_CreatedAt a.2 <= sg_CreatedAt b.2.

#[export] Instance created_le_dec : RelDecision created_le.
Proof. intros a b. unfold created_le. apply _. Defined.

Definition GetResumableSagas (locked : uuid → bool) (limit : Z) : Q OrderDB (list (okey * SagaInstance)) :=
  λ s d,
  Ok (d, take (Z.to_nat limit)
           (merge_sort created_le
              (filter (λ row, visible s row.1.1 = true ∧ resumable row.2 = true ∧
                              locked (sg_ID row.2) = false) (map_to_list (sagas d))))).

Definition GetIdempotencyKey (tenant : uuid) (key : string) : Q OrderDB string := λ s d,
  if negb (visible s tenant) then Err ErrNoRows
  else match ord_idem d !! (tenant, key) with
       | Some row => Ok (d, idem_hash row)
       | None => Err ErrNoRows
       end.

Definition CheckAndInsertIdempotencyKey (tenant : uuid) (key hash : string) : Q OrderDB string :=
  idem_insert tenant key hash.

Definition InsertOutboxEvent (p : OutboxParams) : Q OrderDB OutboxRow := outbox_insert p.
