(* ===== verification/OrderService.v ===== *)
(** * The order saga (internal/orderservice/server.go, helpers.go)

    The handlers of order.v1.OrderService and the resumption of interrupted
    sagas, as functions on the world of the service: its database, the state
    [X] behind its two gRPC clients, its three circuit breakers and the
    charges its payment gateway has accepted. *)

From S2P Require Import Prelude GoStrings Database StockApi StockClient ReservationService CircuitBreaker Payment.
From S2P Require Import OrderDb.

(** ** Messages of order.v1 *)

Record OrderLine := mkOrderLine {
  ln_SkuId : string;
  ln_WarehouseId : string;
  ln_Quantity : Z;
  ln_UnitPrice : Z;
}.

Record CreateOrderRequest := mkCreateOrderRequest {
  co_TenantId : string;
  co_OrderId : string;
  co_Lines : list OrderLine;
  co_IdempotencyKey : string;
  co_TtlSeconds : Z;
  co_ForcePaymentFailure : bool;
}.

Record CreateOrderResponse := mkCreateOrderResponse {
  cor_OrderId : string;
  cor_Status : string;
  cor_TotalAmount : Z;
  cor_TransactionId : string;
}.

Record GetOrderRequest := mkGetOrderRequest {
  go_TenantId : string;
  go_OrderId : string;
}.

Record GetOrderResponse := mkGetOrderResponse {
  gor_OrderId : string;
  gor_Status : string;
  gor_TotalAmount : Z;
  gor_Lines : list OrderLine;
  gor_SagaState : string;
  gor_TransactionId : string;
  gor_CreatedAtUnix : Z;
}.

Record CancelOrderRequest := mkCancelOrderRequest {
  ca_TenantId : string;
  ca_OrderId : string;
  ca_Reason : string;
  ca_IdempotencyKey : string;
}.

Record CancelOrderResponse := mkCancelOrderResponse {
  car_Success : bool;
  car_Status : string;
}.

Record FulfillOrderRequest := mkFulfillOrderRequest {
  fo_TenantId : string;
  fo_OrderId : string;
  fo_IdempotencyKey : string;
}.

Record FulfillOrderResponse := mkFulfillOrderResponse {
  for_Success : bool;
  for_Status : string;
}.

Class OrderHashes := {
  hash_create :: PayloadHash CreateOrderRequest;
  hash_fulfill_order :: PayloadHash FulfillOrderRequest;
}.

(** The generated client of reservation.v1. *)
Class ReservationClient (X : Type) := {
  rpc_Reserve : Ctx → ReserveRequest → X → X * res ReserveResponse;
  rpc_Release : Ctx → ReleaseRequest → X → X * res ReleaseResponse;
  rpc_AllocateReservation :
    Ctx → AllocateReservationRequest → X → X * res AllocateReservationResponse;
}.

(** ** Helpers *)

Definition orderTotal (lines : list OrderLine) : Z :=
  foldl (λ total l, wrap64 (total + wrap64 (ln_Quantity l * ln_UnitPrice l))) 0 lines.

Definition event_line (l : OrderLine) : json :=
  JObj [("sku_id", JStr (ln_SkuId l)); ("warehouse_id", JStr (ln_WarehouseId l));
        ("quantity", JInt (ln_Quantity l))].

Definition marshalOrderEvent (state orderID : string) (total : Z) (lines : list OrderLine) : json :=
  JObj ([("event_type", JStr ("order." +:+ ToLower state)); ("order_id", JStr orderID);
         ("total_amount", JInt total)] ++
        match lines with [] => [] | _ => [("lines", JArr (event_line <$> lines))] end).

Definition reserveItems (lines : list OrderLine) : list ReservationItem :=
  (λ l, mkReservationItem (ln_SkuId l) (ln_WarehouseId l) (ln_Quantity l)) <$> lines.

Definition stockLines (lines : list OrderLine) : list StockLine :=
  (λ l, mkLine (ln_SkuId l) (ln_WarehouseId l) (ln_Quantity l)) <$> lines.

Definition reasonOrDefault (r def : string) : string :=
  if bool_decide (r = "") then def else r.

(** The row of order_lines as a message. *)
Definition pb_line (l : OrderLineRow) : OrderLine :=
  mkOrderLine (ol_SkuID l) (ol_WarehouseID l) (ol_Quantity l) (ol_UnitPrice l).

(** The lines of a fulfilment event carry no price. *)
Definition ev_line (l : OrderLineRow) : OrderLine :=
  mkOrderLine (ol_SkuID l) (ol_WarehouseID l) (ol_Quantity l) 0.

(** ** The world of the service *)

(** [Charges] is what the payment gateway has accepted, oldest first: the
    money taken, which the service itself does not remember. *)
Record OrderWorld (X : Type) := mkOrderWorld {
  ow_db : OrderDB;
  ow_down : X;
  resBreaker : Breaker;
  payBreaker : Breaker;
  stockBreaker : Breaker;
  Charges : list ChargeRequest;
}.
Arguments mkOrderWorld {_}.
Arguments ow_db {_}.
Arguments ow_down {_}.
Arguments resBreaker {_}.
Arguments payBreaker {_}.
Arguments stockBreaker {_}.
Arguments Charges {_}.

Definition saga_breaker : Breaker := New (mkConfig 3 (10 * second)).

(** 15 * time.Minute, in nanoseconds. *)
Definition saga_defaultTTL : Z := 15 * 60 * second.

Definition NewSaga {X} (d : OrderDB) (x : X) : OrderWorld X :=
  mkOrderWorld d x saga_breaker saga_breaker saga_breaker [].

(** The places of the handlers where the environment has a say: each is
    reached at most once in a run. *)
Inductive point :=
| PtCreate | PtReplay | PtReserve | PtReserved | PtCharge | PtCompensate | PtRecord | PtAllocate
| PtConfirm | PtConfirmed | PtFail | PtLoad | PtGetSaga.

Record SagaEnv := mkSagaEnv {
  se_tx : point → TxEnv;          (* the transactions *)
  se_allow : point → Z;           (* time.Now in a breaker's Allow *)
  se_report : point → Z;          (* time.Now in RecordFailure *)
  se_fail_orders : string;        (* TAPER_SANDBOX_FAIL_ORDERS *)
  se_txn : string;                (* uuid.NewString in Charge *)
}.

(** Everything works, at time [now] (microseconds). *)
Definition saga_healthy (now : Z) (txn : string) : SagaEnv :=
  mkSagaEnv (λ _, healthy now) (λ _, now * 1000) (λ _, now * 1000) "" txn.

Record sagaInput := mkSagaInput {
  in_TenantID : string;
  in_TenantUUID : uuid;
  in_OrderID : string;
  in_Lines : list OrderLine;
  in_IdemKey : string;
  in_TTL : Z;
  in_ForcePaymentFailure : bool;
}.

(** The requests of the steps: the key of the order with the step's suffix. *)
Definition reserve_request (inp : sagaInput) : ReserveRequest :=
  {| rq_TenantId := in_TenantID inp; rq_OrderId := in_OrderID inp;
     rq_IdempotencyKey := in_IdemKey inp +:+ ":reserve"; rq_Items := reserveItems (in_Lines inp);
     rq_TtlSeconds := wrap32 (in_TTL inp / second) |}.

Definition charge_request (inp : sagaInput) : ChargeRequest :=
  {| cr_OrderID := in_OrderID inp; cr_TenantID := in_TenantID inp; cr_Amount := orderTotal (in_Lines inp);
     cr_Currency := "USD"; cr_IdemKey := in_IdemKey inp +:+ ":charge"; cr_ForceFail := false |}.

Definition allocate_request (inp : sagaInput) : AllocateReservationRequest :=
  {| al_TenantId := in_TenantID inp; al_OrderId := in_OrderID inp;
     al_IdempotencyKey := in_IdemKey inp +:+ ":allocate" |}.

Definition confirm_request (inp : sagaInput) : ConfirmStockAllocationRequest :=
  {| cnf_TenantId := in_TenantID inp; cnf_OrderId := in_OrderID inp;
     cnf_IdempotencyKey := in_IdemKey inp +:+ ":confirm"; cnf_Lines := stockLines (in_Lines inp) |}.

Definition release_request (tenantID orderID reason : string) : ReleaseRequest :=
  {| rl_TenantId := tenantID; rl_ReservationId := ""; rl_OrderId := orderID; rl_Reason := reason;
     rl_IdempotencyKey := CompensationKey tenantID orderID |}.

(** ** Statements that may return from the function *)

Inductive flow (R A : Type) :=
| Next (a : A)
| Return (r : res R).
Arguments Next {_ _} _.
Arguments Return {_ _} _.

Definition M (W R A : Type) : Type := W → W * flow R A.

#[export] Instance M_ret W R : MRet (M W R) := λ A a w, (w, Next a).
#[export] Instance M_bind W R : MBind (M W R) := λ A B f m w,
  match m w with
  | (w', Next a) => f a w'
  | (w', Return r) => (w', Return r)
  end.

Definition return_ {W R A} (r : res R) : M W R A := λ w, (w, Return r).
Definition get {W R} : M W R W := λ w, (w, Next w).
Definition modify {W R} (f : W → W) : M W R unit := λ w, (f w, Next ()).
Definition lift {W R A} (f : W → W * A) : M W R A := λ w, let '(w', a) := f w in (w', Next a).

(** The body of a function: it ends in a return. *)
Definition run_body {W R} (m : M W R (res R)) (w : W) : W * res R :=
  match m w with
  | (w', Next r) => (w', r)
  | (w', Return r) => (w', r)
  end.

Section Saga.
Context `{UuidText} `{OrderHashes} `{ErrorText} {X : Type} `{StockClient X} `{ReservationClient X}.

Abbreviation World := (OrderWorld X).

(** ** Access to the parts of the world *)

Definition with_db (d : OrderDB) (w : World) : World :=
  mkOrderWorld d (ow_down w) (resBreaker w) (payBreaker w) (stockBreaker w) (Charges w).
Definition with_down (x : X) (w : World) : World :=
  mkOrderWorld (ow_db w) x (resBreaker w) (payBreaker w) (stockBreaker w) (Charges w).
Definition on_resBreaker (f : Breaker → Breaker) (w : World) : World :=
  mkOrderWorld (ow_db w) (ow_down w) (f (resBreaker w)) (payBreaker w) (stockBreaker w) (Charges w).
Definition on_payBreaker (f : Breaker → Breaker) (w : World) : World :=
  mkOrderWorld (ow_db w) (ow_down w) (resBreaker w) (f (payBreaker w)) (stockBreaker w) (Charges w).
Definition on_stockBreaker (f : Breaker → Breaker) (w : World) : World :=
  mkOrderWorld (ow_db w) (ow_down w) (resBreaker w) (payBreaker w) (f (stockBreaker w)) (Charges w).
Definition add_charge (req : ChargeRequest) (w : World) : World :=
  mkOrderWorld (ow_db w) (ow_down w) (resBreaker w) (payBreaker w) (stockBreaker w) (Charges w ++ [req]).

(** A transaction on the service's pool: the value its closure left in the
    captured variable, or the error. *)
Definition order_tx {R} `{Inhabited R} (env : TxEnv) (ctx : Ctx) (q : Q OrderDB R) (w : World)
  : World * res R :=
  match ExecTxWithTenant env ctx (tx_body q) (ow_db w) with
  | (d, _, Some e) => (with_db d w, Err e)
  | (d, Some r, None) => (with_db d w, Ok r)
  | (d, None, None) => (with_db d w, Ok inhabitant)
  end.

(** A gRPC call. *)
Definition call {A} (f : X → X * res A) (w : World) : World * res A :=
  let '(x, r) := f (ow_down w) in (with_down x w, r).

(** ** transition *)

(** The status that mirrors a terminal state on the orders row, and its
    transaction id. *)
Definition mirror (state : string) (cur : Order) : option (string * string) :=
  if bool_decide (state = SagaConfirmed) then Some (OrderConfirmed, o_TransactionID cur)
  else if bool_decide (state = SagaCompensated) then Some (OrderCompensated, "")
  else if bool_decide (state = SagaFailed) then Some (OrderFailed, "")
  else None.

Definition order_event (ctx : Ctx) (tenant : uuid) (orderID event_type : string) (payload : json)
  : OutboxParams :=
  mkOutboxParams tenant "order" (uuid_string tenant +:+ ":" +:+ orderID) event_type payload
    (TraceparentText ctx).

Definition transition_closure (ctx : Ctx) (tenant : uuid) (orderID state : string) (step : Z)
    (errMsg : string) : Q OrderDB unit :=
  cur ← GetOrderById orderID;
  _ ← UpdateSagaState orderID state step errMsg;
  _ ← InsertOutboxEvent (order_event ctx tenant orderID ("order." +:+ ToLower state)
                           (marshalOrderEvent state orderID (o_TotalAmount cur) []));
  match mirror state cur with
  | None => mret ()
  | Some (status, txn) => _ ← UpdateOrderStatus orderID status txn; mret ()
  end.

Definition transition (env : TxEnv) (ctx : Ctx) (tenant : uuid) (orderID state : string) (step : Z)
    (errMsg : string) : World → World * res unit :=
  order_tx env ctx (transition_closure ctx tenant orderID state step errMsg).

Definition failSaga (env : SagaEnv) (ctx : Ctx) (tenantID orderID msg : string) (w : World)
  : World * res unit :=
  match ParseUUID tenantID with
  | Err e => (w, Err e)
  | Ok tenant => transition (se_tx env PtFail) ctx tenant orderID SagaFailed (-1) msg w
  end.

Definition compensate (env : SagaEnv) (ctx : Ctx) (tenantID orderID reason : string) (w : World)
  : World * res unit :=
  match ParseUUID tenantID with
  | Err e => (w, Err e)
  | Ok tenant =>
      match call (rpc_Release ctx (release_request tenantID orderID reason)) w with
      | (w, Err e) => (w, Err (ErrWrap "release" e))
      | (w, Ok _) => transition (se_tx env PtCompensate) ctx tenant orderID SagaCompensated (-1) reason w
      end
  end.

(** ** The rows of an order *)

Definition insert_line (tenant : uuid) (orderID : string) (_ : unit) (l : OrderLine) : Q OrderDB unit :=
  _ ← InsertOrderLine tenant orderID (ln_SkuId l) (ln_WarehouseId l) (ln_Quantity l) (ln_UnitPrice l);
  mret ().

Definition create_closure (tenant : uuid) (req : CreateOrderRequest) (total : Z) : Q OrderDB uuid :=
  _ ← (if bool_decide (co_IdempotencyKey req = "") then mret ()
       else
         r ← attempt (CheckAndInsertIdempotencyKey tenant (co_IdempotencyKey req) (payload_hash req));
         match r with
         | Err e => if errors_Is e ErrNoRows then fail ErrIdempotentReplay else fail e
         | Ok _ => mret ()
         end);
  o ← UpsertOrder tenant (co_OrderId req) OrderPending total "USD";
  _ ← foldM (insert_line tenant (co_OrderId req)) () (co_Lines req);
  _ ← UpsertSagaInstance tenant (co_OrderId req) SagaPendingPayment 0 (co_IdempotencyKey req);
  mret (o_ID o).

Definition createOrderRow (env : TxEnv) (ctx : Ctx) (tenant : uuid) (req : CreateOrderRequest)
    (total : Z) : World → World * res uuid :=
  order_tx env ctx (create_closure tenant req total).

(** The zero value of orderdb.SagaInstance. *)
#[local] Instance saga_inhabited : Inhabited SagaInstance := populate (mkSagaInstance 0%N "" 0 "" "" 0 0).
#[local] Instance order_inhabited : Inhabited Order := populate (mkOrder 0%N "" 0 "" "" 0 0).

Definition getSaga (env : TxEnv) (ctx : Ctx) (orderID : string) : World → World * res SagaInstance :=
  order_tx env ctx (GetSagaInstance orderID).

Definition replayCreateOrder (env : SagaEnv) (ctx : Ctx) (req : CreateOrderRequest) (w : World)
  : World * res CreateOrderResponse :=
  match order_tx (se_tx env PtReplay) ctx (GetSagaInstance (co_OrderId req)) w with
  | (w, Err e) => (w, Err (ErrStatusf Internal "replay: %v" e))
  | (w, Ok saga) => (w, Ok (mkCreateOrderResponse (co_OrderId req) (sg_State saga) 0 ""))
  end.

Definition recordTransaction (env : TxEnv) (ctx : Ctx) (orderID txn : string) (w : World)
  : World * res unit :=
  order_tx env ctx (_ ← UpdateOrderStatus orderID OrderPending txn; mret ()) w.

(** ** runSaga *)

Abbreviation SagaM := (M World CreateOrderResponse).

(** [if err := b.Allow(); err != nil { return ... }] *)
Definition guard (now : Z) (get_b : World → Breaker) (set_b : (Breaker → Breaker) → World → World) : SagaM unit :=
  w ← get;
  let '(b, e) := Allow now (get_b w) in
  _ ← modify (set_b (λ _, b));
  match e with
  | Some e => return_ (Err (ErrStatusf Unavailable "%v" e))
  | None => mret ()
  end.

Definition step_reserve (env : SagaEnv) (ctx : Ctx) (inp : sagaInput) : SagaM unit :=
  _ ← guard (se_allow env PtReserve) resBreaker on_resBreaker;
  r ← lift (call (rpc_Reserve ctx (reserve_request inp)));
  match r with
  | Err e =>
      _ ← modify (on_resBreaker (RecordFailure (se_report env PtReserve)));
      _ ← lift (failSaga env ctx (in_TenantID inp) (in_OrderID inp) ("reserve: " +:+ error_text e));
      return_ (Err (ErrStatusf Internal "reserve: %v" e))
  | Ok resResp =>
      _ ← modify (on_resBreaker RecordSuccess);
      if negb (rr_Success resResp) then
        _ ← lift (failSaga env ctx (in_TenantID inp) (in_OrderID inp) "insufficient stock");
        return_ (Ok (mkCreateOrderResponse (in_OrderID inp) SagaFailed 0 ""))
      else
        t ← lift (transition (se_tx env PtReserved) ctx (in_TenantUUID inp) (in_OrderID inp)
                    SagaReserved 1 "");
        match t with
        | Err e => return_ (Err (ErrStatusf Internal "saga transition: %v" e))
        | Ok _ => mret ()
        end
  end.

(** The charge and its outcome: the transaction id, or the error. *)
Definition step_charge (env : SagaEnv) (inp : sagaInput) : SagaM (res string) :=
  if in_ForcePaymentFailure inp then mret (Err ErrPaymentDeclined)
  else
    _ ← guard (se_allow env PtCharge) payBreaker on_payBreaker;
    match Charge (se_fail_orders env) (se_txn env) (se_report env PtCharge) (charge_request inp) with
    | Ok result =>
        _ ← modify (add_charge (charge_request inp));
        _ ← modify (on_payBreaker RecordSuccess);
        mret (Ok (TransactionID result))
    | Err e =>
        _ ← modify (on_payBreaker
              (if errors_Is e ErrPaymentDeclined then RecordSuccess
               else RecordFailure (se_report env PtCharge)));
        mret (Err e)
    end.

Definition step_compensate (env : SagaEnv) (ctx : Ctx) (inp : sagaInput)
  : SagaM (res CreateOrderResponse) :=
  c ← lift (compensate env ctx (in_TenantID inp) (in_OrderID inp) "payment_failed");
  match c with
  | Err compErr =>
      _ ← lift (failSaga env ctx (in_TenantID inp) (in_OrderID inp)
                  ("payment failed AND compensation error: " +:+ error_text compErr));
      return_ (Err (ErrStatusf Internal "compensate: %v" compErr))
  | Ok _ =>
      return_ (Ok (mkCreateOrderResponse (in_OrderID inp) SagaCompensated (orderTotal (in_Lines inp)) ""))
  end.

Definition step_allocate (env : SagaEnv) (ctx : Ctx) (inp : sagaInput) : SagaM unit :=
  r ← lift (call (rpc_AllocateReservation ctx (allocate_request inp)));
  match r with
  | Err e =>
      _ ← modify (on_resBreaker (RecordFailure (se_report env PtAllocate)));
      _ ← lift (failSaga env ctx (in_TenantID inp) (in_OrderID inp) ("allocate: " +:+ error_text e));
      return_ (Err (ErrStatusf Internal "allocate: %v" e))
  | Ok _ => modify (on_resBreaker RecordSuccess)
  end.

Definition step_confirm (env : SagaEnv) (ctx : Ctx) (inp : sagaInput) : SagaM unit :=
  _ ← guard (se_allow env PtConfirm) stockBreaker on_stockBreaker;
  r ← lift (call (rpc_ConfirmStockAllocation ctx (confirm_request inp)));
  match r with
  | Err e =>
      _ ← modify (on_stockBreaker (RecordFailure (se_report env PtConfirm)));
      _ ← lift (failSaga env ctx (in_TenantID inp) (in_OrderID inp) ("confirm: " +:+ error_text e));
      return_ (Err (ErrStatusf Internal "confirm: %v" e))
  | Ok _ =>
      _ ← modify (on_stockBreaker RecordSuccess);
      t ← lift (transition (se_tx env PtConfirmed) ctx (in_TenantUUID inp) (in_OrderID inp)
                  SagaConfirmed 3 "");
      match t with
      | Err e => return_ (Err (ErrStatusf Internal "saga transition: %v" e))
      | Ok _ => mret ()
      end
  end.

(** The steps in their order, each durable before the next. *)
Definition saga_body (env : SagaEnv) (ctx : Ctx) (inp : sagaInput) : SagaM (res CreateOrderResponse) :=
  _ ← step_reserve env ctx inp;
  charged ← step_charge env inp;
  match charged with
  | Err _ => step_compensate env ctx inp
  | Ok txnID =>
      r ← lift (recordTransaction (se_tx env PtRecord) ctx (in_OrderID inp) txnID);
      match r with
      | Err e => return_ (Err (ErrStatusf Internal "record transaction: %v" e))
      | Ok _ =>
          _ ← step_allocate env ctx inp;
          _ ← step_confirm env ctx inp;
          return_ (Ok (mkCreateOrderResponse (in_OrderID inp) SagaConfirmed
                         (orderTotal (in_Lines inp)) txnID))
      end
  end.

Definition runSaga (env : SagaEnv) (ctx : Ctx) (inp : sagaInput) : World → World * res CreateOrderResponse :=
  run_body (saga_body env ctx inp).

(** ** Handlers *)

Definition CreateOrder (env : SagaEnv) (ctx : Ctx) (req : CreateOrderRequest) (w : World)
  : World * res CreateOrderResponse :=
  match ParseUUID (co_TenantId req) with
  | Err e => (w, Err (ErrStatusf InvalidArgument "%v" e))
  | Ok tenant =>
      let ctx := WithTenantID ctx (co_TenantId req) in
      if bool_decide (co_OrderId req = "")
      then (w, Err (ErrStatus InvalidArgument "order_id is required"))
      else if bool_decide (length (co_Lines req) = 0%nat)
      then (w, Err (ErrStatus InvalidArgument "no lines provided"))
      else if orderTotal (co_Lines req) <=? 0
      then (w, Err (ErrStatus InvalidArgument "order total must be positive"))
      else
        let ttl := if 0 <? co_TtlSeconds req then co_TtlSeconds req * second else saga_defaultTTL in
        match createOrderRow (se_tx env PtCreate) ctx tenant req (orderTotal (co_Lines req)) w with
        | (w, Err e) =>
            if errors_Is e ErrIdempotentReplay then replayCreateOrder env ctx req w
            else (w, Err (ErrStatusf Internal "create order: %v" e))
        | (w, Ok _) =>
            runSaga env ctx
              {| in_TenantID := co_TenantId req; in_TenantUUID := tenant; in_OrderID := co_OrderId req;
                 in_Lines := co_Lines req; in_IdemKey := co_IdempotencyKey req; in_TTL := ttl;
                 in_ForcePaymentFailure := co_ForcePaymentFailure req |} w
        end
  end.

(** One saga of a resume pass: [inl] goes on with the next row whatever became
    of the saga, [inr] leaves the pass with an error. *)
Definition resume_one (env : SagaEnv) (ctx : Ctx) (row : okey * SagaInstance) (w : World)
  : World * (unit + go_error) :=
  let '((tenant, orderID), g) := row in
  let sagaCtx := WithTenantID ctx (uuid_string tenant) in
  match order_tx (se_tx env PtLoad) sagaCtx (GetOrderLines orderID) w with
  | (w, Err e) => (w, inr (ErrWrap ("resume " +:+ orderID +:+ ": load lines") e))
  | (w, Ok got) =>
      let '(w, _) := runSaga env sagaCtx
        {| in_TenantID := uuid_string tenant; in_TenantUUID := tenant; in_OrderID := orderID;
           in_Lines := pb_line <$> got; in_IdemKey := sg_IdempotencyKey g; in_TTL := saga_defaultTTL;
           in_ForcePaymentFailure := false |} w in
      (w, inl ())
  end.

Fixpoint resume_rows (env : okey → SagaEnv) (ctx : Ctx) (rows : list (okey * SagaInstance)) (w : World)
  : World * option go_error :=
  match rows with
  | [] => (w, None)
  | row :: rows' =>
      match resume_one (env row.1) ctx row w with
      | (w, inr e) => (w, Some e)
      | (w, inl _) => resume_rows env ctx rows' w
      end
  end.

(** [scan] is the scan's own transaction, [env] the environment of each saga. *)
Definition ResumePendingSagas (scan : TxEnv) (locked : uuid → bool) (env : okey → SagaEnv) (ctx : Ctx)
    (limit : Z) (w : World) : World * option go_error :=
  match ExecTxNoTenant scan (tx_body (GetResumableSagas locked limit)) (ow_db w) with
  | (d, _, Some e) => (with_db d w, Some (ErrWrap "scan resumable sagas" e))
  | (d, Some rows, None) => resume_rows env ctx rows (with_db d w)
  | (d, None, None) => resume_rows env ctx [] (with_db d w)
  end.

(** [pgx.ErrNoRows] becomes NotFound. *)
Definition get_order_or_not_found (orderID : string) : Q OrderDB Order :=
  r ← attempt (GetOrderById orderID);
  match r with
  | Err e =>
      if errors_Is e ErrNoRows then fail (ErrStatus NotFound "order not found") else fail e
  | Ok o => mret o
  end.

Definition get_closure (req : GetOrderRequest) : Q OrderDB GetOrderResponse :=
  o ← get_order_or_not_found (go_OrderId req);
  lines ← GetOrderLines (go_OrderId req);
  saga ← GetSagaInstance (go_OrderId req);
  mret (mkGetOrderResponse (go_OrderId req) (o_Status o) (o_TotalAmount o) (pb_line <$> lines)
          (sg_State saga) (o_TransactionID o) (o_CreatedAt o / 1000000)).

#[local] Instance get_inhabited : Inhabited GetOrderResponse := populate (mkGetOrderResponse "" "" 0 [] "" "" 0).
#[local] Instance fulfill_inhabited : Inhabited FulfillOrderResponse := populate (mkFulfillOrderResponse false "").

Definition GetOrder (env : TxEnv) (ctx : Ctx) (req : GetOrderRequest) (w : World)
  : World * res GetOrderResponse :=
  match ParseUUID (go_TenantId req) with
  | Err e => (w, Err (ErrStatusf InvalidArgument "%v" e))
  | Ok _ => order_tx env (WithTenantID ctx (go_TenantId req)) (get_closure req) w
  end.

Definition CancelOrder (env : SagaEnv) (ctx : Ctx) (req : CancelOrderRequest) (w : World)
  : World * res CancelOrderResponse :=
  match ParseUUID (ca_TenantId req) with
  | Err e => (w, Err (ErrStatusf InvalidArgument "%v" e))
  | Ok _ =>
      let ctx := WithTenantID ctx (ca_TenantId req) in
      match getSaga (se_tx env PtGetSaga) ctx (ca_OrderId req) w with
      | (w, Err e) => (w, Err (ErrStatusf Internal "get saga: %v" e))
      | (w, Ok saga) =>
          if bool_decide (sg_State saga = SagaAllocated) || bool_decide (sg_State saga = SagaConfirmed)
          then (w, Ok (mkCancelOrderResponse false (sg_State saga)))
          else if bool_decide (sg_State saga = SagaCompensated) || bool_decide (sg_State saga = SagaFailed)
          then (w, Ok (mkCancelOrderResponse true (sg_State saga)))
          else
            match compensate env ctx (ca_TenantId req) (ca_OrderId req)
                    (reasonOrDefault (ca_Reason req) "customer_cancel") w with
            | (w, Err e) => (w, Err (ErrStatusf Internal "compensate: %v" e))
            | (w, Ok _) => (w, Ok (mkCancelOrderResponse true SagaCompensated))
            end
      end
  end.

(** ** FulfillOrder *)

Definition fulfilled_answer : FulfillOrderResponse := mkFulfillOrderResponse true OrderFulfilled.

Definition already_fulfilled (orderID suffix : string) : go_error :=
  ErrStatus FailedPrecondition ("order " +:+ orderID +:+ " is already FULFILLED" +:+ suffix).

(** An order that is already fulfilled: only the original request replays. *)
Definition fulfill_replay (tenant : uuid) (req : FulfillOrderRequest) : Q OrderDB FulfillOrderResponse :=
  if bool_decide (fo_IdempotencyKey req = "") then fail (already_fulfilled (fo_OrderId req) "")
  else
    r ← attempt (GetIdempotencyKey tenant (fo_IdempotencyKey req));
    match r with
    | Err e => if errors_Is e ErrNoRows then fail (already_fulfilled (fo_OrderId req) "") else fail e
    | Ok storedHash =>
        if bool_decide (storedHash = payload_hash req) then mret fulfilled_answer
        else fail (already_fulfilled (fo_OrderId req) " (payload mismatch)")
    end.

(** The key of the request: [true] when it was recorded by the same request. *)
Definition fulfill_key (tenant : uuid) (req : FulfillOrderRequest) : Q OrderDB bool :=
  if bool_decide (fo_IdempotencyKey req = "") then mret false
  else
    r ← attempt (CheckAndInsertIdempotencyKey tenant (fo_IdempotencyKey req) (payload_hash req));
    match r with
    | Ok _ => mret false
    | Err e =>
        if errors_Is e ErrNoRows then
          storedHash ← GetIdempotencyKey tenant (fo_IdempotencyKey req);
          if bool_decide (storedHash = payload_hash req) then mret true
          else fail (ErrStatus FailedPrecondition
                       ("idempotency key " +:+ fo_IdempotencyKey req +:+
                        " already used with a different payload"))
        else fail e
    end.

(** The passage itself: the row, then the event with the lines. *)
Definition fulfill_now (ctx : Ctx) (tenant : uuid) (req : FulfillOrderRequest) (o : Order)
  : Q OrderDB FulfillOrderResponse :=
  lines ← GetOrderLines (fo_OrderId req);
  _ ← UpdateOrderStatus (fo_OrderId req) OrderFulfilled (o_TransactionID o);
  _ ← InsertOutboxEvent (order_event ctx tenant (fo_OrderId req) "order.fulfilled"
        (marshalOrderEvent OrderFulfilled (fo_OrderId req) (o_TotalAmount o) (ev_line <$> lines)));
  mret fulfilled_answer.

Definition fulfill_closure (ctx : Ctx) (tenant : uuid) (req : FulfillOrderRequest)
  : Q OrderDB FulfillOrderResponse :=
  o ← get_order_or_not_found (fo_OrderId req);
  if bool_decide (o_Status o = OrderFulfilled) then fulfill_replay tenant req
  else if negb (bool_decide (o_Status o = OrderConfirmed)) then
    fail (ErrStatus FailedPrecondition
            ("order " +:+ fo_OrderId req +:+ " is " +:+ o_Status o +:+ ", must be CONFIRMED"))
  else
    replay ← fulfill_key tenant req;
    if (replay : bool) then mret fulfilled_answer else fulfill_now ctx tenant req o.

Definition FulfillOrder (env : TxEnv) (ctx : Ctx) (req : FulfillOrderRequest) (w : World)
  : World * res FulfillOrderResponse :=
  match ParseUUID (fo_TenantId req) with
  | Err e => (w, Err (ErrStatusf InvalidArgument "%v" e))
  | Ok tenant =>
      let ctx := WithTenantID ctx (fo_TenantId req) in
      order_tx env ctx (fulfill_closure ctx tenant req) w
  end.

End Saga.
