(* ===== verification/OrderSteps.v ===== *)
(** * What the transactions of the saga do to the order database

    Each transaction of the order service either leaves the database alone or
    has the effect given here, whatever the environment does. *)

From S2P Require Import Prelude GoStrings Database StockApi StockClient ReservationService CircuitBreaker Payment.
From S2P Require Import OrderDb OrderService.

(** ** Effects *)

(** The parts of the database no saga transaction touches once the order is
    there. *)
Record rows_kept (d d' : OrderDB) : Prop := {
  rk_lines : order_lines d' = order_lines d;
  rk_idem : ord_idem d' = ord_idem d;
}.

Definition mirrored (now : Z) (state : string) (o : Order) : Order :=
  match mirror state o with
  | Some (status, txn) => with_status now status txn o
  | None => o
  end.

(** The effect of [transition]: the saga row, its mirror, one event. *)
Record transitioned `{UuidText} (ctx : Ctx) (t : uuid) (orderID state : string) (step : Z) (msg : string)
    (now : Z) (o : Order) (g : SagaInstance) (d d' : OrderDB) : Prop := {
  tr_order : orders d !! (t, orderID) = Some o;
  tr_saga : sagas d !! (t, orderID) = Some g;
  tr_orders : orders d' = <[(t, orderID) := mirrored now state o]> (orders d);
  tr_sagas : sagas d' = <[(t, orderID) := with_state now state step msg g]> (sagas d);
  tr_outbox : ob <$> ord_outbox d' = (ob <$> ord_outbox d) ++
    [order_event ctx t orderID ("order." +:+ ToLower state)
       (marshalOrderEvent state orderID (o_TotalAmount o) [])];
  tr_kept : rows_kept d d';
}.

(** The effect of [recordTransaction]. *)
Record recorded_txn (t : uuid) (orderID txn : string) (now : Z) (o : Order) (d d' : OrderDB) : Prop := {
  rt_order : orders d !! (t, orderID) = Some o;
  rt_orders : orders d' = <[(t, orderID) := with_status now OrderPending txn o]> (orders d);
  rt_sagas : sagas d' = sagas d;
  rt_outbox : ord_outbox d' = ord_outbox d;
  rt_kept : rows_kept d d';
}.

(** The statements of a function that runs. *)
Lemma m_bind_next {W R A B} (m : M W R A) (f : A → M W R B) w w' b :
  (m ≫= f) w = (w', Next b) ↔ ∃ w1 a, m w = (w1, Next a) ∧ f a w1 = (w', Next b).
Proof.
  unfold mbind, M_bind. destruct (m w) as [w1 [a|r]].
  - split; [eauto|]. by intros (? & ? & [= <- <-] & ?).
  - split; [done|]. by intros (? & ? & ? & ?).
Qed.

Lemma m_bind_return {W R A B} (m : M W R A) (f : A → M W R B) w w' r :
  (m ≫= f) w = (w', Return r) ↔
  m w = (w', Return r) ∨ ∃ w1 a, m w = (w1, Next a) ∧ f a w1 = (w', Return r).
Proof.
  unfold mbind, M_bind. destruct (m w) as [w1 [a|r1]].
  - split; [eauto|]. intros [?|(? & ? & [= <- <-] & ?)]; done.
  - split; [intros [= -> ->]; by left|]. by intros [[= -> ->]|(? & ? & ? & ?)].
Qed.

Section Steps.
Context `{UuidText} `{OrderHashes} `{ErrorText} {X : Type} `{StockClient X} `{ReservationClient X}.
Implicit Types w : OrderWorld X.

(** ** Transactions *)

Lemma with_db_same w : with_db (ow_db w) w = w.
Proof. by destruct w. Qed.

(** A transaction keeps the database or installs what its statements
    computed in the scope of the tenant; and it did the latter when it reports
    success. *)
Lemma order_tx_spec {R} `{Inhabited R} env ctx (q : Q OrderDB R) w tid w' r :
  ctx_tenant ctx = Some tid → order_tx env ctx q w = (w', r) →
  let sess := mkSession (RlsTenant (uuid_scan tid)) (tx_now env) in
  ∃ d', w' = with_db d' w ∧
  match r with
  | Ok a => q sess (ow_db w) = Ok (d', a)
  | Err _ => d' = ow_db w ∨ ∃ a, q sess (ow_db w) = Ok (d', a)
  end.
Proof.
  intros Hctx Hrun. unfold order_tx in Hrun.
  destruct (ExecTxWithTenant env ctx (tx_body q) (ow_db w)) as [[d' ra] [e|]] eqn:Hx.
  - assert ((with_db d' w, Err e) = (w', r)) as [= <- <-] by (by destruct ra). clear Hrun.
    destruct (exec_tx_atomic env ctx (tx_body q) (ow_db w)) as [Hd|(tid' & Htid & Hfn)];
      rewrite Hx in *; cbn in *; exists d'; (split; [done|]); [by left|].
    simplify_eq.
    right. unfold tx_body in Hfn. destruct (q _ _) as [[d1 a]|] eqn:Hq; simplify_eq/=. by exists a.
  - destruct (exec_tx_ok _ _ _ _ _ _ Hx) as (tid' & Htid & Hfn). simplify_eq. unfold tx_body in Hfn.
    destruct (q _ _) as [[d1 a]|] eqn:Hq; simplify_eq/=. by exists d'.
Qed.

Lemma order_tx_healthy {R} `{Inhabited R} now ctx (q : Q OrderDB R) w tid :
  ctx_tenant ctx = Some tid → tid ≠ "" →
  order_tx (healthy now) ctx q w =
  match q (mkSession (RlsTenant (uuid_scan tid)) now) (ow_db w) with
  | Ok (d', a) => (with_db d' w, Ok a)
  | Err e => (w, Err e)
  end.
Proof.
  intros Hctx Hne. unfold order_tx. rewrite (exec_tx_healthy _ _ _ _ _ Hctx Hne). unfold tx_body.
  destruct (q _ _) as [[d' a]|e]; [done|]. by rewrite with_db_same.
Qed.

Abbreviation sess t now := (mkSession (RlsTenant (Some t)) now).

(** ** Single statements in the scope of a tenant *)

Lemma get_order_run t now orderID d :
  GetOrderById orderID (sess t now) d =
  match orders d !! (t, orderID) with Some o => Ok (d, o) | None => Err ErrNoRows end.
Proof. done. Qed.

Lemma update_status_run t now orderID status txn d o :
  orders d !! (t, orderID) = Some o → order_status_ok status = true → 0 <= o_TotalAmount o →
  UpdateOrderStatus orderID status txn (sess t now) d =
  Ok (set_orders (<[(t, orderID) := with_status now status txn o]> (orders d)) d,
      with_status now status txn o).
Proof.
  intros Ho Hst Htot. unfold UpdateOrderStatus, row_of, update_rows, check_order. cbn [s_rls s_now].
  rewrite Ho, Hst. cbn [negb]. rewrite (proj2 (Z.ltb_ge _ _)) by lia.
  assert (alter (with_status now status txn) (t, orderID) (orders d) =
          <[(t, orderID) := with_status now status txn o]> (orders d)) as ->; [|done].
  by rewrite <- (insert_id (orders d) (t, orderID) o Ho) at 1; rewrite alter_insert_eq.
Qed.

(** Success of the update, in terms of maps. *)
Lemma update_status_inv t now orderID status txn d d' r :
  UpdateOrderStatus orderID status txn (sess t now) d = Ok (d', r) →
  ∃ o, orders d !! (t, orderID) = Some o ∧
    d' = set_orders (<[(t, orderID) := with_status now status txn o]> (orders d)) d.
Proof.
  unfold UpdateOrderStatus, row_of, update_rows. cbn [s_rls s_now].
  destruct (orders d !! (t, orderID)) as [o|] eqn:Ho; [|done].
  destruct (check_order _ _); [|done]. intros [= <- _]. exists o. split; [done|].
  f_equal. by rewrite <- (insert_id (orders d) (t, orderID) o Ho) at 1; rewrite alter_insert_eq.
Qed.

Lemma update_saga_inv t now orderID st step msg d d' r :
  UpdateSagaState orderID st step msg (sess t now) d = Ok (d', r) →
  ∃ g, sagas d !! (t, orderID) = Some g ∧
    d' = set_sagas (<[(t, orderID) := with_state now st step msg g]> (sagas d)) d.
Proof.
  unfold UpdateSagaState, row_of, update_rows. cbn [s_rls s_now].
  destruct (sagas d !! (t, orderID)) as [g|] eqn:Hg; [|done].
  destruct (saga_state_ok st); [|done]. cbn [negb]. intros [= <- _]. exists g. split; [done|].
  f_equal. by rewrite <- (insert_id (sagas d) (t, orderID) g Hg) at 1; rewrite alter_insert_eq.
Qed.

Lemma outbox_inv s p d d' r :
  InsertOutboxEvent p s d = Ok (d', r) →
  orders d' = orders d ∧ sagas d' = sagas d ∧ order_lines d' = order_lines d ∧
  ord_idem d' = ord_idem d ∧ ob <$> ord_outbox d' = (ob <$> ord_outbox d) ++ [p].
Proof.
  unfold InsertOutboxEvent, outbox_insert. intros Hrun.
  apply q_bind_ok in Hrun as (d1 & uid & Hgen & Hrun). injection Hgen as <- _.
  destruct (visible s (ob_TenantID p)); cbn in Hrun; [|done]. injection Hrun as <- _. cbn.
  by rewrite fmap_app.
Qed.

(** ** The transactions of the saga *)

Lemma transition_inv ctx t orderID state step msg now d d' u :
  transition_closure ctx t orderID state step msg (sess t now) d = Ok (d', u) →
  ∃ o g, transitioned ctx t orderID state step msg now o g d d'.
Proof.
  unfold transition_closure. intros Hrun. apply q_bind_ok in Hrun as (d1 & o & Hget & Hrun).
  rewrite get_order_run in Hget. destruct (orders d !! (t, orderID)) as [o'|] eqn:Ho; [|done].
  injection Hget as <- <-.
  apply q_bind_ok in Hrun as (d2 & g' & Hsaga & Hrun).
  apply update_saga_inv in Hsaga as (g & Hg & ->).
  apply q_bind_ok in Hrun as (d3 & ev & Hev & Hrun).
  apply outbox_inv in Hev as (Ho3 & Hs3 & Hl3 & Hi3 & Hob3). cbn in *.
  exists o', g. destruct (mirror state o') as [[status txn]|] eqn:Hm.
  - apply q_bind_ok in Hrun as (d4 & o4 & Hupd & Hrun). injection Hrun as <- _.
    apply update_status_inv in Hupd as (o'' & Ho'' & ->). rewrite Ho3, Ho in Ho''. simplify_eq.
    split; cbn; try done. unfold mirrored. by rewrite Hm, Ho3.
  - injection Hrun as <- _. split; try done.
    unfold mirrored. rewrite Hm, Ho3. symmetry. by apply insert_id.
Qed.

(** [transition] in any environment. *)
Lemma transition_spec env ctx tid t orderID state step msg w w' r :
  ctx_tenant ctx = Some tid → uuid_scan tid = Some t →
  transition env ctx t orderID state step msg w = (w', r) →
  ∃ d', w' = with_db d' w ∧
    ((∃ e, r = Err e) ∧ d' = ow_db w ∨
     ∃ o g, transitioned ctx t orderID state step msg (tx_now env) o g (ow_db w) d').
Proof.
  intros Hctx Ht Hrun. destruct (order_tx_spec _ _ _ _ _ _ _ Hctx Hrun) as (d' & -> & Hr).
  rewrite Ht in Hr. exists d'. split; [done|]. destruct r as [u|e].
  - right. by eapply transition_inv.
  - destruct Hr as [->|[u Hu]]; [left; eauto|]. right. by eapply transition_inv.
Qed.

Lemma record_spec env ctx tid t orderID txn w w' r :
  ctx_tenant ctx = Some tid → uuid_scan tid = Some t →
  recordTransaction env ctx orderID txn w = (w', r) →
  ∃ d', w' = with_db d' w ∧
    ((∃ e, r = Err e) ∧ d' = ow_db w ∨ ∃ o, recorded_txn t orderID txn (tx_now env) o (ow_db w) d').
Proof.
  intros Hctx Ht Hrun. destruct (order_tx_spec _ _ _ _ _ _ _ Hctx Hrun) as (d' & -> & Hr).
  rewrite Ht in Hr. exists d'. split; [done|].
  assert (∀ u, (_ ← UpdateOrderStatus orderID OrderPending txn; mret ()) (sess t (tx_now env)) (ow_db w)
                 = Ok (d', u) →
               ∃ o, recorded_txn t orderID txn (tx_now env) o (ow_db w) d') as Hinv.
  { intros u Hu. apply q_bind_ok in Hu as (d1 & o1 & Hupd & Hu). injection Hu as <- _.
    apply update_status_inv in Hupd as (o & Ho & ->). exists o. by split. }
  destruct r as [u|e]; [right; by eapply Hinv|].
  destruct Hr as [->|[u Hu]]; [left; eauto|]. right. by eapply Hinv.
Qed.

Lemma fail_spec env ctx tid t orderID msg w w' r :
  ctx_tenant ctx = Some tid → uuid_scan tid = Some t →
  failSaga env ctx tid orderID msg w = (w', r) →
  ∃ d', w' = with_db d' w ∧
    (d' = ow_db w ∨
     ∃ o g, transitioned ctx t orderID SagaFailed (-1) msg (tx_now (se_tx env PtFail)) o g (ow_db w) d').
Proof.
  intros Hctx Ht. unfold failSaga, ParseUUID. rewrite Ht. intros Hrun.
  destruct (transition_spec _ _ _ _ _ _ _ _ _ _ _ Hctx Ht Hrun) as (d' & -> & [[_ Hd]|Htr]); eauto.
Qed.

(** Compensation releases first; the saga is marked only when that worked. *)
Lemma compensate_spec env ctx tid t orderID reason w w' r :
  ctx_tenant ctx = Some tid → uuid_scan tid = Some t →
  compensate env ctx tid orderID reason w = (w', r) →
  ∃ x' rel d', rpc_Release ctx (release_request tid orderID reason) (ow_down w) = (x', rel) ∧
    w' = with_db d' (with_down x' w) ∧
    ((∃ e, r = Err e) ∧ d' = ow_db w ∨
     (∃ a, rel = Ok a) ∧
     ∃ o g, transitioned ctx t orderID SagaCompensated (-1) reason (tx_now (se_tx env PtCompensate)) o g
              (ow_db w) d').
Proof.
  intros Hctx Ht. unfold compensate, ParseUUID, call. rewrite Ht.
  destruct (rpc_Release _ _ _) as [x' [a|e]]; intros Hrun; exists x'.
  - destruct (transition_spec _ _ _ _ _ _ _ _ _ _ _ Hctx Ht Hrun) as (d' & -> & [Hd|Htr]);
      exists (Ok a), d'; eauto 10.
  - exists (Err e), (ow_db w). split; [done|]. injection Hrun as <- <-. split; [|left; eauto].
    by rewrite <- (with_db_same (with_down x' w)) at 1.
Qed.

End Steps.
