(* ===== verification/OrderSaga.v ===== *)
(** * What a run of the saga can have done

    The steps of runSaga in any environment and with any services behind its
    clients: the calls a run has made when it goes on, the path of its
    transactions through the database, and the money. *)

From S2P Require Import Prelude Database StockApi StockClient ReservationService CircuitBreaker Payment.
From S2P Require Import OrderDb OrderService OrderSteps.

(** ** The transactions of a saga *)

(** While the saga is open: it is reserved, or its charge is recorded. *)
Inductive open_tx `{UuidText} (ctx : Ctx) (t : uuid) (orderID : string) (d d' : OrderDB) : Prop :=
| open_reserved now o g :
    transitioned ctx t orderID SagaReserved 1 "" now o g d d' → open_tx ctx t orderID d d'
| open_record txn now o :
    recorded_txn t orderID txn now o d d' → open_tx ctx t orderID d d'.

(** The transactions that end it. *)
Definition final_state (state : string) : bool :=
  bool_decide (state = SagaConfirmed) || bool_decide (state = SagaCompensated) ||
  bool_decide (state = SagaFailed).

Inductive end_tx `{UuidText} (ctx : Ctx) (t : uuid) (orderID : string) (d d' : OrderDB) : Prop :=
| end_transition state step msg now o g :
    final_state state = true → transitioned ctx t orderID state step msg now o g d d' →
    end_tx ctx t orderID d d'.

Definition saga_path `{UuidText} (ctx : Ctx) (t : uuid) (orderID : string) (d d' : OrderDB) : Prop :=
  ∃ d1, rtc (open_tx ctx t orderID) d d1 ∧ rtc (end_tx ctx t orderID) d1 d'.

Section Run.
Context `{UuidText} `{OrderHashes} `{ErrorText} {X : Type} `{StockClient X} `{ReservationClient X}.
Implicit Types w : OrderWorld X.

Lemma path_refl ctx t orderID d : saga_path ctx t orderID d d.
Proof. by exists d. Qed.

Lemma path_open ctx t orderID d d1 d' :
  open_tx ctx t orderID d d1 → saga_path ctx t orderID d1 d' → saga_path ctx t orderID d d'.
Proof. intros Ho (d2 & H1' & H2'). exists d2. split; [|done]. by eapply rtc_l. Qed.

Lemma path_end ctx t orderID d d1 d' :
  saga_path ctx t orderID d d1 → end_tx ctx t orderID d1 d' → saga_path ctx t orderID d d'.
Proof. intros (d2 & H1' & H2') He. exists d2. split; [done|]. by eapply rtc_r. Qed.

(** ** The steps *)

Section Inp.
Context (env : SagaEnv) (ctx : Ctx) (inp : sagaInput).
Context (Hctx : ctx_tenant ctx = Some (in_TenantID inp)).
Context (Ht : uuid_scan (in_TenantID inp) = Some (in_TenantUUID inp)).

Abbreviation path := (saga_path ctx (in_TenantUUID inp) (in_OrderID inp)).

Lemma fail_path msg w w' r :
  failSaga env ctx (in_TenantID inp) (in_OrderID inp) msg w = (w', r) →
  ∃ d', w' = with_db d' w ∧ (d' = ow_db w ∨ end_tx ctx (in_TenantUUID inp) (in_OrderID inp) (ow_db w) d').
Proof using Hctx Ht.
  intros Hrun. destruct (fail_spec _ _ _ _ _ _ _ _ _ Hctx Ht Hrun) as (d' & -> & [->|(o & g & Htr)]);
    eexists; (split; [done|]); [by left|]. right. by eapply end_transition; [|done].
Qed.

Lemma fail_path' w1 msg w w' r d :
  failSaga env ctx (in_TenantID inp) (in_OrderID inp) msg w1 = (w', r) → ow_db w1 = d → Charges w1 = Charges w →
  path d (ow_db w') ∧ Charges w' = Charges w.
Proof using Hctx Ht.
  intros Hrun <- Hc. apply fail_path in Hrun as (d' & -> & [->|He]); (split; [|done]); cbn;
    [apply path_refl|]. by eapply path_end; [apply path_refl|].
Qed.

(** How a step that leaves the function leaves it: the database has moved
    along the path of the saga, and the answer is an error or [status]. *)
Definition left_with (status : string) (w w' : OrderWorld X) (r : res CreateOrderResponse) : Prop :=
  path (ow_db w) (ow_db w') ∧ Charges w' = Charges w ∧ ∀ resp, r = Ok resp → cor_Status resp = status.

Lemma reserve_step w w' f :
  step_reserve env ctx inp w = (w', f) →
  match f with
  | Next _ =>
      ∃ x' rr o g, rpc_Reserve ctx (reserve_request inp) (ow_down w) = (x', Ok rr) ∧
        rr_Success rr = true ∧
        transitioned ctx (in_TenantUUID inp) (in_OrderID inp) SagaReserved 1 ""
          (tx_now (se_tx env PtReserved)) o g (ow_db w) (ow_db w') ∧
        ow_down w' = x' ∧ Charges w' = Charges w
  | Return r => left_with SagaFailed w w' r
  end.
Proof using Hctx Ht.
  unfold step_reserve, guard, mbind, M_bind, lift, modify, get, return_, mret, M_ret, left_with.
  destruct (Allow _ _) as [b [e|]]; [intros [= <- <-]; split; [apply path_refl|done]|].
  unfold call at 1. cbn [ow_down on_resBreaker].
  destruct (rpc_Reserve _ _ _) as [x' [rr|e]].
  - destruct (rr_Success rr) eqn:Hs; cbn [negb].
    + destruct (transition _ _ _ _ _ _ _ _) as [w1 rt] eqn:Htr.
      destruct (transition_spec _ _ _ _ _ _ _ _ _ _ _ Hctx Ht Htr) as (d' & -> & [[[e ->] ->]|(o & g & Hok)]);
        [intros [= <- <-]; split; [apply path_refl|done]|].
      destruct rt as [u|e]; intros [= <- <-]; [by exists x', rr, o, g|].
      split; [|done]. cbn in *. eapply path_open; [by eapply open_reserved|apply path_refl].
    + destruct (failSaga _ _ _ _ _ _) as [w1 rf] eqn:Hf. intros [= <- <-].
      destruct (fail_path' _ _ w _ _ (ow_db w) Hf) as [Hp Hc]; [done..|]. split; [done|]. split; [done|].
      by intros resp [= <-].
  - destruct (failSaga _ _ _ _ _ _) as [w1 rf] eqn:Hf. intros [= <- <-].
    destruct (fail_path' _ _ w _ _ (ow_db w) Hf) as [Hp Hc]; done.
Qed.

Lemma charge_step w w' f :
  step_charge env inp w = (w', f) →
  ow_db w' = ow_db w ∧ ow_down w' = ow_down w ∧
  match f with
  | Next (Ok txn) =>
      Charges w' = Charges w ++ [charge_request inp] ∧ in_ForcePaymentFailure inp = false ∧
      sandboxFailListed (se_fail_orders env) (in_OrderID inp) = false ∧
      0 < orderTotal (in_Lines inp) ∧ txn = "sbx_" +:+ se_txn env
  | Next (Err e) => Charges w' = Charges w ∧ errors_Is e ErrPaymentDeclined = true
  | Return r => Charges w' = Charges w ∧ ∃ e, r = Err e
  end.
Proof.
  unfold step_charge, guard, mbind, M_bind, lift, modify, get, return_, mret, M_ret.
  destruct (in_ForcePaymentFailure inp); [by intros [= <- <-]|].
  destruct (Allow _ _) as [b [e|]]; [intros [= <- <-]; eauto|].
  destruct (Charge _ _ _ _) as [result|e] eqn:Hch; intros [= <- <-].
  - apply charge_ok in Hch as (Hpos & _ & Hl & Htx). done.
  - apply charge_error in Hch. done.
Qed.

Lemma compensate_step w w' f :
  step_compensate env ctx inp w = (w', f) → ∃ r, f = Return r ∧ left_with SagaCompensated w w' r.
Proof using Hctx Ht.
  unfold step_compensate, mbind, M_bind, lift, return_, left_with.
  destruct (compensate _ _ _ _ _ _) as [w1 rc] eqn:Hc.
  destruct (compensate_spec _ _ _ _ _ _ _ _ _ Hctx Ht Hc) as (x' & rel & d1 & _ & -> & Hd1).
  assert (path (ow_db w) d1) as Hp.
  { destruct Hd1 as [[_ ->]|(_ & o & g & Htr)]; [apply path_refl|].
    eapply path_end; [apply path_refl|]. by eapply end_transition; [|done]. }
  destruct rc as [u|e]; [intros [= <- <-]; eexists; repeat split; [done|by intros resp [= <-]]|].
  destruct (failSaga _ _ _ _ _ _) as [w2 rf] eqn:Hf. intros [= <- <-]. eexists. split; [done|].
  apply fail_path in Hf as (d2 & -> & [->|He]); cbn in *; (split; [|done]); [done|].
  by eapply path_end.
Qed.

Lemma allocate_step w w' f :
  step_allocate env ctx inp w = (w', f) →
  match f with
  | Next _ =>
      ∃ x' ar, rpc_AllocateReservation ctx (allocate_request inp) (ow_down w) = (x', Ok ar) ∧
        ow_db w' = ow_db w ∧ ow_down w' = x' ∧ Charges w' = Charges w
  | Return r => path (ow_db w) (ow_db w') ∧ Charges w' = Charges w ∧ ∃ e, r = Err e
  end.
Proof using Hctx Ht.
  unfold step_allocate, mbind, M_bind, lift, modify, return_. unfold call at 1.
  destruct (rpc_AllocateReservation _ _ _) as [x' [ar|e]]; [intros [= <- <-]; by exists x', ar|].
  destruct (failSaga _ _ _ _ _ _) as [w1 rf] eqn:Hf. intros [= <- <-].
  destruct (fail_path' _ _ w _ _ (ow_db w) Hf) as [Hp Hc]; [done..|]. eauto.
Qed.

Lemma confirm_step w w' f :
  step_confirm env ctx inp w = (w', f) →
  match f with
  | Next _ =>
      ∃ x' cr o g, rpc_ConfirmStockAllocation ctx (confirm_request inp) (ow_down w) = (x', Ok cr) ∧
        transitioned ctx (in_TenantUUID inp) (in_OrderID inp) SagaConfirmed 3 ""
          (tx_now (se_tx env PtConfirmed)) o g (ow_db w) (ow_db w') ∧
        ow_down w' = x' ∧ Charges w' = Charges w
  | Return r => path (ow_db w) (ow_db w') ∧ Charges w' = Charges w ∧ ∃ e, r = Err e
  end.
Proof using Hctx Ht.
  unfold step_confirm, guard, mbind, M_bind, lift, modify, get, return_, mret, M_ret.
  destruct (Allow _ _) as [b [e|]]; [intros [= <- <-]; split; [apply path_refl|eauto]|].
  unfold call at 1. cbn [ow_down on_stockBreaker].
  destruct (rpc_ConfirmStockAllocation _ _ _) as [x' [cr|e]].
  - destruct (transition _ _ _ _ _ _ _ _) as [w1 rt] eqn:Htr.
    destruct (transition_spec _ _ _ _ _ _ _ _ _ _ _ Hctx Ht Htr) as (d' & -> & [[[e ->] ->]|(o & g & Hok)]);
      [intros [= <- <-]; split; [apply path_refl|eauto]|].
    destruct rt as [u|e]; intros [= <- <-]; [by exists x', cr, o, g|].
    split; [|eauto]. cbn in *. eapply path_end; [apply path_refl|]. by eapply end_transition; [|done].
  - destruct (failSaga _ _ _ _ _ _) as [w1 rf] eqn:Hf. intros [= <- <-].
    destruct (fail_path' _ _ w _ _ (ow_db w) Hf) as [Hp Hc]; [done..|]. eauto.
Qed.

End Inp.
End Run.
