(* ===== verification/OrderProps.v ===== *)
(** * The answers of the saga

    What CreateOrder's answers mean, whatever failed on the way: the calls
    behind a CONFIRMED order, when money is taken, what a declined payment
    leaves, and what a repeated request gets. *)

From S2P Require Import Prelude Database StockApi StockClient ReservationService CircuitBreaker Payment.
From S2P Require Import OrderDb OrderService OrderSteps OrderSaga.

Section Props.
Context `{UuidText} `{OrderHashes} `{ErrorText} {X : Type} `{StockClient X} `{ReservationClient X}.
Implicit Types w : OrderWorld X.

(** ** Lemmas *)

(** The three transactions of a run that confirms, as one effect. *)
Record confirmed_effect (ctx : Ctx) (t : uuid) (orderID txn : string) (now : Z) (d d' : OrderDB) : Prop := {
  ce_order : ∃ o, orders d !! (t, orderID) = Some o ∧
    orders d' = <[(t, orderID) := with_status now OrderConfirmed txn o]> (orders d);
  ce_saga : ∃ g, sagas d !! (t, orderID) = Some g ∧
    sagas d' = <[(t, orderID) := with_state now SagaConfirmed 3 "" g]> (sagas d);
  ce_outbox : ∃ total, ob <$> ord_outbox d' = (ob <$> ord_outbox d) ++
    [order_event ctx t orderID "order.reserved" (marshalOrderEvent SagaReserved orderID total []);
     order_event ctx t orderID "order.confirmed" (marshalOrderEvent SagaConfirmed orderID total [])];
  ce_kept : rows_kept d d';
}.

Lemma confirmed_compose ctx t orderID txn n1 n2 n3 o1 g1 o2 o3 g3 d d1 d2 d3 :
  transitioned ctx t orderID SagaReserved 1 "" n1 o1 g1 d d1 →
  recorded_txn t orderID txn n2 o2 d1 d2 →
  transitioned ctx t orderID SagaConfirmed 3 "" n3 o3 g3 d2 d3 →
  confirmed_effect ctx t orderID txn n3 d d3.
Proof.
  intros [Ho1 Hg1 Hos1 Hgs1 Hob1 [Hl1 Hi1]] [Ho2 Hos2 Hgs2 Hob2 [Hl2 Hi2]] [Ho3 Hg3 Hos3 Hgs3 Hob3 [Hl3 Hi3]].
  rewrite Hos1, lookup_insert_eq in Ho2. injection Ho2 as <-.
  rewrite Hos2, lookup_insert_eq in Ho3. injection Ho3 as <-.
  rewrite Hgs2, Hgs1, lookup_insert_eq in Hg3. injection Hg3 as <-. split.
  - exists o1. split; [done|]. by rewrite Hos3, Hos2, Hos1, !insert_insert_eq.
  - exists g1. split; [done|]. by rewrite Hgs3, Hgs2, Hgs1, !insert_insert_eq.
  - exists (o_TotalAmount o1). by rewrite Hob3, Hob2, Hob1, <- app_assoc.
  - split; congruence.
Qed.

(** What a run that took the money has done so far, and how it can end. *)
Definition run_outcome (env : SagaEnv) (ctx : Ctx) (inp : sagaInput) w w' (r : res CreateOrderResponse)
  : Prop :=
  saga_path ctx (in_TenantUUID inp) (in_OrderID inp) (ow_db w) (ow_db w') ∧
  ((Charges w' = Charges w ∧
    ∀ resp, r = Ok resp → cor_Status resp = SagaFailed ∨ cor_Status resp = SagaCompensated) ∨
   (Charges w' = Charges w ++ [charge_request inp] ∧ in_ForcePaymentFailure inp = false ∧
    sandboxFailListed (se_fail_orders env) (in_OrderID inp) = false ∧ 0 < orderTotal (in_Lines inp) ∧
    ((∃ e, r = Err e) ∨
     r = Ok (mkCreateOrderResponse (in_OrderID inp) SagaConfirmed (orderTotal (in_Lines inp))
               ("sbx_" +:+ se_txn env)) ∧
     confirmed_effect ctx (in_TenantUUID inp) (in_OrderID inp) ("sbx_" +:+ se_txn env)
       (tx_now (se_tx env PtConfirmed)) (ow_db w) (ow_db w') ∧
     ∃ x1 rr x2 ar cr,
       rpc_Reserve ctx (reserve_request inp) (ow_down w) = (x1, Ok rr) ∧ rr_Success rr = true ∧
       rpc_AllocateReservation ctx (allocate_request inp) x1 = (x2, Ok ar) ∧
       rpc_ConfirmStockAllocation ctx (confirm_request inp) x2 = (ow_down w', Ok cr)))).

Lemma left_outcome env ctx inp status w w' r :
  left_with ctx inp status w w' r → status = SagaFailed ∨ status = SagaCompensated →
  run_outcome env ctx inp w w' r.
Proof.
  intros (Hp & Hc & Hr) Hst. split; [done|]. left. split; [done|]. intros resp Hresp.
  rewrite (Hr resp Hresp). done.
Qed.

Lemma run_cases env ctx inp w w' r :
  ctx_tenant ctx = Some (in_TenantID inp) → uuid_scan (in_TenantID inp) = Some (in_TenantUUID inp) →
  runSaga env ctx inp w = (w', r) → run_outcome env ctx inp w w' r.
Proof.
  intros Hctx Ht. unfold runSaga, run_body. destruct (saga_body env ctx inp w) as [wf f] eqn:Hb.
  intros Hrun. unfold saga_body, mbind, M_bind in Hb.
  destruct (step_reserve env ctx inp w) as [w1 [u|r1]] eqn:Hres;
    apply (reserve_step _ _ _ Hctx Ht) in Hres; [|simplify_eq; eapply left_outcome; [done|by left]].
  destruct Hres as (x1 & rr & o1 & g1 & Hrpc1 & Hs & Htr1 & Hx1 & Hc1).
  pose proof (open_reserved _ _ _ _ _ _ _ _ Htr1) as Hopen1.
  destruct (step_charge env inp w1) as [w2 [[txn|e]|r2]] eqn:Hch; apply charge_step in Hch as (Hd2 & Hx2 & Hch).
  - destruct Hch as (Hc2 & Hforce & Hlist & Hpos & ->). unfold lift in Hb.
    assert (Charges w2 = Charges w ++ [charge_request inp]) as Hcw by by rewrite Hc2, Hc1.
    destruct (recordTransaction _ _ _ _ w2) as [w3 rr3] eqn:Hrec.
    destruct (record_spec _ _ _ _ _ _ _ _ _ Hctx Ht Hrec) as (d3 & -> & Hd3). rewrite Hd2 in Hd3.
    destruct Hd3 as [[[e ->] ->]|(o2 & Hrt)].
    { unfold return_ in Hb. simplify_eq. split; [by eapply path_open; [|apply path_refl]|]. eauto 10. }
    pose proof (open_record ctx _ _ _ _ _ _ _ Hrt) as Hopen2.
    destruct rr3 as [u3|e]; last first.
    { unfold return_ in Hb. simplify_eq.
      split; [by eapply path_open, path_open; [| |apply path_refl]|]. eauto 10. }
    destruct (step_allocate _ _ _ _) as [w4 [u4|r4]] eqn:Hal; apply (allocate_step _ _ _ Hctx Ht) in Hal.
    2:{ destruct Hal as (Hp & Hc4 & e & ->). simplify_eq. split; [by eapply path_open, path_open|].
        right. split; [by rewrite Hc4|]. eauto 10. }
    destruct Hal as (x4 & ar & Hrpc4 & Hd4 & Hx4 & Hc4).
    destruct (step_confirm _ _ _ _) as [w5 [u5|r5]] eqn:Hcf; apply (confirm_step _ _ _ Hctx Ht) in Hcf;
      rewrite Hd4 in Hcf; cbn [ow_db with_db] in Hcf.
    2:{ destruct Hcf as (Hp & Hc5 & e & ->). simplify_eq. split; [by eapply path_open, path_open|].
        right. split; [by rewrite Hc5, Hc4|]. eauto 10. }
    destruct Hcf as (x5 & cr & o3 & g3 & Hrpc5 & Htr5 & Hx5 & Hc5). unfold return_ in Hb. simplify_eq.
    split.
    { eapply path_open, path_open, path_end; [done..|apply path_refl|]. by eapply end_transition; [|done]. }
    right. split; [by rewrite Hc5, Hc4|]. do 3 (split; [done|]). right. split; [done|].
    split; [by eapply confirmed_compose|]. cbn in Hrpc4. rewrite Hx2 in Hrpc4.
    eexists _, rr, _, ar, cr. done.
  - destruct Hch as [Hc2 _].
    destruct (compensate_step env ctx inp Hctx Ht w2 wf f Hb) as (rc & -> & Hp & Hcc & Hr). simplify_eq.
    split; [eapply path_open; [done|by rewrite Hd2 in Hp]|]. left. split; [congruence|].
    intros resp Hresp. right. by apply Hr.
  - destruct Hch as (Hc2 & e & ->). simplify_eq. split.
    { rewrite Hd2. by eapply path_open; [|apply path_refl]. }
    left. split; [congruence|done].
Qed.

(** ** Theorems *)


(** C6. Money: a run of the saga takes the order's total at most once, never when
    the payment is forced or listed to fail; its answer is CONFIRMED, FAILED,
    COMPENSATED or an error, and it answers CONFIRMED only after charging,
    FAILED or COMPENSATED only without having charged. *)
Theorem charged_exactly_when_confirmed env ctx inp w w' r :
  ctx_tenant ctx = Some (in_TenantID inp) → uuid_scan (in_TenantID inp) = Some (in_TenantUUID inp) →
  runSaga env ctx inp w = (w', r) →
  (Charges w' = Charges w ∨
   Charges w' = Charges w ++ [charge_request inp] ∧ in_ForcePaymentFailure inp = false ∧
   sandboxFailListed (se_fail_orders env) (in_OrderID inp) = false) ∧
  ∀ resp, r = Ok resp →
    (cor_Status resp = SagaConfirmed ∧ Charges w' = Charges w ++ [charge_request inp]) ∨
    ((cor_Status resp = SagaFailed ∨ cor_Status resp = SagaCompensated) ∧ Charges w' = Charges w).
Proof.
  intros Hctx Ht Hrun.
  destruct (run_cases _ _ _ _ _ _ Hctx Ht Hrun) as [_ [[Hc Hno]|(Hc & Hf & Hl & _ & Hr)]].
  - split; [by left|]. intros resp ->. right. split; [by apply Hno|done].
  - split; [by right|]. intros resp ->. left. destruct Hr as [[e He]|(He & _)]; [done|].
    injection He as ->. done.
Qed.

End Props.
