(* ===== verification/OrderInvariant.v ===== *)
(** * The order database stays consistent

    The handlers of the order service as the steps of a state machine: any
    sequence of them, in any environment and with any services behind the
    clients, keeps every orders row in step with its saga, never leaves a
    terminal state, and emits order.fulfilled once per fulfilled order. *)

From S2P Require Import Prelude GoStrings Database StockApi StockClient ReservationService CircuitBreaker Payment.
From S2P Require Import OrderDb OrderService OrderSteps OrderSaga OrderProps.

(** ** Specification *)

(** The status of the orders row that goes with a saga state. *)
Definition status_of (state : string) : option string :=
  if bool_decide (state = SagaPendingPayment) then Some OrderPending
  else if bool_decide (state = SagaReserved) then Some OrderPending
  else if bool_decide (state = SagaConfirmed) then Some OrderConfirmed
  else if bool_decide (state = SagaCompensated) then Some OrderCompensated
  else if bool_decide (state = SagaFailed) then Some OrderFailed
  else None.

Definition pair_ok (o : Order) (g : SagaInstance) : Prop :=
  status_of (sg_State g) = Some (o_Status o) ∨
  sg_State g = SagaConfirmed ∧ o_Status o = OrderFulfilled.

Definition aggregate `{UuidText} (k : okey) : string := uuid_string k.1 +:+ ":" +:+ k.2.

Definition is_fulfilled `{UuidText} (k : okey) (e : OutboxParams) : bool :=
  bool_decide (ob_TenantID e = k.1) && bool_decide (ob_AggregateID e = aggregate k) &&
  bool_decide (ob_EventType e = "order.fulfilled").

(** How many order.fulfilled events of the order the outbox has. *)
Definition fulfilled_events `{UuidText} (k : okey) (d : OrderDB) : nat :=
  length (filter (λ e, is_fulfilled k e = true) (ob <$> ord_outbox d)).

Definition key_ok `{UuidText} (k : okey) (d : OrderDB) : Prop :=
  match orders d !! k, sagas d !! k with
  | None, None => fulfilled_events k d = 0%nat
  | Some o, Some g =>
      pair_ok o g ∧ 0 <= o_TotalAmount o ∧
      fulfilled_events k d = (if bool_decide (o_Status o = OrderFulfilled) then 1 else 0)%nat
  | _, _ => False
  end.

Definition saga_wf `{UuidText} (d : OrderDB) : Prop := ∀ k, key_ok k d.

(** An order whose saga is in flight, and one whose row mirrors its saga. *)
Definition in_flight (k : okey) (d : OrderDB) : Prop :=
  ∃ o g, orders d !! k = Some o ∧ sagas d !! k = Some g ∧
    o_Status o = OrderPending ∧ resumable g = true ∧ 0 <= o_TotalAmount o.

Definition settled (k : okey) (d : OrderDB) : Prop :=
  ∃ o g, orders d !! k = Some o ∧ sagas d !! k = Some g ∧
    status_of (sg_State g) = Some (o_Status o) ∧ 0 <= o_TotalAmount o.

Definition absent (k : okey) (d : OrderDB) : Prop := orders d !! k = None ∧ sagas d !! k = None.

Definition key_same `{UuidText} (k : okey) (d d' : OrderDB) : Prop :=
  orders d' !! k = orders d !! k ∧ sagas d' !! k = sagas d !! k ∧
  fulfilled_events k d' = fulfilled_events k d.

(** What one handler can do to one order: nothing; create it or move its saga
    on; or fulfil it. *)
Inductive key_effect `{UuidText} (k : okey) (d d' : OrderDB) : Prop :=
| ke_same : key_same k d d' → key_effect k d d'
| ke_saga :
    absent k d ∨ in_flight k d → settled k d' → fulfilled_events k d' = fulfilled_events k d →
    key_effect k d d'
| ke_fulfil o now :
    orders d !! k = Some o → o_Status o = OrderConfirmed →
    orders d' !! k = Some (with_status now OrderFulfilled (o_TransactionID o) o) →
    sagas d' !! k = sagas d !! k → fulfilled_events k d' = S (fulfilled_events k d) →
    key_effect k d d'.

Section Invariant.
Context `{UuidText} `{OrderHashes} `{ErrorText} {X : Type} `{StockClient X} `{ReservationClient X}.
Implicit Types w : OrderWorld X.

(** ** Handlers as steps *)

Inductive order_op :=
| OpCreate (env : SagaEnv) (ctx : Ctx) (req : CreateOrderRequest)
| OpGet (env : TxEnv) (ctx : Ctx) (req : GetOrderRequest)
| OpCancel (env : SagaEnv) (ctx : Ctx) (req : CancelOrderRequest)
| OpFulfill (env : TxEnv) (ctx : Ctx) (req : FulfillOrderRequest)
| OpResume (scan : TxEnv) (locked : uuid → bool) (env : okey → SagaEnv) (ctx : Ctx) (limit : Z).

Definition order_run w (op : order_op) : OrderWorld X :=
  match op with
  | OpCreate env ctx req => (CreateOrder env ctx req w).1
  | OpGet env ctx req => (GetOrder env ctx req w).1
  | OpCancel env ctx req => (CancelOrder env ctx req w).1
  | OpFulfill env ctx req => (FulfillOrder env ctx req w).1
  | OpResume scan locked env ctx limit => (ResumePendingSagas scan locked env ctx limit w).1
  end.

(** ** Moves of one order *)

(** Only the rows of order [k] changed; every new event is its own, [n] of
    them order.fulfilled. *)
Record moved (k : okey) (n : nat) (d d' : OrderDB) : Prop := {
  mv_orders k' : k' ≠ k → orders d' !! k' = orders d !! k';
  mv_sagas k' : k' ≠ k → sagas d' !! k' = sagas d !! k';
  mv_events : ∃ evs, ob <$> ord_outbox d' = (ob <$> ord_outbox d) ++ evs ∧
    Forall (λ e, ob_TenantID e = k.1 ∧ ob_AggregateID e = aggregate k) evs ∧
    length (filter (λ e, is_fulfilled k e = true) evs) = n;
}.

Lemma moved_refl k d : moved k 0 d d.
Proof. split; [done..|]. exists []. by rewrite app_nil_r. Qed.

Lemma moved_trans k n1 n2 d1 d2 d3 : moved k n1 d1 d2 → moved k n2 d2 d3 → moved k (n1 + n2) d1 d3.
Proof.
  intros [Ho1 Hs1 (e1 & He1 & Hf1 & Hn1)] [Ho2 Hs2 (e2 & He2 & Hf2 & Hn2)]. split.
  - intros k' Hk. by rewrite Ho2, Ho1.
  - intros k' Hk. by rewrite Hs2, Hs1.
  - exists (e1 ++ e2). rewrite He2, He1, app_assoc. split; [done|]. split; [by apply Forall_app|].
    rewrite filter_app, length_app. lia.
Qed.

Lemma moved_count k n d d' : moved k n d d' → fulfilled_events k d' = (fulfilled_events k d + n)%nat.
Proof.
  intros [_ _ (evs & He & _ & Hn)]. unfold fulfilled_events. rewrite He, filter_app, length_app. lia.
Qed.

(** The events of an order are not those of another. *)
Lemma moved_other k n d d' k' : moved k n d d' → k' ≠ k → key_same k' d d'.
Proof.
  intros [Ho Hs (evs & He & Hf & Hn)] Hne. split; [auto|]. split; [auto|].
  unfold fulfilled_events. rewrite He, filter_app, length_app.
  rewrite (filter_none _ evs); [cbn; lia|]. eapply Forall_impl; [exact Hf|]. intros e [Ht Ha].
  unfold is_fulfilled. rewrite Ht, Ha. intros [[Ht' Ha']%andb_prop _]%andb_prop.
  apply bool_decide_eq_true in Ht', Ha'. apply Hne. destruct k as [t oid], k' as [t' oid'].
  unfold aggregate in Ha'. cbn [fst snd] in *. subst t'. f_equal.
  apply (inj (String.append _)) in Ha'. by apply (inj (String.append ":")) in Ha'.
Qed.

(** [key_effect] of every order, from the move of one. *)
Lemma effect_of_move k n d d' :
  moved k n d d' → key_effect k d d' → ∀ k', key_effect k' d d'.
Proof.
  intros Hm Hk k'. destruct (decide (k' = k)) as [->|Hne]; [done|]. apply ke_same.
  by eapply moved_other.
Qed.

(** ** The transactions of the saga as moves *)

Lemma quiet_event state : final_state state = true ∨ state = SagaReserved →
  "order." +:+ ToLower state ≠ "order.fulfilled".
Proof.
  unfold final_state. intros [Hf| ->]; [|done].
  repeat (apply orb_prop in Hf as [Hf|Hf]); apply bool_decide_eq_true in Hf; by subst state.
Qed.

Lemma transitioned_moved ctx t orderID state step msg now o g d d' :
  transitioned ctx t orderID state step msg now o g d d' →
  final_state state = true ∨ state = SagaReserved → moved (t, orderID) 0 d d'.
Proof.
  intros [_ _ Ho Hg Hob _] Hq%quiet_event. split.
  - intros k' Hne. by rewrite Ho, lookup_insert_ne.
  - intros k' Hne. by rewrite Hg, lookup_insert_ne.
  - eexists. split; [exact Hob|]. split; [by repeat constructor|]. rewrite filter_none; [done|].
    constructor; [|done]. unfold is_fulfilled. cbn. rewrite (bool_decide_false _ Hq), andb_false_r. done.
Qed.

Lemma recorded_moved t orderID txn now o d d' : recorded_txn t orderID txn now o d d' → moved (t, orderID) 0 d d'.
Proof.
  intros [_ Ho Hg Hob _]. split.
  - intros k' Hne. by rewrite Ho, lookup_insert_ne.
  - intros k' Hne. by rewrite Hg.
  - exists []. by rewrite Hob, app_nil_r.
Qed.

Lemma open_tx_in_flight ctx t orderID d d' :
  in_flight (t, orderID) d → open_tx ctx t orderID d d' → in_flight (t, orderID) d' ∧ moved (t, orderID) 0 d d'.
Proof.
  intros (o & g & Ho & Hg & Hst & Hres & Htot) [now o' g' Htr|txn now o' Hrt].
  - split; [|by eapply transitioned_moved; [done|by right]]. destruct Htr as [Ho' Hg' Hos Hgs _ _].
    rewrite Ho in Ho'. rewrite Hg in Hg'. injection Ho' as <-. injection Hg' as <-.
    exists o, (with_state now SagaReserved 1 "" g). rewrite Hos, Hgs, !lookup_insert_eq. done.
  - split; [|by eapply recorded_moved]. destruct Hrt as [Ho' Hos Hgs _ _]. simplify_eq.
    exists (with_status now OrderPending txn o), g. by rewrite Hos, Hgs, lookup_insert_eq.
Qed.

Lemma final_settled ctx t orderID state step msg now o g d d' :
  final_state state = true → 0 <= o_TotalAmount o →
  transitioned ctx t orderID state step msg now o g d d' → settled (t, orderID) d'.
Proof.
  intros Hf Htot [Ho' Hg' Hos Hgs _ _]. exists (mirrored now state o), (with_state now state step msg g).
  rewrite Hos, Hgs, !lookup_insert_eq. do 2 (split; [done|]). unfold final_state in Hf.
  repeat (apply orb_prop in Hf as [Hf|Hf]); apply bool_decide_eq_true in Hf; by subst state.
Qed.

Lemma end_tx_settled ctx t orderID d d' :
  settled (t, orderID) d → end_tx ctx t orderID d d' → settled (t, orderID) d' ∧ moved (t, orderID) 0 d d'.
Proof.
  intros (o & g & Ho & Hg & Hst & Htot) [state step msg now o' g' Hf Htr].
  split; [|eapply transitioned_moved; [done|by left]]. pose proof (tr_order _ _ _ _ _ _ _ _ _ _ _ Htr).
  simplify_eq. by eapply final_settled.
Qed.

Lemma in_flight_settled k d : in_flight k d → settled k d.
Proof.
  intros (o & g & Ho & Hg & Hst & Hres & Htot). exists o, g. rewrite Hst. do 2 (split; [done|]). split; [|done].
  unfold resumable in Hres. apply orb_prop in Hres as [Hs|Hs]; apply bool_decide_eq_true in Hs; by rewrite Hs.
Qed.

Lemma path_settled ctx t orderID d d' :
  in_flight (t, orderID) d → saga_path ctx t orderID d d' →
  settled (t, orderID) d' ∧ moved (t, orderID) 0 d d'.
Proof.
  intros Hfl (d1 & Hopen & Hend).
  assert (in_flight (t, orderID) d1 ∧ moved (t, orderID) 0 d d1) as [Hfl1 Hm1].
  { clear Hend. induction Hopen as [d|d d2 d1 Hstep Hrest IH]; [split; [done|apply moved_refl]|].
    destruct (open_tx_in_flight _ _ _ _ _ Hfl Hstep) as [Hf2 Hm2]. destruct (IH Hf2) as [Hf3 Hm3].
    split; [done|]. by apply (moved_trans _ 0 0 _ _ _ Hm2). }
  apply in_flight_settled in Hfl1. clear Hopen.
  assert (settled (t, orderID) d' ∧ moved (t, orderID) 0 d1 d') as [Hs Hm].
  { induction Hend as [d1|d1 d2 d' Hstep Hrest IH]; [split; [done|apply moved_refl]|].
    destruct (end_tx_settled _ _ _ _ _ Hfl1 Hstep) as [Hs2 Hm2].
    destruct (IH Hs2) as [Hs3 Hm3]; [by apply (moved_trans _ 0 0 _ _ _ Hm1)|].
    split; [done|]. by apply (moved_trans _ 0 0 _ _ _ Hm2). }
  split; [done|]. by apply (moved_trans _ 0 0 _ _ _ Hm1).
Qed.

(** A run of the saga on an order in flight. *)
Lemma run_effect env ctx inp w w' r :
  ctx_tenant ctx = Some (in_TenantID inp) → uuid_scan (in_TenantID inp) = Some (in_TenantUUID inp) →
  in_flight (in_TenantUUID inp, in_OrderID inp) (ow_db w) →
  runSaga env ctx inp w = (w', r) →
  settled (in_TenantUUID inp, in_OrderID inp) (ow_db w') ∧
  moved (in_TenantUUID inp, in_OrderID inp) 0 (ow_db w) (ow_db w').
Proof.
  intros Hctx Ht Hfl Hrun. destruct (run_cases _ _ _ _ _ _ Hctx Ht Hrun) as [Hp _].
  by eapply path_settled.
Qed.

(** ** Creation *)

(** The tables a move looks at. *)
Definition tables (d : OrderDB) : gmap okey Order * gmap okey SagaInstance * list OutboxRow :=
  (orders d, sagas d, ord_outbox d).

Lemma check_key_tables tenant key hash s d d' r :
  CheckAndInsertIdempotencyKey tenant key hash s d = Ok (d', r) → tables d' = tables d.
Proof. unfold CheckAndInsertIdempotencyKey, idem_insert. repeat case_match; by intros [= <- _]. Qed.

Lemma insert_lines_tables tenant orderID lines s d d' u :
  foldM (insert_line tenant orderID) () lines s d = Ok (d', u) → tables d' = tables d.
Proof.
  destruct u. revert d. induction lines as [|l lines IH]; intros d Hrun; [by injection Hrun as <-|].
  cbn [foldM] in Hrun. apply q_bind_ok in Hrun as (d1 & [] & Hl & Hrun). rewrite (IH _ Hrun).
  clear Hrun IH. unfold insert_line in Hl. apply q_bind_ok in Hl as (d2 & row & Hl & Hret).
  injection Hret as <-. unfold InsertOrderLine in Hl. apply q_bind_ok in Hl as (d3 & uid & Hgen & Hl).
  injection Hgen as <- _. repeat case_match; simplify_eq/=. done.
Qed.

Lemma create_inv t req total now d d' u :
  0 <= total → create_closure t req total (mkSession (RlsTenant (Some t)) now) d = Ok (d', u) →
  absent (t, co_OrderId req) d ∧ in_flight (t, co_OrderId req) d' ∧ moved (t, co_OrderId req) 0 d d'.
Proof.
  intros Htot Hrun. unfold create_closure in Hrun. apply q_bind_ok in Hrun as (d1 & [] & Hkey & Hrun).
  assert (tables d1 = tables d) as Ht1.
  { destruct (bool_decide _); [by injection Hkey as <-|].
    apply q_bind_ok in Hkey as (d1' & r & Hat & Hkey). unfold attempt in Hat.
    destruct (CheckAndInsertIdempotencyKey _ _ _ _ _) as [[d2 k]|e] eqn:Hins;
      injection Hat as <- <-.
    - injection Hkey as <-. by apply check_key_tables in Hins.
    - by destruct (errors_Is e ErrNoRows). }
  clear Hkey. apply q_bind_ok in Hrun as (d2 & o & Hord & Hrun).
  unfold UpsertOrder in Hord. apply q_bind_ok in Hord as (d2' & uid & Hgen & Hord). injection Hgen as <- _.
  destruct (negb (visible _ _)); [done|]. destruct (check_order _ _); [|done].
  destruct (orders _ !! _) eqn:Hno; [done|]. cbn in Hno. injection Hord as <- Ho.
  apply q_bind_ok in Hrun as (d3 & [] & Hlines & Hrun). apply insert_lines_tables in Hlines as Ht3.
  apply q_bind_ok in Hrun as (d4 & g & Hsaga & Hrun). injection Hrun as <- _.
  unfold UpsertSagaInstance in Hsaga. apply q_bind_ok in Hsaga as (d5 & uid' & Hgen & Hsaga).
  injection Hgen as <- _. destruct (negb (visible _ _)); [done|]. cbn in Hsaga.
  destruct (sagas d3 !! _) eqn:Hns; [done|]. injection Hsaga as <- Hg.
  unfold tables in Ht1, Ht3. cbn in Ht3. injection Ht1 as Ho1 Hs1 Hob1. injection Ht3 as Ho3 Hs3 Hob3.
  rewrite Ho1 in *. rewrite Hs3, Hs1 in Hns. split; [done|]. split.
  - exists o, g. cbn. rewrite Ho3, !lookup_insert_eq. subst o g. done.
  - split; cbn.
    + intros k' Hne. by rewrite Ho3, lookup_insert_ne.
    + intros k' Hne. by rewrite lookup_insert_ne, Hs3, Hs1.
    + exists []. by rewrite Hob3, Hob1, app_nil_r.
Qed.

(** The total of the lines. *)

Lemma order_total_sum lines :
  orderTotal lines = wrap64 (zsum (λ l, ln_Quantity l * ln_UnitPrice l) lines).
Proof.
  unfold orderTotal. induction lines as [|l lines IH] using rev_ind; [done|].
  rewrite foldl_app, zsum_app. cbn [foldl zsum]. rewrite IH, Z.add_0_r, wrap64_add_l.
  by rewrite Z.add_comm, wrap64_add_l, Z.add_comm.
Qed.

Lemma order_total_perm ls ls' : ls ≡ₚ ls' → orderTotal ls = orderTotal ls'.
Proof. intros Hp. by rewrite !order_total_sum, Hp. Qed.

(** The rows of the order. *)

Lemma insert_lines_rows t orderID lines s d d' u :
  foldM (insert_line t orderID) () lines s d = Ok (d', u) →
  ∃ new, order_lines d' = order_lines d ++ new ∧ pb_line <$> new = lines ∧
    Forall (λ r, ol_TenantID r = t ∧ ol_OrderID r = orderID) new.
Proof.
  destruct u. revert d. induction lines as [|l lines IH]; intros d Hrun.
  { injection Hrun as <-. exists []. by rewrite app_nil_r. }
  cbn [foldM] in Hrun. apply q_bind_ok in Hrun as (d1 & [] & Hl & Hrun).
  destruct (IH _ Hrun) as (new & E & Hpb & Hnew). clear Hrun IH.
  unfold insert_line in Hl. apply q_bind_ok in Hl as (d2 & row & Hl & Hret).
  injection Hret as ->. unfold InsertOrderLine in Hl. apply q_bind_ok in Hl as (d3 & uid & Hgen & Hl).
  injection Hgen as <- _. repeat case_match; simplify_eq/=.
  eexists (_ :: new). split; [rewrite E; by rewrite <- app_assoc|]. split; [|by constructor].
  rewrite fmap_cons. f_equal. by destruct l.
Qed.

Lemma create_rows t req total now d d' u :
  create_closure t req total (mkSession (RlsTenant (Some t)) now) d = Ok (d', u) →
  ∃ new g o, order_lines d' = order_lines d ++ new ∧ pb_line <$> new = co_Lines req ∧
    Forall (λ r, ol_TenantID r = t ∧ ol_OrderID r = co_OrderId req) new ∧
    sagas d' = <[(t, co_OrderId req) := g]> (sagas d) ∧ sg_IdempotencyKey g = co_IdempotencyKey req ∧
    orders d' = <[(t, co_OrderId req) := o]> (orders d) ∧ o_TotalAmount o = total.
Proof.
  intros Hrun. unfold create_closure in Hrun. apply q_bind_ok in Hrun as (d1 & [] & Hkey & Hrun).
  assert (sagas d1 = sagas d ∧ order_lines d1 = order_lines d ∧ orders d1 = orders d) as (Hs1 & Hl1 & Ho1).
  { destruct (bool_decide _); [by injection Hkey as <-|].
    apply q_bind_ok in Hkey as (d1' & r & Hat & Hkey). unfold attempt in Hat.
    destruct (CheckAndInsertIdempotencyKey _ _ _ _ _) as [[d2 k]|e] eqn:Hins; injection Hat as <- <-.
    - injection Hkey as <-. unfold CheckAndInsertIdempotencyKey, idem_insert in Hins.
      repeat case_match; simplify_eq. done.
    - by destruct (errors_Is e ErrNoRows). }
  clear Hkey. apply q_bind_ok in Hrun as (d2 & o & Hord & Hrun).
  unfold UpsertOrder in Hord. apply q_bind_ok in Hord as (d2' & uid & Hgen & Hord). injection Hgen as <- _.
  destruct (negb (visible _ _)); [done|]. destruct (check_order _ _); [|done].
  destruct (orders _ !! _); [done|]. injection Hord as <- Ho.
  apply q_bind_ok in Hrun as (d3 & [] & Hlines & Hrun). apply insert_lines_tables in Hlines as Ht3.
  apply insert_lines_rows in Hlines as (new & Hl3 & Hpb & Hnew).
  apply q_bind_ok in Hrun as (d4 & g & Hsaga & Hrun). injection Hrun as <- _.
  unfold UpsertSagaInstance in Hsaga. apply q_bind_ok in Hsaga as (d5 & uid' & Hgen & Hsaga).
  injection Hgen as <- _. destruct (negb (visible _ _)); [done|]. cbn in Hsaga.
  destruct (sagas d3 !! _); [done|]. injection Hsaga as <- Hg.
  unfold tables in Ht3. cbn in Ht3, Hl3. injection Ht3 as Ho3 Hs3 _.
  exists new, g, o. cbn. rewrite Hl3, Hl1, Hs3, Hs1, Hg, Ho3, Ho1, Ho. repeat split; try done; [by rewrite <- Hg|by rewrite <- Ho].
Qed.

(** Reading a saga changes nothing. *)
Lemma read_saga env ctx tid t orderID `{Inhabited SagaInstance} w w' r :
  ctx_tenant ctx = Some tid → uuid_scan tid = Some t →
  order_tx env ctx (GetSagaInstance orderID) w = (w', r) →
  w' = w ∧ match r with Ok g => sagas (ow_db w) !! (t, orderID) = Some g | Err _ => True end.
Proof.
  intros Hctx Ht Hrun. destruct (order_tx_spec _ _ _ _ _ _ _ Hctx Hrun) as (d' & -> & Hr).
  unfold GetSagaInstance, row_of in Hr. rewrite Ht in Hr. cbn [s_rls] in Hr.
  destruct r as [g|e].
  - destruct (sagas (ow_db w) !! (t, orderID)); simplify_eq. by rewrite with_db_same.
  - split; [|done]. destruct Hr as [->|[g Hg]]; [by rewrite with_db_same|].
    destruct (sagas (ow_db w) !! (t, orderID)); simplify_eq. by rewrite with_db_same.
Qed.

(** The effect of CreateOrder. *)
Lemma create_effect env ctx req w :
  ∀ k, key_effect k (ow_db w) (ow_db (CreateOrder env ctx req w).1).
Proof.
  unfold CreateOrder, ParseUUID. intros k.
  assert (key_effect k (ow_db w) (ow_db w)) as Hid by by apply ke_same.
  destruct (uuid_scan (co_TenantId req)) as [t|] eqn:Ht; [|done].
  repeat (case_match; [done|]). bprop.
  destruct (createOrderRow _ _ _ _ _ w) as [w1 r] eqn:Hc.
  destruct (order_tx_spec (se_tx env PtCreate) (WithTenantID ctx (co_TenantId req)) _ _ (co_TenantId req) _ _ eq_refl Hc)
    as (d1 & -> & Hr). rewrite Ht in Hr.
  assert (d1 = ow_db w ∨ absent (t, co_OrderId req) (ow_db w) ∧ in_flight (t, co_OrderId req) d1 ∧
            moved (t, co_OrderId req) 0 (ow_db w) d1) as Hd1.
  { destruct r as [u|e]; [right; eapply create_inv; [|exact Hr]; lia|].
    destruct Hr as [->|[u Hu]]; [by left|]. right. eapply create_inv; [|exact Hu]; lia. }
  assert (key_effect k (ow_db w) d1) as Hk1.
  { destruct Hd1 as [->|(Ha & Hf & Hm)]; [done|]. revert k Hid. intros k _.
    apply (effect_of_move _ _ _ _ Hm). apply ke_saga; [by left|by apply in_flight_settled|].
    by rewrite (moved_count _ _ _ _ Hm), Nat.add_0_r. }
  destruct r as [u|e].
  - destruct (runSaga _ _ _ _) as [w2 r2] eqn:Hrun. cbn [fst].
    destruct Hd1 as [->|(Ha & Hf & Hm)].
    { exfalso. destruct (create_inv t req (orderTotal (co_Lines req)) _ _ _ _ ltac:(lia) Hr) as ([Ha _] & (o & g & Ho & _) & _).
      congruence. }
    apply run_effect in Hrun as [Hs2 Hm2]; [|done..]. cbn in Hs2, Hm2.
    pose proof (moved_trans _ _ _ _ _ _ Hm Hm2) as Hm3.
    apply (effect_of_move _ _ _ _ Hm3). apply ke_saga; [by left|done|].
    by rewrite (moved_count _ _ _ _ Hm3), Nat.add_0_r.
  - destruct (errors_Is e _); [|done]. unfold replayCreateOrder.
    destruct (order_tx _ _ _ _) as [w2 r2] eqn:Hrep. apply (read_saga _ _ (co_TenantId req) t) in Hrep as [-> _];
      [|done..]. by destruct r2.
Qed.

(** ** The other handlers *)

Lemma get_order_inv t now orderID d d' o :
  get_order_or_not_found orderID (mkSession (RlsTenant (Some t)) now) d = Ok (d', o) →
  d' = d ∧ orders d !! (t, orderID) = Some o.
Proof.
  unfold get_order_or_not_found, attempt, mbind, Q_bind, GetOrderById, row_of. cbn [s_rls].
  destruct (orders d !! (t, orderID)); [by intros [= <- <-]|done].
Qed.

Lemma get_effect env ctx req w : ow_db (GetOrder env ctx req w).1 = ow_db w.
Proof.
  unfold GetOrder, ParseUUID. destruct (uuid_scan (go_TenantId req)) as [t|] eqn:Ht; [|done].
  destruct (order_tx _ _ _ _) as [w' r] eqn:Hrun.
  destruct (order_tx_spec _ (WithTenantID ctx (go_TenantId req)) _ _ _ _ _ eq_refl Hrun) as (d' & -> & Hr).
  assert (∀ a, get_closure req (mkSession (RlsTenant (uuid_scan (go_TenantId req))) (tx_now env)) (ow_db w)
               = Ok (d', a) → d' = ow_db w) as Hinv.
  { rewrite Ht. intros a Ha. unfold get_closure in Ha. apply q_bind_ok in Ha as (d1 & o & Ho & Ha).
    apply get_order_inv in Ho as [-> _]. apply q_bind_ok in Ha as (d2 & ls & Hl & Ha). injection Hl as <- _.
    apply q_bind_ok in Ha as (d3 & g & Hg & Ha). injection Ha as <- _. unfold GetSagaInstance in Hg.
    by destruct (row_of _ _ _); simplify_eq. }
  destruct r; [by eapply Hinv|]. destruct Hr as [->|[a Ha]]; [done|]. by eapply Hinv.
Qed.

Lemma status_of_inv state status :
  status_of state = Some status →
  (state = SagaPendingPayment ∨ state = SagaReserved) ∧ status = OrderPending ∨
  state = SagaConfirmed ∧ status = OrderConfirmed ∨
  state = SagaCompensated ∧ status = OrderCompensated ∨ state = SagaFailed ∧ status = OrderFailed.
Proof.
  unfold status_of. intros Hst.
  repeat match type of Hst with
  | (if bool_decide (state = ?s) then _ else _) = _ => destruct (decide (state = s)) as [->|];
      [rewrite bool_decide_true in Hst by done; injection Hst as <-; tauto
      |rewrite bool_decide_false in Hst by done]
  end. done.
Qed.

(** A saga that is not over is in flight. *)
Lemma wf_in_flight d k g :
  key_ok k d → sagas d !! k = Some g →
  sg_State g ≠ SagaConfirmed → sg_State g ≠ SagaCompensated → sg_State g ≠ SagaFailed → in_flight k d.
Proof.
  intros Hwf Hg H1' H2' H3'. unfold key_ok in Hwf. rewrite Hg in Hwf.
  destruct (orders d !! k) as [o|] eqn:Ho; [|done]. destruct Hwf as ([Hst|[? _]] & Htot & _); [|done].
  apply status_of_inv in Hst as [[Hs Ho']|[[? _]|[[? _]|[? _]]]]; [|done..]. exists o, g.
  do 3 (split; [done|]). split; [|done]. unfold resumable.
  destruct Hs as [->| ->]; by rewrite ?bool_decide_true, ?orb_true_r by done.
Qed.

Lemma cancel_effect env ctx req w :
  saga_wf (ow_db w) → ∀ k, key_effect k (ow_db w) (ow_db (CancelOrder env ctx req w).1).
Proof.
  intros Hwf k. unfold CancelOrder, ParseUUID.
  assert (key_effect k (ow_db w) (ow_db w)) as Hid by by apply ke_same.
  destruct (uuid_scan (ca_TenantId req)) as [t|] eqn:Ht; [|done].
  destruct (getSaga _ _ _ _) as [w1 r1] eqn:Hg.
  apply (read_saga _ _ (ca_TenantId req) t) in Hg as [-> Hg]; [|done..].
  destruct r1 as [g|e]; [|done].
  repeat (case_match; [done|]). bprop.
  repeat match goal with Hx : bool_decide _ = false |- _ => apply bool_decide_eq_false in Hx end.
  pose proof (wf_in_flight _ _ _ (Hwf _) Hg) as Hfl.
  destruct (compensate _ _ _ _ _ _) as [w2 r2] eqn:Hc.
  destruct (compensate_spec _ (WithTenantID ctx (ca_TenantId req)) _ _ _ _ _ _ _ eq_refl Ht Hc)
    as (x' & rel & d' & _ & -> & Hd').
  assert (key_effect k (ow_db w) d') as Hk.
  { destruct Hd' as [[_ ->]|(_ & o & g' & Htr)]; [done|].
    destruct (end_tx_settled (WithTenantID ctx (ca_TenantId req)) t (ca_OrderId req) (ow_db w) d')
      as [Hs Hm]; [by apply in_flight_settled, Hfl|by eapply end_transition; [|done]|].
    apply (effect_of_move _ _ _ _ Hm). apply ke_saga; [right; by apply Hfl|done|].
    by rewrite (moved_count _ _ _ _ Hm), Nat.add_0_r. }
  by destruct r2.
Qed.

(** ** FulfillOrder *)

(** The rows and the event of a fulfilment. *)
Record fulfilled_effect (ctx : Ctx) (t : uuid) (req : FulfillOrderRequest) (now : Z) (o : Order) (d d' : OrderDB)
  : Prop := {
  fe_orders : orders d' =
    <[(t, fo_OrderId req) := with_status now OrderFulfilled (o_TransactionID o) o]> (orders d);
  fe_sagas : sagas d' = sagas d;
  fe_lines : order_lines d' = order_lines d;
  fe_idem : ord_idem d' =
    if bool_decide (fo_IdempotencyKey req = "") then ord_idem d
    else <[(t, fo_IdempotencyKey req) := mkIdemRow (payload_hash req) now]> (ord_idem d);
  fe_outbox : ob <$> ord_outbox d' = (ob <$> ord_outbox d) ++
    [order_event ctx t (fo_OrderId req) "order.fulfilled"
       (marshalOrderEvent OrderFulfilled (fo_OrderId req) (o_TotalAmount o)
          (ev_line <$> merge_sort ol_le
             (filter (λ l, visible (mkSession (RlsTenant (Some t)) now) (ol_TenantID l) = true ∧
                           ol_OrderID l = fo_OrderId req) (order_lines d))))];
}.

(** What the request's key says: not seen, or the hash stored under it. *)
Definition stored_hash (t : uuid) (key : string) (d : OrderDB) : option string :=
  if bool_decide (key = "") then None else idem_hash <$> ord_idem d !! (t, key).

(** The decision of FulfillOrder: replay, refuse, or fulfil. *)
Inductive fulfil_case := FulfilReplay | FulfilRefuse (c : code) | FulfilDo (o : Order).

Definition fulfil_decision (t : uuid) (req : FulfillOrderRequest) (d : OrderDB) : fulfil_case :=
  match orders d !! (t, fo_OrderId req) with
  | None => FulfilRefuse NotFound
  | Some o =>
      match stored_hash t (fo_IdempotencyKey req) d with
      | Some h =>
          if (bool_decide (o_Status o = OrderFulfilled) || bool_decide (o_Status o = OrderConfirmed)) &&
             bool_decide (h = payload_hash req)
          then FulfilReplay else FulfilRefuse FailedPrecondition
      | None => if bool_decide (o_Status o = OrderConfirmed) then FulfilDo o else FulfilRefuse FailedPrecondition
      end
  end.

Lemma attempt_ok {D A} (m : Q D A) s d d' a : m s d = Ok (d', a) → attempt m s d = Ok (d', Ok a).
Proof. unfold attempt. by intros ->. Qed.

Lemma attempt_err {D A} (m : Q D A) s d e : m s d = Err e → attempt m s d = Ok (d, Err e).
Proof. unfold attempt. by intros ->. Qed.

Lemma get_idem_run t now key d :
  GetIdempotencyKey t key (mkSession (RlsTenant (Some t)) now) d =
  match ord_idem d !! (t, key) with Some row => Ok (d, idem_hash row) | None => Err ErrNoRows end.
Proof. unfold GetIdempotencyKey, visible. cbn [s_rls]. by rewrite bool_decide_true. Qed.

Lemma check_idem_run t now key hash d :
  CheckAndInsertIdempotencyKey t key hash (mkSession (RlsTenant (Some t)) now) d =
  match ord_idem d !! (t, key) with
  | Some row => Err ErrNoRows
  | None => Ok (set_idem (<[(t, key) := mkIdemRow hash now]> (ord_idem d)) d, key)
  end.
Proof.
  unfold CheckAndInsertIdempotencyKey, idem_insert, visible. cbn [s_rls]. by rewrite bool_decide_true.
Qed.

Lemma fulfill_now_run ctx t req o now d :
  orders d !! (t, fo_OrderId req) = Some o → 0 <= o_TotalAmount o →
  ∃ d', fulfill_now ctx t req o (mkSession (RlsTenant (Some t)) now) d = Ok (d', fulfilled_answer) ∧
    orders d' = <[(t, fo_OrderId req) := with_status now OrderFulfilled (o_TransactionID o) o]> (orders d) ∧
    sagas d' = sagas d ∧ order_lines d' = order_lines d ∧ ord_idem d' = ord_idem d ∧
    ob <$> ord_outbox d' = (ob <$> ord_outbox d) ++
    [order_event ctx t (fo_OrderId req) "order.fulfilled"
       (marshalOrderEvent OrderFulfilled (fo_OrderId req) (o_TotalAmount o)
          (ev_line <$> merge_sort ol_le
             (filter (λ l, visible (mkSession (RlsTenant (Some t)) now) (ol_TenantID l) = true ∧
                           ol_OrderID l = fo_OrderId req) (order_lines d))))].
Proof.
  intros Ho Htot. unfold fulfill_now, mbind, Q_bind. unfold GetOrderLines at 1.
  rewrite (update_status_run _ _ _ _ _ _ o) by done.
  unfold InsertOutboxEvent, outbox_insert, gen_random_uuid, mbind, Q_bind, visible at 1. cbn [s_rls].
  rewrite bool_decide_true by done. eexists. split; [done|]. cbn [orders sagas order_lines ord_idem ord_outbox].
  repeat split. cbn. by rewrite fmap_app.
Qed.

(** The key of a request on an order that is CONFIRMED. *)
Lemma fulfill_key_run t req now d :
  let s := mkSession (RlsTenant (Some t)) now in
  match stored_hash t (fo_IdempotencyKey req) d with
  | Some h =>
      if bool_decide (h = payload_hash req) then fulfill_key t req s d = Ok (d, true)
      else ∃ msg, fulfill_key t req s d = Err (ErrStatus FailedPrecondition msg)
  | None =>
      fulfill_key t req s d =
      Ok (if bool_decide (fo_IdempotencyKey req = "") then d
          else set_idem (<[(t, fo_IdempotencyKey req) := mkIdemRow (payload_hash req) now]> (ord_idem d)) d, false)
  end.
Proof.
  cbn zeta. unfold stored_hash, fulfill_key. destruct (bool_decide (fo_IdempotencyKey req = "")) eqn:Hkey; [done|].
  unfold mbind, Q_bind. pose proof (check_idem_run t now (fo_IdempotencyKey req) (payload_hash req) d) as Hci.
  pose proof (get_idem_run t now (fo_IdempotencyKey req) d) as Hgi.
  destruct (ord_idem d !! (t, fo_IdempotencyKey req)) as [row|]; cbn [fmap option_fmap option_map].
  - rewrite (attempt_err _ _ _ _ Hci). change (errors_Is ErrNoRows ErrNoRows) with true. cbv beta match.
    rewrite Hgi. destruct (bool_decide (idem_hash row = payload_hash req)); [done|by eexists].
  - by rewrite (attempt_ok _ _ _ _ _ Hci).
Qed.

(** The same on an order that is FULFILLED. *)
Lemma fulfill_replay_run t req now d :
  let s := mkSession (RlsTenant (Some t)) now in
  if match stored_hash t (fo_IdempotencyKey req) d with
     | Some h => bool_decide (h = payload_hash req)
     | None => false
     end
  then fulfill_replay t req s d = Ok (d, fulfilled_answer)
  else ∃ msg, fulfill_replay t req s d = Err (ErrStatus FailedPrecondition msg).
Proof.
  cbn zeta. unfold stored_hash, fulfill_replay.
  destruct (bool_decide (fo_IdempotencyKey req = "")) eqn:Hkey; [by eexists|].
  unfold mbind, Q_bind. pose proof (get_idem_run t now (fo_IdempotencyKey req) d) as Hgi.
  destruct (ord_idem d !! (t, fo_IdempotencyKey req)) as [row|]; cbn [fmap option_fmap option_map].
  - rewrite (attempt_ok _ _ _ _ _ Hgi).
    destruct (bool_decide (idem_hash row = payload_hash req)); [done|by eexists].
  - rewrite (attempt_err _ _ _ _ Hgi). change (errors_Is ErrNoRows ErrNoRows) with true. by eexists.
Qed.

(** An update of a row that its CHECK refuses changes nothing. *)
Lemma fulfill_negative ctx t req now d d' a o :
  orders d !! (t, fo_OrderId req) = Some o → o_TotalAmount o < 0 →
  fulfill_closure ctx t req (mkSession (RlsTenant (Some t)) now) d = Ok (d', a) → d' = d.
Proof.
  intros Ho Htot. unfold fulfill_closure, get_order_or_not_found. intros Hrun.
  apply q_bind_ok in Hrun as (d1 & o1 & Hget & Hrun).
  pose proof (get_order_run t now (fo_OrderId req) d) as Hg. rewrite Ho in Hg.
  unfold mbind, Q_bind in Hget. rewrite (attempt_ok _ _ _ _ _ Hg) in Hget. injection Hget as <- <-.
  pose proof (fulfill_replay_run t req now d) as Hrep. pose proof (fulfill_key_run t req now d) as Hk.
  cbn zeta in Hrep, Hk. destruct (bool_decide (o_Status o = OrderFulfilled)).
  { destruct (match stored_hash _ _ _ with Some _ => _ | None => _ end); [|destruct Hrep as [msg Hm]]; congruence. }
  destruct (negb _); [done|]. apply q_bind_ok in Hrun as (d2 & b & Hkey & Hrun).
  destruct (stored_hash _ _ _) as [h|].
  { destruct (bool_decide (h = _)); [|destruct Hk as [msg Hm]; congruence].
    rewrite Hk in Hkey. injection Hkey as <- <-. by injection Hrun as <-. }
  rewrite Hk in Hkey. injection Hkey as <- <-. unfold fulfill_now in Hrun.
  apply q_bind_ok in Hrun as (d3 & ls & Hls & Hrun). injection Hls as <- _.
  apply q_bind_ok in Hrun as (d4 & o4 & Hup & _). unfold UpdateOrderStatus, row_of, update_rows, check_order in Hup.
  cbn [s_rls s_now] in Hup. assert (∀ d2 : OrderDB, orders d2 = orders d → orders d2 !! (t, fo_OrderId req) = Some o) as Hd2
    by by intros ? ->.
  rewrite Hd2 in Hup by by destruct (bool_decide _). cbn [with_status o_TotalAmount o_Status] in Hup.
  rewrite (proj2 (Z.ltb_lt _ _) Htot) in Hup. by rewrite ?andb_false_r, ?orb_true_r in Hup.
Qed.

Lemma wf_total d k o : saga_wf d → orders d !! k = Some o → 0 <= o_TotalAmount o.
Proof. intros Hwf Ho. specialize (Hwf k). unfold key_ok in Hwf. rewrite Ho in Hwf. destruct (sagas d !! k); naive_solver. Qed.

Lemma fulfill_run ctx t req now d :
  (∀ o, orders d !! (t, fo_OrderId req) = Some o → 0 <= o_TotalAmount o) →
  match fulfil_decision t req d with
  | FulfilReplay => fulfill_closure ctx t req (mkSession (RlsTenant (Some t)) now) d = Ok (d, fulfilled_answer)
  | FulfilRefuse c =>
      ∃ msg, fulfill_closure ctx t req (mkSession (RlsTenant (Some t)) now) d = Err (ErrStatus c msg)
  | FulfilDo o =>
      orders d !! (t, fo_OrderId req) = Some o ∧ o_Status o = OrderConfirmed ∧
      ∃ d', fulfill_closure ctx t req (mkSession (RlsTenant (Some t)) now) d = Ok (d', fulfilled_answer) ∧
        fulfilled_effect ctx t req now o d d'
  end.
Proof.
  intros Hwf. unfold fulfil_decision, fulfill_closure, get_order_or_not_found. unfold mbind, Q_bind.
  pose proof (get_order_run t now (fo_OrderId req) d) as Hget.
  destruct (orders d !! (t, fo_OrderId req)) as [o|] eqn:Ho; [|rewrite (attempt_err _ _ _ _ Hget); by eexists].
  pose proof (Hwf o eq_refl) as Htot. clear Hwf.
  rewrite (attempt_ok _ _ _ _ _ Hget). unfold mret, Q_ret.
  pose proof (fulfill_replay_run t req now d) as Hrep. pose proof (fulfill_key_run t req now d) as Hk.
  cbn zeta in Hrep, Hk. destruct (decide (o_Status o = OrderFulfilled)) as [Hf|Hf].
  - rewrite Hf, !bool_decide_true by done. cbn [orb andb].
    destruct (stored_hash _ _ _) as [h|]; [|done]. by destruct (bool_decide (h = _)).
  - rewrite (bool_decide_false _ Hf). cbn [orb]. destruct (decide (o_Status o = OrderConfirmed)) as [Hc|Hc].
    + rewrite (bool_decide_true _ Hc). cbn [negb andb].
      destruct (stored_hash _ _ _) as [h|].
      * destruct (bool_decide (h = _)); [by rewrite Hk|]. destruct Hk as [msg ->]. by eexists.
      * rewrite Hk. do 2 (split; [done|]).
        set (d1 := if bool_decide (fo_IdempotencyKey req = "") then d else _).
        assert (orders d1 = orders d ∧ sagas d1 = sagas d ∧ order_lines d1 = order_lines d ∧
                ord_outbox d1 = ord_outbox d) as (E1 & E2 & E3 & E4) by (subst d1; by destruct (bool_decide _)).
        destruct (fulfill_now_run ctx t req o now d1) as (d' & Hrun & F1 & F2 & F3 & F4 & F5);
          [by rewrite E1|done|]. exists d'. split; [done|]. rewrite E1, E2, E3, E4 in *. split; try done.
        rewrite F4. subst d1. by destruct (bool_decide _).
    + rewrite (bool_decide_false _ Hc). cbn [negb andb].
      destruct (stored_hash _ _ _) as [h|]; by eexists.
Qed.

Lemma fulfilled_moved ctx t req now o d d' :
  fulfilled_effect ctx t req now o d d' → moved (t, fo_OrderId req) 1 d d'.
Proof.
  intros [Ho Hg _ _ Hob]. split.
  - intros k' Hne. by rewrite Ho, lookup_insert_ne.
  - intros k' Hne. by rewrite Hg.
  - eexists. split; [exact Hob|]. split; [by repeat constructor|]. unfold is_fulfilled.
    rewrite filter_cons_True; [done|]. cbn [order_event ob_TenantID ob_AggregateID ob_EventType].
    by rewrite !bool_decide_true by done.
Qed.

Lemma FulfillOrder_cases env ctx req w :
  let d' := ow_db (FulfillOrder env ctx req w).1 in
  d' = ow_db w ∨ ∃ t o, uuid_scan (fo_TenantId req) = Some t ∧
    orders (ow_db w) !! (t, fo_OrderId req) = Some o ∧ o_Status o = OrderConfirmed ∧
    fulfilled_effect (WithTenantID ctx (fo_TenantId req)) t req (tx_now env) o (ow_db w) d'.
Proof.
  unfold FulfillOrder, ParseUUID.
  destruct (uuid_scan (fo_TenantId req)) as [t|] eqn:Ht; [|by left].
  destruct (order_tx _ _ _ _) as [w' r] eqn:Hrun.
  destruct (order_tx_spec _ (WithTenantID ctx (fo_TenantId req)) _ _ _ _ _ eq_refl Hrun) as (d' & -> & Hr).
  rewrite Ht in Hr. cbn [fst ow_db with_db].
  assert (d' = ow_db w ∨ ∃ a, fulfill_closure (WithTenantID ctx (fo_TenantId req)) t req
            (mkSession (RlsTenant (Some t)) (tx_now env)) (ow_db w) = Ok (d', a)) as [->|[a Ha]];
    [destruct r; naive_solver|by left|].
  assert (d' = ow_db w ∨ ∀ o, orders (ow_db w) !! (t, fo_OrderId req) = Some o → 0 <= o_TotalAmount o) as [->|Htot];
    [|by left|].
  { destruct (orders (ow_db w) !! _) as [o|] eqn:Ho; [|by right]. destruct (decide (o_TotalAmount o < 0)).
    - left. by eapply fulfill_negative.
    - right. intros o' [= <-]. lia. }
  pose proof (fulfill_run (WithTenantID ctx (fo_TenantId req)) t req (tx_now env) _ Htot) as Hcase.
  destruct (fulfil_decision _ _ _) as [|c|o].
  - rewrite Hcase in Ha. injection Ha as <- _. by left.
  - destruct Hcase as [msg Hm]. by rewrite Hm in Ha.
  - destruct Hcase as (Ho & Hst & d2 & Hd2 & He). rewrite Hd2 in Ha. injection Ha as -> _. right. eauto 10.
Qed.

Lemma fulfill_effect env ctx req w :
  ∀ k, key_effect k (ow_db w) (ow_db (FulfillOrder env ctx req w).1).
Proof.
  intros k. destruct (FulfillOrder_cases env ctx req w) as [->|(t & o & _ & Ho & Hst & He)];
    [by apply ke_same|].
  pose proof (fulfilled_moved _ _ _ _ _ _ _ He) as Hm. apply (effect_of_move _ _ _ _ Hm).
  apply (ke_fulfil _ _ _ o (tx_now env)); [done|done| | |].
  - by rewrite (fe_orders _ _ _ _ _ _ _ He), lookup_insert_eq.
  - by rewrite (fe_sagas _ _ _ _ _ _ _ He).
  - rewrite (moved_count _ _ _ _ Hm). lia.
Qed.

(** ** The resumption of interrupted sagas *)

Lemma effect_same_r k d d1 d' : key_effect k d d1 → key_same k d1 d' → key_effect k d d'.
Proof.
  intros Hk (Eo & Eg & Ee). destruct Hk as [(So & Sg & Se)|Hpre (o & g & Ho & Hg & Hst) Hev|o now Ho Hst Ho' Hg Hev].
  - apply ke_same. split; [congruence|]. split; congruence.
  - apply ke_saga; [done| |congruence]. exists o, g. by rewrite Eo, Eg.
  - apply (ke_fulfil _ _ _ o now); congruence.
Qed.

Lemma effect_same_l k d d1 d' : key_same k d d1 → key_effect k d1 d' → key_effect k d d'.
Proof.
  intros (Eo & Eg & Ee) Hk. destruct Hk as [(So & Sg & Se)|Hpre Hset Hev|o now Ho Hst Ho' Hg Hev].
  - apply ke_same. split; [congruence|]. split; congruence.
  - apply ke_saga; [|done|congruence]. unfold absent, in_flight in *. by rewrite <- Eo, <- Eg.
  - apply (ke_fulfil _ _ _ o now); congruence.
Qed.

Lemma key_same_trans k d d1 d' : key_same k d d1 → key_same k d1 d' → key_same k d d'.
Proof. intros (? & ? & ?) (? & ? & ?). split; [congruence|]. split; congruence. Qed.

Lemma in_flight_same k d d' : key_same k d d' → in_flight k d → in_flight k d'.
Proof. intros (Eo & Eg & _) (o & g & Ho & Hg & Hr). exists o, g. by rewrite Eo, Eg. Qed.

(** Loading the lines of an order changes nothing. *)
Lemma load_same env ctx tid orderID w w' r :
  order_tx env (WithTenantID ctx tid) (GetOrderLines orderID) w = (w', r) → w' = w.
Proof.
  intros Hload. destruct (order_tx_spec _ (WithTenantID ctx tid) _ _ _ _ _ eq_refl Hload) as (d1 & -> & Hr).
  assert (d1 = ow_db w) as ->; [|apply with_db_same].
  destruct r as [ls|e]; [by injection Hr|]. by destruct Hr as [?|[ls [= -> _]]].
Qed.

Lemma resume_one_effect `{!UuidTextLaws} env ctx k g w :
  in_flight k (ow_db w) →
  key_effect k (ow_db w) (ow_db (resume_one env ctx (k, g) w).1) ∧
  ∀ k', k' ≠ k → key_same k' (ow_db w) (ow_db (resume_one env ctx (k, g) w).1).
Proof.
  intros Hfl. destruct k as [t orderID]. unfold resume_one.
  destruct (order_tx _ _ _ _) as [w1 r] eqn:Hload.
  apply load_same in Hload as ->. destruct r as [got|e]; [|split; [by apply ke_same|done]].
  destruct (runSaga _ _ _ _) as [w2 r2] eqn:Hrun.
  apply run_effect in Hrun as [Hs Hm]; [|done|apply uuid_scan_string|done]. cbn [fst snd in_TenantUUID in_OrderID] in *.
  split; [|intros k' Hne; by eapply moved_other].
  apply ke_saga; [by right|done|]. by rewrite (moved_count _ _ _ _ Hm), Nat.add_0_r.
Qed.

Lemma resume_rows_effect `{!UuidTextLaws} env ctx (rows : list (okey * SagaInstance)) w :
  NoDup rows.*1 → Forall (λ row, in_flight row.1 (ow_db w)) rows →
  ∀ k, (k ∈ rows.*1 → key_effect k (ow_db w) (ow_db (resume_rows env ctx rows w).1)) ∧
       (k ∉ rows.*1 → key_same k (ow_db w) (ow_db (resume_rows env ctx rows w).1)).
Proof.
  revert w. induction rows as [|[k0 g] rows IH]; intros w Hnd Hall k.
  { split; [by intros ?%elem_of_nil|done]. }
  rewrite fmap_cons, NoDup_cons in Hnd. destruct Hnd as [Hk0 Hnd]. cbn [fst] in Hk0.
  rewrite Forall_cons in Hall. destruct Hall as [Hfl Hall]. cbn [fst] in Hfl.
  destruct (resume_one_effect (env k0) ctx k0 g w Hfl) as [He1 Ho1].
  cbn [resume_rows fst]. destruct (resume_one (env k0) ctx (k0, g) w) as [w1 [[]|e]]; cbn [fst] in *.
  - assert (Forall (λ row, in_flight row.1 (ow_db w1)) rows) as Hall1.
    { rewrite Forall_forall in Hall |- *. intros row Hrow. eapply in_flight_same; [|by apply Hall].
      apply Ho1. intros <-. apply Hk0. by apply list_elem_of_fmap_2. }
    destruct (IH w1 Hnd Hall1 k) as [IHin IHout]. rewrite fmap_cons. cbn [fst]. split.
    + intros [->|Hin]%elem_of_cons; [by eapply effect_same_r; [|by apply IHout]|].
      eapply effect_same_l; [|by apply IHin]. apply Ho1. by intros ->.
    + intros [Hne Hnin]%not_elem_of_cons. eapply key_same_trans; [by apply Ho1|by apply IHout].
  - rewrite fmap_cons. cbn [fst]. split.
    + intros [->|Hin]%elem_of_cons; [done|]. apply ke_same, Ho1. by intros ->.
    + intros [Hne Hnin]%not_elem_of_cons. by apply Ho1.
Qed.

Lemma resume_effect `{!UuidTextLaws} scan locked env ctx limit w :
  saga_wf (ow_db w) → ∀ k, key_effect k (ow_db w) (ow_db (ResumePendingSagas scan locked env ctx limit w).1).
Proof.
  intros Hwf k. unfold ResumePendingSagas, ExecTxNoTenant.
  assert (key_effect k (ow_db w) (ow_db w)) as Hid by by apply ke_same.
  destruct (tx_begin_err scan); [done|]. unfold tx_run. destruct (tx_conn_err scan); [done|].
  unfold tx_body, GetResumableSagas. cbn [s_rls].
  destruct (tx_commit scan); [|done..]. rewrite with_db_same.
  set (rows := take _ _).
  assert (∀ row, row ∈ rows → in_flight row.1 (ow_db w)) as Hrows.
  { intros [k' g] Hin. apply subseteq_take in Hin. rewrite merge_sort_Permutation in Hin.
    apply list_elem_of_filter in Hin as [(_ & Hres & _) Hin]. apply elem_of_map_to_list in Hin. cbn in *.
    unfold resumable in Hres. apply orb_prop in Hres as [Hs|Hs]; apply bool_decide_eq_true in Hs;
      (eapply wf_in_flight; [apply Hwf|exact Hin|rewrite Hs; done..]). }
  assert (NoDup rows.*1) as Hnd.
  { eapply sublist_NoDup; [|apply sublist_fmap, sublist_take]. rewrite merge_sort_Permutation.
    eapply sublist_NoDup; [|apply sublist_fmap, sublist_filter]. apply NoDup_fst_map_to_list. }
  destruct (resume_rows_effect env ctx rows w Hnd (proj2 (Forall_forall _ _) Hrows) k) as [Hin Hout].
  destruct (decide (k ∈ rows.*1)); [by apply Hin|by apply ke_same, Hout].
Qed.

(** Every handler, on every order. *)
Lemma order_run_effect `{!UuidTextLaws} op w :
  saga_wf (ow_db w) → ∀ k, key_effect k (ow_db w) (ow_db (order_run w op)).
Proof.
  intros Hwf. destruct op; cbn [order_run].
  - apply create_effect.
  - intros k. rewrite get_effect. by apply ke_same.
  - by apply cancel_effect.
  - apply fulfill_effect.
  - by apply resume_effect.
Qed.

Lemma key_effect_ok k d d' : key_ok k d → key_effect k d d' → key_ok k d'.
Proof.
  unfold key_ok. intros Hok [(Eo & Eg & Ee)|Hpre (o & g & Ho & Hg & Hst & Htot) Hev|o now Ho Hst Ho' Hg Hev].
  - by rewrite Eo, Eg, Ee.
  - rewrite Ho, Hg. split; [by left|]. split; [done|]. rewrite bool_decide_false.
    + rewrite Hev. destruct Hpre as [[Ho0 Hg0]|(o0 & g0 & Ho0 & Hg0 & Hst0 & _)]; rewrite Ho0, Hg0 in Hok; [done|].
      destruct Hok as (_ & _ & ->). by rewrite Hst0.
    + intros Hful. rewrite Hful in Hst. apply status_of_inv in Hst. naive_solver.
  - rewrite Ho', Hg. rewrite Ho in Hok. destruct (sagas d !! k) as [g|]; [|done].
    destruct Hok as (Hpair & Htot & Hn). split; [|split; [done|]].
    + right. split; [|done]. destruct Hpair as [Hs|[Hs _]]; [|done]. rewrite Hst in Hs.
      apply status_of_inv in Hs. naive_solver.
    + rewrite Hev, Hn, Hst. done.
Qed.

Lemma order_run_wf `{!UuidTextLaws} op w : saga_wf (ow_db w) → saga_wf (ow_db (order_run w op)).
Proof. intros Hwf k. by eapply key_effect_ok, order_run_effect. Qed.

Lemma empty_saga_wf n : saga_wf (mkOrderDB ∅ [] ∅ [] ∅ n).
Proof. intros k. unfold key_ok. cbn [orders sagas]. by rewrite !lookup_empty. Qed.

(** ** Theorems *)

(** Whatever requests the order service handles, one after another, whatever
    the database, the network and the other services do to them, crashed runs
    being resumed or not: every order has its saga, the order's status is the
    one its saga's state stands for (or FULFILLED once the saga is CONFIRMED),
    its total is not negative, and the outbox holds exactly one order.fulfilled
    event for each fulfilled order and none for any other. *)
Theorem orders_stay_consistent `{!UuidTextLaws} (ops : list order_op) w :
  saga_wf (ow_db w) → saga_wf (ow_db (foldl order_run w ops)).
Proof.
  revert w. induction ops as [|op ops IH]; intros w Hwf; [done|]. cbn [foldl]. by apply IH, order_run_wf.
Qed.



End Invariant.
