(* ===== verification/OrderRequests.v ===== *)
(** * Requests of the order service, one by one and in sequence

    What a repeated CreateOrder and a CancelOrder do in each situation, and
    how often an order is charged over a history of requests. *)

From S2P Require Import Prelude Database StockApi StockClient ReservationService CircuitBreaker Payment.
From S2P Require Import OrderDb OrderService OrderSteps OrderSaga OrderProps OrderInvariant.

Section Requests.
Context `{UuidText} `{OrderHashes} `{ErrorText} {X : Type} `{StockClient X} `{ReservationClient X}.
Context `{!UuidTextLaws}.
Implicit Types w : OrderWorld X.

(** ** Specification *)

(** What CreateOrder asks of a request before it touches the database. *)
Definition create_valid (req : CreateOrderRequest) : bool :=
  negb (bool_decide (co_OrderId req = "")) && negb (bool_decide (length (co_Lines req) = 0%nat)) &&
  (0 <? orderTotal (co_Lines req)).

(** The order of a charge. *)
Definition charge_key (c : ChargeRequest) : option uuid * string :=
  (uuid_scan (cr_TenantID c), cr_OrderID c).

Definition is_resume (op : order_op) : bool :=
  match op with OpResume _ _ _ _ _ => true | _ => false end.

(** ** Lemmas *)

Lemma scan_nonempty tid t : uuid_scan tid = Some t → tid ≠ "".
Proof. intros Ht ->. by rewrite uuid_scan_empty in Ht. Qed.

(** A transition over a working database, for an order that has its rows. *)
Lemma transition_healthy now ctx tid t orderID state step msg w o g :
  ctx_tenant ctx = Some tid → uuid_scan tid = Some t →
  orders (ow_db w) !! (t, orderID) = Some o → sagas (ow_db w) !! (t, orderID) = Some g →
  0 <= o_TotalAmount o → saga_state_ok state = true →
  ∃ d', transition (healthy now) ctx t orderID state step msg w = (with_db d' w, Ok ()) ∧
    transitioned ctx t orderID state step msg now o g (ow_db w) d'.
Proof.
  intros Hctx Ht Ho Hg Htot Hok. unfold transition.
  rewrite (order_tx_healthy _ _ _ _ _ Hctx (scan_nonempty _ _ Ht)), Ht.
  assert (∃ d', transition_closure ctx t orderID state step msg (mkSession (RlsTenant (Some t)) now) (ow_db w)
                = Ok (d', ())) as [d' Hd'].
  { unfold transition_closure, mbind, Q_bind. rewrite get_order_run, Ho.
    unfold UpdateSagaState, row_of, update_rows. cbn [s_rls s_now]. rewrite Hg, Hok. cbn [negb].
    unfold InsertOutboxEvent, outbox_insert, gen_random_uuid, mbind, Q_bind, visible. cbn [s_rls].
    cbn [order_event ob_TenantID]. rewrite bool_decide_true by done. cbn [negb].
    destruct (mirror state o) as [[status txn]|] eqn:Hm; [|by eexists].
    rewrite (update_status_run _ _ _ _ _ _ o); [by eexists|done| |done].
    unfold mirror in Hm. repeat case_match; by simplify_eq. }
  rewrite Hd'. exists d'. split; [done|]. apply transition_inv in Hd' as (o' & g' & Htr).
  pose proof (tr_order _ _ _ _ _ _ _ _ _ _ _ Htr). pose proof (tr_saga _ _ _ _ _ _ _ _ _ _ _ Htr).
  simplify_eq. done.
Qed.

(** CreateOrder charges at most once, and only for an order it has just
    created. *)
Lemma create_charges env ctx req w :
  Charges (CreateOrder env ctx req w).1 = Charges w ∨
  ∃ t c, Charges (CreateOrder env ctx req w).1 = Charges w ++ [c] ∧ charge_key c = (Some t, co_OrderId req) ∧
    absent (t, co_OrderId req) (ow_db w) ∧
    is_Some (orders (ow_db (CreateOrder env ctx req w).1) !! (t, co_OrderId req)).
Proof.
  unfold CreateOrder, ParseUUID. destruct (uuid_scan (co_TenantId req)) as [t|] eqn:Ht; [|by left].
  repeat (case_match; [by left|]). bprop.
  destruct (createOrderRow _ _ _ _ _ w) as [w1 r] eqn:Hc.
  destruct (order_tx_spec (se_tx env PtCreate) (WithTenantID ctx (co_TenantId req)) _ _ (co_TenantId req) _ _ eq_refl Hc)
    as (d1 & -> & Hr). rewrite Ht in Hr. destruct r as [u|e].
  - apply create_inv in Hr as (Ha & Hf & _); [|lia].
    destruct (runSaga _ _ _ _) as [w2 r2] eqn:Hrun. cbn [fst].
    apply run_effect in Hrun as Heff; [|done|done|done].
    apply run_cases in Hrun as [_ [[Hch _]|(Hch & _)]]; [| |done|done]; [by left|].
    right. exists t, (charge_request
      {| in_TenantID := co_TenantId req; in_TenantUUID := t; in_OrderID := co_OrderId req;
         in_Lines := co_Lines req; in_IdemKey := co_IdempotencyKey req;
         in_TTL := if 0 <? co_TtlSeconds req then co_TtlSeconds req * second else saga_defaultTTL;
         in_ForcePaymentFailure := co_ForcePaymentFailure req |}).
    split; [done|]. split; [unfold charge_key; cbn; by rewrite Ht|]. split; [done|].
    destruct Heff as [(o & g & Ho & _) _]. by exists o.
  - left. destruct (errors_Is e _); [|done]. unfold replayCreateOrder.
    destruct (order_tx _ _ _ _) as [w2 r2] eqn:Hrep.
    apply (read_saga _ _ (co_TenantId req) t) in Hrep as [-> _]; [|done..]. by destruct r2.
Qed.

Lemma compensate_charges env ctx tid t orderID reason w :
  ctx_tenant ctx = Some tid → uuid_scan tid = Some t →
  Charges (compensate env ctx tid orderID reason w).1 = Charges w.
Proof.
  intros Hctx Ht. destruct (compensate _ _ _ _ _ _) as [w' r] eqn:Hc.
  destruct (compensate_spec _ _ _ _ _ _ _ _ _ Hctx Ht Hc) as (x' & rel & d' & _ & -> & _). done.
Qed.

(** The other requests do not charge. *)
Lemma other_charges op w :
  is_resume op = false → (∀ env ctx req, op ≠ OpCreate env ctx req) → Charges (order_run w op) = Charges w.
Proof.
  intros Hr Hc. destruct op as [| env ctx req|env ctx req|env ctx req|]; [naive_solver| | | |done]; cbn [order_run].
  - unfold GetOrder, order_tx. repeat case_match; done.
  - unfold CancelOrder, ParseUUID. destruct (uuid_scan _) as [t|] eqn:Ht; [|done].
    destruct (getSaga _ _ _ _) as [w1 r] eqn:Hg.
    apply (read_saga _ _ (ca_TenantId req) t) in Hg as [-> _]; [|done..].
    pose proof (compensate_charges env (WithTenantID ctx (ca_TenantId req)) _ t (ca_OrderId req)
      (reasonOrDefault (ca_Reason req) "customer_cancel") w eq_refl Ht) as Hcc.
    destruct (compensate _ _ _ _ _ _) as [w2 r2]. repeat case_match; simplify_eq; done.
  - unfold FulfillOrder, order_tx. repeat case_match; done.
Qed.

Definition charges_known w : Prop :=
  NoDup (charge_key <$> Charges w) ∧
  ∀ c t, c ∈ Charges w → uuid_scan (cr_TenantID c) = Some t →
    is_Some (orders (ow_db w) !! (t, cr_OrderID c)).

Lemma effect_keeps_order k d d' : key_effect k d d' → is_Some (orders d !! k) → is_Some (orders d' !! k).
Proof.
  intros [(Eo & _)|_ (o & g & Ho & _) _|o now _ _ Ho _ _] Hs; [by rewrite Eo|by exists o|by eexists].
Qed.

Lemma charges_known_step op w :
  is_resume op = false → saga_wf (ow_db w) → charges_known w → charges_known (order_run w op).
Proof.
  intros Hr Hwf [Hnd Hk]. pose proof (order_run_effect op w Hwf) as Heff.
  assert (∀ c t, c ∈ Charges w → uuid_scan (cr_TenantID c) = Some t →
            is_Some (orders (ow_db (order_run w op)) !! (t, cr_OrderID c))) as Hk'
    by (intros c t Hc Ht; eapply effect_keeps_order; [apply Heff|by apply Hk]).
  assert (Charges (order_run w op) = Charges w ∨
          ∃ t c, Charges (order_run w op) = Charges w ++ [c] ∧
            absent (t, cr_OrderID c) (ow_db w) ∧ uuid_scan (cr_TenantID c) = Some t ∧
            is_Some (orders (ow_db (order_run w op)) !! (t, cr_OrderID c))) as [Heq|(t & c & Heq & Ha & Ht & Hs)].
  { destruct op as [env ctx req| | | |]; try (left; by apply other_charges).
    cbn [order_run]. destruct (create_charges env ctx req w) as [?|(t & c & Hc & Hck & Ha & Hs)]; [by left|].
    right. exists t, c. unfold charge_key in Hck. injection Hck as Hc1 Hc2. by rewrite Hc2. }
  - split; rewrite Heq; done.
  - split; rewrite Heq.
    + rewrite fmap_app, NoDup_app. split; [done|]. split; [|apply NoDup_singleton].
      intros ck Hin Hck%list_elem_of_singleton. subst ck. apply list_elem_of_fmap in Hin as (c' & Hck & Hc').
      unfold charge_key in Hck. rewrite Ht in Hck. injection Hck as Ht' Ho'. symmetry in Ht'.
      destruct (Hk c' t Hc' Ht') as [o Ho]. destruct Ha as [Ha _]. rewrite <- Ho', Ha in Ho. done.
    + intros c' t' [Hc'|Hc']%elem_of_app Ht'; [by apply Hk'|]. apply list_elem_of_singleton in Hc' as ->.
      rewrite Ht in Ht'. by injection Ht' as <-.
Qed.

(** ** Theorems *)

(** C10. A CreateOrder whose idempotency key is on record (for a valid request,
    over a working database) is answered from the saga's row: nothing is
    written, no other service is called, no money is taken; a key that was used
    for another order is an Internal error. *)
Theorem create_replays now txn ctx req w t row :
  uuid_scan (co_TenantId req) = Some t → create_valid req = true → co_IdempotencyKey req ≠ "" →
  ord_idem (ow_db w) !! (t, co_IdempotencyKey req) = Some row →
  CreateOrder (saga_healthy now txn) ctx req w =
  (w, match sagas (ow_db w) !! (t, co_OrderId req) with
      | Some g => Ok (mkCreateOrderResponse (co_OrderId req) (sg_State g) 0 "")
      | None => Err (ErrStatusf Internal "replay: %v" ErrNoRows)
      end).
Proof.
  intros Ht Hv Hkey Hrow. unfold CreateOrder, ParseUUID. rewrite Ht. unfold create_valid in Hv.
  apply andb_prop in Hv as [[Hv1 Hv2]%andb_prop Hv3]. apply negb_true_iff in Hv1, Hv2.
  rewrite Hv1, Hv2, (proj2 (Z.leb_gt _ _)) by (bprop; lia). cbn [se_tx saga_healthy].
  unfold createOrderRow, replayCreateOrder.
  rewrite !(order_tx_healthy _ _ _ _ (co_TenantId req)) by (done || by eapply scan_nonempty). rewrite Ht.
  assert (create_closure t req (orderTotal (co_Lines req)) (mkSession (RlsTenant (Some t)) now) (ow_db w)
          = Err ErrIdempotentReplay) as ->.
  { unfold create_closure, mbind, Q_bind. rewrite (bool_decide_false _ Hkey).
    rewrite (attempt_err _ _ _ ErrNoRows); [done|]. by rewrite check_idem_run, Hrow. }
  change (errors_Is ErrIdempotentReplay ErrIdempotentReplay) with true. cbv match. cbn [se_tx saga_healthy].
  rewrite (order_tx_healthy _ _ _ _ (co_TenantId req)) by (done || by eapply scan_nonempty). rewrite Ht.
  unfold GetSagaInstance, row_of. cbn [s_rls]. destruct (sagas (ow_db w) !! _); [|done].
  by rewrite with_db_same.
Qed.


(** As long as no interrupted saga is resumed, no order is ever charged
    twice: over any history of requests handled one after another, repeated
    ones included and failing anywhere, the accepted charges are of distinct
    orders. *)
Theorem charged_once_per_order (ops : list order_op) w :
  saga_wf (ow_db w) → Charges w = [] → forallb (λ op, negb (is_resume op)) ops = true →
  NoDup (charge_key <$> Charges (foldl order_run w ops)).
Proof.
  intros Hwf Hc Hops.
  assert (charges_known w) as Hk by (split; rewrite Hc; [constructor|by intros c t ?%elem_of_nil]).
  clear Hc. revert w Hwf Hk Hops. induction ops as [|op ops IH]; intros w Hwf Hk Hops; [apply Hk|].
  cbn [foldl forallb] in *. apply andb_prop in Hops as [Hop%negb_true_iff Hops]. apply IH; [by apply order_run_wf|by apply charges_known_step|done].
Qed.

End Requests.
