(* ===== verification/OrderHealthy.v ===== *)
(** * The saga when everything works

    The steps of the saga over a working database and closed breakers, as
    functions of what the services behind the clients answer: together with
    the steps' lemmas these say that the saga does go through. *)

From S2P Require Import Prelude Database StockApi StockClient ReservationService CircuitBreaker Payment.
From S2P Require Import OrderDb OrderService OrderSteps OrderSaga OrderProps OrderInvariant OrderRequests.

(** ** Specification *)

(** What the tables ask of the lines of an order. *)
Definition order_lines_ok (lines : list OrderLine) : bool :=
  forallb (λ l, (0 <? ln_Quantity l) && in_int32 (ln_Quantity l) && (0 <=? ln_UnitPrice l)) lines.

Definition line_key (l : OrderLine) : string * string := (ln_SkuId l, ln_WarehouseId l).

(** No row of order [k] in order_lines. *)
Definition no_lines (k : okey) (d : OrderDB) : Prop :=
  Forall (λ row, (ol_TenantID row, ol_OrderID row) ≠ k) (order_lines d).

(** The saga of order [k] is in state [st]. *)
Definition saga_is (k : okey) (st : string) (d : OrderDB) : Prop :=
  ∃ g, sagas d !! k = Some g ∧ sg_State g = st.

Definition breakers_closed {X} (w : OrderWorld X) : Prop :=
  state (resBreaker w) = Closed ∧ state (payBreaker w) = Closed ∧ state (stockBreaker w) = Closed.

Section Healthy.
Context `{UuidText} `{OrderHashes} `{ErrorText} {X : Type} `{StockClient X} `{ReservationClient X}.
Context `{Hlaws : !UuidTextLaws}.
Implicit Types w : OrderWorld X.

(** ** Creation *)

Lemma insert_lines_run t orderID now lines d :
  order_lines_ok lines = true → NoDup (line_key <$> lines) →
  (∀ l row, l ∈ lines → row ∈ order_lines d →
     (ol_TenantID row, ol_OrderID row, ol_SkuID row, ol_WarehouseID row) ≠
     (t, orderID, ln_SkuId l, ln_WarehouseId l)) →
  ∃ d', foldM (insert_line t orderID) () lines (mkSession (RlsTenant (Some t)) now) d = Ok (d', ()).
Proof.
  revert d. induction lines as [|l lines IH]; intros d Hok Hnd Hnew; [by exists d|].
  cbn [order_lines_ok forallb] in Hok. apply andb_prop in Hok as [[[Hq _]%andb_prop Hp]%andb_prop Hok].
  rewrite fmap_cons, NoDup_cons in Hnd. destruct Hnd as [Hl Hnd]. bprop.
  set (row := mkOrderLineRow (next_uuid d) t orderID (ln_SkuId l) (ln_WarehouseId l) (ln_Quantity l)
                (ln_UnitPrice l) now).
  set (d1 := set_order_lines (order_lines d ++ [row]) (set_next_uuid (N.succ (next_uuid d)) d)).
  assert (insert_line t orderID () l (mkSession (RlsTenant (Some t)) now) d = Ok (d1, ())) as Hone.
  { unfold insert_line, InsertOrderLine, mbind, Q_bind, gen_random_uuid, visible, check_line. cbn [s_rls].
    rewrite bool_decide_true by done. cbn [negb].
    rewrite (proj2 (Z.leb_gt _ _)), (proj2 (Z.ltb_ge _ _)) by lia.
    destruct (existsb _ _) eqn:He; [|done]. exfalso. apply existsb_exists in He as (r & Hr & Heq).
    apply bool_decide_eq_true in Heq. apply list_elem_of_In in Hr.
    by apply (Hnew l r (list_elem_of_here _ _) Hr). }
  destruct (IH d1 Hok Hnd) as [d' Hd'].
  { intros l' r Hl' [Hr|Hr]%elem_of_app; [by apply Hnew; [apply list_elem_of_further|]|].
    apply list_elem_of_singleton in Hr as ->. cbn. intros [= Hs Hw]. apply Hl.
    apply list_elem_of_fmap. exists l'. split; [|done]. unfold line_key. congruence. }
  exists d'. cbn [foldM]. unfold mbind, Q_bind. by rewrite Hone.
Qed.

Lemma create_run t req now d :
  absent (t, co_OrderId req) d → no_lines (t, co_OrderId req) d →
  order_lines_ok (co_Lines req) = true → NoDup (line_key <$> co_Lines req) →
  0 <= orderTotal (co_Lines req) →
  (co_IdempotencyKey req ≠ "" → ord_idem d !! (t, co_IdempotencyKey req) = None) →
  ∃ d' uid, create_closure t req (orderTotal (co_Lines req)) (mkSession (RlsTenant (Some t)) now) d = Ok (d', uid).
Proof.
  intros [Ho Hg] Hno Hok Hnd Htot Hkey. unfold create_closure.
  set (s := mkSession (RlsTenant (Some t)) now). unfold mbind at 1, Q_bind at 1.
  assert (∃ d1, (if bool_decide (co_IdempotencyKey req = "") then mret ()
       else r ← attempt (CheckAndInsertIdempotencyKey t (co_IdempotencyKey req) (payload_hash req));
            match r with
            | Err e => if errors_Is e ErrNoRows then fail ErrIdempotentReplay else fail e
            | Ok _ => mret ()
            end) s d = Ok (d1, ()) ∧
     orders d1 = orders d ∧ sagas d1 = sagas d ∧ order_lines d1 = order_lines d) as (d1 & -> & E1 & E2 & E3).
  { destruct (decide (co_IdempotencyKey req = "")) as [He|Hne]; [rewrite bool_decide_true by done; by exists d|].
    rewrite bool_decide_false by done. unfold mbind, Q_bind.
    pose proof (check_idem_run t now (co_IdempotencyKey req) (payload_hash req) d) as Hci.
    rewrite (Hkey Hne) in Hci. unfold s. rewrite (attempt_ok _ _ _ _ _ Hci). by eexists. }
  assert (∃ d2 o, UpsertOrder t (co_OrderId req) OrderPending (orderTotal (co_Lines req)) "USD" s d1 = Ok (d2, o) ∧
     sagas d2 = sagas d ∧ order_lines d2 = order_lines d) as (d2 & o & Hup & E4 & E5).
  { unfold UpsertOrder, mbind, Q_bind, gen_random_uuid, visible, s. cbn [s_rls].
    rewrite bool_decide_true by done. unfold check_order. cbn [negb].
    rewrite (proj2 (Z.ltb_ge _ _)) by lia.
    assert (orders (set_next_uuid (N.succ (next_uuid d1)) d1) !! (t, co_OrderId req) = None) as ->
      by (cbn; by rewrite E1). eexists _, _. split; [done|]. by cbn. }
  unfold mbind, Q_bind. rewrite Hup.
  destruct (insert_lines_run t (co_OrderId req) now (co_Lines req) d2 Hok Hnd) as [d3 Hd3].
  { intros l row _ Hrow. rewrite E5 in Hrow. unfold no_lines in Hno. rewrite Forall_forall in Hno.
    specialize (Hno row Hrow). congruence. }
  fold s in Hd3. rewrite Hd3. apply insert_lines_tables in Hd3. unfold tables in Hd3. injection Hd3 as _ E6 _.
  unfold UpsertSagaInstance, mbind, Q_bind, gen_random_uuid, visible, s. cbn [s_rls].
  rewrite bool_decide_true by done. cbn [negb].
  assert (sagas (set_next_uuid (N.succ (next_uuid d3)) d3) !! (t, co_OrderId req) = None) as ->
    by (cbn; by rewrite E6, E4). cbn. by eexists _, _.
Qed.

(** ** The steps *)

Section Inp.
Context (now : Z) (txn : string) (ctx : Ctx) (inp : sagaInput).
Context (Hctx : ctx_tenant ctx = Some (in_TenantID inp)).
Context (Ht : uuid_scan (in_TenantID inp) = Some (in_TenantUUID inp)).
Abbreviation env := (saga_healthy now txn).
Abbreviation key := (in_TenantUUID inp, in_OrderID inp).

Lemma guard_closed at_ get_b set_b w :
  state (get_b w) = Closed → guard at_ get_b set_b w = (set_b (λ _, get_b w) w, Next ()).
Proof.
  intros Hs. unfold guard, Allow, mbind, M_bind, get, modify, mret, M_ret. by rewrite Hs.
Qed.

Lemma transition_in_flight w st step msg :
  in_flight key (ow_db w) → saga_state_ok st = true →
  ∃ d' o g, transition (healthy now) ctx (in_TenantUUID inp) (in_OrderID inp) st step msg w = (with_db d' w, Ok ()) ∧
    transitioned ctx (in_TenantUUID inp) (in_OrderID inp) st step msg now o g (ow_db w) d'.
Proof using Hctx Ht Hlaws.
  intros (o & g & Ho & Hg & _ & _ & Htot) Hst.
  destruct (transition_healthy now ctx _ _ (in_OrderID inp) st step msg w o g Hctx Ht Ho Hg Htot Hst)
    as (d' & Hrun & Htr). by exists d', o, g.
Qed.

Lemma transitioned_saga st step msg now0 o g d d' :
  transitioned ctx (in_TenantUUID inp) (in_OrderID inp) st step msg now0 o g d d' → saga_is key st d'.
Proof. intros Htr. unfold saga_is. rewrite (tr_sagas _ _ _ _ _ _ _ _ _ _ _ Htr), lookup_insert_eq. by eexists. Qed.

Lemma fail_healthy w msg :
  in_flight key (ow_db w) →
  ∃ d', failSaga env ctx (in_TenantID inp) (in_OrderID inp) msg w = (with_db d' w, Ok ()) ∧ saga_is key SagaFailed d'.
Proof using Hctx Ht Hlaws.
  intros Hfl. unfold failSaga, ParseUUID. rewrite Ht.
  destruct (transition_in_flight w SagaFailed (-1) msg Hfl eq_refl) as (d' & o & g & Hrun & Htr).
  exists d'. split; [done|]. by eapply transitioned_saga.
Qed.

Lemma reserve_healthy w x' rr :
  state (resBreaker w) = Closed → in_flight key (ow_db w) →
  rpc_Reserve ctx (reserve_request inp) (ow_down w) = (x', Ok rr) →
  ∃ w', ow_down w' = x' ∧ Charges w' = Charges w ∧ payBreaker w' = payBreaker w ∧
    stockBreaker w' = stockBreaker w ∧
    if rr_Success rr then step_reserve env ctx inp w = (w', Next ()) ∧ in_flight key (ow_db w')
    else step_reserve env ctx inp w =
      (w', Return (Ok (mkCreateOrderResponse (in_OrderID inp) SagaFailed 0 ""))) ∧ saga_is key SagaFailed (ow_db w').
Proof using Hctx Ht Hlaws.
  intros Hs Hfl Hcall.
  set (w1 := on_resBreaker RecordSuccess (with_down x' (on_resBreaker (λ _, resBreaker w) w))).
  assert (in_flight key (ow_db w1)) as Hfl1 by done.
  destruct (rr_Success rr) eqn:Hsucc.
  - destruct (transition_in_flight w1 SagaReserved 1 "" Hfl1 eq_refl) as (d' & o & g & Hrun & Htr).
    exists (with_db d' w1). do 4 (split; [done|]).
    split; [|apply (open_tx_in_flight ctx _ _ _ d' Hfl1); by eapply open_reserved].
    unfold step_reserve. unfold mbind at 1, M_bind at 1.
    rewrite guard_closed by done. unfold mbind, M_bind, lift, modify, return_, mret, M_ret, call.
    cbn [ow_down on_resBreaker]. rewrite Hcall, Hsucc. fold w1. cbn [negb se_tx saga_healthy]. by rewrite Hrun.
  - destruct (fail_healthy w1 "insufficient stock" Hfl1) as (d' & Hrun & Hst).
    exists (with_db d' w1). do 4 (split; [done|]). split; [|done].
    unfold step_reserve. unfold mbind at 1, M_bind at 1.
    rewrite guard_closed by done. unfold mbind, M_bind, lift, modify, return_, mret, M_ret, call.
    cbn [ow_down on_resBreaker]. rewrite Hcall, Hsucc. fold w1. cbn [negb]. by rewrite Hrun.
Qed.

Lemma charge_healthy w :
  state (payBreaker w) = Closed → 0 < orderTotal (in_Lines inp) →
  ∃ w', ow_down w' = ow_down w ∧ ow_db w' = ow_db w ∧ stockBreaker w' = stockBreaker w ∧
    if in_ForcePaymentFailure inp
    then step_charge env inp w = (w', Next (Err ErrPaymentDeclined)) ∧ Charges w' = Charges w
    else step_charge env inp w = (w', Next (Ok ("sbx_" +:+ txn))) ∧
         Charges w' = Charges w ++ [charge_request inp].
Proof using.
  intros Hs Hpos. unfold step_charge. destruct (in_ForcePaymentFailure inp).
  - exists w. done.
  - exists (on_payBreaker RecordSuccess (add_charge (charge_request inp)
              (on_payBreaker (λ _, payBreaker w) w))). do 3 (split; [done|]). split; [|done].
    unfold mbind at 1, M_bind at 1. rewrite guard_closed by done.
    unfold Charge. cbn [charge_request cr_Amount cr_ForceFail orb se_fail_orders saga_healthy].
    rewrite (proj2 (Z.leb_gt _ _)) by lia. done.
Qed.

Lemma compensate_healthy w x' a :
  in_flight key (ow_db w) →
  rpc_Release ctx (release_request (in_TenantID inp) (in_OrderID inp) "payment_failed") (ow_down w) = (x', Ok a) →
  ∃ w', ow_down w' = x' ∧ Charges w' = Charges w ∧
    step_compensate env ctx inp w =
      (w', Return (Ok (mkCreateOrderResponse (in_OrderID inp) SagaCompensated (orderTotal (in_Lines inp)) ""))) ∧
    saga_is key SagaCompensated (ow_db w').
Proof using Hctx Ht Hlaws.
  intros Hfl Hcall. unfold step_compensate, mbind, M_bind, lift, return_, compensate, ParseUUID, call.
  rewrite Ht, Hcall.
  destruct (transition_in_flight (with_down x' w) SagaCompensated (-1) "payment_failed" Hfl eq_refl)
    as (d' & o & g & Hrun & Htr). exists (with_db d' (with_down x' w)). do 2 (split; [done|]).
  cbn [se_tx saga_healthy]. rewrite Hrun. split; [done|]. by eapply transitioned_saga.
Qed.

Lemma record_healthy w id :
  in_flight key (ow_db w) →
  ∃ d', recordTransaction (healthy now) ctx (in_OrderID inp) id w = (with_db d' w, Ok ()) ∧ in_flight key d'.
Proof using Hctx Ht Hlaws.
  intros Hfl. pose proof Hfl as (o & g & Ho & Hg & Hst & _ & Htot).
  destruct (recordTransaction (healthy now) ctx (in_OrderID inp) id w) as [w' r] eqn:Hrun.
  destruct (record_spec _ _ _ _ _ _ _ _ _ Hctx Ht Hrun) as (d' & -> & Hd').
  unfold recordTransaction in Hrun.
  rewrite (order_tx_healthy _ _ _ _ _ Hctx (scan_nonempty _ _ Ht)), Ht in Hrun. unfold mbind, Q_bind in Hrun.
  rewrite (update_status_run _ _ _ _ _ _ o) in Hrun by done. injection Hrun as Heq <-.
  exists d'. split; [done|]. destruct Hd' as [[[e ?] _]|[o' Hrt]]; [done|].
  apply (open_tx_in_flight ctx _ _ _ d' Hfl). by eapply open_record.
Qed.

Lemma allocate_healthy w x' a :
  rpc_AllocateReservation ctx (allocate_request inp) (ow_down w) = (x', Ok a) →
  ∃ w', step_allocate env ctx inp w = (w', Next ()) ∧ ow_down w' = x' ∧ ow_db w' = ow_db w ∧
    stockBreaker w' = stockBreaker w.
Proof using.
  intros Hcall. unfold step_allocate, mbind, M_bind, lift, modify, call. rewrite Hcall. by eexists.
Qed.

Lemma confirm_healthy w x' a :
  state (stockBreaker w) = Closed → in_flight key (ow_db w) →
  rpc_ConfirmStockAllocation ctx (confirm_request inp) (ow_down w) = (x', Ok a) →
  ∃ w', step_confirm env ctx inp w = (w', Next ()) ∧ ow_down w' = x' ∧ saga_is key SagaConfirmed (ow_db w').
Proof using Hctx Ht Hlaws.
  intros Hs Hfl Hcall. unfold step_confirm. unfold mbind at 1, M_bind at 1. rewrite guard_closed by done.
  unfold mbind, M_bind, lift, modify, call, return_, mret, M_ret. cbn [ow_down on_stockBreaker]. rewrite Hcall.
  set (w1 := on_stockBreaker RecordSuccess _).
  destruct (transition_in_flight w1 SagaConfirmed 3 "" Hfl eq_refl) as (d' & o & g & Hrun & Htr).
  cbn [se_tx saga_healthy]. rewrite Hrun. eexists. do 2 (split; [done|]). by eapply transitioned_saga.
Qed.

End Inp.
End Healthy.
