(* ===== verification/System.v ===== *)
(** * The three services together

    The reservation service behind its client, on top of the stock service
    behind its own: the order service's saga over the real implementations. *)

From S2P Require Import Prelude Database StockDb StockApi StockService StockEffects StockReserve StockClient.
From S2P Require Import ReservationDb ReservationService ReservationBooks ReservationProps ReservationSweep.
From S2P Require Import CircuitBreaker Payment OrderDb OrderService OrderSteps OrderSaga OrderProps.
From S2P Require Import OrderInvariant OrderRequests OrderHealthy.

(** ** The reservation service behind its client *)

(** What can happen to one call. *)
Record ResRpcEnv := mkResRpcEnv {
  rre_request_lost : option string;
  rre_env : ResEnv;
  rre_answer_lost : option string;
}.

(** The reservation service, its stock client, the clock, and the faults of
    the calls to come. *)
Record System (X : Type) := mkSystem {
  sys_res : ResDB;
  sys_stock : X;
  sys_now : Z;
  sys_faults : list ResRpcEnv;
}.
Arguments mkSystem {_}.
Arguments sys_res {_}.
Arguments sys_stock {_}.
Arguments sys_now {_}.
Arguments sys_faults {_}.

Section Composition.
Context `{UuidText} `{Hlaws : !UuidTextLaws} `{ReservationHashes} `{JsonbText} `{OrderHashes} `{ErrorText}
  {X : Type} `{!StockClient X} `{!StockClientLaws X}.

Definition next_res_fault (y : System X) : ResRpcEnv * list ResRpcEnv :=
  match sys_faults y with
  | [] => (mkResRpcEnv None (res_healthy (sys_now y)) None, [])
  | e :: es => (e, es)
  end.

Definition call_res {Req Resp} (handler : ResEnv → Ctx → Req → ResDB → X → ResDB * X * res Resp)
    (ctx : Ctx) (req : Req) (y : System X) : System X * res Resp :=
  let '(env, faults) := next_res_fault y in
  match rre_request_lost env with
  | Some m => (mkSystem (sys_res y) (sys_stock y) (sys_now y) faults, Err (unavailable m))
  | None =>
      let '(d, x, r) := handler (rre_env env) (mkCtx None (ctx_traceparent ctx)) req
                          (sys_res y) (sys_stock y) in
      (mkSystem d x (sys_now y) faults,
       match rre_answer_lost env with Some m => Err (unavailable m) | None => r end)
  end.

#[export] Instance system_reservations : ReservationClient (System X) := {|
  rpc_Reserve := call_res Reserve;
  rpc_Release := call_res Release;
  rpc_AllocateReservation :=
    call_res (λ env ctx req d x, let '(d', r) := AllocateReservation env ctx req d in (d', x, r));
|}.

(** The order service has its own client of the same stock service. *)
Definition through_stock {A} (f : X → X * res A) (y : System X) : System X * res A :=
  let '(x, r) := f (sys_stock y) in (mkSystem (sys_res y) x (sys_now y) (sys_faults y), r).

#[export] Instance system_stock : StockClient (System X) := {|
  rpc_ReserveStock ctx req := through_stock (rpc_ReserveStock ctx req);
  rpc_ReleaseStock ctx req := through_stock (rpc_ReleaseStock ctx req);
  rpc_ConfirmStockAllocation ctx req := through_stock (rpc_ConfirmStockAllocation ctx req);
|}.

(** ** Specification *)

(** A valid request for an order nobody has seen: its lines are distinct, its
    keys and its order id are new to the three services. *)
Record fresh_request (t : uuid) (req : CreateOrderRequest) (w : OrderWorld (System X)) : Prop := {
  fr_tenant : uuid_scan (co_TenantId req) = Some t;
  fr_valid : create_valid req = true;
  fr_lines : order_lines_ok (co_Lines req) = true;
  fr_distinct : NoDup (line_key <$> co_Lines req);
  fr_order : absent (t, co_OrderId req) (ow_db w) ∧ no_lines (t, co_OrderId req) (ow_db w);
  fr_rows : Forall (λ r, of_order t (co_OrderId req) r = false) (reservations (sys_res (ow_down w)));
  fr_order_key : co_IdempotencyKey req ≠ "" → ord_idem (ow_db w) !! (t, co_IdempotencyKey req) = None;
  fr_res_keys : Forall (λ key, res_key_seen t key (sys_res (ow_down w)) = false)
    [co_IdempotencyKey req +:+ ":reserve"; co_IdempotencyKey req +:+ ":allocate";
     CompensationKey (co_TenantId req) (co_OrderId req)];
  fr_stock_keys : Forall (λ key, key_used (sys_stock (ow_down w)) t key = false)
    [co_IdempotencyKey req +:+ ":reserve"; co_IdempotencyKey req +:+ ":confirm";
     CompensationKey (co_TenantId req) (co_OrderId req)];
  fr_comp : CompensationKey (co_TenantId req) (co_OrderId req) ≠ co_IdempotencyKey req +:+ ":reserve";
  fr_json : is_Some (jsonb_parse (payload_order (co_OrderId req))) ∧
    ∀ l, l ∈ co_Lines req → is_Some (jsonb_parse (payload_order_sku (co_OrderId req) (ln_SkuId l)));
}.

(** The services are up and agree on what is reserved. *)
Record system_fine (w : OrderWorld (System X)) : Prop := {
  sf_breakers : breakers_closed w;
  sf_faults : sys_faults (ow_down w) = [];
  sf_res : res_wf (sys_res (ow_down w));
  sf_stock : stock_fine (sys_stock (ow_down w));
  sf_books : books_agree (sys_res (ow_down w)) (sys_stock (ow_down w));
}.

(** ** Lemmas *)

Lemma call_res_healthy {Req Resp} (handler : ResEnv → Ctx → Req → ResDB → X → ResDB * X * res Resp)
    ctx req y d x r :
  sys_faults y = [] →
  handler (res_healthy (sys_now y)) (mkCtx None (ctx_traceparent ctx)) req (sys_res y) (sys_stock y) = (d, x, r) →
  call_res handler ctx req y = (mkSystem d x (sys_now y) [], r).
Proof. intros Hf Hr. unfold call_res, next_res_fault. rewrite Hf. cbn. by rewrite Hr. Qed.

Lemma step_keys_ne key s1 s2 : s1 ≠ s2 → key +:+ s1 ≠ key +:+ s2.
Proof. intros Hne Heq. by apply (inj (String.append key)) in Heq. Qed.

Lemma item_stock_lines lines : item_line <$> reserveItems lines = stockLines lines.
Proof. unfold reserveItems, stockLines. rewrite <- list_fmap_compose. done. Qed.

Lemma order_items_ok lines : order_lines_ok lines = true → items_ok (reserveItems lines) = true.
Proof.
  unfold order_lines_ok, items_ok, reserveItems. rewrite !forallb_forall. intros Hok it Hit%list_elem_of_In.
  apply list_elem_of_fmap in Hit as (l & -> & Hl). apply list_elem_of_In, Hok in Hl. cbn.
  apply andb_prop in Hl as [Hl _]. done.
Qed.

Lemma stock_lines_pos lines l :
  order_lines_ok lines = true → l ∈ stockLines lines → 0 < Quantity l.
Proof.
  unfold order_lines_ok. rewrite forallb_forall. intros Hok (l0 & -> & Hl)%list_elem_of_fmap.
  apply list_elem_of_In, Hok in Hl. bprop. done.
Qed.

(** Closing an order whose only active rows are the new ones. *)
Lemma closed_held t orderID expiresAt status items (rows new : list Reservation) k :
  status ≠ StatusActive → Forall (λ r, of_order t orderID r = false) rows →
  Forall2 (item_row t orderID expiresAt) items new →
  zsum (holds_at k) (close_order t orderID status <$> (rows ++ new)) = zsum (holds_at k) rows.
Proof.
  intros Hst Hrows Hnew. rewrite fmap_app, zsum_app.
  assert (close_order t orderID status <$> rows = rows) as ->.
  { clear Hnew. induction Hrows as [|r rows Hr _ IH]; [done|]. rewrite fmap_cons, IH. f_equal.
    unfold close_order. by rewrite Hr. }
  assert (zsum (holds_at k) (close_order t orderID status <$> new) = 0) as ->; [|lia].
  clear Hrows. induction Hnew as [|it r items new (Hrt & Hro & _ & Hrs & _) _ IH]; [done|].
  rewrite fmap_cons. cbn [zsum]. rewrite IH. unfold close_order, of_order, is_active.
  rewrite !bool_decide_true by done. unfold holds_at, is_active. cbn [andb r_Status set_status].
  by rewrite bool_decide_false.
Qed.

(** ** The saga over the real services *)

Section Saga.
Context (now : Z) (txn : string) (ctx : Ctx) (inp : sagaInput) (w : OrderWorld (System X)).
Abbreviation t := (in_TenantUUID inp).
Abbreviation y := (ow_down w).
Context (Hctx : ctx_tenant ctx = Some (in_TenantID inp)).
Context (Ht : uuid_scan (in_TenantID inp) = Some t).
Context (Hfine : system_fine w) (Hfl : in_flight (t, in_OrderID inp) (ow_db w)).
Context (Hok : order_lines_ok (in_Lines inp) = true) (Hne : in_Lines inp ≠ []).
Context (Hpos : 0 < orderTotal (in_Lines inp)).
Context (Hrows : Forall (λ r, of_order t (in_OrderID inp) r = false) (reservations (sys_res y))).
Context (Hrk : Forall (λ key, res_key_seen t key (sys_res y) = false)
    [in_IdemKey inp +:+ ":reserve"; in_IdemKey inp +:+ ":allocate";
     CompensationKey (in_TenantID inp) (in_OrderID inp)]).
Context (Hsk : Forall (λ key, key_used (sys_stock y) t key = false)
    [in_IdemKey inp +:+ ":reserve"; in_IdemKey inp +:+ ":confirm";
     CompensationKey (in_TenantID inp) (in_OrderID inp)]).
Context (Hcomp : CompensationKey (in_TenantID inp) (in_OrderID inp) ≠ in_IdemKey inp +:+ ":reserve").
Context (Hjson : is_Some (jsonb_parse (payload_order (in_OrderID inp))) ∧
    ∀ l, l ∈ in_Lines inp → is_Some (jsonb_parse (payload_order_sku (in_OrderID inp) (ln_SkuId l)))).
Context (Hlen : Z.of_nat (length (reservations (sys_res y)) + length (in_Lines inp)) < 2147483648).

(** Stock as the system leaves it: the reserved bucket as before, [moved] of
    every line from available to allocated. *)
Definition stock_result (moved : bool) (y' : System X) : Prop :=
  stock_fine (sys_stock y') ∧ books_agree (sys_res y') (sys_stock y') ∧
  ∀ k, let q := if moved then qty_at t k (stockLines (in_Lines inp)) else 0 in
    available_in (sys_stock y') k = available_in (sys_stock y) k - q ∧
    reserved_in (sys_stock y') k = reserved_in (sys_stock y) k ∧
    allocated_in (sys_stock y') k = allocated_in (sys_stock y) k + q.

(** The system after a successful reservation. *)
Record held (y1 : System X) (new : list Reservation) : Prop := {
  hd_faults : sys_faults y1 = [];
  hd_wf : res_wf (sys_res y1);
  hd_fine : stock_fine (sys_stock y1);
  hd_books : books_agree (sys_res y1) (sys_stock y1);
  hd_rows : reservations (sys_res y1) = reservations (sys_res y) ++ new;
  hd_new : Forall2 (item_row t (in_OrderID inp) (expiry (sys_now y) (reserve_request inp)))
             (reserveItems (in_Lines inp)) new;
  hd_res_keys : res_key_seen t (in_IdemKey inp +:+ ":allocate") (sys_res y1) = false ∧
    res_key_seen t (CompensationKey (in_TenantID inp) (in_OrderID inp)) (sys_res y1) = false;
  hd_stock_keys : key_used (sys_stock y1) t (in_IdemKey inp +:+ ":confirm") = false ∧
    key_used (sys_stock y1) t (CompensationKey (in_TenantID inp) (in_OrderID inp)) = false;
  hd_moved k : let q := qty_at t k (stockLines (in_Lines inp)) in
    available_in (sys_stock y1) k = available_in (sys_stock y) k - q ∧
    allocated_in (sys_stock y1) k = allocated_in (sys_stock y) k;
}.

Lemma system_reserve :
  ∃ y1 rr, rpc_Reserve ctx (reserve_request inp) y = (y1, Ok rr) ∧
    rr_Success rr = can_reserve (sys_stock y) t (stockLines (in_Lines inp)) ∧
    if rr_Success rr then ∃ new, held y1 new else stock_result false y1.
Proof using Hlaws Hctx Ht Hfine Hok Hne Hrk Hsk Hcomp Hjson.
  destruct Hfine as [_ Hf Hwf Hst Hb]. decompose_Forall.
  assert (in_IdemKey inp +:+ ":allocate" ≠ in_IdemKey inp +:+ ":reserve") as N1 by by apply step_keys_ne.
  assert (in_IdemKey inp +:+ ":confirm" ≠ in_IdemKey inp +:+ ":reserve") as N2 by by apply step_keys_ne.
  destruct (reserve_run (sys_now y) (mkCtx None (ctx_traceparent ctx)) (reserve_request inp) (sys_res y)
    (sys_stock y) t) as (d1 & x1 & rr & Hrun & Hwf1 & Hst1 & Hb1 & Hcan & Hkeys & Hmv & Hnew);
    cbn [reserve_request rq_TenantId rq_IdempotencyKey rq_Items rq_OrderId]; try done.
  { unfold reserveItems. by intros ?%fmap_nil_inv. }
  { by apply order_items_ok. }
  { intros it (l & -> & Hl)%list_elem_of_fmap. by apply Hjson. }
  cbn [reserve_request rq_TenantId rq_IdempotencyKey rq_Items rq_OrderId] in Hcan, Hkeys, Hmv, Hnew.
  rewrite item_stock_lines in Hcan, Hmv.
  exists (mkSystem d1 x1 (sys_now y) []), rr. split; [by apply call_res_healthy|]. split; [done|].
  destruct (rr_Success rr).
  - destruct Hnew as (new & Hl & Hnew). exists new. split; cbn [sys_res sys_stock sys_faults]; try done.
    + by rewrite (proj2 (Hkeys _ N1)), (proj2 (Hkeys _ Hcomp)).
    + by rewrite (proj1 (Hkeys _ N2)), (proj1 (Hkeys _ Hcomp)).
  - subst d1. split; [done|]. split; [done|]. intros k. cbn zeta. cbn [sys_res sys_stock].
    rewrite Hb1, Hb. destruct (Hmv k) as [-> ->]. clear Hlen Hpos. lia.
Qed.

Lemma system_release y1 new :
  held y1 new →
  ∃ y2 a, rpc_Release ctx (release_request (in_TenantID inp) (in_OrderID inp) "payment_failed") y1 = (y2, Ok a) ∧
    stock_result false y2.
Proof using Hlaws Ht Hfine Hrows Hjson.
  intros [Hf Hwf Hst Hb Hl Hnew [_ Hk1] [_ Hk2] Hmv].
  destruct (release_run (X := X) (sys_now y1) (mkCtx None (ctx_traceparent ctx))
    (release_request (in_TenantID inp) (in_OrderID inp) "payment_failed") (sys_res y1) (sys_stock y1) t)
    as (d2 & x2 & a & Hrun & _ & Hwf2 & Hst2 & Hb2 & Hl2 & Hmv2);
    [exact Ht|exact (proj1 Hjson)|exact Hwf|exact Hst|exact Hb|exact Hk1|exact Hk2|].
  exists (mkSystem d2 x2 (sys_now y1) []), a. split; [by apply call_res_healthy|].
  cbn [release_request rl_OrderId] in Hl2. split; [done|]. split; [done|]. intros k. cbn zeta.
  cbn [sys_res sys_stock].
  assert (held_at d2 k = held_at (sys_res y) k) as Hheld.
  { unfold held_at. rewrite Hl2, Hl. by eapply closed_held. }
  assert (held_at (sys_res y1) k = held_at (sys_res y) k + qty_at t k (stockLines (in_Lines inp))) as Hheld1.
  { unfold held_at. rewrite Hl, zsum_app. f_equal.
    destruct (new_rows_lines _ _ _ _ _ Hnew) as [Hlines Hact].
    by rewrite <- (qty_at_rows _ _ _ Hact), Hlines, item_stock_lines. }
  destruct (Hmv2 k) as [-> ->]. destruct (Hmv k) as [-> ->]. rewrite Hb2, Hheld.
  rewrite (sf_books _ Hfine k). clear Hlen Hpos. lia.
Qed.

Lemma system_allocate_confirm y1 new :
  held y1 new →
  ∃ y2 a y3 c, rpc_AllocateReservation ctx (allocate_request inp) y1 = (y2, Ok a) ∧
    rpc_ConfirmStockAllocation ctx (confirm_request inp) y2 = (y3, Ok c) ∧ stock_result true y3.
Proof using Hlaws Ht Hfine Hok Hrows Hjson Hlen.
  clear Hpos.
  intros [Hf Hwf Hst Hb Hl Hnew [Hk1 _] [Hk2 _] Hmv].
  destruct (allocate_run (sys_now y1) (mkCtx None (ctx_traceparent ctx)) (allocate_request inp) (sys_res y1) t)
    as (d2 & Hrun & Hl2 & Hwf2 & _); [exact Ht|exact (proj1 Hjson)|exact Hwf|exact Hk1| |].
  { rewrite Hl, length_app, <- (Forall2_length _ _ _ Hnew). unfold reserveItems. by rewrite length_fmap. }
  cbn [allocate_request al_OrderId] in Hl2.
  set (y2 := mkSystem d2 (sys_stock y1) (sys_now y1) []).
  assert (∀ k, held_at (sys_res y1) k = held_at (sys_res y) k + qty_at t k (stockLines (in_Lines inp))) as Hheld1.
  { intros k. unfold held_at. rewrite Hl, zsum_app. f_equal.
    destruct (new_rows_lines _ _ _ _ _ Hnew) as [Hlines Hact].
    by rewrite <- (qty_at_rows _ _ _ Hact), Hlines, item_stock_lines. }
  assert (∀ k, held_at d2 k = held_at (sys_res y) k) as Hheld2.
  { intros k. unfold held_at. rewrite Hl2, Hl. by eapply closed_held. }
  destruct (law_confirm (sys_stock y1) ctx (confirm_request inp) t) as (x3 & c & Hcall & Hst3 & Ha & Hr & Hal);
    cbn [confirm_request cnf_TenantId cnf_IdempotencyKey cnf_Lines]; try done.
  { rewrite <- item_stock_lines. by apply item_lines_ok, order_items_ok. }
  { intros l. by apply stock_lines_pos. }
  { intros k. rewrite Hb, Hheld1. pose proof (held_nonneg k _ (rw_qty _ (sf_res _ Hfine))).
    unfold held_at. lia. }
  eexists y2, _, (mkSystem d2 x3 (sys_now y1) []), c. split; [|split].
  - apply call_res_healthy; [done|]. by rewrite Hrun.
  - cbn. unfold through_stock. cbn [sys_stock y2]. by rewrite Hcall.
  - cbn [confirm_request cnf_Lines] in *. split; [done|]. cbn [sys_res sys_stock].
    assert (∀ k, reserved_in x3 k = held_at (sys_res y) k) as Hr3
      by (intros k; rewrite Hr, Hb, Hheld1; lia).
    split; [intros k; by rewrite Hr3, Hheld2|]. intros k. cbn zeta. rewrite Ha, Hal, Hr3.
    destruct (Hmv k) as [-> ->]. rewrite (sf_books _ Hfine k). lia.
Qed.

(** What an order gets. *)
Definition verdict : string :=
  if can_reserve (sys_stock y) t (stockLines (in_Lines inp))
  then if in_ForcePaymentFailure inp then SagaCompensated else SagaConfirmed
  else SagaFailed.

Lemma system_saga :
  ∃ w' resp, runSaga (saga_healthy now txn) ctx inp w = (w', Ok resp) ∧ cor_Status resp = verdict ∧
    saga_is (t, in_OrderID inp) verdict (ow_db w') ∧
    stock_result (bool_decide (verdict = SagaConfirmed)) (ow_down w') ∧
    Charges w' = Charges w ++ (if bool_decide (verdict = SagaConfirmed) then [charge_request inp] else []).
Proof using All.
  unfold verdict, runSaga, run_body, saga_body, mbind, M_bind.
  destruct (sf_breakers _ Hfine) as (B1 & B2 & B3).
  destruct system_reserve as (y1 & rr & Hcall1 & <- & Hres).
  destruct (reserve_healthy now txn ctx inp Hctx Ht w y1 rr B1 Hfl Hcall1)
    as (w1 & Hy1 & Hc1 & Hp1 & Hs1 & Hstep1).
  destruct (rr_Success rr).
  2:{ destruct Hstep1 as [-> Hsg]. eexists w1, _. do 3 (split; [done|]). rewrite Hy1. split; [done|].
      by rewrite app_nil_r. }
  destruct Hres as [new Hheld]. destruct Hstep1 as [-> Hfl1].
  destruct (charge_healthy now txn inp w1) as (w2 & Hy2 & Hd2 & Hs2 & Hstep2); [by rewrite Hp1|done|].
  destruct (in_ForcePaymentFailure inp); destruct Hstep2 as [-> Hc2].
  - destruct (system_release y1 new Hheld) as (y3 & a & Hcall3 & Hresult).
    destruct (compensate_healthy now txn ctx inp Hctx Ht w2 y3 a) as (w3 & Hy3 & Hc3 & -> & Hsg);
      [by rewrite Hd2|by rewrite Hy2, Hy1|].
    eexists w3, _. do 3 (split; [done|]). rewrite Hy3. split; [done|].
    rewrite Hc3, Hc2, Hc1. by rewrite app_nil_r.
  - unfold lift. destruct (record_healthy now ctx inp Hctx Ht w2 ("sbx_" +:+ txn)) as (d3 & Hrec & Hfl3);
      [by rewrite Hd2|]. cbn [se_tx saga_healthy]. rewrite Hrec.
    destruct (system_allocate_confirm y1 new Hheld) as (y4 & a & y5 & c & Hcall4 & Hcall5 & Hresult).
    destruct (allocate_healthy now txn ctx inp (with_db d3 w2) y4 a) as (w4 & Hal & Hy4 & Hd4 & Hs4);
      [cbn; by rewrite Hy2, Hy1|]. rewrite Hal.
    destruct (confirm_healthy now txn ctx inp Hctx Ht w4 y5 c) as (w5 & Hcf & Hy5 & Hsg);
      [by rewrite Hs4; cbn; rewrite Hs2, Hs1|by rewrite Hd4|by rewrite Hy4|]. rewrite Hcf.
    eexists w5, _. do 3 (split; [done|]). rewrite Hy5. split; [done|].
    apply (confirm_step _ _ _ Hctx Ht) in Hcf as (_ & _ & _ & _ & _ & _ & _ & Hc5).
    apply (allocate_step _ _ _ Hctx Ht) in Hal as (_ & _ & _ & _ & _ & Hc4).
    rewrite Hc5, Hc4. cbn. by rewrite Hc2, Hc1.
Qed.

End Saga.

(** ** Theorem *)

(** The input CreateOrder hands to the saga. *)
Definition saga_of (t : uuid) (req : CreateOrderRequest) : sagaInput :=
  {| in_TenantID := co_TenantId req; in_TenantUUID := t; in_OrderID := co_OrderId req;
     in_Lines := co_Lines req; in_IdemKey := co_IdempotencyKey req;
     in_TTL := if 0 <? co_TtlSeconds req then co_TtlSeconds req * second else saga_defaultTTL;
     in_ForcePaymentFailure := co_ForcePaymentFailure req |}.

(** End to end: a fresh order over the three working services is CONFIRMED
    exactly if the stock service can reserve all of its lines and the payment
    is not declined, and then its quantities have moved from available to
    allocated and its total has been charged once; if the stock is not there it
    is FAILED, if the payment is declined COMPENSATED, and in both cases every
    bucket of every location is as it was before and nothing is charged.  Either
    way the saga's row says so, and the reserved bucket is again what the active
    reservations hold. *)
Theorem order_end_to_end now txn ctx t req (w : OrderWorld (System X)) :
  fresh_request t req w → system_fine w →
  Z.of_nat (length (reservations (sys_res (ow_down w))) + length (co_Lines req)) < 2147483648 →
  ∃ w' resp, CreateOrder (saga_healthy now txn) ctx req w = (w', Ok resp) ∧
    cor_Status resp = verdict (saga_of t req) w ∧
    saga_is (t, co_OrderId req) (verdict (saga_of t req) w) (ow_db w') ∧
    stock_result (saga_of t req) w (bool_decide (verdict (saga_of t req) w = SagaConfirmed)) (ow_down w') ∧
    Charges w' = Charges w ++
      (if bool_decide (verdict (saga_of t req) w = SagaConfirmed) then [charge_request (saga_of t req)] else []).
Proof.
  intros [Ht Hv Hok Hnd [Habs Hno] Hrows Hkey Hrk Hsk Hcomp Hjson] Hfine Hlen.
  unfold CreateOrder, ParseUUID. rewrite Ht. unfold create_valid in Hv.
  apply andb_prop in Hv as [[Hv1 Hv2]%andb_prop Hv3]. apply negb_true_iff in Hv1, Hv2.
  assert (0 < orderTotal (co_Lines req)) as Hpos by (bprop; lia).
  rewrite Hv1, Hv2, (proj2 (Z.leb_gt _ _)) by lia. cbn [se_tx saga_healthy].
  unfold createOrderRow.
  rewrite (order_tx_healthy _ _ _ _ (co_TenantId req)) by (done || by eapply scan_nonempty). rewrite Ht.
  destruct (create_run t req now (ow_db w) Habs Hno Hok Hnd) as (d1 & uid & Hcreate); [lia|done|].
  rewrite Hcreate. apply create_inv in Hcreate as (_ & Hfl & _); [|lia].
  destruct Hfine as [F1 F2 F3 F4 F5].
  apply (system_saga now txn (WithTenantID ctx (co_TenantId req)) (saga_of t req) (with_db d1 w)); try done.
  cbn. intros Hnil. by rewrite Hnil in Hv2.
Qed.

End Composition.
