(* ===== verification/SagaPhases.v ===== *)
(** * How far the services have come with an order

    The calls of a saga leave the reservation and the stock service in one of
    four phases: nothing done, goods held, reservation closed, allocation
    confirmed.  A step taken for the first time moves to the next phase; a step
    taken again is answered and moves nothing. *)

From S2P Require Import Prelude Database StockDb StockApi StockService StockEffects StockRefine StockReserve StockClient.
From S2P Require Import ReservationDb ReservationService ReservationBooks ReservationProps ReservationSweep.
From S2P Require Import CircuitBreaker Payment OrderDb OrderService OrderSteps OrderSaga OrderProps.
From S2P Require Import OrderInvariant OrderRequests OrderHealthy System.

Section Phases.
Context `{UuidText} `{Hlaws : !UuidTextLaws} `{ReservationHashes} `{JsonbText} `{OrderHashes} `{ErrorText}
  {X : Type} `{!StockClient X} `{!StockClientLaws X} `{!StockReplayLaws X}.

(** ** Specification *)

(** What does not change from one run of an order's saga to the next; its lines
    may come in another order. *)
Record same_saga (inp inp' : sagaInput) : Prop := {
  ss_id : in_TenantID inp' = in_TenantID inp;
  ss_tenant : in_TenantUUID inp' = in_TenantUUID inp;
  ss_order : in_OrderID inp' = in_OrderID inp;
  ss_key : in_IdemKey inp' = in_IdemKey inp;
  ss_lines : in_Lines inp' ≡ₚ in_Lines inp;
}.

(** The services when nothing was done for the order. *)
Definition phase_new (y0 y : System X) : Prop := sys_res y = sys_res y0 ∧ sys_stock y = sys_stock y0.

(** The services once the goods of [inp] are held: [closed] when the
    reservation was marked allocated, [confirmed] when the stock service was
    told. *)
Record phase (inp : sagaInput) (y0 : System X) (closed confirmed : bool) (y : System X) : Prop := {
  ph_can : can_reserve (sys_stock y0) (in_TenantUUID inp) (stockLines (in_Lines inp)) = true;
  ph_wf : res_wf (sys_res y);
  ph_fine : stock_fine (sys_stock y);
  ph_rows : closed = false → ∃ new, reservations (sys_res y) = reservations (sys_res y0) ++ new ∧
    length new = length (in_Lines inp) ∧
    Forall (λ r, of_order (in_TenantUUID inp) (in_OrderID inp) r = true) new;
  ph_held k : held_at (sys_res y) k = held_at (sys_res y0) k +
    (if closed then 0 else qty_at (in_TenantUUID inp) k (stockLines (in_Lines inp)));
  ph_res_keys : res_key_seen (in_TenantUUID inp) (in_IdemKey inp +:+ ":reserve") (sys_res y) = true ∧
    res_key_seen (in_TenantUUID inp) (in_IdemKey inp +:+ ":allocate") (sys_res y) = closed;
  ph_stock_keys : key_used (sys_stock y) (in_TenantUUID inp) (in_IdemKey inp +:+ ":reserve") = true ∧
    key_used (sys_stock y) (in_TenantUUID inp) (in_IdemKey inp +:+ ":confirm") = confirmed;
  ph_moved k : let q := qty_at (in_TenantUUID inp) k (stockLines (in_Lines inp)) in
    available_in (sys_stock y) k = available_in (sys_stock y0) k - q ∧
    reserved_in (sys_stock y) k = reserved_in (sys_stock y0) k + (if confirmed then 0 else q) ∧
    allocated_in (sys_stock y) k = allocated_in (sys_stock y0) k + (if confirmed then q else 0);
}.

(** ** Lemmas *)

Lemma stock_lines_perm inp inp' : same_saga inp inp' → stockLines (in_Lines inp') ≡ₚ stockLines (in_Lines inp).
Proof. intros Hs. unfold stockLines. by rewrite (ss_lines _ _ Hs). Qed.

Lemma same_qty inp inp' t k :
  same_saga inp inp' → qty_at t k (stockLines (in_Lines inp')) = qty_at t k (stockLines (in_Lines inp)).
Proof. intros Hs. unfold qty_at. by rewrite (stock_lines_perm _ _ Hs). Qed.

(** A phase is one for every run of the saga. *)
Lemma phase_same inp inp' y0 a c y : same_saga inp inp' → phase inp y0 a c y → phase inp' y0 a c y.
Proof.
  intros Hs [P1 P2 P3 P4 P5 P6 P7 P8]. pose proof (same_qty inp inp') as Hq.
  destruct Hs as [S1 S2 S3 S4 S5] eqn:E. clear E. split; rewrite ?S2, ?S3, ?S4; try done.
  - rewrite <- P1. apply law_can_reserve_perm. by apply stock_lines_perm.
  - intros Hc. destruct (P4 Hc) as (new & E1 & E2 & E3). exists new. by rewrite (Permutation_length S5).
  - intros k. by rewrite Hq.
  - intros k. rewrite Hq by done. apply P8.
Qed.

Lemma step_key_nonempty key c s : key +:+ String c s ≠ "".
Proof. by destruct key. Qed.

Lemma res_key_self d d' u key hash now0 :
  res_idem d' = res_idem (res_recorded u key hash now0 d) → key ≠ "" → res_key_seen u key d' = true.
Proof.
  intros Hi Hne. unfold res_key_seen. rewrite Hi. unfold res_recorded.
  rewrite (bool_decide_false (key = "")) by done. cbn. rewrite lookup_insert_eq. by rewrite bool_decide_true by eauto.
Qed.

(** Closing exactly the new rows. *)
Lemma closed_new t orderID status (rows new : list Reservation) k :
  status ≠ StatusActive → Forall (λ r, of_order t orderID r = false) rows →
  Forall (λ r, of_order t orderID r = true) new →
  zsum (holds_at k) (close_order t orderID status <$> (rows ++ new)) = zsum (holds_at k) rows.
Proof.
  intros Hst Hrows Hnew. rewrite fmap_app, zsum_app.
  assert (close_order t orderID status <$> rows = rows) as ->.
  { clear Hnew. induction Hrows as [|r rows Hr _ IH]; [done|]. rewrite fmap_cons, IH. f_equal.
    unfold close_order. by rewrite Hr. }
  assert (zsum (holds_at k) (close_order t orderID status <$> new) = 0) as ->; [|lia].
  induction Hnew as [|r new Hr _ IH]; [done|]. rewrite fmap_cons. cbn [zsum]. rewrite IH.
  unfold close_order. rewrite Hr. unfold holds_at, is_active. cbn [r_Status set_status].
  by rewrite bool_decide_false.
Qed.

(** A reservation that went through recorded its key in both databases. *)
Lemma reserve_done now0 ctx req d (x : X) t d' x' resp :
  uuid_scan (rq_TenantId req) = Some t → rq_Items req ≠ [] → items_ok (rq_Items req) = true →
  (∀ it, it ∈ rq_Items req → is_Some (jsonb_parse (payload_order_sku (rq_OrderId req) (it_SkuId it)))) →
  res_wf d → stock_fine x → rq_IdempotencyKey req ≠ "" →
  res_key_seen t (rq_IdempotencyKey req) d = false → key_used x t (rq_IdempotencyKey req) = false →
  Reserve (res_healthy now0) ctx req d x = (d', x', Ok resp) →
  if rr_Success resp
  then res_key_seen t (rq_IdempotencyKey req) d' = true ∧ key_used x' t (rq_IdempotencyKey req) = true
  else d' = d ∧ x' = x.
Proof.
  intros Ht Hne Hok Hp Hd Hx Hkey Hk1 Hk2. unfold Reserve, ParseUUID. rewrite Ht.
  destruct (rq_Items req) as [|it items] eqn:Hitems; [done|]. rewrite <- Hitems in *.
  set (sreq := mkReserveStockRequest (rq_TenantId req) (rq_OrderId req) (rq_IdempotencyKey req)
                 (item_line <$> rq_Items req)).
  assert (rsv_Lines sreq ≠ []) as Hne' by by intros ?%fmap_nil_inv.
  destruct (law_reserve x (WithTenantID ctx (rq_TenantId req)) sreq t)
    as (x1 & sr & Hcall & Hx' & _); cbn; auto using item_lines_ok.
  pose proof (law_reserve_done x _ sreq t x1 sr Hx Ht Hk2 (item_lines_ok _ Hok) Hne' Hkey Hcall) as Hdone.
  fold sreq. rewrite Hcall. destruct (rsvr_Success sr); cbn [negb].
  - destruct (insertReservations_run now0 ctx t req (expiry now0 req) d)
      as (d1 & id & new & Hins & _ & _ & _ & Hi); [done..|].
    unfold expiry in Hins. cbn [res_healthy re_tx re_now]. rewrite Hins. intros [= <- <- <-]. cbn.
    split; [by eapply res_key_self|done].
  - intros [= <- <- <-]. done.
Qed.

(** Reserve again: both services know the key. *)
Lemma reserve_again_run now0 ctx req d (x : X) t :
  uuid_scan (rq_TenantId req) = Some t → rq_Items req ≠ [] → stock_fine x →
  res_key_seen t (rq_IdempotencyKey req) d = true → key_used x t (rq_IdempotencyKey req) = true →
  ∃ resp, Reserve (res_healthy now0) ctx req d x = (d, x, Ok resp) ∧ rr_Success resp = true.
Proof.
  intros Ht Hne Hx Hk1 Hk2. unfold Reserve, ParseUUID. rewrite Ht.
  destruct (rq_Items req) as [|it items] eqn:Hitems; [done|]. rewrite <- Hitems in *.
  set (sreq := mkReserveStockRequest (rq_TenantId req) (rq_OrderId req) (rq_IdempotencyKey req)
                 (item_line <$> rq_Items req)).
  destruct (law_reserve_replay x (WithTenantID ctx (rq_TenantId req)) sreq t) as (sr & -> & ->); try done.
  { cbn. by intros ?%fmap_nil_inv. }
  cbn [negb res_healthy re_tx re_now]. unfold insertReservations.
  rewrite (exec_tx_healthy _ _ _ _ (rq_TenantId req)) by (done || by eapply scan_nonempty).
  rewrite Ht. unfold tx_body, insert_closure, mbind, Q_bind. fold (tenant_session t now0).
  rewrite check_key_run, Hk1. cbn. by eexists.
Qed.

(** Allocate again. *)
Lemma allocate_again_run now0 ctx req d t :
  uuid_scan (al_TenantId req) = Some t → res_key_seen t (al_IdempotencyKey req) d = true →
  AllocateReservation (res_healthy now0) ctx req d = (d, Ok (mkAllocateReservationResponse true 0)).
Proof.
  intros Ht Hk. unfold AllocateReservation, ParseUUID. rewrite Ht. cbn [res_healthy re_tx re_locked].
  rewrite (exec_tx_healthy _ _ _ _ (al_TenantId req)) by (done || by eapply scan_nonempty).
  rewrite Ht. unfold tx_body, allocate_closure, mbind, Q_bind. fold (tenant_session t now0).
  by rewrite check_key_run, Hk.
Qed.

(** ** The calls *)

Section Calls.
Context (ctx : Ctx) (inp : sagaInput) (y0 : System X).
Abbreviation t := (in_TenantUUID inp).
Context (Ht : uuid_scan (in_TenantID inp) = Some t).
Context (Hok : order_lines_ok (in_Lines inp) = true) (Hne : in_Lines inp ≠ []).
Context (Hwf0 : res_wf (sys_res y0)) (Hst0 : stock_fine (sys_stock y0)).
Context (Hb0 : books_agree (sys_res y0) (sys_stock y0)).
Context (Hrows : Forall (λ r, of_order t (in_OrderID inp) r = false) (reservations (sys_res y0))).
Context (Hrk : Forall (λ key, res_key_seen t key (sys_res y0) = false)
    [in_IdemKey inp +:+ ":reserve"; in_IdemKey inp +:+ ":allocate"]).
Context (Hsk : Forall (λ key, key_used (sys_stock y0) t key = false)
    [in_IdemKey inp +:+ ":reserve"; in_IdemKey inp +:+ ":confirm"]).
Context (Hjson : is_Some (jsonb_parse (payload_order (in_OrderID inp))) ∧
    ∀ l, l ∈ in_Lines inp → is_Some (jsonb_parse (payload_order_sku (in_OrderID inp) (ln_SkuId l)))).
Context (Hlen : Z.of_nat (length (reservations (sys_res y0)) + length (in_Lines inp)) < 2147483648).

Lemma phase_reserve y :
  sys_faults y = [] → phase_new y0 y →
  ∃ y1 rr, rpc_Reserve ctx (reserve_request inp) y = (y1, Ok rr) ∧ sys_faults y1 = [] ∧ sys_now y1 = sys_now y ∧
    rr_Success rr = can_reserve (sys_stock y0) t (stockLines (in_Lines inp)) ∧
    if rr_Success rr then phase inp y0 false false y1 else phase_new y0 y1.
Proof using Hlaws StockReplayLaws0 Ht Hok Hne Hwf0 Hst0 Hb0 Hrk Hsk Hjson.
  intros Hf [E1 E2]. decompose_Forall.
  assert (in_IdemKey inp +:+ ":allocate" ≠ in_IdemKey inp +:+ ":reserve") as N1 by by apply step_keys_ne.
  assert (in_IdemKey inp +:+ ":confirm" ≠ in_IdemKey inp +:+ ":reserve") as N2 by by apply step_keys_ne.
  assert (∀ it, it ∈ reserveItems (in_Lines inp) →
            is_Some (jsonb_parse (payload_order_sku (in_OrderID inp) (it_SkuId it)))) as Hp
    by (intros it (l & -> & Hl)%list_elem_of_fmap; by apply Hjson).
  assert (reserveItems (in_Lines inp) ≠ []) as Hne' by (unfold reserveItems; by intros ?%fmap_nil_inv).
  pose proof (order_items_ok _ Hok) as Hio.
  destruct (reserve_run (sys_now y) (mkCtx None (ctx_traceparent ctx)) (reserve_request inp) (sys_res y0)
    (sys_stock y0) t) as (d1 & x1 & rr & Hrun & Hwf1 & Hst1 & Hb1 & Hcan & Hkeys & Hmv & Hnew); [done..|].
  pose proof (reserve_done _ _ (reserve_request inp) _ _ t _ _ _ Ht Hne' Hio Hp Hwf0 Hst0 (step_key_nonempty _ _ _)
    ltac:(eassumption) ltac:(eassumption) Hrun) as Hdone.
  cbn [reserve_request rq_TenantId rq_IdempotencyKey rq_Items rq_OrderId] in Hcan, Hkeys, Hmv, Hnew, Hdone.
  rewrite item_stock_lines in Hcan, Hmv.
  exists (mkSystem d1 x1 (sys_now y) []), rr.
  split; [apply call_res_healthy; [done|]; by rewrite E1, E2|]. do 2 (split; [done|]). split; [done|].
  destruct (rr_Success rr); [|done]. destruct Hnew as (new & Hl & Hnew).
  destruct (new_rows_lines _ _ _ _ _ Hnew) as [Hlines Hact].
  assert (∀ k, held_at d1 k = held_at (sys_res y0) k + qty_at t k (stockLines (in_Lines inp))) as Hheld.
  { intros k. unfold held_at. rewrite Hl, zsum_app. f_equal.
    by rewrite <- (qty_at_rows _ _ _ Hact), Hlines, item_stock_lines. }
  split; cbn [sys_res sys_stock]; try done.
  - intros _. exists new. split; [done|]. split.
    + rewrite <- (Forall2_length _ _ _ Hnew). unfold reserveItems. by rewrite length_fmap.
    + clear -Hnew. induction Hnew as [|it r items new (R1 & R2 & _ & R3 & _) _ IH]; constructor; [|done].
      unfold of_order, is_active. by rewrite !bool_decide_true.
  - split; [apply Hdone|]. by rewrite (proj2 (Hkeys _ N1)).
  - split; [apply Hdone|]. by rewrite (proj1 (Hkeys _ N2)).
  - intros k. cbn zeta. destruct (Hmv k) as [-> ->]. rewrite Hb1, Hheld, Hb0. clear Hlen. lia.
Qed.

Lemma phase_reserve_again a c y :
  sys_faults y = [] → phase inp y0 a c y →
  ∃ rr, rpc_Reserve ctx (reserve_request inp) y = (y, Ok rr) ∧ rr_Success rr = true.
Proof using Hlaws StockReplayLaws0 Ht Hne.
  intros Hf Hph. destruct (reserve_again_run (sys_now y) (mkCtx None (ctx_traceparent ctx)) (reserve_request inp)
    (sys_res y) (sys_stock y) t) as (rr & Hrun & Hs); try done.
  - cbn. unfold reserveItems. by intros ?%fmap_nil_inv.
  - apply Hph.
  - apply Hph.
  - apply Hph.
  - exists rr. split; [|done]. change (call_res Reserve ctx (reserve_request inp) y = (y, Ok rr)).
    rewrite (call_res_healthy _ _ _ _ _ _ _ Hf Hrun). by destruct y; cbn in Hf; subst.
Qed.

Lemma phase_allocate a c y :
  sys_faults y = [] → phase inp y0 a c y →
  ∃ y1 ar, rpc_AllocateReservation ctx (allocate_request inp) y = (y1, Ok ar) ∧ sys_faults y1 = [] ∧
    sys_now y1 = sys_now y ∧ phase inp y0 true c y1.
Proof using Hlaws Ht Hrows Hjson Hlen.
  intros Hf Hph. pose proof Hph as [P1 P2 P3 P4 P5 [P6 P7] P8 P9]. destruct a.
  - exists y, (mkAllocateReservationResponse true 0). split; [|done].
    assert (y = mkSystem (sys_res y) (sys_stock y) (sys_now y) []) as Hy by (destruct y; cbn in Hf; by subst).
    rewrite Hy at 2. apply call_res_healthy; [done|].
    by rewrite (allocate_again_run (sys_now y) (mkCtx None (ctx_traceparent ctx)) (allocate_request inp) _ t Ht P7).
  - destruct (P4 eq_refl) as (new & Hl & Hln & Hnew).
    destruct (allocate_run (sys_now y) (mkCtx None (ctx_traceparent ctx)) (allocate_request inp) (sys_res y) t)
      as (d2 & Hrun & Hl2 & Hwf2 & Hi2); [exact Ht|exact (proj1 Hjson)|exact P2|exact P7| |].
    { rewrite Hl, length_app. lia. }
    cbn [allocate_request al_OrderId] in Hl2.
    eexists (mkSystem d2 (sys_stock y) (sys_now y) []), _. split; [apply call_res_healthy; [done|]; by rewrite Hrun|].
    do 2 (split; [done|]). split; cbn [sys_res sys_stock]; try done.
    + intros k. unfold held_at. rewrite Hl2, Hl, closed_new by done. lia.
    + split; [|by eapply res_key_self, step_key_nonempty].
      rewrite (res_key_other _ _ _ _ _ _ _ Hi2) by (by apply step_keys_ne). done.
Qed.

Lemma phase_confirm c y :
  sys_faults y = [] → phase inp y0 true c y →
  ∃ y1 cr, rpc_ConfirmStockAllocation ctx (confirm_request inp) y = (y1, Ok cr) ∧ sys_faults y1 = [] ∧
    phase inp y0 true true y1.
Proof using StockReplayLaws0 Ht Hok Hwf0 Hb0.
  intros Hf Hph. pose proof Hph as [P1 P2 P3 P4 P5 P6 [P7 P8] P9]. destruct c.
  - destruct (law_confirm_replay (sys_stock y) ctx (confirm_request inp) t) as (cr & Hcall); try done.
    exists y, cr. split; [|done]. cbn. unfold through_stock. rewrite Hcall. by destruct y.
  - assert (lines_nonneg (stockLines (in_Lines inp)) = true) as Hnn
      by (rewrite <- item_stock_lines; by apply item_lines_ok, order_items_ok).
    assert (∀ l, l ∈ stockLines (in_Lines inp) → 0 < Quantity l) as Hpos by (intros l; by apply stock_lines_pos).
    assert (∀ k, qty_at t k (stockLines (in_Lines inp)) <= reserved_in (sys_stock y) k) as Hle.
    { intros k. destruct (P9 k) as (_ & -> & _). rewrite Hb0. pose proof (held_nonneg k _ (rw_qty _ Hwf0)).
      unfold held_at. clear Hlen. lia. }
    destruct (law_confirm (sys_stock y) ctx (confirm_request inp) t) as (x3 & cr & Hcall & Hst3 & Ha & Hr & Hal);
      cbn [confirm_request cnf_TenantId cnf_IdempotencyKey cnf_Lines]; try done.
    destruct (law_confirm_done (sys_stock y) ctx (confirm_request inp) t x3 cr P3 Ht P8 Hnn Hpos Hle
                (step_key_nonempty _ _ _) Hcall) as [Hk Hko].
    exists (mkSystem (sys_res y) x3 (sys_now y) (sys_faults y)), cr.
    split; [cbn; unfold through_stock; by rewrite Hcall|]. split; [done|].
    cbn [confirm_request cnf_Lines] in *. split; cbn [sys_res sys_stock]; try done.
    + split; [|done]. rewrite Hko by (by apply step_keys_ne). done.
    + intros k. cbn zeta. rewrite Ha, Hr, Hal. destruct (P9 k) as (-> & -> & ->). clear Hlen. lia.
Qed.

End Calls.
End Phases.
