(* ===== verification/Recovery.v ===== *)
(** * Recovery of interrupted orders

    An order process that dies while it creates an order leaves its saga, the
    reservation and the stock service somewhere on their way; the resume pass of
    the next process brings all three to the same end as an undisturbed run. *)

From S2P Require Import Prelude Database StockDb StockApi StockService StockEffects StockRefine StockReserve.
From S2P Require Import StockClient ReservationDb ReservationService ReservationBooks ReservationProps.
From S2P Require Import ReservationSweep CircuitBreaker Payment OrderDb OrderService OrderSteps OrderSaga OrderProps.
From S2P Require Import OrderInvariant OrderRequests OrderHealthy System SagaPhases.

Section Recovery.
Context `{UuidText} `{Hlaws : !UuidTextLaws} `{ReservationHashes} `{JsonbText} `{OrderHashes} `{ErrorText}
  {X : Type} `{!StockClient X} `{!StockClientLaws X} `{!StockReplayLaws X}.
Implicit Types (y : System X) (w : OrderWorld (System X)).

(** ** Specification *)

(** The services once the network is well again. *)
Definition calm_system y : System X := mkSystem (sys_res y) (sys_stock y) (sys_now y) [].

(** Calls to the reservation service may get lost, on the way there or on the
    way back; the service itself works. *)
Definition network_only y : Prop := Forall (λ e, rre_env e = res_healthy (sys_now y)) (sys_faults y).

(** A process that dies: any of its transactions may fail, or commit without
    the process learning of it, and it is not able to record a failure; the
    payment is not declined. *)
Record dies (env : SagaEnv) (orderID : string) : Prop := {
  die_fail : tx_begin_err (se_tx env PtFail) ≠ None;
  die_pays : sandboxFailListed (se_fail_orders env) orderID = false;
}.

(** The next process: new breakers, the same databases. *)
Definition restart w : OrderWorld (System X) :=
  mkOrderWorld (ow_db w) (calm_system (ow_down w)) saga_breaker saga_breaker saga_breaker (Charges w).

(** No saga is waiting to be resumed. *)
Definition no_pending (d : OrderDB) : Prop := ∀ k g, sagas d !! k = Some g → resumable g = false.

(** What a run of the saga of order [k] leaves alone. *)
Record kept (k : okey) (d d' : OrderDB) : Prop := {
  kp_lines : order_lines d' = order_lines d;
  kp_key g : sagas d !! k = Some g → ∃ g', sagas d' !! k = Some g' ∧ sg_IdempotencyKey g' = sg_IdempotencyKey g;
  kp_other k' : k' ≠ k → sagas d' !! k' = sagas d !! k';
}.

#[local] Instance kept_preorder k : PreOrder (kept k).
Proof.
  split.
  - intros d. split; [done|by eauto|done].
  - intros d1 d2 d3 [L1 K1 O1] [L2 K2 O2]. split; [congruence| |].
    + intros g Hg. destruct (K1 g Hg) as (g1 & Hg1 & <-). by apply K2.
    + intros k' Hne. by rewrite O2, O1.
Qed.

(** ** Lost calls *)

Lemma call_res_faulty {Req Resp} (handler : ResEnv → Ctx → Req → ResDB → X → ResDB * X * res Resp) ctx req y y' r :
  network_only y → call_res handler ctx req y = (y', r) →
  network_only y' ∧ sys_now y' = sys_now y ∧
  ((calm_system y' = calm_system y ∧ ∃ e, r = Err e) ∨
   ∃ r1, call_res handler ctx req (calm_system y) = (calm_system y', r1) ∧ (r = r1 ∨ ∃ e, r = Err e)).
Proof.
  unfold network_only, call_res, next_res_fault. intros Hn. cbn [calm_system sys_faults sys_res sys_stock sys_now].
  destruct (sys_faults y) as [|e es]; cbn [rre_request_lost rre_env rre_answer_lost].
  - destruct (handler _ _ _ _ _) as [[d x] r1]. intros [= <- <-]. split; [done|]. split; [done|]. right. eauto.
  - apply Forall_cons in Hn as [He Hes]. rewrite He. destruct (rre_request_lost e).
    + intros [= <- <-]. split; [done|]. split; [done|]. left. eauto.
    + destruct (handler _ _ _ _ _) as [[d x] r1]. intros [= <- <-]. split; [done|]. split; [done|]. right.
      exists r1. split; [done|]. destruct (rre_answer_lost e); eauto.
Qed.

(** What a call that may get lost can have done. *)
Definition maybe_lost {Resp} (f : System X → System X * res Resp) y y' (r : res Resp) : Prop :=
  (calm_system y' = calm_system y ∧ ∃ e, r = Err e) ∨
  ∃ r1, f (calm_system y) = (calm_system y', r1) ∧ (r = r1 ∨ ∃ e, r = Err e).

Lemma reserve_faulty ctx req y y' r :
  network_only y → rpc_Reserve ctx req y = (y', r) → network_only y' ∧ maybe_lost (rpc_Reserve ctx req) y y' r.
Proof. intros Hn Hr. by destruct (call_res_faulty _ _ _ _ _ _ Hn Hr) as (? & _ & ?). Qed.

Lemma allocate_faulty ctx req y y' r :
  network_only y → rpc_AllocateReservation ctx req y = (y', r) →
  network_only y' ∧ maybe_lost (rpc_AllocateReservation ctx req) y y' r.
Proof. intros Hn Hr. by destruct (call_res_faulty _ _ _ _ _ _ Hn Hr) as (? & _ & ?). Qed.

(** In either case, if the call on calm services answers with [a]. *)
Lemma maybe_lost_inv {Resp} (f : System X → System X * res Resp) y y' r y1 a :
  maybe_lost f y y' r → f (calm_system y) = (y1, Ok a) →
  (calm_system y' = calm_system y ∨ calm_system y' = y1) ∧ (∀ a', r = Ok a' → a' = a ∧ calm_system y' = y1).
Proof.
  intros Hl Hf. destruct Hl as [[E [e ->]]|(r1 & E & Hr1)]; [by split; [left|]|].
  rewrite Hf in E. injection E as -> <-. split; [by right|]. intros a' ->. by destruct Hr1 as [[= ->]|[e ?]].
Qed.

Lemma confirm_calm ctx req y y' r :
  network_only y → rpc_ConfirmStockAllocation ctx req y = (y', r) →
  network_only y' ∧ rpc_ConfirmStockAllocation ctx req (calm_system y) = (calm_system y', r).
Proof.
  unfold network_only. cbn. unfold through_stock. cbn. destruct (rpc_ConfirmStockAllocation ctx req (sys_stock y)) as [x r1].
  intros Hn [= <- <-]. done.
Qed.

(** ** What the transactions leave alone *)

Lemma transitioned_kept ctx t orderID st step msg now o g d d' :
  transitioned ctx t orderID st step msg now o g d d' → kept (t, orderID) d d'.
Proof.
  intros Htr. split.
  - apply (rk_lines _ _ (tr_kept _ _ _ _ _ _ _ _ _ _ _ Htr)).
  - intros g0 Hg0. rewrite (tr_sagas _ _ _ _ _ _ _ _ _ _ _ Htr), lookup_insert_eq.
    rewrite (tr_saga _ _ _ _ _ _ _ _ _ _ _ Htr) in Hg0. simplify_eq. by eexists.
  - intros k' Hne. by rewrite (tr_sagas _ _ _ _ _ _ _ _ _ _ _ Htr), lookup_insert_ne.
Qed.

Lemma recorded_kept t orderID txn now o d d' : recorded_txn t orderID txn now o d d' → kept (t, orderID) d d'.
Proof.
  intros Hrt. pose proof (rt_sagas _ _ _ _ _ _ _ Hrt) as Hs. split.
  - apply (rk_lines _ _ (rt_kept _ _ _ _ _ _ _ Hrt)).
  - rewrite Hs. eauto.
  - by rewrite Hs.
Qed.

(** ** The run that is interrupted *)

Section Interrupted.
Context (env : SagaEnv) (ctx : Ctx) (inp : sagaInput) (y0 : System X).
Abbreviation t := (in_TenantUUID inp).
Abbreviation k := (in_TenantUUID inp, in_OrderID inp).
Context (Hdies : dies env (in_OrderID inp)).
Context (Hctx : ctx_tenant ctx = Some (in_TenantID inp)).
Context (Ht : uuid_scan (in_TenantID inp) = Some t).
Context (Hpay : in_ForcePaymentFailure inp = false) (Hpos : 0 < orderTotal (in_Lines inp)).
Context (Hok : order_lines_ok (in_Lines inp) = true) (Hne : in_Lines inp ≠ []).
Context (Hwf0 : res_wf (sys_res y0)) (Hst0 : stock_fine (sys_stock y0)).
Context (Hb0 : books_agree (sys_res y0) (sys_stock y0)).
Context (Hrows : Forall (λ r, of_order t (in_OrderID inp) r = false) (reservations (sys_res y0))).
Context (Hrk : Forall (λ key, res_key_seen t key (sys_res y0) = false)
    [in_IdemKey inp +:+ ":reserve"; in_IdemKey inp +:+ ":allocate"]).
Context (Hsk : Forall (λ key, key_used (sys_stock y0) t key = false)
    [in_IdemKey inp +:+ ":reserve"; in_IdemKey inp +:+ ":confirm"]).
Context (Hjson : is_Some (jsonb_parse (payload_order (in_OrderID inp))) ∧
    ∀ l, l ∈ in_Lines inp → is_Some (jsonb_parse (payload_order_sku (in_OrderID inp) (ln_SkuId l)))).
Context (Hlen : Z.of_nat (length (reservations (sys_res y0)) + length (in_Lines inp)) < 2147483648).

(** A run that stopped on the way. *)
Record open_run (w w' : OrderWorld (System X)) : Prop := {
  or_net : network_only (ow_down w');
  or_kept : kept k (ow_db w) (ow_db w');
  or_flight : in_flight k (ow_db w');
}.

(** Where the services are. *)
Definition somewhere y : Prop := phase_new y0 (calm_system y) ∨ ∃ a c, phase inp y0 a c (calm_system y).

(** A failure cannot be recorded any more. *)
Lemma fail_dead msg w : ∃ e, failSaga env ctx (in_TenantID inp) (in_OrderID inp) msg w = (w, Err e).
Proof using Hdies Hctx Ht.
  unfold failSaga, ParseUUID, transition, order_tx, ExecTxWithTenant, TenantIDFromContext. rewrite Ht, Hctx.
  case_bool_decide; [eexists; by rewrite with_db_same|].
  pose proof (die_fail _ _ Hdies) as Hf. destruct (tx_begin_err (se_tx env PtFail)); [|done].
  eexists. by rewrite with_db_same.
Qed.

Lemma crash_reserve w w' f :
  in_flight k (ow_db w) → network_only (ow_down w) → phase_new y0 (calm_system (ow_down w)) →
  step_reserve env ctx inp w = (w', f) →
  open_run w w' ∧ Charges w' = Charges w ∧
  match f with
  | Next _ => phase inp y0 false false (calm_system (ow_down w'))
  | Return _ => somewhere (ow_down w')
  end.
Proof using All.
  clear Hpay Hpos Hlen Hrows.
  intros Hfl Hnet Hnew.
  unfold step_reserve, guard, mbind, M_bind, lift, modify, get, return_, mret, M_ret.
  destruct (Allow _ _) as [b [e|]]; [intros [= <- <-]; split; [by split|]; split; [done|by left]|].
  unfold call at 1. cbn [ow_down on_resBreaker].
  destruct (phase_reserve ctx inp y0 Ht Hok Hne Hwf0 Hst0 Hb0 Hrk Hsk Hjson (calm_system (ow_down w)) eq_refl Hnew)
    as (y1 & rr & Hcall & _ & _ & _ & Hph).
  destruct (rpc_Reserve ctx (reserve_request inp) (ow_down w)) as [y' r] eqn:Hr.
  destruct (reserve_faulty _ _ _ _ _ Hnet Hr) as [Hnet' Hlost].
  destruct (maybe_lost_inv _ _ _ _ _ _ Hlost Hcall) as [Hy Hans].
  assert (somewhere y') as Hsome.
  { destruct Hy as [Hy|Hy]; unfold somewhere; rewrite Hy; [by left|].
    destruct (rr_Success rr); [right; eauto|by left]. }
  destruct r as [rr'|e].
  - destruct (Hans rr' eq_refl) as [-> Hy'].
    destruct (rr_Success rr); cbn [negb].
    + destruct (transition _ _ _ _ _ _ _ _) as [w1 rt] eqn:Htr.
      destruct (transition_spec _ _ _ _ _ _ _ _ _ _ _ Hctx Ht Htr) as (d' & -> & [[[e ->] ->]|(o & g & Htr')]).
      * intros [= <- <-]. split; [by split|]. split; [done|]. exact Hsome.
      * assert (open_run w (with_db d' (on_resBreaker RecordSuccess (with_down y' (on_resBreaker (λ _, b) w))))) as Ho.
        { split; [done|by eapply transitioned_kept|].
          apply (open_tx_in_flight ctx _ _ _ d' Hfl). by eapply open_reserved. }
        destruct rt as [u|e]; intros [= <- <-]; (split; [done|]; split; [done|]); [|done]. cbn. by rewrite Hy'.
    + edestruct fail_dead as [e Hf]. rewrite Hf. intros [= <- <-]. split; [by split|]. done.
  - edestruct fail_dead as [e' Hf]. rewrite Hf. intros [= <- <-]. split; [by split|]. done.
Qed.

Lemma crash_charge w w' f :
  step_charge env inp w = (w', f) →
  ow_db w' = ow_db w ∧ ow_down w' = ow_down w ∧
  match f with
  | Next r => (∃ txn, r = Ok txn) ∧ Charges w' = Charges w ++ [charge_request inp]
  | Return _ => Charges w' = Charges w
  end.
Proof using Hdies Hpay Hpos.
  clear Hlen. unfold step_charge, guard, mbind, M_bind, lift, modify, get, return_, mret, M_ret. rewrite Hpay.
  destruct (Allow _ _) as [b [e|]]; [by intros [= <- <-]|].
  unfold Charge. cbn [charge_request cr_Amount cr_ForceFail cr_OrderID orb].
  rewrite (proj2 (Z.leb_gt _ _)) by lia. rewrite (die_pays _ _ Hdies). intros [= <- <-]. by eauto.
Qed.

Lemma crash_record w w' txn r :
  in_flight k (ow_db w) → network_only (ow_down w) →
  recordTransaction (se_tx env PtRecord) ctx (in_OrderID inp) txn w = (w', r) →
  open_run w w' ∧ ow_down w' = ow_down w ∧ Charges w' = Charges w.
Proof using Hctx Ht.
  intros Hfl Hnet Hrun. destruct (record_spec _ _ _ _ _ _ _ _ _ Hctx Ht Hrun) as (d' & -> & Hd').
  split; [|done]. destruct Hd' as [[_ ->]|[o Hrt]]; [by split|].
  split; [done|by eapply recorded_kept|]. apply (open_tx_in_flight ctx _ _ _ d' Hfl). by eapply open_record.
Qed.

Lemma crash_allocate w w' f :
  in_flight k (ow_db w) → network_only (ow_down w) → phase inp y0 false false (calm_system (ow_down w)) →
  step_allocate env ctx inp w = (w', f) →
  open_run w w' ∧ Charges w' = Charges w ∧
  match f with
  | Next _ => phase inp y0 true false (calm_system (ow_down w'))
  | Return _ => ∃ a, phase inp y0 a false (calm_system (ow_down w'))
  end.
Proof using Hlaws Hdies Hctx Ht Hrows Hjson Hlen.
  intros Hfl Hnet Hph. unfold step_allocate, mbind, M_bind, lift, modify, return_. unfold call at 1.
  destruct (phase_allocate ctx inp y0 Ht Hrows Hjson Hlen _ _ (calm_system (ow_down w)) eq_refl Hph)
    as (y1 & ar & Hcall & _ & _ & Hph1).
  destruct (rpc_AllocateReservation ctx (allocate_request inp) (ow_down w)) as [y' r] eqn:Hr.
  destruct (allocate_faulty _ _ _ _ _ Hnet Hr) as [Hnet' Hlost].
  destruct (maybe_lost_inv _ _ _ _ _ _ Hlost Hcall) as [Hy Hans].
  destruct r as [ar'|e].
  - destruct (Hans ar' eq_refl) as [-> Hy']. intros [= <- <-]. split; [by split|]. split; [done|]. cbn. by rewrite Hy'.
  - edestruct fail_dead as [e' Hf]. rewrite Hf. intros [= <- <-]. split; [by split|]. split; [done|]. cbn.
    destruct Hy as [-> | ->]; eauto.
Qed.

Lemma crash_confirm w w' f :
  in_flight k (ow_db w) → network_only (ow_down w) → phase inp y0 true false (calm_system (ow_down w)) →
  step_confirm env ctx inp w = (w', f) →
  network_only (ow_down w') ∧ kept k (ow_db w) (ow_db w') ∧ Charges w' = Charges w ∧
  (saga_is k SagaConfirmed (ow_db w') ∧ phase inp y0 true true (calm_system (ow_down w')) ∨
   (∃ r, f = Return r) ∧ in_flight k (ow_db w') ∧ ∃ c, phase inp y0 true c (calm_system (ow_down w'))).
Proof using Hlaws StockReplayLaws0 Hdies Hctx Ht Hok Hwf0 Hb0.
  intros Hfl Hnet Hph. unfold step_confirm, guard, mbind, M_bind, lift, modify, get, return_, mret, M_ret.
  destruct (Allow _ _) as [b [e|]]; [intros [= <- <-]; cbn; do 3 (split; [done|]); right; eauto 10|].
  unfold call at 1. cbn [ow_down on_stockBreaker].
  destruct (phase_confirm ctx inp y0 Ht Hok Hwf0 Hb0 _ (calm_system (ow_down w)) eq_refl Hph)
    as (y1 & cr & Hcall & _ & Hph1).
  destruct (rpc_ConfirmStockAllocation ctx (confirm_request inp) (ow_down w)) as [y' r] eqn:Hr.
  destruct (confirm_calm _ _ _ _ _ Hnet Hr) as [Hnet' Hcall']. rewrite Hcall in Hcall'. injection Hcall' as -> <-.
  destruct (transition _ _ _ _ _ _ _ _) as [w1 rt] eqn:Htr.
  destruct (transition_spec _ _ _ _ _ _ _ _ _ _ _ Hctx Ht Htr) as (d' & -> & [[[e ->] ->]|(o & g & Htr')]).
  - intros [= <- <-]. cbn. do 3 (split; [done|]). right. eauto 10.
  - pose proof (transitioned_kept _ _ _ _ _ _ _ _ _ _ _ Htr') as Hk.
    pose proof (transitioned_saga ctx inp _ _ _ _ _ _ _ _ Htr') as Hsg. cbn in Hk.
    destruct rt as [u|e]; intros [= <- <-]; cbn; eauto 10.
Qed.

(** What an interrupted run leaves: the saga still open, with the services
    somewhere and the customer charged at most once, or confirmed. *)
Definition interrupted (w w' : OrderWorld (System X)) : Prop :=
  network_only (ow_down w') ∧ kept k (ow_db w) (ow_db w') ∧
  ∃ n : nat, Charges w' = Charges w ++ replicate n (charge_request inp) ∧
    (in_flight k (ow_db w') ∧
       (phase_new y0 (calm_system (ow_down w')) ∧ n = 0%nat ∨
        (n <= 1)%nat ∧ ∃ a c, phase inp y0 a c (calm_system (ow_down w'))) ∨
     saga_is k SagaConfirmed (ow_db w') ∧ n = 1%nat ∧ phase inp y0 true true (calm_system (ow_down w'))).

Lemma open_interrupted w w' n :
  open_run w w' → Charges w' = Charges w ++ replicate n (charge_request inp) → (n <= 1)%nat →
  (phase_new y0 (calm_system (ow_down w')) ∧ n = 0%nat ∨ ∃ a c, phase inp y0 a c (calm_system (ow_down w'))) →
  interrupted w w'.
Proof using.
  intros [Hnet Hk Hfl] Hc Hn Hph. do 2 (split; [done|]). exists n. split; [done|]. left. split; [done|].
  destruct Hph as [Hph|Hph]; [by left|by right].
Qed.

Lemma crash_run w w' r :
  in_flight k (ow_db w) → network_only (ow_down w) → phase_new y0 (calm_system (ow_down w)) →
  runSaga env ctx inp w = (w', r) → interrupted w w'.
Proof using All.
  intros Hfl Hnet Hnew. unfold runSaga, run_body, saga_body, mbind, M_bind.
  destruct (step_reserve env ctx inp w) as [w1 f1] eqn:H1r. apply crash_reserve in H1r as (Ho1 & Hc1 & Hp1); try done.
  destruct f1 as [[]|r1].
  2:{ intros [= <- _]. apply (open_interrupted _ _ 0 Ho1); [by rewrite app_nil_r|lia|]. destruct Hp1; eauto. }
  destruct Ho1 as [Hn1 Hk1 Hf1].
  destruct (step_charge env inp w1) as [w2 f2] eqn:H2r. apply crash_charge in H2r as (Hd2 & Hy2 & Hc2).
  rewrite <- Hd2 in Hk1, Hf1. rewrite <- Hy2 in Hn1, Hp1.
  destruct f2 as [r2|r2].
  2:{ intros [= <- _]. apply (open_interrupted _ _ 0); [by split|rewrite Hc2, Hc1; by rewrite app_nil_r|lia|eauto]. }
  destruct Hc2 as [[txn ->] Hc2]. rewrite Hc1 in Hc2. unfold lift.
  destruct (recordTransaction _ _ _ _ w2) as [w3 r3] eqn:H3r. apply crash_record in H3r as (Ho3 & Hy3 & Hc3); try done.
  destruct Ho3 as [Hn3 Hk3 Hf3]. rewrite <- Hy3 in Hp1. pose proof (transitivity Hk1 Hk3) as Hk3'.
  assert (Charges w3 = Charges w ++ replicate 1 (charge_request inp)) as Hc by by rewrite Hc3, Hc2.
  destruct r3 as [u|e].
  2:{ intros [= <- _]. apply (open_interrupted _ _ 1); [by split|done|lia|eauto]. }
  destruct (step_allocate env ctx inp w3) as [w4 f4] eqn:H4r. apply crash_allocate in H4r as (Ho4 & Hc4 & Hp4); try done.
  destruct Ho4 as [Hn4 Hk4 Hf4]. pose proof (transitivity Hk3' Hk4) as Hk4'. rewrite <- Hc4 in Hc.
  destruct f4 as [[]|r4].
  2:{ intros [= <- _]. destruct Hp4 as [a Hp4]. apply (open_interrupted _ _ 1); [by split|done|lia|eauto]. }
  destruct (step_confirm env ctx inp w4) as [w5 f5] eqn:H5r.
  apply crash_confirm in H5r as (Hn5 & Hk5 & Hc5 & Hp5); try done.
  pose proof (transitivity Hk4' Hk5) as Hk5'. rewrite <- Hc5 in Hc.
  assert (interrupted w w5) as Hw5.
  { do 2 (split; [done|]). exists 1%nat. split; [done|].
    destruct Hp5 as [[? ?]|(_ & ? & c & ?)]; [by right|left]. split; [done|]. right. eauto. }
  destruct f5 as [[]|r5]; by intros [= <- _].
Qed.

End Interrupted.
(** ** The run that resumes *)

Section Resumed.
Context (now : Z) (txn : string) (ctx : Ctx) (inp : sagaInput) (y0 : System X).
Abbreviation t := (in_TenantUUID inp).
Abbreviation k := (in_TenantUUID inp, in_OrderID inp).
Context (Hctx : ctx_tenant ctx = Some (in_TenantID inp)).
Context (Ht : uuid_scan (in_TenantID inp) = Some t).
Context (Hpay : in_ForcePaymentFailure inp = false) (Hpos : 0 < orderTotal (in_Lines inp)).
Context (Hok : order_lines_ok (in_Lines inp) = true) (Hne : in_Lines inp ≠ []).
Context (Hwf0 : res_wf (sys_res y0)) (Hb0 : books_agree (sys_res y0) (sys_stock y0)).
Context (Hrows : Forall (λ r, of_order t (in_OrderID inp) r = false) (reservations (sys_res y0))).
Context (Hjson : is_Some (jsonb_parse (payload_order (in_OrderID inp))) ∧
    ∀ l, l ∈ in_Lines inp → is_Some (jsonb_parse (payload_order_sku (in_OrderID inp) (ln_SkuId l)))).
Context (Hlen : Z.of_nat (length (reservations (sys_res y0)) + length (in_Lines inp)) < 2147483648).

(** The steps that were taken are answered, the others taken. *)
Lemma resumed_run a c w :
  breakers_closed w → in_flight k (ow_db w) → sys_faults (ow_down w) = [] → phase inp y0 a c (ow_down w) →
  ∃ w' resp, runSaga (saga_healthy now txn) ctx inp w = (w', Ok resp) ∧ saga_is k SagaConfirmed (ow_db w') ∧
    phase inp y0 true true (ow_down w') ∧ Charges w' = Charges w ++ [charge_request inp].
Proof using All.
  intros (B1 & B2 & B3) Hfl Hf Hph. unfold runSaga, run_body, saga_body, mbind, M_bind.
  destruct (phase_reserve_again ctx inp y0 Ht Hne a c _ Hf Hph) as (rr & Hcall1 & Hs).
  destruct (reserve_healthy now txn ctx inp Hctx Ht w _ rr B1 Hfl Hcall1) as (w1 & Hy1 & Hc1 & Hp1 & Hs1 & Hstep1).
  rewrite Hs in Hstep1. destruct Hstep1 as [-> Hfl1].
  destruct (charge_healthy now txn inp w1) as (w2 & Hy2 & Hd2 & Hs2 & Hstep2); [by rewrite Hp1|done|].
  rewrite Hpay in Hstep2. destruct Hstep2 as [-> Hc2]. unfold lift.
  destruct (record_healthy now ctx inp Hctx Ht w2 ("sbx_" +:+ txn)) as (d3 & Hrec & Hfl3); [by rewrite Hd2|].
  cbn [se_tx saga_healthy]. rewrite Hrec.
  destruct (phase_allocate ctx inp y0 Ht Hrows Hjson Hlen a c (ow_down w) Hf Hph) as (y4 & ar & Hcall4 & Hf4 & _ & Hph4).
  destruct (allocate_healthy now txn ctx inp (with_db d3 w2) y4 ar) as (w4 & Hal & Hy4 & Hd4 & Hs4);
    [cbn; by rewrite Hy2, Hy1|]. rewrite Hal.
  destruct (phase_confirm ctx inp y0 Ht Hok Hwf0 Hb0 c y4 Hf4 Hph4) as (y5 & cr & Hcall5 & _ & Hph5).
  destruct (confirm_healthy now txn ctx inp Hctx Ht w4 y5 cr) as (w5 & Hcf & Hy5 & Hsg);
    [by rewrite Hs4; cbn; rewrite Hs2, Hs1|by rewrite Hd4|by rewrite Hy4|]. rewrite Hcf.
  eexists w5, _. split; [done|]. split; [done|]. rewrite Hy5. split; [done|].
  apply (confirm_step _ _ _ Hctx Ht) in Hcf as (_ & _ & _ & _ & _ & _ & _ & Hc5).
  apply (allocate_step _ _ _ Hctx Ht) in Hal as (_ & _ & _ & _ & _ & Hc4).
  rewrite Hc5, Hc4. cbn. by rewrite Hc2, Hc1.
Qed.

End Resumed.

(** ** The pass *)

(** The input of a resumed saga. *)
Definition resumed (t : uuid) (orderID key : string) (lines : list OrderLine) : sagaInput :=
  {| in_TenantID := uuid_string t; in_TenantUUID := t; in_OrderID := orderID; in_Lines := lines;
     in_IdemKey := key; in_TTL := saga_defaultTTL; in_ForcePaymentFailure := false |}.

(** The only saga that waits. *)
Lemma scan_one now d k g :
  sagas d !! k = Some g → resumable g = true →
  (∀ k' g', k' ≠ k → sagas d !! k' = Some g' → resumable g' = false) →
  GetResumableSagas (λ _, false) 100 (mkSession RlsBypass now) d = Ok (d, [(k, g)]).
Proof.
  intros Hg Hres Hother. unfold GetResumableSagas. do 2 f_equal.
  set (rows := filter _ (map_to_list (sagas d))).
  assert (rows ≡ₚ [(k, g)]) as Hp.
  { apply NoDup_Permutation; [apply NoDup_filter, NoDup_map_to_list|apply NoDup_singleton|].
    intros [k' g']. unfold rows. rewrite list_elem_of_filter, elem_of_map_to_list, list_elem_of_singleton. cbn. split.
    - intros [(_ & Hr & _) Hin]. destruct (decide (k' = k)) as [->|Hne]; [congruence|].
      by rewrite (Hother k' g') in Hr.
    - intros [= -> ->]. done. }
  assert (merge_sort created_le rows ≡ₚ [(k, g)]) as Hs by by rewrite merge_sort_Permutation.
  apply Permutation_singleton_r in Hs. by rewrite Hs.
Qed.

Lemma scan_none now d :
  no_pending d → GetResumableSagas (λ _, false) 100 (mkSession RlsBypass now) d = Ok (d, []).
Proof.
  intros Hno. unfold GetResumableSagas. do 2 f_equal.
  set (rows := filter _ (map_to_list (sagas d))).
  assert (rows = []) as ->; [|done]. destruct rows as [|[k g] rs] eqn:E; [done|]. exfalso.
  assert ((k, g) ∈ rows) as Hin by (rewrite E; apply list_elem_of_here). unfold rows in Hin.
  apply list_elem_of_filter in Hin as [(_ & Hr & _) Hin]. apply elem_of_map_to_list in Hin.
  cbn in Hr. by rewrite (Hno k g) in Hr.
Qed.

Lemma resume_none now txn ctx w :
  no_pending (ow_db w) →
  ResumePendingSagas (healthy now) (λ _, false) (λ _, saga_healthy now txn) ctx 100 w = (w, None).
Proof.
  intros Hno. unfold ResumePendingSagas, ExecTxNoTenant, tx_run, tx_body. cbn [healthy tx_begin_err tx_conn_err tx_now].
  rewrite scan_none by done. cbn. by rewrite with_db_same.
Qed.

Lemma resume_alone now txn ctx w t orderID g :
  sagas (ow_db w) !! (t, orderID) = Some g → resumable g = true →
  (∀ k' g', k' ≠ (t, orderID) → sagas (ow_db w) !! k' = Some g' → resumable g' = false) →
  ∃ lines,
    lines ≡ₚ pb_line <$> filter (λ l, ol_TenantID l = t ∧ ol_OrderID l = orderID) (order_lines (ow_db w)) ∧
    ResumePendingSagas (healthy now) (λ _, false) (λ _, saga_healthy now txn) ctx 100 w =
    ((runSaga (saga_healthy now txn) (WithTenantID ctx (uuid_string t))
        (resumed t orderID (sg_IdempotencyKey g) lines) w).1, None).
Proof.
  intros Hg Hres Hother. unfold ResumePendingSagas, ExecTxNoTenant, tx_run, tx_body.
  cbn [healthy tx_begin_err tx_conn_err tx_now]. rewrite (scan_one now (ow_db w) (t, orderID) g) by done.
  cbn [healthy tx_commit resume_rows resume_one fst]. rewrite with_db_same. cbn [se_tx saga_healthy].
  rewrite (order_tx_healthy _ _ _ _ (uuid_string t)) by (done || (eapply scan_nonempty, uuid_scan_string)).
  rewrite uuid_scan_string. unfold GetOrderLines. rewrite with_db_same.
  set (got := merge_sort _ _). exists (pb_line <$> got). split.
  - unfold got. rewrite merge_sort_Permutation. apply fmap_Permutation, Permutation_refl'. apply filter_ext.
    intros l _. unfold visible. cbn [s_rls]. rewrite bool_decide_eq_true. naive_solver.
  - unfold resumed. by destruct (runSaga _ _ _ w) as [w1 r1].
Qed.

(** ** Theorem *)

(** Stock as a phase leaves it. *)
Lemma phase_result inp w c y :
  books_agree (sys_res (ow_down w)) (sys_stock (ow_down w)) → phase inp (ow_down w) true true y →
  stock_result inp w true (mkSystem (sys_res y) (sys_stock y) c (sys_faults y)).
Proof.
  intros Hb Hph. pose proof Hph as [_ _ P3 _ P5 _ _ P9]. split; [done|]. cbn [sys_res sys_stock]. split.
  - intros k. destruct (P9 k) as (_ & -> & _). rewrite P5, Hb. lia.
  - intros k. cbn zeta. destruct (P9 k) as (-> & -> & ->). lia.
Qed.

(** It only depends on the two services. *)
Lemma stock_result_same inp inp' w w' b y :
  same_saga inp inp' → phase_new (ow_down w) (ow_down w') → stock_result inp' w' b y → stock_result inp w b y.
Proof.
  intros Hs [E1 E2] (Hf & Hb & Hk). split; [done|]. split; [done|]. intros k. specialize (Hk k). cbn zeta in *.
  rewrite E2, (ss_tenant _ _ Hs), (same_qty _ _ _ _ Hs) in Hk. done.
Qed.

(** What is left of an interrupted creation. *)
Lemma create_interrupted env ctx t req w :
  fresh_request t req w → co_ForcePaymentFailure req = false → network_only (ow_down w) →
  res_wf (sys_res (ow_down w)) → stock_fine (sys_stock (ow_down w)) →
  books_agree (sys_res (ow_down w)) (sys_stock (ow_down w)) → dies env (co_OrderId req) →
  Z.of_nat (length (reservations (sys_res (ow_down w))) + length (co_Lines req)) < 2147483648 →
  let w1 := (CreateOrder env ctx req w).1 in
  w1 = w ∨
  ∃ d1 now u, create_closure t req (orderTotal (co_Lines req)) (mkSession (RlsTenant (Some t)) now) (ow_db w) = Ok (d1, u) ∧
    interrupted (saga_of t req) (ow_down w) (with_db d1 w) w1.
Proof.
  intros [Ht Hv Hok Hnd [Habs Hno] Hrows Hkey Hrk Hsk Hcomp Hjson] Hforce Hnet Hwf Hst Hb Hdies Hlen. cbn zeta.
  unfold CreateOrder, ParseUUID. rewrite Ht. unfold create_valid in Hv.
  apply andb_prop in Hv as [[Hv1 Hv2]%andb_prop Hv3]. apply negb_true_iff in Hv1, Hv2.
  assert (0 < orderTotal (co_Lines req)) as Hpos by (bprop; lia).
  rewrite Hv1, Hv2, (proj2 (Z.leb_gt _ _)) by lia.
  destruct (createOrderRow _ _ _ _ _ w) as [w1 r] eqn:Hc.
  destruct (order_tx_spec (se_tx env PtCreate) (WithTenantID ctx (co_TenantId req)) _ _ (co_TenantId req) _ _ eq_refl Hc)
    as (d1 & -> & Hr). rewrite Ht in Hr.
  assert (∀ u, create_closure t req (orderTotal (co_Lines req))
                 (mkSession (RlsTenant (Some t)) (tx_now (se_tx env PtCreate))) (ow_db w) = Ok (d1, u) →
               in_flight (t, co_OrderId req) d1) as Hflight.
  { intros u Hu. eapply (create_inv t req); [|exact Hu]. lia. }
  destruct r as [u|e].
  - right. exists d1, (tx_now (se_tx env PtCreate)), u. split; [done|].
    destruct (runSaga env _ _ (with_db d1 w)) as [w2 r2] eqn:Hrun. cbn [fst].
    decompose_Forall.
    eapply (crash_run env (WithTenantID ctx (co_TenantId req)) (saga_of t req)); try done.
    + cbn. intros Hnil. by rewrite Hnil in Hv2.
    + repeat (constructor; try done).
    + repeat (constructor; try done).
    + by eapply Hflight.
  - assert ((if errors_Is e ErrIdempotentReplay then replayCreateOrder env (WithTenantID ctx (co_TenantId req)) req (with_db d1 w)
             else (with_db d1 w, Err (ErrStatusf Internal "create order: %v" e))).1 = with_db d1 w) as ->.
    { destruct (errors_Is e _); [|done]. unfold replayCreateOrder.
      destruct (order_tx _ _ _ (with_db d1 w)) as [w2 r2] eqn:Hread.
      destruct (read_saga _ (WithTenantID ctx (co_TenantId req)) (co_TenantId req) t _ _ _ _ eq_refl Ht Hread) as [-> _]. by destruct r2. }
    destruct Hr as [->|[u Hu]]; [left; apply with_db_same|]. right.
    exists d1, (tx_now (se_tx env PtCreate)), u. split; [done|]. split; [done|]. split; [done|].
    exists 0%nat. split; [by rewrite app_nil_r|]. left. split; [by eapply Hflight|]. by left.
Qed.

(** How a recovered order ends: as an undisturbed run would have ended, with
    the goods moved once; the customer is charged when the order is confirmed,
    a second time when the first charge was not remembered. *)
Definition recovered (t : uuid) (req : CreateOrderRequest) (w w2 : OrderWorld (System X)) : Prop :=
  let inp := saga_of t req in
  let confirmed := can_reserve (sys_stock (ow_down w)) t (stockLines (co_Lines req)) in
  ∃ n : nat,
    saga_is (t, co_OrderId req) (if confirmed then SagaConfirmed else SagaFailed) (ow_db w2) ∧
    stock_result inp w confirmed (ow_down w2) ∧
    Charges w2 = Charges w ++ replicate n (charge_request inp) ∧
    if confirmed then (1 <= n <= 2)%nat else n = 0%nat.

Section Resume.
Context (now : Z) (txn : string) (ctx : Ctx) (t : uuid) (req : CreateOrderRequest) (w w1 : OrderWorld (System X)).
Abbreviation inp := (saga_of t req).
Context (Hfresh : fresh_request t req w) (Hcanon : co_TenantId req = uuid_string t).
Context (Hforce : co_ForcePaymentFailure req = false).
Context (Hwf : res_wf (sys_res (ow_down w))) (Hst : stock_fine (sys_stock (ow_down w))).
Context (Hb : books_agree (sys_res (ow_down w)) (sys_stock (ow_down w))).
Context (Hlen : Z.of_nat (length (reservations (sys_res (ow_down w))) + length (co_Lines req)) < 2147483648).
Context (lines : list OrderLine) (Hlines : lines ≡ₚ co_Lines req).
Abbreviation inp' := (resumed t (co_OrderId req) (co_IdempotencyKey req) lines).
Abbreviation run := (runSaga (saga_healthy now txn) (WithTenantID ctx (uuid_string t)) inp' (restart w1)).1.
Context (Hfl : in_flight (t, co_OrderId req) (ow_db w1)).

Lemma resumed_same : same_saga inp inp'.
Proof using Hcanon Hlines. by split. Qed.

Lemma resumed_facts :
  order_lines_ok lines = true ∧ lines ≠ [] ∧ 0 < orderTotal lines ∧
  charge_request inp' = charge_request inp ∧
  ∀ l, l ∈ lines → is_Some (jsonb_parse (payload_order_sku (co_OrderId req) (ln_SkuId l))).
Proof using Hfresh Hcanon Hlines.
  clear Hlen Hfl. destruct Hfresh as [_ Hv Hok _ _ _ _ _ _ _ Hjson]. unfold create_valid in Hv.
  apply andb_prop in Hv as [[_ Hv2]%andb_prop Hv3].
  assert (orderTotal lines = orderTotal (co_Lines req)) as Htot by by apply order_total_perm.
  split; [|split; [|split; [|split]]].
  - unfold order_lines_ok in *. rewrite forallb_forall in Hok |- *. intros l Hl. apply Hok.
    apply list_elem_of_In. rewrite <- Hlines. by apply list_elem_of_In.
  - intros ->. apply Permutation_nil_l in Hlines. by rewrite <- Hlines in Hv2.
  - rewrite Htot. bprop. lia.
  - unfold charge_request, resumed, saga_of. cbn [in_OrderID in_TenantID in_Lines in_IdemKey].
    by rewrite Htot, Hcanon.
  - intros l Hl. rewrite Hlines in Hl. by apply Hjson.
Qed.

(** Nothing had been done: the run is the first one. *)
Lemma resume_from_start :
  phase_new (ow_down w) (calm_system (ow_down w1)) → Charges w1 = Charges w → recovered t req w run.
Proof using All.
  intros Hnew Hc. pose proof resumed_same as Hsame.
  destruct resumed_facts as (Hok' & Hne' & Hpos' & Hch & Hjs').
  destruct Hfresh as [Ht Hv Hok Hnd _ Hrows Hkey Hrk Hsk Hcomp Hjson]. pose proof Hnew as [E1 E2].
  cbn [calm_system sys_res sys_stock] in E1, E2. rewrite Hcanon in Hrk, Hsk, Hcomp.
  destruct (system_saga now txn (WithTenantID ctx (uuid_string t)) inp' (restart w1))
    as (w' & resp & Hrun & _ & Hsg & Hres & Hcs); try done; cbn [restart ow_down calm_system sys_res sys_stock];
    rewrite ?E1, ?E2; try done.
  - cbn. apply uuid_scan_string.
  - split; cbn [restart ow_down calm_system sys_res sys_stock sys_faults]; rewrite ?E1, ?E2; done.
  - exact (conj (proj1 Hjson) Hjs').
  - cbn [in_Lines resumed]. by rewrite (Permutation_length Hlines).
  - rewrite Hrun. cbn [fst].
    assert (can_reserve (sys_stock (ow_down w1)) t (stockLines lines) =
            can_reserve (sys_stock (ow_down w)) t (stockLines (co_Lines req))) as Hcan.
    { rewrite E2. apply law_can_reserve_perm. apply (stock_lines_perm _ _ Hsame). }
    unfold verdict in *. cbn [resumed in_TenantUUID in_Lines in_OrderID in_ForcePaymentFailure restart ow_down
      calm_system sys_stock] in *. rewrite Hcan in *. unfold recovered.
    apply (stock_result_same _ _ w (restart w1) _ _ Hsame Hnew) in Hres.
    destruct (can_reserve _ _ (stockLines (co_Lines req))).
    + exists 1%nat. split; [done|]. split; [done|]. split; [|lia]. rewrite Hcs. cbn. by rewrite Hch, Hc.
    + exists 0%nat. split; [done|]. split; [done|]. split; [|done]. rewrite Hcs. cbn. by rewrite !app_nil_r, Hc.
Qed.

(** The services were on their way. *)
Lemma resume_from_phase n a c :
  (n <= 1)%nat → phase inp (ow_down w) a c (calm_system (ow_down w1)) →
  Charges w1 = Charges w ++ replicate n (charge_request inp) → recovered t req w run.
Proof using All.
  intros Hn Hph Hc. pose proof resumed_same as Hsame.
  destruct resumed_facts as (Hok' & Hne' & Hpos' & Hch & Hjs').
  destruct Hfresh as [Ht Hv Hok Hnd _ Hrows Hkey Hrk Hsk Hcomp Hjson].
  destruct (resumed_run now txn (WithTenantID ctx (uuid_string t)) inp' (ow_down w)) with (a := a) (c := c) (w := restart w1)
    as (w' & resp & Hrun & Hsg & Hph' & Hcs); try done.
  - cbn. apply uuid_scan_string.
  - exact (conj (proj1 Hjson) Hjs').
  - cbn [in_Lines resumed]. by rewrite (Permutation_length Hlines).
  - by apply (phase_same inp inp').
  - rewrite Hrun. cbn [fst]. unfold recovered.
    pose proof (ph_can _ _ _ _ _ Hph) as Hcan. cbn [in_TenantUUID in_Lines saga_of] in Hcan. rewrite Hcan.
    exists (S n). split; [done|]. split.
    { apply (stock_result_same inp inp' w w true _ Hsame); [done|].
      pose proof (phase_result inp' w (sys_now (ow_down w')) _ Hb Hph') as Hr. by destruct (ow_down w'). }
    split; [|lia]. rewrite Hcs, Hch. cbn [restart Charges]. rewrite Hc, <- app_assoc. f_equal.
    by rewrite replicate_S_end.
Qed.

End Resume.


End Recovery.
