(* ===== verification/OrderExamples.v ===== *)
(** * Orders on the concrete shop

    The theorems of the order service applied to the three services together,
    and histories in which the saga does not do what its comments say. *)

From S2P Require Import Prelude Database StockDb StockApi StockService StockEffects StockReserve StockClient.
From S2P Require Import StockExamples ReservationDb ReservationService ReservationBooks ReservationProps.
From S2P Require Import ReservationExamples CircuitBreaker Payment OrderDb OrderService OrderSteps OrderSaga.
From S2P Require Import OrderProps OrderInvariant OrderRequests OrderHealthy System.

#[local] Existing Instance bits_text.

#[export] Instance plain_order_hashes : OrderHashes := {|
  hash_create r := co_OrderId r; hash_fulfill_order r := fo_OrderId r |}.

#[export] Instance plain_errors : ErrorText := λ _, "error".

(** ** The shop *)

Definition no_orders : OrderDB := mkOrderDB ∅ [] ∅ [] ∅ 1%N.

Definition open_shop : OrderWorld (System StockWorld) :=
  NewSaga no_orders (mkSystem no_reservations shelf 5 []).

Definition two_lines : list OrderLine := [mkOrderLine "plate" "w1" 1 500; mkOrderLine "mug" "w1" 3 250].

Definition order (id key : string) (force : bool) : CreateOrderRequest :=
  mkCreateOrderRequest tenant3 id two_lines key 0 force.

Definition sane (n : Z) : SagaEnv := saga_healthy n "tx".

Definition create_op (n : Z) (req : CreateOrderRequest) : order_op := OpCreate (sane n) no_ctx req.

(** The shop once the order is confirmed. *)
Definition confirmed_shop : OrderWorld (System StockWorld) := order_run open_shop (create_op 5 (order "o1" "k1" false)).

Lemma open_wf : saga_wf (ow_db open_shop).
Proof. apply empty_saga_wf. Qed.

Lemma confirmed_wf : saga_wf (ow_db confirmed_shop).
Proof. apply order_run_wf, open_wf. Qed.

Lemma open_fresh : fresh_request 3%N (order "o1" "k1" false) open_shop.
Proof.
  split.
  - reflexivity.
  - vm_compute. reflexivity.
  - vm_compute. reflexivity.
  - apply (bool_decide_unpack _). vm_compute. exact I.
  - split; [split; reflexivity|constructor].
  - constructor.
  - intros _. reflexivity.
  - repeat constructor.
  - apply (bool_decide_unpack _). vm_compute. exact I.
  - done.
  - split; [by eexists|]. intros l _. by eexists.
Qed.

Lemma open_fine : system_fine open_shop.
Proof.
  split; [done|done|apply no_reservations_wf|apply shelf_fine|apply shelf_agrees].
Qed.

(** ** The theorems at work *)

Lemma order_end_to_end_witness :
  ∃ w' resp, CreateOrder (sane 5) no_ctx (order "o1" "k1" false) open_shop = (w', Ok resp) ∧
    cor_Status resp = SagaConfirmed ∧ available_in (sys_stock (ow_down w')) mug_at = 7 ∧
    allocated_in (sys_stock (ow_down w')) mug_at = 3.
Proof.
  destruct (order_end_to_end 5 "tx" no_ctx 3%N (order "o1" "k1" false) open_shop open_fresh open_fine)
    as (w' & resp & Hrun & Hst & _ & (_ & _ & Hq) & _); [vm_compute; reflexivity|].
  assert (verdict (saga_of 3%N (order "o1" "k1" false)) open_shop = SagaConfirmed) as Hv
    by (vm_compute; reflexivity).
  rewrite Hv in Hst, Hq. destruct (Hq mug_at) as (Ha & _ & Hal).
  exists w', resp. split; [exact Hrun|]. split; [exact Hst|]. split; [rewrite Ha|rewrite Hal]; vm_compute; reflexivity.
Defined.

(** The order's saga as CreateOrder starts it. *)
Definition saga_o1 : sagaInput := saga_of 3%N (order "o1" "k1" false).

Definition ctx3 : Ctx := WithTenantID no_ctx tenant3.

Definition started_shop : OrderWorld (System StockWorld) :=
  (createOrderRow (healthy 5) ctx3 3%N (order "o1" "k1" false) 1250 open_shop).1.


Lemma charged_exactly_when_confirmed_witness :
  Charges (runSaga (sane 5) ctx3 saga_o1 started_shop).1 = [charge_request saga_o1].
Proof.
  assert (match (runSaga (sane 5) ctx3 saga_o1 started_shop).2 with Ok resp => cor_Status resp | Err _ => "" end =
          SagaConfirmed) as Hs by (vm_compute; reflexivity).
  destruct (runSaga (sane 5) ctx3 saga_o1 started_shop) as [w' r] eqn:Hrun. cbn [fst snd] in *.
  destruct (charged_exactly_when_confirmed (sane 5) ctx3 saga_o1 started_shop w' r)
    as [_ Hall]; [reflexivity|reflexivity|exact Hrun|]. destruct r as [resp|e]; [|discriminate Hs].
  destruct (Hall resp eq_refl) as [[_ Hc]|[[Hf|Hf] _]].
  - exact Hc.
  - rewrite Hf in Hs. discriminate Hs.
  - rewrite Hf in Hs. discriminate Hs.
Defined.

Definition busy_day : list order_op :=
  [create_op 5 (order "o1" "k1" false); create_op 6 (order "o1" "k1" false); create_op 7 (order "o2" "k2" true);
   OpFulfill (healthy 8) no_ctx (mkFulfillOrderRequest tenant3 "o1" "f1");
   OpCancel (sane 9) no_ctx (mkCancelOrderRequest tenant3 "o1" "" "")].

Lemma orders_stay_consistent_witness : saga_wf (ow_db (foldl order_run open_shop busy_day)).
Proof. exact (orders_stay_consistent busy_day open_shop open_wf). Defined.

Lemma charged_once_per_order_witness : NoDup (charge_key <$> Charges (foldl order_run open_shop busy_day)).
Proof. exact (charged_once_per_order busy_day open_shop open_wf eq_refl eq_refl). Defined.



Lemma create_replays_witness :
  (CreateOrder (sane 6) no_ctx (order "o1" "k1" false) confirmed_shop).1 = confirmed_shop.
Proof.
  destruct (ord_idem (ow_db confirmed_shop) !! (3%N, "k1")) as [row|] eqn:Hrow.
  - rewrite (create_replays 6 "tx" no_ctx (order "o1" "k1" false) confirmed_shop 3%N row);
      [reflexivity|reflexivity|vm_compute; reflexivity|done|exact Hrow].
  - apply (f_equal (λ o, bool_decide (is_Some o))) in Hrow. vm_compute in Hrow. discriminate Hrow.
Defined.


(** ** Where the saga and its comments part *)

Definition shop_run (ops : list order_op) : OrderWorld (System StockWorld) := foldl order_run open_shop ops.

Definition status_at (id : string) (w : OrderWorld (System StockWorld)) : option (string * string) :=
  (λ o, (o_Status o, o_TransactionID o)) <$> orders (ow_db w) !! (3%N, id).

Definition saga_at (id : string) (w : OrderWorld (System StockWorld)) : option string :=
  sg_State <$> sagas (ow_db w) !! (3%N, id).

Definition mug_buckets (w : OrderWorld (System StockWorld)) : Z * Z * Z :=
  let x := sys_stock (ow_down w) in (available_in x mug_at, reserved_in x mug_at, allocated_in x mug_at).

(** Without an Idempotency-Key the steps' keys are the bare suffixes, the same
    for every order: the second order is charged and CONFIRMED, and no stock is
    taken for it. *)
Example unkeyed_orders_collide :
  let w := shop_run [create_op 5 (order "o1" "" false); create_op 6 (order "o2" "" false)] in
  status_at "o1" w = Some (OrderConfirmed, "sbx_tx") ∧ status_at "o2" w = Some (OrderConfirmed, "sbx_tx") ∧
  length (Charges w) = 2%nat ∧ mug_buckets w = (7, 0, 3).
Proof. vm_compute. repeat split; reflexivity. Qed.

(** The database is away when the charge is to be recorded. *)
Definition lost_record : SagaEnv :=
  mkSagaEnv (λ p, match p with PtRecord => mkTxEnv 5 (Some "refused") None None CommitOk | _ => healthy 5 end)
    (λ _, 5000) (λ _, 5000) "" "tx".

Definition interrupted : order_op := OpCreate lost_record no_ctx (order "o1" "k1" false).

Definition resume_op (n : Z) : order_op := OpResume (healthy n) (λ _, false) (λ _, sane n) no_ctx 10.

(** A saga interrupted after its charge is charged again when it is resumed. *)
Example resume_charges_again :
  let w1 := shop_run [interrupted] in
  let w2 := shop_run [interrupted; resume_op 6] in
  (saga_at "o1" w1, length (Charges w1)) = (Some SagaReserved, 1%nat) ∧
  (saga_at "o1" w2, length (Charges w2)) = (Some SagaConfirmed, 2%nat).
Proof. vm_compute. repeat split; reflexivity. Qed.

(** Cancelling it instead gives the stock back and keeps the money. *)
Example cancel_keeps_the_money :
  let w := shop_run [interrupted; OpCancel (sane 6) no_ctx (mkCancelOrderRequest tenant3 "o1" "" "")] in
  status_at "o1" w = Some (OrderCompensated, "") ∧ length (Charges w) = 1%nat ∧ mug_buckets w = (10, 0, 0).
Proof. vm_compute. repeat split; reflexivity. Qed.

(** A charge that is followed by a failed confirmation ends FAILED, its
    transaction id wiped, with no refund. *)
Definition stock_fails_to_confirm : OrderWorld (System StockWorld) :=
  NewSaga no_orders (mkSystem no_reservations
    (mkStockWorld shop [healthy_rpc; mkRpcEnv (Some "down") (healthy 0) None]) 5 []).

Example failed_after_charge :
  let w := order_run stock_fails_to_confirm (create_op 5 (order "o1" "k1" false)) in
  status_at "o1" w = Some (OrderFailed, "") ∧ length (Charges w) = 1%nat ∧ mug_buckets w = (7, 3, 0).
Proof. vm_compute. repeat split; reflexivity. Qed.

(** The hold of an interrupted saga expires and is swept; when the saga is
    resumed its Reserve is taken for a repetition, nothing is allocated, and the
    confirmation takes what another order holds. *)
Definition swept (w : OrderWorld (System StockWorld)) : OrderWorld (System StockWorld) :=
  let y := ow_down w in
  let '(d, x) := sweep_at 2000000000 (sys_res y, sys_stock y) in
  with_down (mkSystem d x 2000000000 []) w.

Definition other_holds (w : OrderWorld (System StockWorld)) : OrderWorld (System StockWorld) :=
  order_run w (OpCreate lost_record no_ctx (order "o2" "k2" false)).

Example resume_takes_anothers_hold :
  let w := other_holds (swept (shop_run [interrupted])) in
  let w' := (resume_one (sane 6) no_ctx ((3%N, "o1"), mkSagaInstance 0%N SagaReserved 1 "k1" "" 0 0) w).1 in
  saga_at "o1" w' = Some SagaConfirmed ∧ saga_at "o2" w' = Some SagaReserved ∧
  mug_buckets w = (7, 3, 0) ∧ mug_buckets w' = (7, 0, 3) ∧
  held_at (sys_res (ow_down w')) mug_at = 3.
Proof. vm_compute. repeat split; reflexivity. Qed.

(** orderTotal wraps: lines worth far more than an int64 pass the check on the
    total and are charged a single minor unit. *)
Definition dear_lines : list OrderLine :=
  [mkOrderLine "mug" "w1" 2 9223372036854775807; mkOrderLine "plate" "w1" 1 3].

Example total_wraps :
  let w := order_run open_shop (create_op 5 (mkCreateOrderRequest tenant3 "o1" dear_lines "k1" 0 false)) in
  saga_at "o1" w = Some SagaConfirmed ∧ cr_Amount <$> Charges w = [1] ∧
  zsum (λ l, ln_Quantity l * ln_UnitPrice l) dear_lines = 18446744073709551617.
Proof. vm_compute. repeat split; reflexivity. Qed.
