(* ===== verification/OrderThreads.v ===== *)
(** * The order service under concurrent requests

    The handlers of internal/orderservice/server.go as goroutines: a transaction,
    a gRPC call, a method of a breaker and a charge are one action each, and other
    goroutines may act in between.  The program text is that of OrderService.v;
    [goroutines_compute_handlers] says that a goroutine that is left alone computes
    the handler.

    A goroutine is a tree of atomic actions on the state [W] of a process: a
    transaction, a call, a method under a mutex, each with what follows it.  A
    pool of goroutines runs one action at a time, in any order.  A goroutine that
    runs alone computes a function; what an interleaving keeps is proved with
    roles: each goroutine plays a role at every instant, an action may change the
    state and the role in ways the role allows, and the pool's invariant speaks of
    the state and of the roles being played. *)

From S2P Require Import Prelude GoStrings Database StockApi StockClient ReservationService CircuitBreaker Payment.
From S2P Require Import OrderDb OrderService OrderSteps OrderSaga OrderProps OrderInvariant OrderRequests.

(** ** Goroutines *)

Inductive prog (W A : Type) : Type :=
| Finish (a : A)
| Act {B : Type} (f : W → W * B) (k : B → prog W A).
Arguments Finish {_ _} _.
Arguments Act {_ _ _} _ _.

(** One action. *)
Definition atomic {W B} (f : W → W * B) : prog W B := Act f Finish.

Fixpoint and_then {W A B} (p : prog W A) (k : A → prog W B) : prog W B :=
  match p with
  | Finish a => k a
  | Act f g => Act f (λ b, and_then (g b) k)
  end.

(** Nothing else is running. *)
Fixpoint alone {W A} (p : prog W A) (w : W) : W * A :=
  match p with
  | Finish a => (w, a)
  | Act f k => let '(w', b) := f w in alone (k b) w'
  end.

Definition has_ended {W A} (p : prog W A) : bool := match p with Finish _ => true | Act _ _ => false end.

(** ** Statements that may return from the function *)

Definition GM (W R A : Type) : Type := prog W (flow R A).

#[export] Instance GM_ret W R : MRet (GM W R) := λ A a, Finish (Next a).
#[export] Instance GM_bind W R : MBind (GM W R) := λ A B f m,
  and_then m (λ fl, match fl with Next a => f a | Return r => Finish (Return r) end).

Definition go_return {W R A} (r : res R) : GM W R A := Finish (Return r).
Definition go_do {W R A} (p : prog W A) : GM W R A := and_then p (λ a, Finish (Next a)).
Definition go_lift {W R A} (f : W → W * A) : GM W R A := Act f (λ a, Finish (Next a)).
Definition go_modify {W R} (f : W → W) : GM W R unit := go_lift (λ w, (f w, ())).

Definition go_body {W R} (m : GM W R (res R)) : prog W (res R) :=
  and_then m (λ fl, match fl with Next r => Finish r | Return r => Finish r end).

(** ** The pool *)

Record Pool (W A : Type) := mkPool { pl_world : W; pl_threads : list (prog W A) }.
Arguments mkPool {_ _}.
Arguments pl_world {_ _}.
Arguments pl_threads {_ _}.

(** Goroutine [i] takes its next action. *)
Definition pool_run {W A} (i : nat) (p : Pool W A) : Pool W A :=
  match pl_threads p !! i with
  | Some (Act f k) => let '(w, b) := f (pl_world p) in mkPool w (<[i := k b]> (pl_threads p))
  | _ => p
  end.

Definition pool_go {W A} (t : prog W A) (p : Pool W A) : Pool W A :=
  mkPool (pl_world p) (pl_threads p ++ [t]).

Definition pool_map {W A} (f : W → W) (p : Pool W A) : Pool W A := mkPool (f (pl_world p)) (pl_threads p).

(** ** A goroutine alone *)

Lemma alone_then {W A B} (p : prog W A) (k : A → prog W B) w :
  alone (and_then p k) w = let '(w', a) := alone p w in alone (k a) w'.
Proof. revert w. induction p as [a|C f g IH]; intros w; cbn; [done|]. destruct (f w) as [w' b]. apply IH. Qed.

Lemma alone_bind {W R A B} (m : GM W R A) (f : A → GM W R B) w :
  alone (m ≫= f) w = ((alone m : M W R A) ≫= (λ a, alone (f a) : M W R B)) w.
Proof.
  unfold mbind, GM_bind, M_bind. rewrite alone_then. by destruct (alone m w) as [w' [a|r]].
Qed.

Lemma alone_do {W R A} (p : prog W A) w : alone (go_do (R := R) p) w = lift (alone p) w.
Proof. unfold go_do, lift. rewrite alone_then. by destruct (alone p w). Qed.

Lemma alone_lift {W R A} (f : W → W * A) w : alone (go_lift (R := R) f) w = lift f w.
Proof. unfold lift. cbn. by destruct (f w). Qed.

Lemma alone_modify {W R} (f : W → W) w : alone (go_modify (R := R) f) w = modify f w.
Proof. done. Qed.

Lemma alone_body {W R} (m : GM W R (res R)) w : alone (go_body m) w = run_body (alone m) w.
Proof. unfold go_body, run_body. rewrite alone_then. by destruct (alone m w) as [w' [r|r]]. Qed.

Lemma alone_atomic {W B} (f : W → W * B) w : alone (atomic f) w = f w.
Proof. cbn. by destruct (f w). Qed.

Create Rewrite HintDb go_alone.
#[export] Hint Rewrite @alone_then @alone_bind @alone_do @alone_lift @alone_modify @alone_body @alone_atomic : go_alone.

(** Two statements one after another compute the same when the parts do. *)
Lemma m_bind_ext {W R A B} (m m' : M W R A) (f f' : A → M W R B) w :
  m w = m' w → (∀ a w, f a w = f' a w) → (m ≫= f) w = (m' ≫= f') w.
Proof. unfold mbind, M_bind. intros -> Hf. destruct (m' w) as [w' [a|r]]; [apply Hf|done]. Qed.

Lemma run_body_ext {W R} (m m' : M W R (res R)) w : m w = m' w → run_body m w = run_body m' w.
Proof. unfold run_body. by intros ->. Qed.

(** A goroutine that gets all the actions it asks for, in a row, leaves the pool as
    if its function had been called. *)
Fixpoint actions {W A} (p : prog W A) (w : W) : nat :=
  match p with
  | Finish _ => 0
  | Act f k => let '(w', b) := f w in S (actions (k b) w')
  end.

Lemma pool_alone {W A} (p : prog W A) i w ts :
  ts !! i = Some p →
  Nat.iter (actions p w) (pool_run i) (mkPool w ts) = mkPool (alone p w).1 (<[i := Finish (alone p w).2]> ts).
Proof.
  revert w ts. induction p as [a|B f k IH]; intros w ts Hi; cbn [actions alone].
  { cbn. by rewrite list_insert_id. }
  destruct (f w) as [w' b] eqn:Hf. rewrite Nat.iter_succ_r. unfold pool_run at 2. cbn [pl_threads pl_world].
  rewrite Hi, Hf, IH; [by rewrite list_insert_insert_eq|]. rewrite list_lookup_insert_eq; [done|]. by eapply lookup_lt_Some.
Qed.

(** ** Roles *)

Section Roles.
Context {W A Role : Type}.
(** What an action in a role may do, and what whoever plays it knows of the state. *)
Context (allowed : Role → W → W → Role → Prop) (knows : Role → W → Prop).

(** The goroutine keeps to the rules of its role; [Q]: what it ends with. *)
Fixpoint obeys {C} (Q : Role → C → Prop) (r : Role) (p : prog W C) : Prop :=
  match p with
  | Finish a => Q r a
  | Act f k => ∀ w, knows r w → ∃ r', allowed r w (f w).1 r' ∧ obeys Q r' (k (f w).2)
  end.

Lemma obeys_then {C D} (Q : Role → C → Prop) (Q' : Role → D → Prop) r (p : prog W C) (k : C → prog W D) :
  obeys Q r p → (∀ r' a, Q r' a → obeys Q' r' (k a)) → obeys Q' r (and_then p k).
Proof.
  revert r. induction p as [a|B f g IH]; intros r Hp Hk; cbn in *; [by apply Hk|].
  intros w Hw. destruct (Hp w Hw) as (r' & Hr & Hrest). eauto.
Qed.

Lemma obeys_weaken {C} (Q Q' : Role → C → Prop) r (p : prog W C) :
  obeys Q r p → (∀ r a, Q r a → Q' r a) → obeys Q' r p.
Proof.
  revert r. induction p as [a|B f g IH]; intros r Hp HQ; cbn in *; [by apply HQ|].
  intros w Hw. destruct (Hp w Hw) as (r' & Hr & Hrest). eauto.
Qed.

Lemma obeys_atomic {B} (Q : Role → B → Prop) r (f : W → W * B) :
  (∀ w, knows r w → ∃ r', allowed r w (f w).1 r' ∧ Q r' (f w).2) → obeys Q r (atomic f).
Proof. done. Qed.

Lemma obeys_body {R} (Q : Role → res R → Prop) r (m : GM W R (res R)) :
  obeys (λ r' fl, match fl with Next a | Return a => Q r' a end) r m → obeys Q r (go_body m).
Proof. intros Hm. eapply obeys_then; [exact Hm|]. by intros r' [a|a]. Qed.

(** A statement: it goes on in a role with [Q], or returns in one with [Q']. *)
Definition obeys_stmt {R C} (Q : Role → C → Prop) (Q' : Role → Prop) : Role → GM W R C → Prop :=
  obeys (λ r fl, match fl with Next a => Q r a | Return _ => Q' r end).

Lemma obeys_bind {R C D} (Q : Role → C → Prop) (Q2 : Role → D → Prop) Q' r (m : GM W R C) (f : C → GM W R D) :
  obeys_stmt Q Q' r m → (∀ r' a, Q r' a → obeys_stmt Q2 Q' r' (f a)) → obeys_stmt Q2 Q' r (m ≫= f).
Proof. intros Hm Hf. eapply obeys_then; [exact Hm|]. intros r' [a|x]; [apply Hf|done]. Qed.

Lemma obeys_lift {R B} (Q : Role → B → Prop) Q' r (f : W → W * B) :
  (∀ w, knows r w → ∃ r', allowed r w (f w).1 r' ∧ Q r' (f w).2) → obeys_stmt Q Q' r (go_lift (R := R) f).
Proof. done. Qed.

Lemma obeys_do {R C} (Q : Role → C → Prop) Q' r (p : prog W C) :
  obeys Q r p → obeys_stmt Q Q' r (go_do (R := R) p).
Proof. intros Hp. by eapply obeys_then; [exact Hp|]. Qed.

(** ** Invariants of a pool *)

Context (inv : W → list Role → Prop) (over : Role → A → Prop).
Context (inv_knows : ∀ w rs i r, inv w rs → rs !! i = Some r → knows r w).
Context (inv_step : ∀ w rs i r w' r', inv w rs → rs !! i = Some r → allowed r w w' r' → inv w' (<[i := r']> rs)).

(** Every goroutine plays a role it keeps to, and the invariant holds. *)
Definition pool_inv (p : Pool W A) : Prop :=
  ∃ rs, inv (pl_world p) rs ∧ Forall2 (obeys over) rs (pl_threads p).

Lemma pool_inv_run i p : pool_inv p → pool_inv (pool_run i p).
Proof using inv_knows inv_step.
  intros (rs & Hinv & Hall). unfold pool_run.
  destruct (pl_threads p !! i) as [[a|B f k]|] eqn:Hi; [by exists rs| |by exists rs].
  destruct (Forall2_lookup_r _ _ _ _ _ Hall Hi) as (r & Hr & Hob). cbn in Hob.
  destruct (Hob (pl_world p)) as (r' & Hal & Hob'); [by eapply inv_knows|].
  destruct (f (pl_world p)) as [w b]. exists (<[i := r']> rs). split; [by eapply inv_step|].
  by apply Forall2_insert.
Qed.

Lemma pool_inv_go r t p :
  pool_inv p → obeys over r t → (∀ w rs, inv w rs → inv w (rs ++ [r])) → pool_inv (pool_go t p).
Proof.
  intros (rs & Hinv & Hall) Ht Hr. exists (rs ++ [r]). split; [by apply Hr|]. by apply Forall2_app; [|constructor].
Qed.

End Roles.

(** ** The handlers of the order service *)

Section Threads.
Context `{UuidText} `{OrderHashes} `{ErrorText} {X : Type} `{StockClient X} `{ReservationClient X}.

Abbreviation World := (OrderWorld X).
Abbreviation GoM := (GM World CreateOrderResponse).

(** ** transition, failSaga, compensate *)

Definition go_failSaga (env : SagaEnv) (ctx : Ctx) (tenantID orderID msg : string) : prog World (res unit) :=
  match ParseUUID tenantID with
  | Err e => Finish (Err e)
  | Ok tenant => atomic (transition (se_tx env PtFail) ctx tenant orderID SagaFailed (-1) msg)
  end.

Definition go_compensate (env : SagaEnv) (ctx : Ctx) (tenantID orderID reason : string) : prog World (res unit) :=
  match ParseUUID tenantID with
  | Err e => Finish (Err e)
  | Ok tenant =>
      Act (call (rpc_Release ctx (release_request tenantID orderID reason))) (λ r,
        match r with
        | Err e => Finish (Err (ErrWrap "release" e))
        | Ok _ => atomic (transition (se_tx env PtCompensate) ctx tenant orderID SagaCompensated (-1) reason)
        end)
  end.

(** ** runSaga *)

Definition go_guard (now : Z) (get_b : World → Breaker) (set_b : (Breaker → Breaker) → World → World) : GoM unit :=
  e ← go_lift (λ w, let '(b, e) := Allow now (get_b w) in (set_b (λ _, b) w, e));
  match e with
  | Some e => go_return (Err (ErrStatusf Unavailable "%v" e))
  | None => mret ()
  end.

Definition go_reserve (env : SagaEnv) (ctx : Ctx) (inp : sagaInput) : GoM unit :=
  _ ← go_guard (se_allow env PtReserve) resBreaker on_resBreaker;
  r ← go_lift (call (rpc_Reserve ctx (reserve_request inp)));
  match r with
  | Err e =>
      _ ← go_modify (on_resBreaker (RecordFailure (se_report env PtReserve)));
      _ ← go_do (go_failSaga env ctx (in_TenantID inp) (in_OrderID inp) ("reserve: " +:+ error_text e));
      go_return (Err (ErrStatusf Internal "reserve: %v" e))
  | Ok resResp =>
      _ ← go_modify (on_resBreaker RecordSuccess);
      if negb (rr_Success resResp) then
        _ ← go_do (go_failSaga env ctx (in_TenantID inp) (in_OrderID inp) "insufficient stock");
        go_return (Ok (mkCreateOrderResponse (in_OrderID inp) SagaFailed 0 ""))
      else
        t ← go_lift (transition (se_tx env PtReserved) ctx (in_TenantUUID inp) (in_OrderID inp)
                       SagaReserved 1 "");
        match t with
        | Err e => go_return (Err (ErrStatusf Internal "saga transition: %v" e))
        | Ok _ => mret ()
        end
  end.

Definition go_charge (env : SagaEnv) (inp : sagaInput) : GoM (res string) :=
  if in_ForcePaymentFailure inp then mret (Err ErrPaymentDeclined)
  else
    _ ← go_guard (se_allow env PtCharge) payBreaker on_payBreaker;
    match Charge (se_fail_orders env) (se_txn env) (se_report env PtCharge) (charge_request inp) with
    | Ok result =>
        _ ← go_modify (add_charge (charge_request inp));
        _ ← go_modify (on_payBreaker RecordSuccess);
        mret (Ok (TransactionID result))
    | Err e =>
        _ ← go_modify (on_payBreaker
              (if errors_Is e ErrPaymentDeclined then RecordSuccess
               else RecordFailure (se_report env PtCharge)));
        mret (Err e)
    end.

Definition go_step_compensate (env : SagaEnv) (ctx : Ctx) (inp : sagaInput) : GoM (res CreateOrderResponse) :=
  c ← go_do (go_compensate env ctx (in_TenantID inp) (in_OrderID inp) "payment_failed");
  match c with
  | Err compErr =>
      _ ← go_do (go_failSaga env ctx (in_TenantID inp) (in_OrderID inp)
                   ("payment failed AND compensation error: " +:+ error_text compErr));
      go_return (Err (ErrStatusf Internal "compensate: %v" compErr))
  | Ok _ =>
      go_return (Ok (mkCreateOrderResponse (in_OrderID inp) SagaCompensated (orderTotal (in_Lines inp)) ""))
  end.

Definition go_allocate (env : SagaEnv) (ctx : Ctx) (inp : sagaInput) : GoM unit :=
  r ← go_lift (call (rpc_AllocateReservation ctx (allocate_request inp)));
  match r with
  | Err e =>
      _ ← go_modify (on_resBreaker (RecordFailure (se_report env PtAllocate)));
      _ ← go_do (go_failSaga env ctx (in_TenantID inp) (in_OrderID inp) ("allocate: " +:+ error_text e));
      go_return (Err (ErrStatusf Internal "allocate: %v" e))
  | Ok _ => go_modify (on_resBreaker RecordSuccess)
  end.

Definition go_confirm (env : SagaEnv) (ctx : Ctx) (inp : sagaInput) : GoM unit :=
  _ ← go_guard (se_allow env PtConfirm) stockBreaker on_stockBreaker;
  r ← go_lift (call (rpc_ConfirmStockAllocation ctx (confirm_request inp)));
  match r with
  | Err e =>
      _ ← go_modify (on_stockBreaker (RecordFailure (se_report env PtConfirm)));
      _ ← go_do (go_failSaga env ctx (in_TenantID inp) (in_OrderID inp) ("confirm: " +:+ error_text e));
      go_return (Err (ErrStatusf Internal "confirm: %v" e))
  | Ok _ =>
      _ ← go_modify (on_stockBreaker RecordSuccess);
      t ← go_lift (transition (se_tx env PtConfirmed) ctx (in_TenantUUID inp) (in_OrderID inp)
                     SagaConfirmed 3 "");
      match t with
      | Err e => go_return (Err (ErrStatusf Internal "saga transition: %v" e))
      | Ok _ => mret ()
      end
  end.

Definition go_saga_body (env : SagaEnv) (ctx : Ctx) (inp : sagaInput) : GoM (res CreateOrderResponse) :=
  _ ← go_reserve env ctx inp;
  charged ← go_charge env inp;
  match charged with
  | Err _ => go_step_compensate env ctx inp
  | Ok txnID =>
      r ← go_lift (recordTransaction (se_tx env PtRecord) ctx (in_OrderID inp) txnID);
      match r with
      | Err e => go_return (Err (ErrStatusf Internal "record transaction: %v" e))
      | Ok _ =>
          _ ← go_allocate env ctx inp;
          _ ← go_confirm env ctx inp;
          go_return (Ok (mkCreateOrderResponse (in_OrderID inp) SagaConfirmed
                           (orderTotal (in_Lines inp)) txnID))
      end
  end.

Definition go_runSaga (env : SagaEnv) (ctx : Ctx) (inp : sagaInput) : prog World (res CreateOrderResponse) :=
  go_body (go_saga_body env ctx inp).

(** ** Handlers *)

Definition go_CreateOrder (env : SagaEnv) (ctx : Ctx) (req : CreateOrderRequest)
  : prog World (res CreateOrderResponse) :=
  match ParseUUID (co_TenantId req) with
  | Err e => Finish (Err (ErrStatusf InvalidArgument "%v" e))
  | Ok tenant =>
      let ctx := WithTenantID ctx (co_TenantId req) in
      if bool_decide (co_OrderId req = "")
      then Finish (Err (ErrStatus InvalidArgument "order_id is required"))
      else if bool_decide (length (co_Lines req) = 0%nat)
      then Finish (Err (ErrStatus InvalidArgument "no lines provided"))
      else if orderTotal (co_Lines req) <=? 0
      then Finish (Err (ErrStatus InvalidArgument "order total must be positive"))
      else
        let ttl := if 0 <? co_TtlSeconds req then co_TtlSeconds req * second else saga_defaultTTL in
        Act (createOrderRow (se_tx env PtCreate) ctx tenant req (orderTotal (co_Lines req))) (λ r,
          match r with
          | Err e =>
              if errors_Is e ErrIdempotentReplay then atomic (replayCreateOrder env ctx req)
              else Finish (Err (ErrStatusf Internal "create order: %v" e))
          | Ok _ =>
              go_runSaga env ctx
                {| in_TenantID := co_TenantId req; in_TenantUUID := tenant; in_OrderID := co_OrderId req;
                   in_Lines := co_Lines req; in_IdemKey := co_IdempotencyKey req; in_TTL := ttl;
                   in_ForcePaymentFailure := co_ForcePaymentFailure req |}
          end)
  end.

Definition go_resume_one (env : SagaEnv) (ctx : Ctx) (row : okey * SagaInstance) : prog World (unit + go_error) :=
  let '((tenant, orderID), g) := row in
  let sagaCtx := WithTenantID ctx (uuid_string tenant) in
  Act (order_tx (se_tx env PtLoad) sagaCtx (GetOrderLines orderID)) (λ r,
    match r with
    | Err e => Finish (inr (ErrWrap ("resume " +:+ orderID +:+ ": load lines") e))
    | Ok got =>
        and_then (go_runSaga env sagaCtx
          {| in_TenantID := uuid_string tenant; in_TenantUUID := tenant; in_OrderID := orderID;
             in_Lines := pb_line <$> got; in_IdemKey := sg_IdempotencyKey g; in_TTL := saga_defaultTTL;
             in_ForcePaymentFailure := false |}) (λ _, Finish (inl ()))
    end).

Fixpoint go_resume_rows (env : okey → SagaEnv) (ctx : Ctx) (rows : list (okey * SagaInstance))
  : prog World (option go_error) :=
  match rows with
  | [] => Finish None
  | row :: rows' =>
      and_then (go_resume_one (env row.1) ctx row) (λ r,
        match r with
        | inr e => Finish (Some e)
        | inl _ => go_resume_rows env ctx rows'
        end)
  end.

(** The scan of a pass: its transaction, and the rows it read. *)
Definition scan_rows (scan : TxEnv) (locked : uuid → bool) (limit : Z) (w : World)
  : World * (list (okey * SagaInstance) + go_error) :=
  match ExecTxNoTenant scan (tx_body (GetResumableSagas locked limit)) (ow_db w) with
  | (d, _, Some e) => (with_db d w, inr (ErrWrap "scan resumable sagas" e))
  | (d, Some rows, None) => (with_db d w, inl rows)
  | (d, None, None) => (with_db d w, inl [])
  end.

Definition go_ResumePendingSagas (scan : TxEnv) (locked : uuid → bool) (env : okey → SagaEnv) (ctx : Ctx)
    (limit : Z) : prog World (option go_error) :=
  Act (scan_rows scan locked limit) (λ r,
    match r with
    | inr e => Finish (Some e)
    | inl rows => go_resume_rows env ctx rows
    end).

Definition go_CancelOrder (env : SagaEnv) (ctx : Ctx) (req : CancelOrderRequest) : prog World (res CancelOrderResponse) :=
  match ParseUUID (ca_TenantId req) with
  | Err e => Finish (Err (ErrStatusf InvalidArgument "%v" e))
  | Ok _ =>
      let ctx := WithTenantID ctx (ca_TenantId req) in
      Act (getSaga (se_tx env PtGetSaga) ctx (ca_OrderId req)) (λ r,
        match r with
        | Err e => Finish (Err (ErrStatusf Internal "get saga: %v" e))
        | Ok saga =>
            if bool_decide (sg_State saga = SagaAllocated) || bool_decide (sg_State saga = SagaConfirmed)
            then Finish (Ok (mkCancelOrderResponse false (sg_State saga)))
            else if bool_decide (sg_State saga = SagaCompensated) || bool_decide (sg_State saga = SagaFailed)
            then Finish (Ok (mkCancelOrderResponse true (sg_State saga)))
            else
              and_then (go_compensate env ctx (ca_TenantId req) (ca_OrderId req)
                          (reasonOrDefault (ca_Reason req) "customer_cancel")) (λ r,
                match r with
                | Err e => Finish (Err (ErrStatusf Internal "compensate: %v" e))
                | Ok _ => Finish (Ok (mkCancelOrderResponse true SagaCompensated))
                end)
        end)
  end.

(** ** The process *)

Inductive answer :=
| Created (r : res CreateOrderResponse)
| Got (r : res GetOrderResponse)
| Cancelled (r : res CancelOrderResponse)
| Fulfilled (r : res FulfillOrderResponse)
| Resumed (e : option go_error).

(** The goroutine of a request, or of a resume pass. *)
Definition goroutine (op : order_op) : prog World answer :=
  match op with
  | OpCreate env ctx req => and_then (go_CreateOrder env ctx req) (λ r, Finish (Created r))
  | OpGet env ctx req => and_then (atomic (GetOrder env ctx req)) (λ r, Finish (Got r))
  | OpCancel env ctx req => and_then (go_CancelOrder env ctx req) (λ r, Finish (Cancelled r))
  | OpFulfill env ctx req => and_then (atomic (FulfillOrder env ctx req)) (λ r, Finish (Fulfilled r))
  | OpResume scan locked env ctx limit =>
      and_then (go_ResumePendingSagas scan locked env ctx limit) (λ r, Finish (Resumed r))
  end.

(** What the handler of a request leaves and answers. *)
Definition handled (op : order_op) (w : World) : World * answer :=
  match op with
  | OpCreate env ctx req => let '(w, r) := CreateOrder env ctx req w in (w, Created r)
  | OpGet env ctx req => let '(w, r) := GetOrder env ctx req w in (w, Got r)
  | OpCancel env ctx req => let '(w, r) := CancelOrder env ctx req w in (w, Cancelled r)
  | OpFulfill env ctx req => let '(w, r) := FulfillOrder env ctx req w in (w, Fulfilled r)
  | OpResume scan locked env ctx limit =>
      let '(w, r) := ResumePendingSagas scan locked env ctx limit w in (w, Resumed r)
  end.

(** What happens next in the process: a request arrives (or the ticker of the
    resume loop fires), goroutine [i] takes its next action, the services behind
    the clients change by themselves, or the process dies and a new one takes over
    the database. *)
Inductive process_event :=
| Arrive (op : order_op)
| Turn (i : nat)
| Elsewhere (f : X → X)
| Crash.

Definition process_step (p : Pool World answer) (ev : process_event) : Pool World answer :=
  match ev with
  | Arrive op => pool_go (goroutine op) p
  | Turn i => pool_run i p
  | Elsewhere f => pool_map (λ w, with_down (f (ow_down w)) w) p
  | Crash => mkPool (mkOrderWorld (ow_db (pl_world p)) (ow_down (pl_world p)) saga_breaker saga_breaker saga_breaker
                       (Charges (pl_world p))) []
  end.

Definition process_run (p : Pool World answer) (evs : list process_event) : Pool World answer :=
  foldl process_step p evs.

(** ** A goroutine alone *)

Lemma alone_failSaga env ctx tenantID orderID msg w :
  alone (go_failSaga env ctx tenantID orderID msg) w = failSaga env ctx tenantID orderID msg w.
Proof. unfold go_failSaga, failSaga. destruct (ParseUUID tenantID); [apply alone_atomic|done]. Qed.

Lemma alone_compensate env ctx tenantID orderID reason w :
  alone (go_compensate env ctx tenantID orderID reason) w = compensate env ctx tenantID orderID reason w.
Proof.
  unfold go_compensate, compensate. destruct (ParseUUID tenantID) as [t|]; [|done]. cbn [alone].
  destruct (call _ w) as [w' [a|e]]; [apply alone_atomic|done].
Qed.

Lemma alone_guard now get_b set_b w : alone (go_guard now get_b set_b) w = guard now get_b set_b w.
Proof.
  unfold go_guard, guard. rewrite alone_bind. unfold mbind, M_bind, get, modify, lift. cbn.
  destruct (Allow now (get_b w)) as [b [e|]]; done.
Qed.

Ltac alone_step :=
  rewrite ?alone_bind; apply m_bind_ext;
  [rewrite ?alone_guard, ?alone_do, ?alone_lift; first [done | unfold lift; by rewrite ?alone_failSaga, ?alone_compensate]
  |let a := fresh "a" in let w := fresh "w" in intros a w].

Lemma alone_reserve env ctx inp w : alone (go_reserve env ctx inp) w = step_reserve env ctx inp w.
Proof.
  unfold go_reserve, step_reserve. do 2 alone_step. case_match.
  - alone_step. case_match; [alone_step; done|]. alone_step. by case_match.
  - do 2 alone_step. done.
Qed.

Lemma alone_charge env inp w : alone (go_charge env inp) w = step_charge env inp w.
Proof.
  unfold go_charge, step_charge. case_match; [done|]. alone_step. case_match.
  - do 2 alone_step. done.
  - alone_step. done.
Qed.

Lemma alone_step_compensate env ctx inp w :
  alone (go_step_compensate env ctx inp) w = step_compensate env ctx inp w.
Proof. unfold go_step_compensate, step_compensate. alone_step. case_match; [done|]. alone_step. done. Qed.

Lemma alone_allocate env ctx inp w : alone (go_allocate env ctx inp) w = step_allocate env ctx inp w.
Proof. unfold go_allocate, step_allocate. alone_step. case_match; [done|]. do 2 alone_step. done. Qed.

Lemma alone_confirm env ctx inp w : alone (go_confirm env ctx inp) w = step_confirm env ctx inp w.
Proof.
  unfold go_confirm, step_confirm. do 2 alone_step. case_match.
  - do 2 alone_step. by case_match.
  - do 2 alone_step. done.
Qed.

Lemma alone_runSaga env ctx inp w : alone (go_runSaga env ctx inp) w = runSaga env ctx inp w.
Proof.
  unfold go_runSaga, runSaga. rewrite alone_body. apply run_body_ext. unfold go_saga_body, saga_body.
  rewrite alone_bind. apply m_bind_ext; [apply alone_reserve|]. intros [] w1.
  rewrite alone_bind. apply m_bind_ext; [apply alone_charge|]. intros charged w2.
  destruct charged as [txnID|e]; [|apply alone_step_compensate].
  alone_step. case_match; [|done].
  rewrite alone_bind. apply m_bind_ext; [apply alone_allocate|]. intros [] w4.
  rewrite alone_bind. apply m_bind_ext; [apply alone_confirm|]. done.
Qed.

Lemma alone_CreateOrder env ctx req w : alone (go_CreateOrder env ctx req) w = CreateOrder env ctx req w.
Proof.
  unfold go_CreateOrder, CreateOrder. destruct (ParseUUID _) as [t|]; [|done].
  repeat (case_match; [done|]). cbn [alone]. destruct (createOrderRow _ _ _ _ _ w) as [w' [u|e]]; [apply alone_runSaga|].
  destruct (errors_Is e _); [apply alone_atomic|done].
Qed.

Lemma alone_resume_rows env ctx rows w : alone (go_resume_rows env ctx rows) w = resume_rows env ctx rows w.
Proof.
  revert w. induction rows as [|[[t orderID] g] rows IH]; intros w; [done|]. cbn [go_resume_rows resume_rows].
  rewrite alone_then. unfold go_resume_one, resume_one. cbn [alone].
  destruct (order_tx _ _ _ w) as [w' [got|e]]; [|done]. rewrite alone_then, alone_runSaga.
  destruct (runSaga _ _ _ w') as [w'' r]. apply IH.
Qed.

Lemma alone_ResumePendingSagas scan locked env ctx limit w :
  alone (go_ResumePendingSagas scan locked env ctx limit) w = ResumePendingSagas scan locked env ctx limit w.
Proof.
  unfold go_ResumePendingSagas, ResumePendingSagas. cbn [alone]. unfold scan_rows.
  destruct (ExecTxNoTenant _ _ _) as [[d [rows|]] [e|]]; cbn; try done. apply alone_resume_rows.
Qed.

Lemma alone_CancelOrder env ctx req w : alone (go_CancelOrder env ctx req) w = CancelOrder env ctx req w.
Proof.
  unfold go_CancelOrder, CancelOrder. destruct (ParseUUID _) as [t|]; [|done]. cbn [alone].
  destruct (getSaga _ _ _ w) as [w' [g|e]]; [|done]. repeat (case_match; [done|]).
  rewrite alone_then, alone_compensate. by destruct (compensate _ _ _ _ _ w') as [w'' [u|e]].
Qed.

(** ** Theorem *)

(** The goroutine of a request (or of a resume pass) that is not interrupted by
    another one computes the handler: for any pool of goroutines and any state,
    once its actions have run in a row the state is the handler's and its answer
    the handler's answer, and the other goroutines are where they were. *)
Theorem goroutines_compute_handlers (op : order_op) w (ts : list (prog World answer)) :
  let p := mkPool w (ts ++ [goroutine op]) in
  process_run p (replicate (actions (goroutine op) w) (Turn (length ts))) =
  mkPool (handled op w).1 (ts ++ [Finish (handled op w).2]).
Proof.
  intros p. assert (alone (goroutine op) w = handled op w) as Ha.
  { unfold goroutine, handled. destruct op; rewrite alone_then, ?alone_atomic,
      ?alone_CreateOrder, ?alone_CancelOrder, ?alone_ResumePendingSagas; done. }
  assert (∀ n q, process_run q (replicate n (Turn (length ts))) = Nat.iter n (pool_run (length ts)) q) as Hrep.
  { induction n as [|n IH]; intros q; [done|]. rewrite Nat.iter_succ_r. apply IH. }
  subst p. rewrite Hrep, (pool_alone (goroutine op)), Ha; [|by rewrite lookup_app_r, Nat.sub_diag by lia].
  f_equal. replace (length ts) with (length ts + 0)%nat by lia. by rewrite insert_app_r.
Qed.

End Threads.
