(* ===== verification/OrderRaces.v ===== *)
(** * Orders under concurrent requests: what no interleaving breaks

    Goroutines of the order service run one action at a time, in any order, with
    any failures of their transactions and calls, with the services behind the
    clients changing on their own, and with the process dying at any instant. *)

From S2P Require Import Prelude GoStrings Database StockApi StockClient ReservationService CircuitBreaker Payment.
From S2P Require Import OrderDb OrderService OrderSteps OrderSaga OrderProps OrderInvariant OrderRequests.
From S2P Require Import OrderThreads.

Section Races.
Context `{UuidText} `{OrderHashes} `{ErrorText} {X : Type} `{StockClient X} `{ReservationClient X}.
Implicit Types w : OrderWorld X.

(** ** The saga, in roles *)

Section Saga.
Context {Role : Type} (allowed : Role → OrderWorld X → OrderWorld X → Role → Prop) (knows : Role → OrderWorld X → Prop).
Context (env : SagaEnv) (ctx : Ctx) (inp : sagaInput).
Context (Hctx : ctx_tenant ctx = Some (in_TenantID inp)) (Ht : uuid_scan (in_TenantID inp) = Some (in_TenantUUID inp)).

(** The rules a saga keeps to: it starts in role [r0], is in [r1] once it has
    charged, and in [r2] once it has tried to record its end. *)
Record saga_rules (r0 r1 r2 : Role) : Prop := {
  sr_quiet r w w' : r = r0 ∨ r = r1 ∨ r = r2 → knows r w → ow_db w' = ow_db w → Charges w' = Charges w →
    allowed r w w' r;
  sr_reserved w d' now o g : knows r0 w →
    transitioned ctx (in_TenantUUID inp) (in_OrderID inp) SagaReserved 1 "" now o g (ow_db w) d' →
    allowed r0 w (with_db d' w) r0;
  sr_charge w : knows r0 w → allowed r0 w (add_charge (charge_request inp) w) r1;
  sr_record w d' txn now o : knows r1 w →
    recorded_txn (in_TenantUUID inp) (in_OrderID inp) txn now o (ow_db w) d' → allowed r1 w (with_db d' w) r1;
  sr_confirmed w d' now o g : knows r1 w →
    transitioned ctx (in_TenantUUID inp) (in_OrderID inp) SagaConfirmed 3 "" now o g (ow_db w) d' →
    allowed r1 w (with_db d' w) r2;
  sr_failed r w d' state msg now o g : r = r0 ∨ r = r1 ∨ r = r2 → knows r w →
    state = SagaFailed ∨ state = SagaCompensated →
    transitioned ctx (in_TenantUUID inp) (in_OrderID inp) state (-1) msg now o g (ow_db w) d' →
    allowed r w (with_db d' w) r2;
}.

Context (r0 r1 r2 : Role) (Hrules : saga_rules r0 r1 r2).

Abbreviation in_saga := (λ r : Role, r = r0 ∨ r = r1 ∨ r = r2).
Abbreviation obeys_ := (obeys allowed knows).
Abbreviation stmt_ := (obeys_stmt allowed knows).

(** An action that leaves the database and the charges alone. *)
Lemma quiet_lift {B} (Q : Role → B → Prop) Q' r (f : OrderWorld X → OrderWorld X * B) :
  in_saga r → (∀ w, ow_db (f w).1 = ow_db w ∧ Charges (f w).1 = Charges w) → (∀ b, Q r b) →
  stmt_ Q Q' r (go_lift (R := CreateOrderResponse) f).
Proof using Hrules.
  intros Hr Hf HQ. apply obeys_lift. intros w Hw. exists r. split; [|apply HQ].
  destruct (Hf w). by eapply sr_quiet.
Qed.

Lemma call_quiet {A} (f : X → X * res A) w : ow_db (call f w).1 = ow_db w ∧ Charges (call f w).1 = Charges w.
Proof. unfold call. by destruct (f (ow_down w)). Qed.

Lemma guard_obeys now get_b set_b r :
  in_saga r → (∀ f w, ow_db (set_b f w) = ow_db w ∧ Charges (set_b f w) = Charges w) →
  stmt_ (λ r' _, r' = r) in_saga r (go_guard now get_b set_b).
Proof using Hrules.
  intros Hr Hset. eapply obeys_bind; [apply (quiet_lift (λ r' _, r' = r)); [done| |done]|].
  - intros w. destruct (Allow now (get_b w)) as [b e]. apply Hset.
  - intros r' e ->. by destruct e.
Qed.

(** A transition: the state is what it was, or the saga has been moved. *)
Lemma transition_obeys {B} tx state step msg r r' (Q : Role → B → Prop) w (k : res unit → B) :
  knows r w → in_saga r →
  (∀ d' now o g, transitioned ctx (in_TenantUUID inp) (in_OrderID inp) state step msg now o g (ow_db w) d' →
     allowed r w (with_db d' w) r') →
  (∀ e, Q r (k (Err e))) → (∀ x, Q r' (k x)) →
  ∃ r1', allowed r w (transition tx ctx (in_TenantUUID inp) (in_OrderID inp) state step msg w).1 r1' ∧
    Q r1' (k (transition tx ctx (in_TenantUUID inp) (in_OrderID inp) state step msg w).2).
Proof using Hctx Ht Hrules.
  intros Hw Hr Hal HQ HQ'. destruct (transition _ _ _ _ _ _ _ w) as [w' x] eqn:Htr.
  destruct (transition_spec _ _ _ _ _ _ _ _ _ _ _ Hctx Ht Htr) as (d' & -> & [[[e ->] ->]|(o & g & Hd)]).
  - exists r. split; [|apply HQ]. by eapply sr_quiet.
  - exists r'. split; [by eapply Hal|apply HQ'].
Qed.

Lemma fail_obeys msg r : in_saga r → obeys_ (λ r' _, in_saga r') r (go_failSaga env ctx (in_TenantID inp) (in_OrderID inp) msg).
Proof using Hctx Ht Hrules.
  intros Hr. unfold go_failSaga, ParseUUID. rewrite Ht. apply obeys_atomic. intros w Hw.
  apply (transition_obeys _ _ _ _ r r2 (λ r' _, in_saga r') w id); [done|done| |by intros; auto..].
  intros d' now o g Hd. by eapply (sr_failed _ _ _ Hrules _ _ _ _ _ _ _ _ Hr Hw (or_introl eq_refl)).
Qed.

Lemma compensate_obeys reason r :
  in_saga r → obeys_ (λ r' _, in_saga r') r (go_compensate env ctx (in_TenantID inp) (in_OrderID inp) reason).
Proof using Hctx Ht Hrules.
  intros Hr. unfold go_compensate, ParseUUID. rewrite Ht. cbn [obeys]. intros w Hw. exists r.
  destruct (call_quiet (rpc_Release ctx (release_request (in_TenantID inp) (in_OrderID inp) reason)) w) as [E1 E2].
  split; [by eapply sr_quiet|]. destruct (call _ w).2 as [a|e]; [|done]. apply obeys_atomic. intros w' Hw'.
  apply (transition_obeys _ _ _ _ r r2 (λ r' _, in_saga r') w' id); [done|done| |by intros; auto..].
  intros d' now o g Hd. by eapply (sr_failed _ _ _ Hrules _ _ _ _ _ _ _ _ Hr Hw' (or_intror eq_refl)).
Qed.

(** A failure is recorded, and the function returns. *)
Lemma fail_return {C} msg r x :
  in_saga r →
  stmt_ (λ _ (_ : C), False) in_saga r
    ((_ ← go_do (go_failSaga env ctx (in_TenantID inp) (in_OrderID inp) msg); go_return x)
     : GM (OrderWorld X) CreateOrderResponse C).
Proof using Hctx Ht Hrules.
  intros Hr. eapply obeys_bind; [by apply obeys_do, fail_obeys|]. by intros.
Qed.

Lemma stmt_never {R C} (Q : Role → C → Prop) Q' r (m : GM (OrderWorld X) R C) :
  stmt_ (λ _ _, False) Q' r m → stmt_ Q Q' r m.
Proof. intros Hm. eapply obeys_weaken; [exact Hm|]. by intros r' [a|x]. Qed.

(** A method of a breaker, then the rest. *)
Lemma report_obeys {C} (Q : Role → C → Prop) r g (m : GM (OrderWorld X) CreateOrderResponse C) :
  in_saga r → (∀ w, ow_db (g w) = ow_db w ∧ Charges (g w) = Charges w) → stmt_ Q in_saga r m →
  stmt_ Q in_saga r (_ ← go_modify g; m).
Proof using Hrules.
  intros Hr Hg Hm. eapply obeys_bind; [by apply (quiet_lift (λ r' _, r' = r))|]. by intros r' [] ->.
Qed.

Lemma reserve_obeys : stmt_ (λ r _, r = r0) in_saga r0 (go_reserve env ctx inp).
Proof using Hctx Ht Hrules.
  eapply obeys_bind; [apply guard_obeys; [by left|done]|]. intros r [] ->.
  eapply obeys_bind; [apply (quiet_lift (λ r' _, r' = r0)); [by left|intros; apply call_quiet|done]|].
  intros r a ->. destruct a as [resp|e].
  - apply report_obeys; [by left|done|]. destruct (negb _); [by apply stmt_never, fail_return; left|].
    eapply obeys_bind; [apply (obeys_lift _ _ (λ r' _, r' = r0))|].
    { intros w Hw. apply (transition_obeys _ _ _ _ r0 r0 (λ r' _, r' = r0) w id); try done; [by left|].
      intros d' now o g Hd. by eapply sr_reserved. }
    intros r x ->. by destruct x; [|left].
  - apply report_obeys; [by left|done|]. by apply stmt_never, fail_return; left.
Qed.

Lemma charge_obeys :
  stmt_ (λ r x, match x with Ok _ => r = r1 | Err _ => r = r0 end) in_saga r0 (go_charge env inp).
Proof using Hrules.
  unfold go_charge. destruct (in_ForcePaymentFailure inp); [done|].
  eapply obeys_bind; [apply guard_obeys; [by left|done]|]. intros r [] ->.
  destruct (Charge _ _ _ _) as [result|e].
  - eapply obeys_bind; [apply (obeys_lift _ _ (λ r _, r = r1))|].
    { intros w Hw. exists r1. split; [by eapply sr_charge|done]. }
    intros r [] ->. by apply report_obeys; [auto|done|].
  - by apply report_obeys; [auto|intros; destruct (errors_Is _ _)|].
Qed.

Lemma step_compensate_obeys :
  stmt_ (λ _ _, False) in_saga r0 (go_step_compensate env ctx inp).
Proof using Hctx Ht Hrules.
  eapply obeys_bind; [by apply obeys_do, compensate_obeys; left|]. intros r [u|e] Hr; [done|]. by apply fail_return.
Qed.

Lemma allocate_obeys : stmt_ (λ r _, r = r1) in_saga r1 (go_allocate env ctx inp).
Proof using Hctx Ht Hrules.
  eapply obeys_bind; [apply (quiet_lift (λ r' _, r' = r1)); [by auto|intros; apply call_quiet|done]|].
  intros r a ->. destruct a as [resp|e]; [by apply (quiet_lift (λ r' _, r' = r1)); auto|].
  apply report_obeys; [by auto|done|]. by apply stmt_never, fail_return; auto.
Qed.

Lemma confirm_obeys : stmt_ (λ r _, r = r2) in_saga r1 (go_confirm env ctx inp).
Proof using Hctx Ht Hrules.
  eapply obeys_bind; [apply guard_obeys; [by auto|done]|]. intros r [] ->.
  eapply obeys_bind; [apply (quiet_lift (λ r' _, r' = r1)); [by auto|intros; apply call_quiet|done]|].
  intros r a ->. destruct a as [resp|e].
  - apply report_obeys; [by auto|done|].
    eapply obeys_bind; [apply (obeys_lift _ _ (λ r x, in_saga r ∧ (x = Ok () → r = r2)))|].
    { intros w Hw. apply (transition_obeys _ _ _ _ r1 r2 (λ r x, in_saga r ∧ (x = Ok () → r = r2)) w id);
        [done|by auto| |intros e; split; [by auto|done]|intros x; split; by auto].
      intros d' now o g Hd. by eapply sr_confirmed. }
    intros r x [Hr Hx]. destruct x as [[]|e]; [by apply Hx|done].
  - apply report_obeys; [by auto|done|]. by apply stmt_never, fail_return; auto.
Qed.

(** A saga keeps to its rules, whatever happens around it. *)
Lemma run_obeys : obeys_ (λ r _, in_saga r) r0 (go_runSaga env ctx inp).
Proof using Hctx Ht Hrules.
  apply obeys_body. cut (stmt_ (λ _ _, False) in_saga r0 (go_saga_body env ctx inp)).
  { intros Hb. eapply obeys_weaken; [exact Hb|]. by intros r [a|x]. }
  eapply obeys_bind; [apply reserve_obeys|]. intros r [] ->.
  eapply obeys_bind; [apply charge_obeys|]. intros r [txnID|e] ->; [|apply step_compensate_obeys].
  eapply obeys_bind; [apply (obeys_lift _ _ (λ r _, r = r1))|].
  { intros w Hw. exists r1. split; [|done]. destruct (recordTransaction _ _ _ _ w) as [w' x] eqn:Hrec.
    destruct (record_spec _ _ _ _ _ _ _ _ _ Hctx Ht Hrec) as (d' & -> & [[_ ->]|(o & Hd)]).
    - eapply sr_quiet; [done|by auto|done..].
    - by eapply sr_record. }
  intros r [u|e] ->; [|by cbn; auto].
  eapply obeys_bind; [apply allocate_obeys|]. intros r [] ->.
  eapply obeys_bind; [apply confirm_obeys|]. intros r [] ->. by cbn; auto.
Qed.

End Saga.

(** ** Charges *)

(** How often an order was charged, and whether it has a row. *)
Definition charges_of (k : option uuid * string) w : nat := length (filter (λ c, charge_key c = k) (Charges w)).

Definition has_row (k : option uuid * string) w : bool :=
  match k.1 with Some t => bool_decide (is_Some (orders (ow_db w) !! (t, k.2))) | None => false end.

(** A goroutine that may still create order [k], one that has and may charge it,
    and one that will do neither. *)
Inductive payer := MayCreate | MayCharge | WillNot.

#[export] Instance payer_eq : EqDecision payer.
Proof. solve_decision. Defined.

Definition pays (k : option uuid * string) (r : payer) w w' (r' : payer) : Prop :=
  charges_of k w' = charges_of k w ∧ has_row k w' = has_row k w ∧ (r' = r ∨ r' = WillNot) ∨
  r = MayCreate ∧ r' ≠ MayCreate ∧ charges_of k w' = charges_of k w ∧ has_row k w = false ∧ has_row k w' = true ∨
  r = MayCharge ∧ r' = WillNot ∧ charges_of k w' = S (charges_of k w) ∧ has_row k w' = has_row k w.

(** At most one charge has been made or can still be made, and none before the
    order has its row. *)
Definition pays_once (k : option uuid * string) w (rs : list payer) : Prop :=
  (charges_of k w + length (filter (λ r, r = MayCharge) rs) <= if has_row k w then 1 else 0)%nat.

Abbreviation payer_obeys k := (obeys (pays k) (λ _ _, True)).

Lemma charges_same k w w' : Charges w' = Charges w → charges_of k w' = charges_of k w.
Proof. unfold charges_of. by intros ->. Qed.

Lemma row_same k w w' : ow_db w' = ow_db w → has_row k w' = has_row k w.
Proof. unfold has_row. by intros ->. Qed.

(** A transaction that only changes rows that are there. *)
Lemma row_insert k w d' k' o o' :
  orders (ow_db w) !! k' = Some o → orders d' = <[k' := o']> (orders (ow_db w)) →
  has_row k (with_db d' w) = has_row k w.
Proof.
  intros Ho Ho'. unfold has_row. destruct k as [[t|] n]; [|done]. cbn [with_db ow_db fst snd]. rewrite Ho'.
  destruct (decide (k' = (t, n))) as [->|Hne]; [|by rewrite lookup_insert_ne].
  rewrite lookup_insert_eq, Ho. by rewrite !bool_decide_true by done.
Qed.

Lemma pays_quiet k r w w' : Charges w' = Charges w → has_row k w' = has_row k w → pays k r w w' r.
Proof. intros Hc Hr. left. by rewrite (charges_same _ _ _ Hc), Hr; auto. Qed.

Lemma pays_end k r w w' : Charges w' = Charges w → has_row k w' = has_row k w → pays k r w w' WillNot.
Proof. intros Hc Hr. left. by rewrite (charges_same _ _ _ Hc), Hr; auto. Qed.

Definition saga_key (inp : sagaInput) : option uuid * string := (Some (in_TenantUUID inp), in_OrderID inp).

Lemma charges_add k inp w :
  uuid_scan (in_TenantID inp) = Some (in_TenantUUID inp) →
  charges_of k (add_charge (charge_request inp) w) =
  (charges_of k w + if bool_decide (k = saga_key inp) then 1 else 0)%nat.
Proof.
  intros Ht. unfold charges_of. cbn [add_charge Charges]. rewrite filter_app, length_app. f_equal.
  rewrite filter_cons. unfold charge_key. cbn [charge_request cr_TenantID cr_OrderID]. rewrite Ht.
  unfold saga_key. destruct (decide _) as [Hk|Hk].
  - by rewrite bool_decide_true.
  - by rewrite bool_decide_false by (intros ->; by apply Hk).
Qed.

(** The saga of an order charges it at most once, and no other. *)
Lemma saga_pays k ctx inp :
  uuid_scan (in_TenantID inp) = Some (in_TenantUUID inp) →
  saga_rules (pays k) (λ _ _, True) ctx inp (if bool_decide (k = saga_key inp) then MayCharge else WillNot) WillNot WillNot.
Proof.
  intros Ht. split.
  - intros r w w' _ _ Hd Hc. apply pays_quiet; [done|by apply row_same].
  - intros w d' now o g _ Hd. apply pays_quiet; [done|]. eapply row_insert; [apply Hd|apply Hd].
  - intros w _. unfold pays. rewrite (charges_add _ _ _ Ht). case_bool_decide; [right; right|left];
      rewrite ?Nat.add_0_r, ?Nat.add_1_r; auto.
  - intros w d' txn now o _ Hd. apply pays_quiet; [done|]. eapply row_insert; [apply Hd|apply Hd].
  - intros w d' now o g _ Hd. apply pays_end; [done|]. eapply row_insert; [apply Hd|apply Hd].
  - intros r w d' state msg now o g _ _ _ Hd. apply pays_end; [done|]. eapply row_insert; [apply Hd|apply Hd].
Qed.

(** The transaction of createOrderRow leaves the row of an order that had none. *)
Lemma create_row k env ctx req w w' r t :
  uuid_scan (co_TenantId req) = Some t → 0 < orderTotal (co_Lines req) →
  createOrderRow (se_tx env PtCreate) (WithTenantID ctx (co_TenantId req)) t req (orderTotal (co_Lines req)) w = (w', r) →
  Charges w' = Charges w ∧
  (has_row k w' = has_row k w ∧ (k = (Some t, co_OrderId req) → ∃ e, r = Err e) ∨
   k = (Some t, co_OrderId req) ∧ has_row k w = false ∧ has_row k w' = true).
Proof.
  intros Ht Htot Hc.
  destruct (order_tx_spec (se_tx env PtCreate) (WithTenantID ctx (co_TenantId req)) _ _ (co_TenantId req) _ _ eq_refl Hc)
    as (d1 & -> & Hr). rewrite Ht in Hr. split; [done|].
  assert (∀ u, create_closure t req (orderTotal (co_Lines req)) (mkSession (RlsTenant (Some t)) (tx_now (se_tx env PtCreate)))
                 (ow_db w) = Ok (d1, u) →
               (k ≠ (Some t, co_OrderId req) → has_row k (with_db d1 w) = has_row k w) ∧
               (k = (Some t, co_OrderId req) → has_row k w = false ∧ has_row k (with_db d1 w) = true)) as Hu.
  { intros u Hu. apply create_inv in Hu as ([Ha _] & (o & g & Ho & _) & Hm); [|lia]. unfold has_row.
    split; intros Hk.
    - destruct k as [[t'|] n]; [|done]. cbn. rewrite (mv_orders _ _ _ _ Hm); [done|]. intros [= -> ->]. done.
    - rewrite Hk. cbn. rewrite Ha, Ho. done. }
  destruct (decide (k = (Some t, co_OrderId req))) as [Hk|Hk].
  - destruct r as [u|e]; [right; destruct (Hu _ Hr); naive_solver|].
    destruct Hr as [->|[u Hr]]; [left; rewrite with_db_same; eauto|]. right. destruct (Hu _ Hr); naive_solver.
  - left. split; [|done]. destruct r as [u|e]; [by apply (Hu _ Hr)|].
    destruct Hr as [->|[u Hr]]; [by rewrite with_db_same|]. by apply (Hu _ Hr).
Qed.

(** Reading a saga. *)
Lemma replay_same env ctx req w t :
  uuid_scan (co_TenantId req) = Some t → (replayCreateOrder env (WithTenantID ctx (co_TenantId req)) req w).1 = w.
Proof.
  intros Ht. unfold replayCreateOrder. destruct (order_tx _ _ _ w) as [w2 r2] eqn:Hrep.
  apply (read_saga _ _ (co_TenantId req) t) in Hrep as [-> _]; [|done..]. by destruct r2.
Qed.

Lemma getSaga_same env ctx tid t orderID w :
  uuid_scan tid = Some t →
  (getSaga env (WithTenantID ctx tid) orderID w).1 = w ∧
  ∀ g, (getSaga env (WithTenantID ctx tid) orderID w).2 = Ok g → sagas (ow_db w) !! (t, orderID) = Some g.
Proof.
  intros Ht. unfold getSaga. destruct (order_tx _ _ _ w) as [w2 r2] eqn:Hrd.
  apply (read_saga _ _ tid t) in Hrd as [-> Hg]; [|done..]. split; [done|]. intros g Hr. cbn in Hr. by rewrite Hr in Hg.
Qed.

Lemma create_pays k env ctx req :
  payer_obeys k (λ _ (_ : res CreateOrderResponse), True) MayCreate (go_CreateOrder env ctx req).
Proof.
  unfold go_CreateOrder, ParseUUID. destruct (uuid_scan (co_TenantId req)) as [t|] eqn:Ht; [|done].
  repeat (case_match; [done|]). bprop. cbn [obeys]. intros w _.
  destruct (createOrderRow _ _ _ _ _ w) as [w' x] eqn:Hc. cbn [fst snd].
  destruct (create_row k _ _ _ _ _ _ _ Ht ltac:(lia) Hc) as [Hch Hrow].
  set (inp := mkSagaInput _ _ _ _ _ _ _).
  assert (∀ r, pays k MayCreate w w' r → (∀ u, x = Ok u → r = if bool_decide (k = saga_key inp) then MayCharge else WillNot) →
    ∃ r', pays k MayCreate w w' r' ∧ payer_obeys k (λ _ (_ : res CreateOrderResponse), True) r'
      (match x with
       | Ok _ => go_runSaga env (WithTenantID ctx (co_TenantId req)) inp
       | Err e => if errors_Is e ErrIdempotentReplay then atomic (replayCreateOrder env (WithTenantID ctx (co_TenantId req)) req)
                  else Finish (Err (ErrStatusf Internal "create order: %v" e))
       end)) as Hgo.
  { intros r Hp Hr. exists r. split; [done|]. destruct x as [u|e].
    - rewrite (Hr u eq_refl). eapply obeys_weaken; [|done].
      eapply run_obeys; [done|exact Ht|]. by apply (saga_pays k _ inp Ht).
    - destruct (errors_Is e _); [|done]. apply obeys_atomic. intros w1 _. exists r. split; [|done].
      rewrite (replay_same _ _ _ _ _ Ht). by apply pays_quiet. }
  destruct Hrow as [[Hr Herr]|(-> & Hno & Hyes)].
  - apply (Hgo WillNot); [by apply pays_end|]. intros u ->. case_bool_decide as Hk; [|done].
    destruct (Herr Hk) as [e He]. done.
  - apply (Hgo MayCharge); [|intros; by rewrite bool_decide_true]. right; left.
    by rewrite (charges_same _ _ _ Hch).
Qed.

Lemma cancel_pays k env ctx req :
  payer_obeys k (λ _ (_ : res CancelOrderResponse), True) WillNot (go_CancelOrder env ctx req).
Proof.
  unfold go_CancelOrder, ParseUUID. destruct (uuid_scan (ca_TenantId req)) as [t|] eqn:Ht; [|done].
  cbn [obeys]. intros w _. exists WillNot. split.
  { rewrite (proj1 (getSaga_same _ _ _ _ _ _ Ht)). by apply pays_quiet. }
  destruct (getSaga _ _ _ w).2 as [g|e]; [|done]. repeat (case_match; [done|]).
  eapply obeys_then; [|by intros r [u|e] _].
  set (inp := mkSagaInput (ca_TenantId req) t (ca_OrderId req) [] "" 0 false).
  eapply obeys_weaken; [|by intros].
  apply (compensate_obeys _ _ env (WithTenantID ctx (ca_TenantId req)) inp eq_refl Ht _ _ _ (saga_pays k (WithTenantID ctx (ca_TenantId req)) inp Ht)). by auto.
Qed.

Lemma goroutine_pays k (op : order_op) :
  is_resume op = false →
  ∃ r, r ≠ MayCharge ∧ payer_obeys k (λ _ _, True) r (goroutine op).
Proof.
  intros Hop. destruct op as [env ctx req|env ctx req|env ctx req|env ctx req|]; [| | | |done];
    [exists MayCreate; split; [done|] |exists WillNot; split; [done|] ..];
    (eapply (obeys_then _ _ (λ _ _, True)); [|by intros]).
  - eapply obeys_weaken; [apply create_pays|done].
  - apply obeys_atomic. intros w _. exists WillNot. split; [|done].
    pose proof (get_effect env ctx req w) as Hd. apply pays_quiet; [|by apply row_same].
    unfold GetOrder, order_tx. by repeat case_match.
  - eapply obeys_weaken; [apply cancel_pays|done].
  - apply obeys_atomic. intros w _. exists WillNot. split; [|done].
    apply pays_quiet; [unfold FulfillOrder, order_tx; by repeat case_match|].
    destruct (FulfillOrder_cases env ctx req w) as [Hd|(t & o & _ & Ho & _ & He)]; [by apply row_same|].
    rewrite <- (row_insert k w _ (t, fo_OrderId req) _ _ Ho (fe_orders _ _ _ _ _ _ _ He)). by apply row_same.
Qed.

(** Playing by the rules keeps the bound. *)
Lemma filter_payers_insert (rs : list payer) i r r' :
  rs !! i = Some r →
  (length (filter (λ r, r = MayCharge) (<[i := r']> rs)) + (if decide (r = MayCharge) then 1 else 0) =
   length (filter (λ r, r = MayCharge) rs) + (if decide (r' = MayCharge) then 1 else 0))%nat.
Proof.
  revert i. induction rs as [|r0 rs IH]; intros [|i] Hi; [done..| |].
  - injection Hi as ->. change (<[0%nat := r']> (r :: rs)) with (r' :: rs). rewrite !filter_cons. repeat case_decide; cbn [length]; lia.
  - specialize (IH i Hi). change (<[S i := r']> (r0 :: rs)) with (r0 :: <[i := r']> rs). rewrite !filter_cons. repeat case_decide; cbn [length] in *; lia.
Qed.

Lemma pays_once_step k w rs i r w' r' :
  pays_once k w rs → rs !! i = Some r → pays k r w w' r' → pays_once k w' (<[i := r']> rs).
Proof.
  unfold pays_once, pays. intros Hinv Hi Hal. pose proof (filter_payers_insert rs i r r' Hi) as Hf.
  destruct Hal as [(-> & -> & Hr)|[(-> & Hr & -> & Hno & Hyes)|(-> & -> & -> & ->)]].
  - destruct Hr as [-> | ->]; repeat case_decide; try done; lia.
  - rewrite Hno in Hinv. rewrite Hyes. repeat case_decide; try done; lia.
  - repeat case_decide; try done. lia.
Qed.

Definition starts_resume (ev : process_event (X := X)) : bool :=
  match ev with Arrive op => is_resume op | _ => false end.

Lemma process_pays k (evs : list (process_event (X := X))) p :
  forallb (λ ev, negb (starts_resume ev)) evs = true →
  pool_inv (pays k) (λ _ _, True) (pays_once k) (λ _ _, True) p →
  pool_inv (pays k) (λ _ _, True) (pays_once k) (λ _ _, True) (process_run p evs).
Proof.
  revert p. induction evs as [|ev evs IH]; intros p Hev Hp; [done|]. cbn [forallb] in Hev.
  apply andb_prop in Hev as [Hev1%negb_true_iff Hev2]. apply (IH _ Hev2). clear IH Hev2.
  destruct ev as [op|i|f|]; cbn [process_step].
  - destruct (goroutine_pays k op Hev1) as (r & Hr & Hob). eapply pool_inv_go; [done|exact Hob|].
    intros w rs Hinv. unfold pays_once. rewrite filter_app, filter_cons_False, app_nil_r by done. done.
  - apply pool_inv_run; [done|apply pays_once_step|done].
  - destruct Hp as (rs & Hinv & Hall). by exists rs.
  - destruct Hp as (rs & Hinv & _). exists []. split; [|constructor]. unfold pays_once in *.
    change (charges_of k _) with (charges_of k (pl_world p)). change (has_row k _) with (has_row k (pl_world p)).
    cbn [filter length]. cbn. lia.
Qed.

Lemma counts_nodup (l : list ChargeRequest) :
  (∀ k, length (filter (λ c, charge_key c = k) l) <= 1)%nat → NoDup (charge_key <$> l).
Proof.
  induction l as [|c l IH]; intros Hl; [constructor|]. rewrite fmap_cons, NoDup_cons. split.
  - intros Hin. apply list_elem_of_fmap in Hin as (c' & Hk & Hc'). specialize (Hl (charge_key c)).
    rewrite filter_cons_True in Hl by done. cbn in Hl.
    assert (c' ∈ filter (λ c0, charge_key c0 = charge_key c) l) as Hf by by apply list_elem_of_filter.
    destruct (filter _ l); [by apply elem_of_nil in Hf|cbn in Hl; lia].
  - apply IH. intros k. specialize (Hl k). rewrite filter_cons in Hl. case_decide; cbn in Hl; lia.
Qed.

(** ** Theorem: one charge per order *)

(** C9. However the requests of the order service interleave (any number of
    CreateOrder, GetOrder, CancelOrder and FulfillOrder requests, repeated or for
    the same order, each of their transactions and calls failing or not, the
    process dying at any instant), no order is charged twice as long as no resume
    pass runs: the accepted charges are of distinct orders. *)
Theorem charged_once_interleaved (evs : list (process_event (X := X))) w :
  Charges w = [] → forallb (λ ev, negb (starts_resume ev)) evs = true →
  NoDup (charge_key <$> Charges (pl_world (process_run (mkPool w []) evs))).
Proof.
  intros Hc Hev. apply counts_nodup. intros k.
  destruct (process_pays k evs (mkPool w []) Hev) as (rs & Hinv & _).
  - exists []. split; [|constructor]. unfold pays_once, charges_of. cbn [pl_world]. rewrite Hc. cbn. lia.
  - unfold pays_once in Hinv. unfold charges_of in Hinv. destruct (has_row k _); lia.
Qed.

End Races.
