(* ===== verification/OrderPaid.v ===== *)
(** * Nothing ships unpaid

    Under any interleaving of requests and resume passes, with any failures and
    crashes: an order that is CONFIRMED or FULFILLED, or whose order.fulfilled event
    is in the outbox, was charged its total. *)

From S2P Require Import Prelude GoStrings Database StockApi StockClient ReservationService CircuitBreaker Payment.
From S2P Require Import OrderDb OrderService OrderSteps OrderSaga OrderProps OrderInvariant OrderRequests.
From S2P Require Import OrderThreads OrderRaces.

(** ** Specification *)

(** The lines of an order. *)
Definition lines_of (k : okey) (d : OrderDB) : list OrderLineRow :=
  filter (λ l, (ol_TenantID l, ol_OrderID l) = k) (order_lines d).

(** The row of an order has the total of its lines; without a row there are no
    lines and no saga. *)
Definition billed (k : okey) (d : OrderDB) : Prop :=
  match orders d !! k with
  | Some o => orderTotal (pb_line <$> lines_of k d) = o_TotalAmount o
  | None => lines_of k d = [] ∧ sagas d !! k = None
  end.

(** The goods of the order may leave, or have left. *)
Definition shipped `{UuidText} (k : okey) (d : OrderDB) : Prop :=
  (∃ o, orders d !! k = Some o ∧ (o_Status o = OrderConfirmed ∨ o_Status o = OrderFulfilled)) ∨
  (∃ g, sagas d !! k = Some g ∧ sg_State g = SagaConfirmed) ∨
  fulfilled_events k d ≠ 0%nat.

(** A charge of the order's total was accepted. *)
Definition paid `{UuidText} {X} (k : okey) (w : OrderWorld X) : Prop :=
  ∃ o c, orders (ow_db w) !! k = Some o ∧ c ∈ Charges w ∧ charge_key c = (Some k.1, k.2) ∧
    cr_Amount c = o_TotalAmount o.

Definition accounts `{UuidText} {X} (k : okey) (w : OrderWorld X) : Prop :=
  billed k (ow_db w) ∧ (shipped k (ow_db w) → paid k w).

Section Paid.
Context `{UuidText} `{OrderHashes} `{ErrorText} {X : Type} `{StockClient X} `{ReservationClient X}.
Implicit Types w : OrderWorld X.

(** ** Roles *)

(** What a goroutine knows of order [k]: nothing, that it has a row, that the row
    has the total it is about to charge, that the total was charged. *)
Inductive biller := Unseen | Known | Billing (n : Z) | PaidUp.

Definition sees (k : okey) (r : biller) w : Prop :=
  billed k (ow_db w) ∧
  match r with
  | Unseen => True
  | Known => is_Some (orders (ow_db w) !! k)
  | Billing n => ∃ o, orders (ow_db w) !! k = Some o ∧ o_TotalAmount o = n
  | PaidUp => paid k w
  end.

(** Rows stay, with their totals, charges are never taken back, and an order is
    confirmed only by a goroutine that has charged it. *)
Record bills (k : okey) (r : biller) w w' (r' : biller) : Prop := {
  bl_total o : orders (ow_db w) !! k = Some o →
    ∃ o', orders (ow_db w') !! k = Some o' ∧ o_TotalAmount o' = o_TotalAmount o;
  bl_charges : Charges w ⊆ Charges w';
  bl_shipped : shipped k (ow_db w') → shipped k (ow_db w) ∨ r = PaidUp;
  bl_sees : sees k r' w';
}.

Definition bills_inv (k : okey) w (rs : list biller) : Prop :=
  accounts k w ∧ Forall (λ r, sees k r w) rs.

Lemma sees_bills k r r0 r0' w w' : sees k r w → bills k r0 w w' r0' → sees k r w'.
Proof.
  intros [_ Hr] [Htot Hch _ [Hb _]]. split; [done|]. destruct r as [| |n|]; [done|..].
  - destruct Hr as [o Ho]. destruct (Htot o Ho) as (o' & Ho' & _). by exists o'.
  - destruct Hr as (o & Ho & Hn). destruct (Htot o Ho) as (o' & Ho' & Ht'). exists o'. split; [done|congruence].
  - destruct Hr as (o & c & Ho & Hc & Hk & Hn). destruct (Htot o Ho) as (o' & Ho' & Ht'). exists o', c.
    split; [done|]. split; [by apply Hch|]. split; [done|congruence].
Qed.

Lemma bills_step k w rs i r w' r' :
  bills_inv k w rs → rs !! i = Some r → bills k r w w' r' → bills_inv k w' (<[i := r']> rs).
Proof.
  intros [[_ Hship] Hall] Hi Hbl. pose proof (proj1 (Forall_lookup _ _) Hall i r Hi) as Hr.
  assert (paid k w → paid k w') as Hpaid.
  { intros Hp. assert (sees k PaidUp w) as Hs by (split; [apply Hr|done]). by apply (sees_bills _ _ _ _ _ _ Hs Hbl). }
  split; [split; [apply Hbl|]|].
  - intros Hs. destruct (bl_shipped _ _ _ _ _ Hbl Hs) as [Hs'| ->]; [by apply Hpaid, Hship|]. apply Hpaid. by destruct Hr.
  - apply Forall_insert; [|apply Hbl]. eapply Forall_impl; [exact Hall|]. intros r0 Hr0. exact (sees_bills _ _ _ _ _ _ Hr0 Hbl).
Qed.

(** ** Actions that leave an order alone *)

Record untouched_order (k : okey) (d d' : OrderDB) : Prop := {
  uo_order : orders d' !! k = orders d !! k;
  uo_saga : sagas d' !! k = sagas d !! k;
  uo_lines : lines_of k d' = lines_of k d;
  uo_events : fulfilled_events k d' = fulfilled_events k d;
}.

Lemma order_untouched_refl k d : untouched_order k d d.
Proof. by split. Qed.

Lemma untouched_bills k r w w' :
  sees k r w → untouched_order k (ow_db w) (ow_db w') → Charges w ⊆ Charges w' → bills k r w w' r.
Proof.
  intros Hr [Eo Eg El Ee] Hc. split; [rewrite Eo; eauto|done| |].
  - unfold shipped. rewrite Eo, Eg, Ee. by left.
  - destruct Hr as [Hb Hr]. split; [unfold billed; by rewrite Eo, Eg, El|]. destruct r; rewrite ?Eo; try done.
    destruct Hr as (o & c & Ho & Hcc & Hk). exists o, c. rewrite Eo. split; [done|]. split; [by apply Hc|done].
Qed.

(** An order of another key. *)
Lemma moved_untouched k k' d d' n :
  moved k' n d d' → order_lines d' = order_lines d → k ≠ k' → untouched_order k d d'.
Proof.
  intros Hm Hl Hne. destruct (moved_other _ _ _ _ _ Hm Hne) as (Eo & Eg & Ee). split; try done.
  unfold lines_of. by rewrite Hl.
Qed.

(** ** The transactions of the saga of order [k] *)

(** A row of the order is rewritten, with its total; the saga may be too. *)
Lemma rewritten_bills k r r' w d' o o' :
  sees k r w → orders (ow_db w) !! k = Some o → orders d' !! k = Some o' → o_TotalAmount o' = o_TotalAmount o →
  order_lines d' = order_lines (ow_db w) →
  (shipped k d' → shipped k (ow_db w) ∨ r = PaidUp) → (r' = r ∨ r' = Known ∨ r' = Unseen) →
  bills k r w (with_db d' w) r'.
Proof.
  intros [Hb Hr] Ho Ho' Htot Hl Hs Hr'. assert (billed k d') as Hb'.
  { unfold billed, lines_of in *. rewrite Ho', Hl. rewrite Ho in Hb. congruence. }
  split; cbn [with_db ow_db Charges]; [|done|done|].
  - intros o1 Ho1. simplify_eq. eauto.
  - split; [done|]. cbn [with_db ow_db]. destruct Hr' as [->|[->| ->]]; [|by exists o'|done].
    destruct r as [| |n|]; [done|by exists o'| |].
    + destruct Hr as (o1 & Ho1 & Hn). simplify_eq. by exists o'.
    + destruct Hr as (o1 & c & Ho1 & Hc & Hk & Hn). simplify_eq. exists o', c. split; [done|]. split; [done|]. split; [done|congruence].
Qed.

Lemma mirrored_total now state o : o_TotalAmount (mirrored now state o) = o_TotalAmount o.
Proof. unfold mirrored. destruct (mirror state o) as [[? ?]|]; done. Qed.

Lemma transitioned_bills k r r' w d' ctx state step msg now o g :
  sees k r w → transitioned ctx k.1 k.2 state step msg now o g (ow_db w) d' →
  state = SagaReserved ∨ state = SagaFailed ∨ state = SagaCompensated ∨ state = SagaConfirmed ∧ r = PaidUp →
  (r' = r ∨ r' = Known ∨ r' = Unseen) →
  bills k r w (with_db d' w) r'.
Proof.
  destruct k as [t orderID]. cbn [fst snd]. intros Hr Htr Hst Hr'.
  eapply rewritten_bills; [done|apply Htr| | |apply Htr| |done].
  - by rewrite (tr_orders _ _ _ _ _ _ _ _ _ _ _ Htr), lookup_insert_eq.
  - apply mirrored_total.
  - destruct Hst as [->|[->|[->|[-> ->]]]]; [..|by right]; intros Hs; left;
      (destruct Hs as [(o' & Ho' & Hs)|[(g' & Hg' & Hs)|Hs]];
       [rewrite (tr_orders _ _ _ _ _ _ _ _ _ _ _ Htr), lookup_insert_eq in Ho'; injection Ho' as <-
       |rewrite (tr_sagas _ _ _ _ _ _ _ _ _ _ _ Htr), lookup_insert_eq in Hg'; injection Hg' as <-; done
       |right; right; rewrite (moved_count _ _ _ _ (transitioned_moved _ _ _ _ _ _ _ _ _ _ _ Htr ltac:(by auto))),
          Nat.add_0_r in Hs; done]).
    + left. exists o. split; [apply Htr|done].
    + by destruct Hs.
    + by destruct Hs.
Qed.

Lemma recorded_bills k r w d' txn now o :
  sees k r w → recorded_txn k.1 k.2 txn now o (ow_db w) d' → bills k r w (with_db d' w) r.
Proof.
  destruct k as [t orderID]. cbn [fst snd]. intros Hr Hrt.
  eapply rewritten_bills; [done|apply Hrt| | |apply Hrt| |by left].
  - by rewrite (rt_orders _ _ _ _ _ _ _ Hrt), lookup_insert_eq.
  - done.
  - intros [(o' & Ho' & Hs)|[(g' & Hg' & Hs)|Hs]]; left.
    + rewrite (rt_orders _ _ _ _ _ _ _ Hrt), lookup_insert_eq in Ho'. injection Ho' as <-. by destruct Hs.
    + right; left. exists g'. by rewrite <- (rt_sagas _ _ _ _ _ _ _ Hrt).
    + right; right. pose proof (recorded_moved _ _ _ _ _ _ _ Hrt) as Hm. by rewrite (moved_count _ _ _ _ Hm), Nat.add_0_r in Hs.
Qed.

(** The rules of a saga of order [k] that is about to charge the row's total. *)
Lemma saga_bills k ctx inp r2 :
  uuid_scan (in_TenantID inp) = Some (in_TenantUUID inp) → k = (in_TenantUUID inp, in_OrderID inp) →
  r2 = Known ∨ r2 = Unseen →
  saga_rules (bills k) (sees k) ctx inp (Billing (orderTotal (in_Lines inp))) PaidUp r2.
Proof.
  intros Ht Hk Hr2. assert (k.1 = in_TenantUUID inp ∧ k.2 = in_OrderID inp) as [Hk1 Hk2] by by subst. split.
  - intros r w w' _ Hr Hd Hc. apply untouched_bills; [done|rewrite Hd; apply order_untouched_refl|by rewrite Hc].
  - intros w d' now o g Hr Htr. rewrite <- Hk1, <- Hk2 in Htr. eapply transitioned_bills; eauto.
  - intros w [Hb (o & Ho & Hn)]. split; [eauto|by cbn; set_solver|by left|]. split; [done|].
    exists o, (charge_request inp). split; [done|]. split; [cbn; set_solver|]. split; [|done].
    unfold charge_key. cbn [charge_request cr_TenantID cr_OrderID]. by rewrite Ht, Hk1, Hk2.
  - intros w d' txn now o Hr Hrt. rewrite <- Hk1, <- Hk2 in Hrt. by eapply recorded_bills.
  - intros w d' now o g Hr Htr. rewrite <- Hk1, <- Hk2 in Htr. eapply transitioned_bills; [done|done|by auto 6|naive_solver].
  - intros r w d' state msg now o g _ Hr Hst Htr. rewrite <- Hk1, <- Hk2 in Htr.
    eapply transitioned_bills; [done|done|naive_solver|naive_solver].
Qed.

(** The saga of another order. *)
Lemma saga_bills_other k ctx inp r :
  k ≠ (in_TenantUUID inp, in_OrderID inp) → saga_rules (bills k) (sees k) ctx inp r r r.
Proof.
  intros Hk. split.
  - intros r' w w' [->|[->| ->]] Hr Hd Hc; (apply untouched_bills; [done|rewrite Hd; apply order_untouched_refl|by rewrite Hc]).
  - intros w d' now o g Hr Htr. apply untouched_bills; [done| |done]. cbn.
    eapply moved_untouched; [by eapply transitioned_moved; [exact Htr|right]|apply Htr|done].
  - intros w Hr. apply untouched_bills; [done|apply order_untouched_refl|cbn; set_solver].
  - intros w d' txn now o Hr Hrt. apply untouched_bills; [done| |done]. cbn.
    eapply moved_untouched; [eapply recorded_moved; exact Hrt|apply Hrt|done].
  - intros w d' now o g Hr Htr. apply untouched_bills; [done| |done]. cbn.
    eapply moved_untouched; [by eapply transitioned_moved; [exact Htr|left]|apply Htr|done].
  - intros r' w d' state msg now o g [->|[->| ->]] Hr Hst Htr; (apply untouched_bills; [done| |done]; cbn;
    eapply moved_untouched; [eapply transitioned_moved; [exact Htr|]|apply Htr|done]; left; by destruct Hst as [-> | ->]).
Qed.

Context `{!UuidTextLaws}.

(** ** The goroutines *)

Abbreviation biller_obeys k := (obeys (bills k) (sees k)).

Lemma same_bills k r w : sees k r w → bills k r w w r.
Proof. intros Hr. by apply untouched_bills; [|apply order_untouched_refl|]. Qed.

(** What the transaction of createOrderRow leaves: nothing, or the order with its
    lines and its total. *)
Lemma create_bills k env ctx req w w' x t :
  uuid_scan (co_TenantId req) = Some t → 0 < orderTotal (co_Lines req) → sees k Unseen w →
  createOrderRow (se_tx env PtCreate) (WithTenantID ctx (co_TenantId req)) t req (orderTotal (co_Lines req)) w = (w', x) →
  bills k Unseen w w' Unseen ∧
  ((∃ u, x = Ok u) → k = (t, co_OrderId req) → bills k Unseen w w' (Billing (orderTotal (co_Lines req)))).
Proof.
  intros Ht Htot Hr Hc.
  destruct (order_tx_spec (se_tx env PtCreate) (WithTenantID ctx (co_TenantId req)) _ _ (co_TenantId req) _ _ eq_refl Hc)
    as (d1 & -> & Hx). rewrite Ht in Hx.
  assert (d1 = ow_db w ∧ (∃ e, x = Err e) ∨
    ∃ u, create_closure t req (orderTotal (co_Lines req)) (mkSession (RlsTenant (Some t)) (tx_now (se_tx env PtCreate)))
                 (ow_db w) = Ok (d1, u)) as [[-> [e ->]]|[u Hu]] by (destruct x; naive_solver).
  { rewrite with_db_same. split; [by apply same_bills|]. by intros [u ?]. }
  pose proof (create_rows _ _ _ _ _ _ _ Hu) as (new & g & o & Hl & Hpb & Hnew & Hs & _ & Ho & Hot).
  apply create_inv in Hu as ([Ha Hsa] & (o' & g' & Ho' & Hg' & Hp & Hres & _) & Hm); [|lia].
  destruct (decide (k = (t, co_OrderId req))) as [->|Hne].
  - assert (billed (t, co_OrderId req) d1) as Hb.
    { destruct Hr as [Hb _]. unfold billed, lines_of in *. rewrite Ha in Hb. destruct Hb as [Hno _].
      rewrite Ho, lookup_insert_eq, Hl, filter_app, Hno, app_nil_l, Hot.
      assert (filter (λ l, (ol_TenantID l, ol_OrderID l) = (t, co_OrderId req)) new = new) as ->; [|by rewrite Hpb].
      clear -Hnew. induction Hnew as [|l new [<- <-] Hnew IH]; [done|]. by rewrite filter_cons_True, IH. }
    assert (∀ r', (r' = Unseen ∨ r' = Billing (orderTotal (co_Lines req))) →
              bills (t, co_OrderId req) Unseen w (with_db d1 w) r') as Hall; [|split; [by apply Hall; left|by intros; apply Hall; right]].
    intros r' Hr'. split; [by rewrite Ha|done| |].
    + intros [(o1 & Ho1 & Hs1)|[(g1 & Hg1 & Hs1)|Hs1]].
      * cbn in Ho1. simplify_eq. rewrite Hp in Hs1. by destruct Hs1.
      * cbn in Hg1. simplify_eq. unfold resumable in Hres. by rewrite Hs1 in Hres.
      * cbn in Hs1. left; right; right. by rewrite (moved_count _ _ _ _ Hm), Nat.add_0_r in Hs1.
    + split; [done|]. destruct Hr' as [->| ->]; [done|]. exists o. cbn. by rewrite Ho, lookup_insert_eq.
  - split; [|by intros _ ->]. apply untouched_bills; [done| |done]. cbn [with_db ow_db].
    destruct (moved_other _ _ _ _ _ Hm Hne) as (Eo & Eg & Ee). split; try done. unfold lines_of.
    rewrite Hl, filter_app, (filter_none _ new), app_nil_r; [done|]. eapply Forall_impl; [exact Hnew|].
    cbn. intros l [E1 E2] Hk. apply Hne. by rewrite <- Hk, E1, E2.
Qed.

(** The saga of any order. *)
Lemma run_bills k env ctx inp r :
  ctx_tenant ctx = Some (in_TenantID inp) → uuid_scan (in_TenantID inp) = Some (in_TenantUUID inp) →
  (k = (in_TenantUUID inp, in_OrderID inp) → r = Billing (orderTotal (in_Lines inp))) →
  biller_obeys k (λ r' _, r' = Unseen → r = Unseen) r (go_runSaga env ctx inp).
Proof.
  intros Hctx Ht Hr. destruct (decide (k = (in_TenantUUID inp, in_OrderID inp))) as [Hk|Hk].
  - rewrite (Hr Hk). eapply obeys_weaken.
    + apply (run_obeys _ _ env ctx inp Hctx Ht _ _ _ (saga_bills k ctx inp Known Ht Hk (or_introl eq_refl))).
    + cbn. intros r' _ [->|[->| ->]]; done.
  - eapply obeys_weaken; [apply (run_obeys _ _ env ctx inp Hctx Ht _ _ _ (saga_bills_other k ctx inp r Hk))|].
    cbn. intros r' _ [->|[->| ->]]; done.
Qed.

Lemma create_obeys k env ctx req :
  biller_obeys k (λ _ _, True) Unseen (go_CreateOrder env ctx req).
Proof.
  unfold go_CreateOrder, ParseUUID. destruct (uuid_scan (co_TenantId req)) as [t|] eqn:Ht; [|done].
  repeat (case_match; [done|]). bprop. cbn [obeys]. intros w Hr.
  destruct (createOrderRow _ _ _ _ _ w) as [w' x] eqn:Hc. cbn [fst snd].
  destruct (create_bills k _ _ _ _ _ _ _ Ht ltac:(lia) Hr Hc) as [Hno Hyes]. destruct x as [u|e].
  - exists (if decide (k = (t, co_OrderId req)) then Billing (orderTotal (co_Lines req)) else Unseen).
    split; [destruct (decide (k = _)); [by apply Hyes; eauto|done]|]. eapply obeys_weaken.
    + apply run_bills; [done|exact Ht|]. cbn. intros ->. by rewrite decide_True.
    + done.
  - exists Unseen. split; [done|]. destruct (errors_Is e _); [|done]. apply obeys_atomic. intros w1 Hw1.
    exists Unseen. rewrite (replay_same _ _ _ _ _ Ht). split; [by apply same_bills|done].
Qed.

Lemma cancel_obeys k env ctx req : biller_obeys k (λ _ _, True) Unseen (go_CancelOrder env ctx req).
Proof.
  unfold go_CancelOrder, ParseUUID. destruct (uuid_scan (ca_TenantId req)) as [t|] eqn:Ht; [|done].
  cbn [obeys]. intros w Hr. exists Unseen. split.
  { rewrite (proj1 (getSaga_same _ _ _ _ _ _ Ht)). by apply same_bills. }
  destruct (getSaga _ _ _ w).2 as [g|e]; [|done]. repeat (case_match; [done|]).
  set (inp := mkSagaInput (ca_TenantId req) t (ca_OrderId req) [] "" 0 false).
  set (ctx' := WithTenantID ctx (ca_TenantId req)).
  eapply (obeys_then _ _ (λ _ _, True)); [|by intros r [u|e] _].
  destruct (decide (k = (t, ca_OrderId req))) as [Hk|Hk]; (eapply obeys_weaken; [|by intros]).
  - apply (compensate_obeys _ _ env ctx' inp eq_refl Ht _ _ _ (saga_bills k ctx' inp Unseen Ht Hk (or_intror eq_refl))). by auto.
  - apply (compensate_obeys _ _ env ctx' inp eq_refl Ht _ _ _ (saga_bills_other k ctx' inp Unseen Hk)). by auto.
Qed.

(** The rows of a scan are sagas of the database, which it leaves alone. *)
Lemma scan_spec scan locked limit w :
  (scan_rows scan locked limit w).1 = w ∧
  ∀ rows, (scan_rows scan locked limit w).2 = inl rows →
    NoDup rows.*1 ∧ ∀ k g, (k, g) ∈ rows → sagas (ow_db w) !! k = Some g ∧ resumable g = true.
Proof.
  unfold scan_rows, ExecTxNoTenant. destruct (tx_begin_err scan); [by rewrite with_db_same|]. unfold tx_run.
  destruct (tx_conn_err scan); [by rewrite with_db_same|]. unfold tx_body, GetResumableSagas. cbn [s_rls].
  destruct (tx_commit scan); rewrite with_db_same; [|done..]. split; [done|]. intros rows [= <-]. split.
  - eapply sublist_NoDup; [|apply sublist_fmap, sublist_take]. rewrite merge_sort_Permutation.
    eapply sublist_NoDup; [|apply sublist_fmap, sublist_filter]. apply NoDup_fst_map_to_list.
  - intros k g Hin. apply subseteq_take in Hin. rewrite merge_sort_Permutation in Hin.
    apply list_elem_of_filter in Hin as [(_ & Hres & _) Hin]. by apply elem_of_map_to_list in Hin.
Qed.

(** Loading the lines of an order that has its row: their total is the row's. *)
Lemma load_bills k env ctx t orderID r w w' x :
  order_tx (se_tx env PtLoad) (WithTenantID ctx (uuid_string t)) (GetOrderLines orderID) w = (w', x) →
  sees k r w → r ≠ Unseen → k = (t, orderID) →
  ∀ got, x = Ok got → bills k r w w (Billing (orderTotal (pb_line <$> got))).
Proof.
  intros Hload Hr Hne -> got ->.
  destruct (order_tx_spec _ (WithTenantID ctx (uuid_string t)) _ _ _ _ _ eq_refl Hload) as (d1 & _ & Hx).
  rewrite uuid_scan_string in Hx. unfold GetOrderLines in Hx. injection Hx as _ <-.
  pose proof Hr as [Hb Hr']. assert (∃ o, orders (ow_db w) !! (t, orderID) = Some o) as [o Ho].
  { destruct r as [| |n|]; [done|done|destruct Hr' as (o & Ho & _)|destruct Hr' as (o & c & Ho & _)]; by exists o. }
  destruct (same_bills _ _ _ Hr) as [B1 B2 B3 B4]. split; [done..|]. split; [done|]. exists o. split; [done|].
  unfold billed in Hb. rewrite Ho in Hb. rewrite <- Hb. apply order_total_perm, fmap_Permutation.
  unfold lines_of. rewrite merge_sort_Permutation. erewrite filter_ext; [reflexivity|].
  intros l _. unfold visible. cbn [s_rls]. rewrite bool_decide_eq_true. naive_solver.
Qed.

Lemma resume_rows_obeys k env ctx (rows : list (okey * SagaInstance)) r :
  (k ∈ rows.*1 → r ≠ Unseen) → biller_obeys k (λ _ _, True) r (go_resume_rows env ctx rows).
Proof.
  revert r. induction rows as [|[[t orderID] g] rows IH]; intros r Hin; [done|]. cbn [go_resume_rows fst].
  rewrite fmap_cons in Hin. cbn [fst] in Hin.
  apply (obeys_then _ _ (λ r' _, r' = Unseen → r = Unseen)).
  2:{ intros r' [u|e] Hr'; [|done]. apply IH. intros Hk Hu. apply Hin; [by right|by apply Hr']. }
  unfold go_resume_one. cbn [obeys]. intros w Hr.
  destruct (order_tx _ _ _ w) as [w' x] eqn:Hload. cbn [fst snd].
  pose proof (load_same _ _ _ _ _ _ _ Hload) as ->.
  destruct x as [got|e]; [|exists r; split; [by apply same_bills|cbn; done]].
  destruct (decide (k = (t, orderID))) as [Hk|Hk].
  - assert (r ≠ Unseen) as Hne by (apply Hin; rewrite Hk; by left).
    exists (Billing (orderTotal (pb_line <$> got))). split; [by eapply load_bills|].
    eapply obeys_then; [apply run_bills; [done|apply uuid_scan_string|done]|]. cbn. naive_solver.
  - exists r. split; [by apply same_bills|].
    eapply obeys_then; [apply run_bills; [done|apply uuid_scan_string|]|]; cbn; naive_solver.
Qed.

(** FulfillOrder ships what was confirmed. *)
Lemma fulfil_bills k env ctx req w : sees k Unseen w → bills k Unseen w (FulfillOrder env ctx req w).1 Unseen.
Proof.
  intros Hr. assert (Charges (FulfillOrder env ctx req w).1 = Charges w) as Hc
    by (unfold FulfillOrder, order_tx; by repeat case_match).
  destruct (FulfillOrder_cases env ctx req w) as [Hd|(t & o & _ & Ho & Hst & He)].
  { apply untouched_bills; [done|rewrite Hd; apply order_untouched_refl|by rewrite Hc]. }
  destruct (decide (k = (t, fo_OrderId req))) as [->|Hne].
  - assert (bills (t, fo_OrderId req) Unseen w (with_db (ow_db (FulfillOrder env ctx req w).1) w) Unseen) as [B1 B2 B3 B4].
    { eapply rewritten_bills; [done|exact Ho|by rewrite (fe_orders _ _ _ _ _ _ _ He), lookup_insert_eq|done
        |apply He| |by left]. intros _. left; left. exists o. by split; [|left]. }
    split; [done|by rewrite Hc|done|done].
  - apply untouched_bills; [done| |by rewrite Hc].
    by eapply moved_untouched; [eapply fulfilled_moved; exact He|apply He|].
Qed.

Lemma goroutine_bills k op : biller_obeys k (λ _ _, True) Unseen (goroutine op).
Proof.
  destruct op as [env ctx req|env ctx req|env ctx req|env ctx req|scan locked env ctx limit];
    (eapply (obeys_then _ _ (λ _ _, True)); [|by intros]).
  - apply create_obeys.
  - apply obeys_atomic. intros w Hr. exists Unseen. split; [|done].
    pose proof (get_effect env ctx req w) as Hd. apply untouched_bills; [done|rewrite Hd; apply order_untouched_refl|].
    unfold GetOrder, order_tx. by repeat case_match.
  - apply cancel_obeys.
  - apply obeys_atomic. intros w Hr. exists Unseen. split; [|done]. apply fulfil_bills; done.
  - cbn [go_ResumePendingSagas obeys]. intros w Hr. destruct (scan_spec scan locked limit w) as [Hw Hrows]. rewrite Hw.
    destruct (scan_rows scan locked limit w).2 as [rows|e]; [|exists Unseen; split; [by apply same_bills|done]].
    destruct (Hrows rows eq_refl) as [_ Hin].
    exists (if decide (k ∈ rows.*1) then Known else Unseen). split; [|apply resume_rows_obeys; by case_decide].
    destruct (same_bills _ _ _ Hr) as [B1 B2 B3 B4]. split; [done..|]. case_decide as Hk; [|done].
    split; [apply Hr|]. apply list_elem_of_fmap in Hk as ([k' g] & -> & Hkg). destruct (Hin _ _ Hkg) as [Hg _]. cbn.
    destruct Hr as [Hb _]. unfold billed in Hb. cbn in Hb. destruct (orders (ow_db w) !! k') as [o|]; [by exists o|].
    destruct Hb. congruence.
Qed.

(** ** Theorem *)

(** C3. Nothing ships unpaid: in every state of the order service, whichever
    requests and resume passes run concurrently, however their actions interleave,
    whichever transactions and calls fail, whatever the services behind it do and
    whenever the process dies, an order whose saga is CONFIRMED, whose row is
    CONFIRMED or FULFILLED, or that has an order.fulfilled event in the outbox, was
    charged: a charge of exactly the total on its row, which is the total of its
    stored lines, was accepted. *)
Theorem nothing_ships_unpaid (evs : list (process_event (X := X))) w :
  (∀ k, accounts k w) → ∀ k, accounts k (pl_world (process_run (mkPool w []) evs)).
Proof.
  intros Hw k. cut (pool_inv (bills k) (sees k) (bills_inv k) (λ _ _, True) (process_run (mkPool w []) evs)).
  { by intros (rs & [Ha _] & _). }
  assert (pool_inv (bills k) (sees k) (bills_inv k) (λ _ (_ : answer), True) (mkPool w [])) as Hp.
  { exists []. split; [split; [apply Hw|constructor]|constructor]. }
  generalize dependent (mkPool w ([] : list (prog (OrderWorld X) answer))). clear Hw w.
  induction evs as [|ev evs IH]; intros p Hp; [done|]. apply IH. clear IH. destruct ev as [op|i|f|]; cbn [process_step].
  - eapply pool_inv_go; [done|apply goroutine_bills|]. intros w rs [Ha Hall]. split; [done|].
    apply Forall_app. split; [done|]. constructor; [|constructor]. split; [apply Ha|done].
  - apply pool_inv_run; [|apply bills_step|done]. intros w rs j r [_ Hall] Hr.
    exact (proj1 (Forall_lookup _ _) Hall j r Hr).
  - destruct Hp as (rs & Hinv & Hall). by exists rs.
  - destruct Hp as (rs & [Ha _] & _). exists []. split; [split; [exact Ha|constructor]|constructor].
Qed.

End Paid.
