(* ===== verification/OrderExclusive.v ===== *)
(** * Orders that are worked on by one goroutine at a time

    Requests and resume passes interleave action by action; as long as the
    goroutines that are running work on different orders, every order stays
    consistent at every instant. *)

From S2P Require Import Prelude GoStrings Database StockApi StockClient ReservationService CircuitBreaker Payment.
From S2P Require Import OrderDb OrderService OrderSteps OrderSaga OrderProps OrderInvariant OrderRequests.
From S2P Require Import OrderThreads OrderRaces OrderPaid.

Section Exclusive.
Context `{UuidText} `{OrderHashes} `{ErrorText} {X : Type} `{StockClient X} `{ReservationClient X}.
Implicit Types w : OrderWorld X.

(** ** Specification *)

(** The order a request writes to, as far as one can tell from the request. *)
Definition order_target (op : order_op) : option (option uuid * string) :=
  match op with
  | OpCreate _ _ req => Some (uuid_scan (co_TenantId req), co_OrderId req)
  | OpCancel _ _ req => Some (uuid_scan (ca_TenantId req), ca_OrderId req)
  | OpFulfill _ _ req => Some (uuid_scan (fo_TenantId req), fo_OrderId req)
  | OpGet _ _ _ | OpResume _ _ _ _ _ => None
  end.

(** Two goroutines that may write to the same order: a resume pass may write to
    any. *)
Definition conflict (op op' : order_op) : bool :=
  match op, op' with
  | OpGet _ _ _, _ | _, OpGet _ _ _ => false
  | OpResume _ _ _ _ _, _ | _, OpResume _ _ _ _ _ => true
  | _, _ => bool_decide (order_target op = order_target op')
  end.

(** A request arrives only when the requests for its order have been answered.
    [ops]: what the goroutines of the pool are. *)
Fixpoint exclusive (ops : list order_op) (p : Pool (OrderWorld X) answer) (evs : list (process_event (X := X))) : bool :=
  match evs with
  | [] => true
  | ev :: evs' =>
      match ev with
      | Arrive op =>
          forallb (λ '(op', t), has_ended t || negb (conflict op op')) (zip ops (pl_threads p)) &&
          exclusive (ops ++ [op]) (process_step p ev) evs'
      | Crash => exclusive [] (process_step p ev) evs'
      | _ => exclusive ops (process_step p ev) evs'
      end
  end.

Definition touches (k : okey) (op : order_op) : bool :=
  match op with
  | OpGet _ _ _ => false
  | OpResume _ _ _ _ _ => true
  | _ => bool_decide (order_target op = Some (Some k.1, k.2))
  end.

Lemma conflict_touches k op op' : conflict op op' = false → touches k op = true → touches k op' = true → False.
Proof.
  destruct op, op'; cbn; try done; rewrite !bool_decide_eq_true, bool_decide_eq_false; congruence.
Qed.

(** ** Roles *)

(** With order [k]: a goroutine that leaves it alone, one that has not yet looked
    at it, one that runs its saga, one that has recorded the saga's end. *)
Inductive phase := Away | Ready | Flying | Landed.

#[export] Instance phase_eq : EqDecision phase.
Proof. solve_decision. Defined.

(** The flag: whether the request may touch the order at all. *)
Definition worker : Type := bool * phase.

Definition aware (k : okey) (r : worker) w : Prop :=
  key_ok k (ow_db w) ∧
  match r.2 with
  | Away | Ready => True
  | Flying => in_flight k (ow_db w)
  | Landed => settled k (ow_db w)
  end.

Definition works (k : okey) (r : worker) w w' (r' : worker) : Prop :=
  r'.1 = r.1 ∧ (r.2 = Away → r'.2 = Away ∧ key_same k (ow_db w) (ow_db w')) ∧ aware k r' w'.

Record works_inv (k : okey) (tags : list bool) w (rs : list worker) : Prop := {
  wi_ok : key_ok k (ow_db w);
  wi_aware : Forall (λ r, aware k r w) rs;
  wi_tags : rs.*1 = tags;
  wi_touch : Forall (λ r, r.2 ≠ Away → r.1 = true) rs;
  wi_one i j ri rj : rs !! i = Some ri → rs !! j = Some rj → ri.2 ≠ Away → rj.2 ≠ Away → i = j;
}.

Lemma key_ok_same k d d' : key_same k d d' → key_ok k d → key_ok k d'.
Proof. intros Hs Hok. eapply key_effect_ok; [exact Hok|by apply ke_same]. Qed.

Lemma settled_same k d d' : key_same k d d' → settled k d → settled k d'.
Proof. intros (Eo & Eg & _) (o & g & Ho & Hg & Hr). exists o, g. by rewrite Eo, Eg. Qed.

Lemma aware_same k r w w' : key_same k (ow_db w) (ow_db w') → aware k r w → aware k r w'.
Proof.
  intros Hs [Hok Hr]. split; [by eapply key_ok_same|]. destruct r as [b []]; try done; cbn in *.
  - by eapply in_flight_same.
  - by eapply settled_same.
Qed.

Lemma same_works k r w w' : key_same k (ow_db w) (ow_db w') → aware k r w → works k r w w' r.
Proof. intros Hs Hr. split; [done|]. split; [done|]. by eapply aware_same. Qed.

Lemma works_step k tags w rs i r w' r' :
  works_inv k tags w rs → rs !! i = Some r → works k r w w' r' → works_inv k tags w' (<[i := r']> rs).
Proof.
  intros [Hok Haw Htags Htouch Hone] Hi (Hb & Haway & Haw'). split.
  - apply Haw'.
  - apply Forall_lookup. intros j rj Hj. destruct (decide (i = j)) as [<-|Hne].
    { rewrite list_lookup_insert_eq in Hj by by eapply lookup_lt_Some. by injection Hj as <-. }
    rewrite list_lookup_insert_ne in Hj by done. pose proof (proj1 (Forall_lookup _ _) Haw j rj Hj) as Hrj.
    destruct (decide (r.2 = Away)) as [Ha|Ha]; [by eapply aware_same; [apply Haway|]|].
    destruct rj as [b ph]. assert (ph = Away) as ->.
    { destruct (decide (ph = Away)) as [|Hph]; [done|]. exfalso. apply Hne. by eapply Hone. }
    split; [apply Haw'|done].
  - rewrite <- Htags. rewrite list_fmap_insert, Hb. apply list_insert_id. rewrite list_lookup_fmap. exact (f_equal (fmap fst) Hi).
  - apply Forall_insert; [done|]. rewrite Hb. pose proof (proj1 (Forall_lookup _ _) Htouch i r Hi) as Hr. cbn in Hr.
    intros Hne. apply Hr. intros Ha. by apply Haway in Ha as [Ha _].
  - assert (∀ j rj, <[i := r']> rs !! j = Some rj → rj.2 ≠ Away → ∃ rj0, rs !! j = Some rj0 ∧ rj0.2 ≠ Away) as Hback.
    { intros j rj Hj Hne. destruct (decide (i = j)) as [<-|Hij].
      - rewrite list_lookup_insert_eq in Hj by by eapply lookup_lt_Some. injection Hj as <-. exists r. split; [done|].
        intros Ha. by apply Haway in Ha as [Ha _].
      - rewrite list_lookup_insert_ne in Hj by done. by exists rj. }
    intros i1 i2 r1 r2 H1' H2' Hn1 Hn2. destruct (Hback _ _ H1' Hn1) as (q1 & Q1 & N1).
    destruct (Hback _ _ H2' Hn2) as (q2 & Q2 & N2). by eapply Hone.
Qed.

(** ** The saga of an order *)

(** A saga row and its mirror are moved on. *)
Lemma settled_ok k d d' :
  key_ok k d → settled k d → settled k d' → fulfilled_events k d' = fulfilled_events k d → key_ok k d'.
Proof.
  unfold key_ok. intros Hok (o & g & Ho & Hg & Hst & _) (o' & g' & Ho' & Hg' & Hst' & Htot') Hev.
  rewrite Ho, Hg in Hok. rewrite Ho', Hg', Hev. destruct Hok as (_ & _ & Hn). split; [by left|]. split; [done|].
  assert (∀ st status, status_of st = Some status → status ≠ OrderFulfilled) as Hnf.
  { intros st status Hs ->. apply status_of_inv in Hs. naive_solver. }
  rewrite bool_decide_false in Hn |- *; [done|by eapply Hnf..].
Qed.

Lemma flying_works k r w d' (ph : phase) :
  aware k (true, r) w → r = Flying ∨ r = Landed → moved k 0 (ow_db w) d' →
  (settled k (ow_db w) → settled k d') → (ph = Flying ∧ in_flight k d' ∨ ph = Landed) →
  works k (true, r) w (with_db d' w) (true, ph).
Proof.
  intros [Hok Hr] Hph Hm Hset Hnew. assert (settled k (ow_db w)) as Hs.
  { destruct Hph as [->| ->]; cbn in Hr; [by apply in_flight_settled|done]. }
  split; [done|]. split; [by destruct Hph as [-> | ->]|]. split; cbn [with_db ow_db snd].
  - eapply settled_ok; [exact Hok|done|by apply Hset|]. by rewrite (moved_count _ _ _ _ Hm), Nat.add_0_r.
  - destruct Hnew as [[-> Hf]| ->]; [done|by apply Hset].
Qed.

Lemma saga_works k ctx inp :
  k = (in_TenantUUID inp, in_OrderID inp) →
  saga_rules (works k) (aware k) ctx inp (true, Flying) (true, Flying) (true, Landed).
Proof.
  intros ->. split.
  - intros r w w' _ Hr Hd _. apply same_works; [by rewrite Hd|done].
  - intros w d' now o g Hr Htr. destruct (open_tx_in_flight ctx _ _ (ow_db w) d' (proj2 Hr)) as [Hf Hm]; [by eapply open_reserved|].
    eapply flying_works; [done|by left|done| |by left]. intros _. by apply in_flight_settled.
  - intros w Hr. by apply same_works.
  - intros w d' txn now o Hr Hrt. destruct (open_tx_in_flight ctx _ _ (ow_db w) d' (proj2 Hr)) as [Hf Hm]; [by eapply open_record|].
    eapply flying_works; [done|by left|done| |by left]. intros _. by apply in_flight_settled.
  - intros w d' now o g Hr Htr.
    assert (moved (in_TenantUUID inp, in_OrderID inp) 0 (ow_db w) d') as Hm by (by eapply transitioned_moved; [exact Htr|left]).
    eapply flying_works; [done|by left|done| |by right]. intros Hs.
    by apply (end_tx_settled ctx _ _ _ _ Hs), (end_transition _ _ _ _ _ SagaConfirmed _ _ _ _ _ eq_refl Htr).
  - intros r w d' state msg now o g Hin Hr Hst Htr.
    assert (final_state state = true) as Hfin by by destruct Hst as [-> | ->].
    assert (moved (in_TenantUUID inp, in_OrderID inp) 0 (ow_db w) d') as Hm by (by eapply transitioned_moved; [exact Htr|left]).
    assert (∃ ph, r = (true, ph) ∧ (ph = Flying ∨ ph = Landed)) as (ph & -> & Hph) by naive_solver.
    eapply flying_works; [done|done|done| |by right]. intros Hs.
    by apply (end_tx_settled ctx _ _ _ _ Hs), (end_transition _ _ _ _ _ _ _ _ _ _ _ Hfin Htr).
Qed.

Lemma saga_works_other k ctx inp r :
  k ≠ (in_TenantUUID inp, in_OrderID inp) → saga_rules (works k) (aware k) ctx inp r r r.
Proof.
  intros Hk. split.
  - intros r' w w' [->|[->| ->]] Hr Hd _; (apply same_works; [by rewrite Hd|done]).
  - intros w d' now o g Hr Htr. apply same_works; [|done].
    by eapply moved_other; [eapply transitioned_moved; [exact Htr|by right]|].
  - intros w Hr. by apply same_works.
  - intros w d' txn now o Hr Hrt. apply same_works; [|done]. by eapply moved_other; [eapply recorded_moved; exact Hrt|].
  - intros w d' now o g Hr Htr. apply same_works; [|done].
    by eapply moved_other; [eapply transitioned_moved; [exact Htr|by left]|].
  - intros r' w d' state msg now o g [->|[->| ->]] Hr Hst Htr; (apply same_works; [|done];
      eapply moved_other; [eapply transitioned_moved; [exact Htr|left; by destruct Hst as [-> | ->]]|done]).
Qed.

(** ** The goroutines *)

Context `{!UuidTextLaws}.

Abbreviation worker_obeys k := (obeys (works k) (aware k)).

Lemma run_works k env ctx inp r :
  ctx_tenant ctx = Some (in_TenantID inp) → uuid_scan (in_TenantID inp) = Some (in_TenantUUID inp) →
  (k = (in_TenantUUID inp, in_OrderID inp) → r = (true, Flying)) →
  worker_obeys k (λ r' _, k ≠ (in_TenantUUID inp, in_OrderID inp) → r' = r) r (go_runSaga env ctx inp).
Proof.
  intros Hctx Ht Hr. destruct (decide (k = (in_TenantUUID inp, in_OrderID inp))) as [Hk|Hk].
  - rewrite (Hr Hk). eapply obeys_weaken; [apply (run_obeys _ _ env ctx inp Hctx Ht _ _ _ (saga_works k ctx inp Hk))|].
    by intros r' a _ Hne.
  - eapply obeys_weaken; [apply (run_obeys _ _ env ctx inp Hctx Ht _ _ _ (saga_works_other k ctx inp r Hk))|].
    cbn. intros r' a [->|[->| ->]] _; done.
Qed.

Definition first_role (k : okey) (op : order_op) : worker :=
  (touches k op, if touches k op then Ready else Away).

Lemma create_works k env ctx req :
  worker_obeys k (λ _ _, True) (first_role k (OpCreate env ctx req)) (go_CreateOrder env ctx req).
Proof.
  set (r0 := first_role k _). unfold go_CreateOrder, ParseUUID.
  destruct (uuid_scan (co_TenantId req)) as [t|] eqn:Ht; [|done].
  repeat (case_match; [done|]). bprop. cbn [obeys]. intros w Hr.
  destruct (createOrderRow _ _ _ _ _ w) as [w' x] eqn:Hc. cbn [fst snd].
  destruct (order_tx_spec (se_tx env PtCreate) (WithTenantID ctx (co_TenantId req)) _ _ (co_TenantId req) _ _ eq_refl Hc)
    as (d1 & -> & Hx). rewrite Ht in Hx.
  assert (∃ r', works k r0 w (with_db d1 w) r' ∧ (k = (t, co_OrderId req) → (∃ u, x = Ok u) → r' = (true, Flying))) as (r' & Hw & Hr').
  { assert (d1 = ow_db w ∧ (∃ e, x = Err e) ∨
      absent (t, co_OrderId req) (ow_db w) ∧ in_flight (t, co_OrderId req) d1 ∧ moved (t, co_OrderId req) 0 (ow_db w) d1)
      as [[-> [e ->]]|(Ha & Hf & Hm)].
    { destruct x as [u|e]; [right; eapply create_inv; [|exact Hx]; lia|].
      destruct Hx as [->|[u Hu]]; [left; eauto|]. right. eapply create_inv; [|exact Hu]; lia. }
    { exists r0. rewrite with_db_same. split; [by apply same_works|]. by intros _ [u ?]. }
    destruct (decide (k = (t, co_OrderId req))) as [->|Hne].
    - exists (true, Flying). split; [|done]. subst r0. unfold first_role in *. cbn [touches order_target] in *.
      rewrite Ht, bool_decide_true in * by done. split; [done|]. split; [done|].
      split; [|done]. cbn [with_db ow_db]. eapply key_effect_ok; [apply Hr|].
      apply ke_saga; [by left|by apply in_flight_settled|]. by rewrite (moved_count _ _ _ _ Hm), Nat.add_0_r.
    - exists r0. split; [|done]. apply same_works; [|done]. by eapply moved_other. }
  exists r'. split; [done|]. destruct x as [u|e].
  - eapply obeys_weaken; [apply run_works; [done|exact Ht|]|done]. cbn. eauto.
  - destruct (errors_Is e _); [|done]. apply obeys_atomic. intros w1 Hw1. exists r'.
    rewrite (replay_same _ _ _ _ _ Ht). split; [by apply same_works|done].
Qed.

Lemma cancel_works k env ctx req :
  worker_obeys k (λ _ _, True) (first_role k (OpCancel env ctx req)) (go_CancelOrder env ctx req).
Proof.
  set (r0 := first_role k _). unfold go_CancelOrder, ParseUUID.
  destruct (uuid_scan (ca_TenantId req)) as [t|] eqn:Ht; [|done]. cbn [obeys]. intros w Hr.
  destruct (getSaga_same (se_tx env PtGetSaga) ctx _ _ (ca_OrderId req) w Ht) as [Hsame Hg]. rewrite Hsame.
  destruct (getSaga _ _ _ w).2 as [g|e]; [|exists r0; split; [by apply same_works|done]].
  specialize (Hg g eq_refl).
  destruct (bool_decide _ || bool_decide _) eqn:H1'; [exists r0; split; [by apply same_works|done]|].
  destruct (bool_decide (sg_State g = SagaCompensated) || _) eqn:H2'; [exists r0; split; [by apply same_works|done]|].
  bprop. repeat match goal with Hx : bool_decide _ = false |- _ => apply bool_decide_eq_false in Hx end.
  set (inp := mkSagaInput (ca_TenantId req) t (ca_OrderId req) [] "" 0 false).
  set (ctx' := WithTenantID ctx (ca_TenantId req)).
  destruct (decide (k = (t, ca_OrderId req))) as [Hk|Hk].
  - exists (true, Flying). split.
    + subst r0 k. unfold first_role in *. cbn [touches order_target] in *. rewrite Ht, bool_decide_true in * by done. split; [done|]. split; [done|]. split; [apply Hr|]. cbn.
      by eapply wf_in_flight; [apply Hr|exact Hg|..].
    + eapply (obeys_then _ _ (λ _ _, True)); [|by intros r [u|e] _]. eapply obeys_weaken; [|by intros].
      apply (compensate_obeys _ _ env ctx' inp eq_refl Ht _ _ _ (saga_works k ctx' inp Hk)). by auto.
  - exists r0. split; [by apply same_works|].
    eapply (obeys_then _ _ (λ _ _, True)); [|by intros r [u|e] _]. eapply obeys_weaken; [|by intros].
    apply (compensate_obeys _ _ env ctx' inp eq_refl Ht _ _ _ (saga_works_other k ctx' inp r0 Hk)). by auto.
Qed.

Lemma fulfil_works k env ctx req w :
  aware k (first_role k (OpFulfill env ctx req)) w →
  works k (first_role k (OpFulfill env ctx req)) w (FulfillOrder env ctx req w).1 (first_role k (OpFulfill env ctx req)).
Proof.
  intros Hr. destruct (FulfillOrder_cases env ctx req w) as [Hd|(t & o & Ht & _ & _ & He)].
  { apply same_works; [by rewrite Hd|done]. }
  destruct (decide (k = (t, fo_OrderId req))) as [->|Hne].
  - unfold first_role. cbn [touches order_target fst snd]. rewrite Ht, bool_decide_true by done. split; [done|]. split; [done|].
    split; [|done]. eapply key_effect_ok; [apply Hr|apply fulfill_effect].
  - apply same_works; [|done]. by eapply moved_other; [by eapply fulfilled_moved|].
Qed.

Lemma resume_rows_works k env ctx (rows : list (okey * SagaInstance)) r :
  NoDup rows.*1 → (k ∈ rows.*1 → r = (true, Flying)) → worker_obeys k (λ _ _, True) r (go_resume_rows env ctx rows).
Proof.
  revert r. induction rows as [|[[t orderID] g] rows IH]; intros r Hnd Hin; [done|]. cbn [go_resume_rows fst].
  rewrite fmap_cons in Hin, Hnd. cbn [fst] in Hin, Hnd. rewrite NoDup_cons in Hnd. destruct Hnd as [Hno Hnd].
  apply (obeys_then _ _ (λ r' _, k ≠ (t, orderID) → r' = r)).
  2:{ intros r' [u|e] Hr'; [|done]. apply IH; [done|]. intros Hk. rewrite Hr'; [apply Hin; by right|].
      intros ->. done. }
  unfold go_resume_one. cbn [obeys]. intros w Hr.
  destruct (order_tx _ _ _ w) as [w' x] eqn:Hload. cbn [fst snd]. pose proof (load_same _ _ _ _ _ _ _ Hload) as ->.
  exists r. split; [by apply same_works|]. destruct x as [got|e]; [|by cbn].
  eapply obeys_then; [apply run_works; [done|apply uuid_scan_string|]|].
  - cbn. intros Hk. apply Hin. rewrite Hk. by left.
  - cbn. by intros r' _.
Qed.

Lemma goroutine_works k op : worker_obeys k (λ _ _, True) (first_role k op) (goroutine op).
Proof.
  destruct op as [env ctx req|env ctx req|env ctx req|env ctx req|scan locked env ctx limit];
    (eapply (obeys_then _ _ (λ _ _, True)); [|by intros]).
  - apply create_works.
  - apply obeys_atomic. intros w Hr. eexists. split; [|done]. apply same_works; [|exact Hr]. by rewrite get_effect.
  - apply cancel_works.
  - apply obeys_atomic. intros w Hr. eexists. split; [by apply fulfil_works|done].
  - cbn [go_ResumePendingSagas obeys]. intros w Hr. destruct (scan_spec scan locked limit w) as [Hw Hrows]. rewrite Hw.
    destruct (scan_rows scan locked limit w).2 as [rows|e]; [|eexists; split; [by apply same_works|done]].
    destruct (Hrows rows eq_refl) as [Hnd Hin].
    exists (true, if decide (k ∈ rows.*1) then Flying else Ready). split; [|apply resume_rows_works; [done|by case_decide]].
    split; [done|]. split; [done|]. split; [apply Hr|]. cbn. case_decide as Hk; [|done].
    apply list_elem_of_fmap in Hk as ([k' g] & -> & Hkg). destruct (Hin _ _ Hkg) as [Hg Hres]. cbn.
    unfold resumable in Hres. apply orb_prop in Hres as [Hs|Hs]; apply bool_decide_eq_true in Hs;
      (eapply wf_in_flight; [apply Hr|exact Hg|rewrite Hs; done..]).
Qed.

(** ** Arrivals *)

(** A goroutine that has ended plays no role. *)
Definition drop_ended (rs : list worker) (ts : list (prog (OrderWorld X) answer)) : list worker :=
  zip_with (λ r t, if has_ended t then (r.1, Away) else r) rs ts.

Lemma drop_lookup rs ts i r :
  drop_ended rs ts !! i = Some r →
  ∃ r0 t, rs !! i = Some r0 ∧ ts !! i = Some t ∧ r = if has_ended t then (r0.1, Away) else r0.
Proof. intros Hi. apply lookup_zip_with_Some in Hi as (r0 & t & -> & Hr & Ht). eauto. Qed.

Lemma drop_works k tags w rs ts :
  works_inv k tags w rs → length rs = length ts → works_inv k tags w (drop_ended rs ts).
Proof.
  intros [Hok Haw Htags Htouch Hone] Hlen. split; [done| | | |].
  - apply Forall_lookup. intros i r Hi. apply drop_lookup in Hi as (r0 & t & Hr0 & _ & ->).
    pose proof (proj1 (Forall_lookup _ _) Haw i r0 Hr0) as Hr. destruct (has_ended t); [by split|done].
  - rewrite <- Htags. clear -Hlen. revert ts Hlen. induction rs as [|r rs IH]; intros [|t ts] Hlen; try done.
    unfold drop_ended in *. cbn. f_equal; [by destruct (has_ended t)|]. apply IH. by injection Hlen.
  - apply Forall_lookup. intros i r Hi. apply drop_lookup in Hi as (r0 & t & Hr0 & _ & ->).
    pose proof (proj1 (Forall_lookup _ _) Htouch i r0 Hr0) as Hr. by destruct (has_ended t).
  - intros i j ri rj Hi Hj Hni Hnj. apply drop_lookup in Hi as (r1 & t1 & Hr1 & _ & ->).
    apply drop_lookup in Hj as (r2 & t2 & Hr2 & _ & ->). destruct (has_ended t1), (has_ended t2); try done. by eapply Hone.
Qed.

Lemma drop_obeys k rs ts :
  Forall2 (worker_obeys k (λ _ _, True)) rs ts → Forall2 (worker_obeys k (λ _ (_ : answer), True)) (drop_ended rs ts) ts.
Proof. induction 1 as [|r t rs ts Hrt Hall IH]; [constructor|]. constructor; [|done]. by destruct t. Qed.

Definition pool_works (k : okey) (ops : list order_op) (p : Pool (OrderWorld X) answer) : Prop :=
  pool_inv (works k) (aware k) (works_inv k (touches k <$> ops)) (λ _ _, True) p.

Lemma arrive_works k ops op p :
  pool_works k ops p →
  forallb (λ '(op', t), has_ended t || negb (conflict op op')) (zip ops (pl_threads p)) = true →
  pool_works k (ops ++ [op]) (pool_go (goroutine op) p).
Proof.
  intros (rs & Hinv & Hall) Hex. pose proof (Forall2_length _ _ _ Hall) as Hlen.
  exists (drop_ended rs (pl_threads p) ++ [first_role k op]). split.
  2:{ apply Forall2_app; [by apply drop_obeys|]. constructor; [apply goroutine_works|constructor]. }
  pose proof (drop_works _ _ _ _ _ Hinv Hlen) as [Hok Haw Htags Htouch Hone]. cbn [pool_go pl_world].
  assert (touches k op = true → ∀ i r, drop_ended rs (pl_threads p) !! i = Some r → r.2 = Away) as Hnone.
  { intros Hop i r Hi. destruct (decide (r.2 = Away)) as [|Hne]; [done|]. exfalso.
    pose proof (proj1 (Forall_lookup _ _) Htouch i r Hi Hne) as Hr1.
    assert ((touches k <$> ops) !! i = Some r.1) as Hti by (rewrite <- Htags, list_lookup_fmap; exact (f_equal (fmap fst) Hi)).
    rewrite list_lookup_fmap in Hti. destruct (ops !! i) as [op'|] eqn:Hop'; [|done]. injection Hti as Hti.
    apply drop_lookup in Hi as (r0 & t & Hr0 & Ht & ->). rewrite forallb_forall in Hex.
    specialize (Hex (op', t)). rewrite <- list_elem_of_In in Hex. destruct (has_ended t) eqn:He; [done|].
    cbn in Hex. apply (conflict_touches k op op'); [|done|congruence].
    apply negb_true_iff, Hex. apply list_elem_of_lookup. exists i. rewrite lookup_zip_with, Hop', Ht. done. }
  split; [done| | | |].
  - apply Forall_app. split; [done|]. constructor; [|constructor]. split; [done|]. cbn. by destruct (touches k op).
  - by rewrite !fmap_app, Htags.
  - apply Forall_app. split; [done|]. constructor; [|constructor]. cbn. by destruct (touches k op).
  - assert (∀ i r, (drop_ended rs (pl_threads p) ++ [first_role k op]) !! i = Some r → r.2 ≠ Away →
      drop_ended rs (pl_threads p) !! i = Some r ∧ touches k op = false ∨
      i = length (drop_ended rs (pl_threads p)) ∧ touches k op = true) as Hcase.
    { intros i r Hi Hne. apply lookup_app_Some in Hi as [Hi|[Hle Hi]].
      - left. split; [done|]. apply not_true_is_false. intros Hop. by apply Hne, (Hnone Hop i).
      - right. apply list_lookup_singleton_Some in Hi as [Hd <-]. split; [|cbn in Hne; by destruct (touches k op)].
        apply Nat.sub_0_le in Hd. by apply Nat.le_antisymm. }
    intros i j ri rj Hi Hj Hni Hnj.
    destruct (Hcase i ri Hi Hni) as [[Hi' Hf]|[-> Hf]], (Hcase j rj Hj Hnj) as [[Hj' Hf']|[-> Hf']]; try congruence.
    by eapply Hone.
Qed.

(** ** Theorem *)


End Exclusive.
