(* ===== verification/RecoveryExamples.v ===== *)
(** * Interrupted and concurrent orders on the concrete shop

    The recovery theorem applied to a process that dies while its calls get
    lost, and two histories that lie outside of it; the theorems about
    interleavings applied, and the races they leave open: a cancellation that
    overtakes the confirmation of its order, and a resume pass that takes a saga
    over from the request that is running it. *)

From S2P Require Import Prelude Database StockDb StockApi StockService StockEffects StockReserve StockClient.
From S2P Require Import StockExamples ReservationDb ReservationService ReservationBooks ReservationProps.
From S2P Require Import ReservationExamples CircuitBreaker Payment OrderDb OrderService OrderSteps OrderSaga.
From S2P Require Import OrderProps OrderInvariant OrderRequests OrderHealthy System SagaPhases Recovery OrderExamples.
From S2P Require Import OrderThreads OrderRaces OrderPaid OrderExclusive.

#[local] Existing Instance bits_text.

(** ** The theorem at work *)

(** The process cannot reach its database from the moment it has to record a
    failure. *)
Definition killed : SagaEnv :=
  mkSagaEnv (λ p, match p with PtFail => mkTxEnv 5 (Some "killed") None None CommitOk | _ => healthy 5 end)
    (λ _, 5000) (λ _, 5000) "" "tx".

(** Its second call to the reservation service is answered, and the answer is
    lost. *)
Definition flaky_shop : OrderWorld (System StockWorld) :=
  NewSaga no_orders (mkSystem no_reservations shelf 5
    [mkResRpcEnv None (res_healthy 5) None; mkResRpcEnv None (res_healthy 5) (Some "reset")]).

Lemma flaky_fresh : fresh_request 3%N (order "o1" "k1" false) flaky_shop.
Proof. destruct open_fresh as [F1 F2 F3 F4 F5 F6 F7 F8 F9 F10 F11]. split; assumption. Qed.


(** ** Outside of it *)

(** The flag that a payment is to fail is not stored: when the transaction that
    marks the saga COMPENSATED fails, the resumed saga takes the released
    reservation for its own, charges the customer and ends FAILED. *)
Definition lost_compensation : SagaEnv :=
  mkSagaEnv (λ p, match p with PtCompensate | PtFail => mkTxEnv 5 (Some "killed") None None CommitOk | _ => healthy 5 end)
    (λ _, 5000) (λ _, 5000) "" "tx".

Example declined_then_charged :
  let w1 := order_run open_shop (OpCreate lost_compensation no_ctx (order "o1" "k1" true)) in
  let w2 := order_run w1 (resume_op 6) in
  (saga_at "o1" w1, Charges w1, mug_buckets w1) = (Some SagaReserved, [], (10, 0, 0)) ∧
  (saga_at "o1" w2, length (Charges w2), mug_buckets w2) = (Some SagaFailed, 1%nat, (10, 0, 0)).
Proof. vm_compute. repeat split; reflexivity. Qed.

(** A reservation that could not be stored is compensated in the stock service
    under the order's key; when the client tries again, the stock service takes
    the call for a repetition, and the rows that are now stored hold nothing. *)
Example retry_after_compensation_holds_nothing :
  let st := (Reserve storm no_ctx reserve_o1 no_reservations shelf).1 in
  let st' := Reserve (res_healthy 4) no_ctx reserve_o1 st.1 st.2 in
  match st'.2 with Ok resp => rr_Success resp | Err _ => false end = true ∧
  held_at st'.1.1 mug_at = 3 ∧ reserved_in st'.1.2 mug_at = 0.
Proof. vm_compute. repeat split; reflexivity. Qed.

(** ** Concurrent requests *)

Definition shop_event : Type := process_event (X := System StockWorld).

(** The shop with nobody in it. *)
Definition quiet_shop : Pool (OrderWorld (System StockWorld)) answer := mkPool open_shop [].

Definition turns (i n : nat) : list shop_event := replicate n (Turn i).

Definition cancel_op (n : Z) (id : string) : order_op :=
  OpCancel (sane n) no_ctx (mkCancelOrderRequest tenant3 id "" "").

(** *** The theorems at work *)

(** The same request twice, and a cancellation, all at once. *)
Definition double_click : list shop_event :=
  [Arrive (create_op 5 (order "o1" "k1" false)); Arrive (create_op 5 (order "o1" "k1" false))] ++
  [Turn 1%nat; Turn 0%nat] ++ turns 1 7 ++ [Turn 0%nat; Arrive (cancel_op 6 "o1")] ++ turns 2 3 ++ turns 1 7.

Lemma charged_once_interleaved_witness :
  NoDup (charge_key <$> Charges (pl_world (process_run quiet_shop double_click))).
Proof. exact (charged_once_interleaved double_click open_shop eq_refl eq_refl). Defined.

(** Two orders at the same time, one of them cancelled in the end. *)
Definition two_at_once : list shop_event :=
  [Arrive (create_op 5 (order "o1" "k1" false)); Arrive (create_op 5 (order "o2" "k2" true))] ++
  turns 0 4 ++ turns 1 6 ++ turns 0 11 ++ turns 1 2 ++ [Arrive (cancel_op 7 "o1")] ++ turns 2 1.


Lemma open_accounts k : accounts k open_shop.
Proof. split; [done|]. intros [(o & Ho & _)|[(g & Hg & _)|He]]; done. Qed.

(** A crash in the middle, and a resume pass beside new requests. *)
Definition rough_day : list shop_event :=
  Arrive (create_op 5 (order "o1" "k1" false)) :: turns 0 8 ++
  [Crash; Arrive (resume_op 6); Arrive (cancel_op 6 "o1")] ++ turns 0 3 ++ turns 1 2 ++ turns 0 16.

Lemma nothing_ships_unpaid_witness :
  accounts (3%N, "o1") (pl_world (process_run quiet_shop rough_day)).
Proof. exact (nothing_ships_unpaid rough_day open_shop open_accounts (3%N, "o1")). Defined.

(** ** Races *)

Definition answers (p : Pool (OrderWorld (System StockWorld)) answer) : list (option string) :=
  (λ t, match t with
        | Finish (Created (Ok r)) => Some (cor_Status r)
        | Finish (Cancelled (Ok r)) => Some (car_Status r)
        | _ => None
        end) <$> pl_threads p.

(** CancelOrder reads the saga before it is confirmed and compensates after: the
    order was CONFIRMED, its customer charged and its goods allocated, and ends
    COMPENSATED with the money and the goods where they were. *)
Definition late_cancel : list shop_event :=
  Arrive (create_op 5 (order "o1" "k1" false)) :: turns 0 5 ++
  [Arrive (cancel_op 6 "o1"); Turn 1%nat] ++ turns 0 10 ++ turns 1 2.

Example cancel_overtakes_confirm :
  let p := process_run quiet_shop late_cancel in
  answers p = [Some SagaConfirmed; Some SagaCompensated] ∧ saga_at "o1" (pl_world p) = Some SagaCompensated ∧
  length (Charges (pl_world p)) = 1%nat ∧ mug_buckets (pl_world p) = (7, 0, 3).
Proof. vm_compute. repeat split. Qed.

(** The resume loop ticks while a request runs its saga: both run it, and the
    customer is charged twice. *)
Definition busy_tick : list shop_event :=
  Arrive (create_op 5 (order "o1" "k1" false)) :: turns 0 5 ++
  [Arrive (resume_op 6); Turn 1%nat] ++ turns 0 10 ++ turns 1 15.

Example resume_beside_create :
  let p := process_run quiet_shop busy_tick in
  saga_at "o1" (pl_world p) = Some SagaConfirmed ∧ charge_key <$> Charges (pl_world p) = [(Some 3%N, "o1"); (Some 3%N, "o1")].
Proof. vm_compute. repeat split. Qed.
