(* ===== verification/Events.v ===== *)
(** * Events between the services

    A Kafka message as the consumers see it, the fields they take from its
    JSON value, the composite partition key, and the routing of outbox rows
    (db/connect/*-outbox.json: Debezium's EventRouter with aggregate_id as the
    key, payload as the value, id, event_type and traceparent as headers; a NULL
    is an empty header). *)

From S2P Require Import Prelude Database.

Record Message := mkMessage {
  mg_Topic : string;
  mg_Key : string;
  mg_Value : option json;               (* [None]: not JSON *)
  mg_Headers : list (string * string);
  mg_Offset : Z;
}.

Section Routing.
Context `{UuidText}.

(** The message of an outbox row. *)
Definition routed (topic : string) (offset : Z) (r : OutboxRow) : Message :=
  {| mg_Topic := topic; mg_Key := ob_AggregateID (ob r); mg_Value := Some (ob_Payload (ob r));
     mg_Headers := [("id", uuid_string (ob_ID r)); ("eventType", ob_EventType (ob r));
                    ("traceparent", default "" (ob_Traceparent (ob r)))];
     mg_Offset := offset |}.

End Routing.

(** ** encoding/json into a struct

    The last member of a name wins; a missing member leaves the zero value; a
    member of another type is an error.  (Go also matches names that differ in
    case only, which no producer of these topics writes.) *)

Definition member (k : string) (l : list (string * json)) : option json :=
  foldl (λ acc p, if bool_decide (p.1 = k) then Some p.2 else acc) None l.

Definition get_string (k : string) (l : list (string * json)) : option string :=
  match member k l with
  | None => Some ""
  | Some (JStr s) => Some s
  | Some _ => None
  end.

Definition get_int32 (k : string) (l : list (string * json)) : option Z :=
  match member k l with
  | None => Some 0
  | Some (JInt z) => if in_int32 z then Some z else None
  | Some _ => None
  end.

(** ** Keys and headers *)

Fixpoint headerValue (headers : list (string * string)) (key : string) : string :=
  match headers with
  | [] => ""
  | (k, v) :: hs => if bool_decide (k = key) then v else headerValue hs key
  end.

(** [strings.IndexByte(key, ':')] and the two parts around it. *)
Fixpoint cut_colon (s : string) : option (string * string) :=
  match s with
  | EmptyString => None
  | String c s' =>
      if Ascii.eqb c ":"%char then Some ("", s')
      else match cut_colon s' with
           | Some (a, b) => Some (String c a, b)
           | None => None
           end
  end.

(** Both parts must be there. *)
Definition splitKey (key : string) : option (string * string) :=
  match cut_colon key with
  | Some (tenant, rest) =>
      if bool_decide (tenant = "") || bool_decide (rest = "") then None else Some (tenant, rest)
  | None => None
  end.

(** ** Lemmas *)

Lemma cut_colon_app a b : no_colon a = true → cut_colon (a +:+ ":" +:+ b) = Some (a, b).
Proof.
  induction a as [|c a IH]; [done|]. cbn [no_colon]. intros [Hc Ha]%andb_prop. apply negb_true_iff in Hc.
  change (String c a +:+ ":" +:+ b) with (String c (a +:+ ":" +:+ b)). cbn [cut_colon].
  by rewrite Hc, (IH Ha).
Qed.

(** The composite key splits back into the tenant and the entity. *)
Lemma splitKey_roundtrip `{UuidTextLaws} t entity :
  entity ≠ "" → splitKey (uuid_string t +:+ ":" +:+ entity) = Some (uuid_string t, entity).
Proof.
  intros Hne. unfold splitKey. rewrite cut_colon_app by apply uuid_string_no_colon.
  by rewrite !bool_decide_false by (done || apply uuid_string_nonempty).
Qed.
