(* ===== verification/Streaming.v ===== *)
(** * The event consumer and the dead letters (pkg/streaming, cmd/dlqreplay)

    A consumer of a topic: bounded retry of the handler, dead-letter envelopes,
    commits; and the tool that replays dead letters.  A partition is a list of
    messages, the consumer group a position in it.  The handler is a function on
    the state [X] of its service; JSON and the texts of errors are the
    libraries', arguments of the model. *)

From S2P Require Import Prelude Database Events.

(** ** Messages and headers *)

(** A kafka.Message: the value is nil or bytes. *)
Record KMessage := mkKMessage {
  km_Topic : string;
  km_Key : string;
  km_Value : option string;
  km_Headers : list (string * string);
  km_Offset : Z;
}.

(** encoding/json on a message value: [None] is a syntax error. *)
Class JsonText := json_parse : string → option json.

(** The message as the handlers of the services decode it. *)
Definition as_message `{JsonText} (m : KMessage) : Message :=
  mkMessage (km_Topic m) (km_Key m) (km_Value m ≫= json_parse) (km_Headers m) (km_Offset m).

(** headerCarrier: the headers as a carrier of the trace context. *)
Definition carrier_Get (h : list (string * string)) (key : string) : string := headerValue h key.

Fixpoint carrier_Set (h : list (string * string)) (key value : string) : list (string * string) :=
  match h with
  | [] => [(key, value)]
  | (k, v) :: h' => if bool_decide (k = key) then (k, value) :: h' else (k, v) :: carrier_Set h' key value
  end.

Definition carrier_Keys (h : list (string * string)) : list string := h.*1.

(** ** The dead-letter envelope *)

Record Envelope := mkEnvelope {
  OriginalTopic : string;
  OriginalKey : string;
  Payload : option string;
  Headers : gmap string string;
  ConsumerGroup : string;
  Error : string;
  Attempts : Z;
  FailedAtUnix : Z;
  StackTrace : string;
}.

Class EnvelopeCodec := {
  env_marshal : Envelope → string;
  env_unmarshal : string → option Envelope;
  valid_utf8 : string → bool;
}.

Definition envelope_clean `{EnvelopeCodec} (e : Envelope) : Prop :=
  valid_utf8 (OriginalTopic e) = true ∧ valid_utf8 (OriginalKey e) = true ∧
  map_Forall (λ k v, valid_utf8 k = true ∧ valid_utf8 v = true) (Headers e) ∧
  valid_utf8 (ConsumerGroup e) = true ∧ valid_utf8 (Error e) = true ∧ valid_utf8 (StackTrace e) = true.

(** Bytes travel as base64, texts as they are if they are UTF-8. *)
Class EnvelopeLaws `{EnvelopeCodec} : Prop :=
  env_roundtrip e : envelope_clean e → env_unmarshal (env_marshal e) = Some e.

Definition ParseEnvelope `{EnvelopeCodec} (b : option string) : res Envelope :=
  match b ≫= env_unmarshal with
  | None => Err (ErrNew "decode dlq envelope")
  | Some e =>
      if bool_decide (OriginalTopic e = "") || bool_decide (Payload e = None)
      then Err (ErrNew "dlq envelope missing original_topic or payload")
      else Ok e
  end.

(** ** The consumer *)

Record Config := mkConfig {
  cg_Topic : string;
  cg_GroupID : string;
  cg_MaxRetries : Z;
  cg_RetryBackoff : Z;
  cg_DLQTopic : string;
  cg_PollTimeout : Z;
}.

Definition millisecond : Z := 1000000.

Definition withDefaults (c : Config) : Config :=
  {| cg_Topic := cg_Topic c; cg_GroupID := cg_GroupID c;
     cg_MaxRetries := if cg_MaxRetries c <=? 0 then 3 else cg_MaxRetries c;
     cg_RetryBackoff := if cg_RetryBackoff c <=? 0 then 200 * millisecond else cg_RetryBackoff c;
     cg_DLQTopic := if bool_decide (cg_DLQTopic c = "") then cg_Topic c +:+ ".dlq" else cg_DLQTopic c;
     cg_PollTimeout := if cg_PollTimeout c <=? 0 then 500 * millisecond else cg_PollTimeout c |}.

(** A consumer: its settings, and whether its reader and the writer to the DLQ are
    open. *)
Record Consumer := mkConsumer { cn_cfg : Config; cn_reader : bool; cn_dlq : bool }.

Definition NewConsumer (cfg : Config) : Consumer := mkConsumer (withDefaults cfg) true true.

(** Close: a reader that fails to close leaves the writer open. *)
Definition Consumer_Close (reader dlq : option go_error) (c : Consumer) : Consumer * option go_error :=
  match reader with
  | Some e => (mkConsumer (cn_cfg c) false (cn_dlq c), Some e)
  | None => (mkConsumer (cn_cfg c) false false, dlq)
  end.

(** A write to a topic: done, refused, or done with the acknowledgement lost. *)
Inductive write_outcome := Written | WriteRefused (e : go_error) | WriteUnacked (e : go_error).

Definition write (o : write_outcome) (m : KMessage) (topic : list KMessage) : list KMessage * option go_error :=
  match o with
  | Written => (topic ++ [m], None)
  | WriteRefused e => (topic, Some e)
  | WriteUnacked e => (topic ++ [m], Some e)
  end.

(** What surrounds the processing of one message. *)
Record ProcEnv := mkProcEnv {
  pe_done : Z → option go_error;      (* ctx.Done wins the wait before that attempt *)
  pe_now : Z;                         (* seconds *)
  pe_stack : string;
  pe_dlq : write_outcome;
}.

(** The map of headers: the last of a key wins. *)
Definition header_map (h : list (string * string)) : gmap string string :=
  foldl (λ m kv, <[kv.1 := kv.2]> m) ∅ h.

(** How the attempts ended. *)
Inductive verdict := Handled | Stopped (e : go_error) | Exhausted (lastErr : option go_error).

Section Consumer.
Context `{EnvelopeCodec} `{ErrorText} {X : Type}.
Implicit Types h : Z → KMessage → X → X * option go_error.

Definition envelope_of (cfg : Config) (env : ProcEnv) (msg : KMessage) (cause : go_error) (attempts : Z) : Envelope :=
  {| OriginalTopic := km_Topic msg; OriginalKey := km_Key msg; Payload := km_Value msg;
     Headers := header_map (km_Headers msg); ConsumerGroup := cg_GroupID cfg; Error := error_text cause;
     Attempts := attempts; FailedAtUnix := pe_now env; StackTrace := pe_stack env |}.

Definition deadLetter (cfg : Config) (env : ProcEnv) (msg : KMessage) (cause : go_error) (attempts : Z)
    (dlq : list KMessage) : list KMessage * option go_error :=
  let m := mkKMessage (cg_DLQTopic cfg) (km_Key msg)
             (Some (env_marshal (envelope_of cfg env msg cause attempts))) [] (Z.of_nat (length dlq)) in
  match write (pe_dlq env) m dlq with
  | (dlq, Some e) => (dlq, Some e)
  | (dlq, None) => (dlq, Some (ErrWrap "dead-lettered" cause))
  end.

(** The loop over the attempts: [n] are left, [attempt] is the next. *)
Fixpoint process_from (env : ProcEnv) h (msg : KMessage) (n : nat) (attempt : Z) (lastErr : option go_error) (x : X)
  : X * verdict :=
  match n with
  | O => (x, Exhausted lastErr)
  | S n' =>
      match (if 0 <? attempt then pe_done env attempt else None) with
      | Some e => (x, Stopped e)
      | None =>
          match h attempt msg x with
          | (x, None) => (x, Handled)
          | (x, Some e) => process_from env h msg n' (attempt + 1) (Some e) x
          end
      end
  end.

Definition max_attempts (cfg : Config) : nat := Z.to_nat (cg_MaxRetries cfg + 1).

Definition process (cfg : Config) (env : ProcEnv) h (msg : KMessage) (x : X) (dlq : list KMessage)
  : X * list KMessage * option go_error :=
  match process_from env h msg (max_attempts cfg) 0 None x with
  | (x, Handled) => (x, dlq, None)
  | (x, Stopped e) => (x, dlq, Some e)
  | (x, Exhausted lastErr) =>
      let '(dlq, e) := deadLetter cfg env msg (default (ErrNew "") lastErr) (cg_MaxRetries cfg + 1) dlq in (x, dlq, e)
  end.

(** *** The group *)

(** The committed offset, the position of the reader, the state behind the
    handler and the DLQ topic; and what became of the messages: the offsets that
    were handled, that were dead-lettered, and that were given up otherwise. *)
Record Group := mkGroup {
  gr_committed : nat;
  gr_next : nat;
  gr_x : X;
  gr_dlq : list KMessage;
  gr_handled : list nat;
  gr_dead : list nat;
  gr_dropped : list nat;
}.

Definition joined (x : X) : Group := mkGroup 0 0 x [] [] [] [].

(** One turn of Run: fetch, process, commit ([commit] tells whether the broker
    took it).  Run commits whatever process says. *)
Definition consume (cfg : Config) (log : list KMessage) (env : ProcEnv) (commit : bool) h (g : Group) : Group :=
  match log !! gr_next g with
  | None => g
  | Some msg =>
      let '(x, dlq, _) := process cfg env h msg (gr_x g) (gr_dlq g) in
      let i := gr_next g in
      let '(handled, dead, dropped) :=
        match (process_from env h msg (max_attempts cfg) 0 None (gr_x g)).2, pe_dlq env with
        | Handled, _ => ([i], [], [])
        | Exhausted _, Written | Exhausted _, WriteUnacked _ => ([], [i], [])
        | _, _ => ([], [], [i])
        end in
      mkGroup (if commit then S i else gr_committed g) (S i) x dlq
        (gr_handled g ++ handled) (gr_dead g ++ dead) (gr_dropped g ++ dropped)
  end.

(** The process dies while it works on a message, after [k] calls of the
    handler and before or after the write to the DLQ; the next one starts at the
    committed offset. *)
Definition crash (cfg : Config) (log : list KMessage) (env : ProcEnv) (k : nat) h (g : Group) : Group :=
  let x := match log !! gr_next g with
           | None => gr_x g
           | Some msg => (process_from env h msg (Nat.min k (max_attempts cfg)) 0 None (gr_x g)).1
           end in
  mkGroup (gr_committed g) (gr_committed g) x (gr_dlq g) (gr_handled g) (gr_dead g) (gr_dropped g).

(** Any history in which the surroundings of every message are [ok]. *)
Inductive group_step (ok : ProcEnv → Prop) (cfg : Config) (log : list KMessage) : Group → Group → Prop :=
| step_consume env commit h g : ok env → group_step ok cfg log g (consume cfg log env commit h g)
| step_crash env k h g : ok env → group_step ok cfg log g (crash cfg log env k h g).

(** *** The replay tool *)

(** The fetches of readAll in turn ([None] is an error); it ends with the
    parent's context or after three errors in a row. *)
Fixpoint readAll (fetches : list (option KMessage)) (idle : nat) : list KMessage :=
  match fetches with
  | [] => []
  | Some m :: fs => m :: readAll fs 0
  | None :: fs => if (3 <=? S idle)%nat then [] else readAll fs (S idle)
  end.

(** [order] is the order in which the map of headers is visited. *)
Definition replay_message (order : list (string * string) → list (string * string)) (e : Envelope) : KMessage :=
  mkKMessage (OriginalTopic e) (OriginalKey e) (Payload e) (order (map_to_list (Headers e))) 0.

(** What is produced, and the counts of replayed and skipped messages, or
    [None] when a write fails and the process exits. *)
Fixpoint replay (order : list (string * string) → list (string * string)) (key : string) (dryRun : bool)
    (writes : nat → write_outcome) (msgs : list KMessage) (out : list KMessage) (replayed skipped : Z)
  : list KMessage * option (Z * Z) :=
  match msgs with
  | [] => (out, Some (replayed, skipped))
  | m :: ms =>
      match ParseEnvelope (km_Value m) with
      | Err _ => replay order key dryRun writes ms out replayed (skipped + 1)
      | Ok e =>
          if negb (bool_decide (key = "")) && negb (bool_decide (OriginalKey e = key))
          then replay order key dryRun writes ms out replayed (skipped + 1)
          else if dryRun then replay order key dryRun writes ms out (replayed + 1) skipped
          else
            match write (writes (length ms)) (replay_message order e) out with
            | (out, Some _) => (out, None)
            | (out, None) => replay order key dryRun writes ms out (replayed + 1) skipped
            end
      end
  end.

(** ** Lemmas *)

(** *** Dead letters *)

(** [m] is the dead letter of [msg]. *)
Definition dead_letter_of (cfg : Config) (msg m : KMessage) : Prop :=
  ∃ env cause n, km_Key m = km_Key msg ∧ km_Value m = Some (env_marshal (envelope_of cfg env msg cause n)).

Lemma dead_letter_written cfg env msg cause n dlq :
  match pe_dlq env with
  | WriteRefused _ => (deadLetter cfg env msg cause n dlq).1 = dlq
  | _ => ∃ m, (deadLetter cfg env msg cause n dlq).1 = dlq ++ [m] ∧ dead_letter_of cfg msg m
  end.
Proof.
  unfold deadLetter, write. destruct (pe_dlq env); [|done|]; (eexists; split; [done|]); by exists env, cause, n.
Qed.

Lemma process_dlq cfg env h msg x dlq :
  dlq `prefix_of` (process cfg env h msg x dlq).1.2 ∧
  ((∃ e, (process_from env h msg (max_attempts cfg) 0 None x).2 = Exhausted e) → (∀ e, pe_dlq env ≠ WriteRefused e) →
   ∃ m, m ∈ (process cfg env h msg x dlq).1.2 ∧ dead_letter_of cfg msg m).
Proof.
  unfold process. destruct (process_from _ _ _ _ _ _ _) as [x' [|e|e]]; cbn [fst snd];
    [split; [done|naive_solver]..|].
  pose proof (dead_letter_written cfg env msg (default (ErrNew "") e) (cg_MaxRetries cfg + 1) dlq) as Hw.
  destruct (deadLetter _ _ _ _ _ _) as [dlq' e']. cbn [fst snd] in *. destruct (pe_dlq env) as [|e0|e0].
  1,3: destruct Hw as (m & -> & Hm); split; [by eexists|]; intros _ _; exists m; split; [|done];
    apply elem_of_app; right; apply list_elem_of_singleton; done.
  subst dlq'. split; [done|]. intros _ Hne. by destruct (Hne e0).
Qed.

End Consumer.

(** *** Attempts *)

(** The handler with a count of its calls. *)
Definition counted {X} (h : Z → KMessage → X → X * option go_error) : Z → KMessage → X * Z → (X * Z) * option go_error := λ a m xn,
  let '(x, e) := h a m xn.1 in ((x, xn.2 + 1), e).

Lemma process_from_counted {X} env (h : Z → KMessage → X → X * option go_error) msg n : ∀ attempt lastErr x c,
  let r := process_from env (counted h) msg n attempt lastErr (x, c) in
  (r.1.1, r.2) = process_from env h msg n attempt lastErr x ∧
  c <= r.1.2 <= c + Z.of_nat n ∧
  (∀ e, r.2 = Exhausted e → r.1.2 = c + Z.of_nat n) ∧ (r.2 = Handled → c < r.1.2).
Proof.
  induction n as [|n IH]; intros attempt lastErr x c; cbn [process_from].
  { cbn. split; [done|]. split; [lia|]. split; [intros; lia|done]. }
  destruct (if 0 <? attempt then pe_done env attempt else None) as [e|]; [cbn; split; [done|]; split; [lia|done]|].
  change (counted h attempt msg (x, c)) with (let '(x', e) := h attempt msg x in ((x', c + 1), e)).
  destruct (h attempt msg x) as [x' [e|]] eqn:Hh.
  - destruct (IH (attempt + 1) (Some e) x' (c + 1)) as (I1 & I2 & I3 & I4). cbn zeta in *.
    split; [done|]. split; [lia|]. split; [intros e' He; rewrite (I3 e' He); lia|intros He; specialize (I4 He); lia].
  - cbn. split; [done|]. split; [lia|]. split; [done|lia].
Qed.


Section Theorems.
Context `{EnvelopeCodec} `{ErrorText} {X : Type}.
Implicit Types h : Z → KMessage → X → X * option go_error.

(** *** Groups *)

(** What became of the message at offset [i]. *)
Definition accounted (cfg : Config) (i : nat) (msg : KMessage) (g : Group (X := X)) : Prop :=
  i ∈ gr_handled g ∨ (∃ m, m ∈ gr_dlq g ∧ dead_letter_of cfg msg m) ∨ i ∈ gr_dropped g.

(** Writes to the DLQ arrive, and no shutdown falls into a wait. *)
Definition reliable (env : ProcEnv) : Prop :=
  (∀ a, pe_done env a = None) ∧ ∀ e, pe_dlq env ≠ WriteRefused e.

Record group_ok (ok : ProcEnv → Prop) (cfg : Config) (log : list KMessage) (g : Group (X := X)) : Prop := {
  go_order : (gr_committed g <= gr_next g)%nat;
  go_accounted i msg : (i < gr_next g)%nat → log !! i = Some msg → accounted cfg i msg g;
  go_dropped : (∀ env, ok env → reliable env) → gr_dropped g = [];
}.

Lemma reliable_not_stopped env h msg n : reliable env → ∀ attempt lastErr x e,
  (process_from env h msg n attempt lastErr x).2 ≠ Stopped e.
Proof.
  intros [Hdone _]. induction n as [|n IH]; intros attempt lastErr x e; cbn [process_from]; [done|].
  assert ((if 0 <? attempt then pe_done env attempt else None) = None) as -> by (by case_match).
  destruct (h attempt msg x) as [x' [e'|]]; [apply IH|done].
Qed.

Lemma consume_ok ok cfg log env commit h g :
  ok env → group_ok ok cfg log g → group_ok ok cfg log (consume cfg log env commit h g).
Proof.
  intros Henv [Hord Hacc Hdrop]. unfold consume. destruct (log !! gr_next g) as [msg|] eqn:Hmsg; [|done].
  pose proof (process_dlq cfg env h msg (gr_x g) (gr_dlq g)) as [Hpre Hdead].
  destruct (process cfg env h msg (gr_x g) (gr_dlq g)) as [[x dlq] err]. cbn [fst snd] in *.
  destruct (process_from env h msg (max_attempts cfg) 0 None (gr_x g)) as [x1 v] eqn:Hv. cbn [snd] in *.
  destruct (match v, pe_dlq env with
            | Handled, _ => ([gr_next g], [], [])
            | Exhausted _, Written | Exhausted _, WriteUnacked _ => ([], [gr_next g], [])
            | _, _ => ([], [], [gr_next g])
            end) as [[ha de] dr] eqn:Hf.
  split; cbn.
  - destruct commit; lia.
  - intros i msg' Hi Hmsg'. destruct (decide (i = gr_next g)) as [->|Hne].
    + rewrite Hmsg in Hmsg'. injection Hmsg' as <-. unfold accounted. cbn. rewrite !elem_of_app.
      destruct v as [|e|e]; [| |destruct (pe_dlq env) as [|e0|e0]]; injection Hf as <- <- <-; try set_solver;
        right; left; apply Hdead; (by eexists) || done.
    + destruct (Hacc i msg') as [Hin|[(m & Hm & Hd)|Hin]]; [lia|done| | |]; unfold accounted; cbn;
        rewrite !elem_of_app; [by auto| |by auto]. right. left. exists m. split; [|done].
      by eapply elem_of_prefix.
  - intros Hrel. rewrite (Hdrop Hrel). cbn. specialize (Hrel env Henv).
    pose proof (reliable_not_stopped env h msg (max_attempts cfg) Hrel 0 None (gr_x g)) as Hns. rewrite Hv in Hns.
    destruct Hrel as [_ Hw]. destruct v as [|e|e]; [by injection Hf|by destruct (Hns e)|].
    destruct (pe_dlq env) as [|e0|e0]; [by injection Hf|by destruct (Hw e0)|by injection Hf].
Qed.

Lemma group_step_ok ok cfg log g g' : group_step ok cfg log g g' → group_ok ok cfg log g → group_ok ok cfg log g'.
Proof.
  intros [env commit h g0 Henv|env k h g0 Henv] Hg; [by apply consume_ok|].
  destruct Hg as [Hord Hacc Hdrop]. split; cbn; [done| |done]. intros i msg Hi Hmsg. apply (Hacc i msg); [lia|done].
Qed.

Lemma group_steps_ok ok cfg log g g' :
  rtc (group_step ok cfg log) g g' → group_ok ok cfg log g → group_ok ok cfg log g'.
Proof. induction 1; eauto using group_step_ok. Qed.

(** *** Headers *)

Lemma header_map_app hs k v : header_map (hs ++ [(k, v)]) = <[k := v]> (header_map hs).
Proof. unfold header_map. by rewrite foldl_app. Qed.

Lemma header_map_lookup hs k v : NoDup hs.*1 → header_map hs !! k = Some v ↔ (k, v) ∈ hs.
Proof.
  induction hs as [|[k' v'] hs IH] using rev_ind; intros Hnd.
  { unfold header_map. cbn. rewrite lookup_empty, elem_of_nil. naive_solver. }
  rewrite fmap_app in Hnd. apply NoDup_app in Hnd as (Hnd & Hnew & _). specialize (IH Hnd).
  rewrite header_map_app, elem_of_app, list_elem_of_singleton. destruct (decide (k' = k)) as [->|Hne].
  - rewrite lookup_insert_eq. split; [intros [= ->]; by auto|].
    intros [Hin|[= ->]]; [|done]. exfalso. apply (Hnew k); [|apply list_elem_of_here].
    by apply (list_elem_of_fmap_2 fst _ (k, v)).
  - rewrite lookup_insert_ne by done. rewrite IH. naive_solver.
Qed.

Lemma headerValue_elem hs k v : NoDup hs.*1 → (k, v) ∈ hs → headerValue hs k = v.
Proof.
  induction hs as [|[k' v'] hs IH]; intros Hnd Hin; [by apply elem_of_nil in Hin|].
  rewrite fmap_cons in Hnd. apply NoDup_cons in Hnd as [Hnew Hnd]. cbn [headerValue].
  apply elem_of_cons in Hin as [[= -> ->]|Hin]; [by rewrite bool_decide_true|].
  rewrite bool_decide_false; [by auto|]. intros ->. apply Hnew. by apply (list_elem_of_fmap_2 fst _ (k, v)).
Qed.

Lemma headerValue_absent hs k : k ∉ hs.*1 → headerValue hs k = "".
Proof.
  induction hs as [|[k' v'] hs IH]; intros Hk; [done|]. rewrite fmap_cons, not_elem_of_cons in Hk. cbn [headerValue].
  rewrite bool_decide_false by (intros ->; naive_solver). naive_solver.
Qed.

(** Headers with the same map read the same. *)
Lemma headerValue_same hs hs' k :
  NoDup hs.*1 → NoDup hs'.*1 → (∀ p, p ∈ hs ↔ p ∈ hs') → headerValue hs k = headerValue hs' k.
Proof.
  intros Hnd Hnd' Hsame. destruct (decide (k ∈ hs.*1)) as [Hk|Hk].
  - apply list_elem_of_fmap in Hk as ([k0 v] & -> & Hin). cbn [fst]. rewrite (headerValue_elem hs k0 v) by done.
    symmetry. apply headerValue_elem; [done|]. by apply Hsame.
  - rewrite !headerValue_absent; [done| |done]. intros (p & -> & Hp)%list_elem_of_fmap. apply Hk.
    apply list_elem_of_fmap. exists p. split; [done|]. by apply Hsame.
Qed.

Lemma replayed_headers order hs k :
  (∀ l, order l ≡ₚ l) → NoDup hs.*1 → headerValue (order (map_to_list (header_map hs))) k = headerValue hs k.
Proof.
  intros Hord Hnd. apply headerValue_same; [|done|].
  - rewrite Hord. apply NoDup_fst_map_to_list.
  - intros [k' v']. rewrite Hord, elem_of_map_to_list. by apply header_map_lookup.
Qed.

(** ** Theorems *)


End Theorems.
