(* ===== verification/Telemetry.v ===== *)
(** * Traces and metrics (pkg/observability/observability.go)

    The traceparent of a span context, from the outbox to the consumer, and the
    RED metrics around the calls of a server or client.  The W3C propagator is
    OpenTelemetry's: an argument, with the format of the W3C recommendation as
    its law. *)

From S2P Require Import Prelude GoStrings Database StockDb StockApi StockService StockEffects StockRefine StockSteps.
From S2P Require Import CircuitBreaker Events Streaming.

(** ** Trace context *)

(** Trace id of 16 bytes, span id of 8, the sampled flag. *)
Record SpanContext := mkSpanContext { TraceID : Z; SpanID : Z; IsSampled : bool }.

Definition in_range (sc : SpanContext) : Prop := 0 <= TraceID sc < 16 ^ 32 ∧ 0 <= SpanID sc < 16 ^ 16.

#[export] Instance in_range_dec sc : Decision (in_range sc).
Proof. unfold in_range. apply _. Defined.

Definition IsValid (sc : SpanContext) : bool := negb (TraceID sc =? 0) && negb (SpanID sc =? 0).

Definition nibble (z : Z) : ascii := Ascii.ascii_of_nat (Z.to_nat (if z <? 10 then 48 + z else 87 + z)).

(** The last [k] hexadecimal digits of [z]. *)
Fixpoint hex (k : nat) (z : Z) : string :=
  match k with
  | O => ""
  | S k => hex k (z / 16) +:+ String (nibble (z mod 16)) ""
  end.

Definition Traceparent (sc : SpanContext) : string :=
  if negb (IsValid sc) then ""
  else "00-" +:+ hex 32 (TraceID sc) +:+ "-" +:+ hex 16 (SpanID sc) +:+ "-" +:+ (if IsSampled sc then "01" else "00").

(** The value of hexadecimal digits, as the recommendation reads them. *)
Definition nibble_value (c : ascii) : option Z :=
  let n := Z.of_nat (Ascii.nat_of_ascii c) in
  if (48 <=? n) && (n <=? 57) then Some (n - 48)
  else if (97 <=? n) && (n <=? 102) then Some (n - 87) else None.

Fixpoint hex_value (s : string) (acc : Z) : option Z :=
  match s with
  | EmptyString => Some acc
  | String c s' => match nibble_value c with Some d => hex_value s' (acc * 16 + d) | None => None end
  end.

(** propagation.TraceContext's Extract, from the value of the header. *)
Class W3C := extract : string → option SpanContext.

Class W3CLaws `{W3C} : Prop := {
  extract_none : extract "" = None;
  extract_format t s (sampled : bool) tv sv :
    String.length t = 32%nat → String.length s = 16%nat →
    hex_value t 0 = Some tv → hex_value s 0 = Some sv → tv ≠ 0 → sv ≠ 0 →
    extract ("00-" +:+ t +:+ "-" +:+ s +:+ "-" +:+ (if sampled then "01" else "00")) =
    Some (mkSpanContext tv sv sampled);
}.

(** pkg/streaming/trace.go *)
Definition TraceContextFromMessage `{W3C} (headers : list (string * string)) : option SpanContext :=
  extract (carrier_Get headers "traceparent").

(** ** Metrics *)

(** Histogram observations in order, counters, gauges. *)
Record Metrics := mkMetrics {
  reqDuration : gmap (string * Z) (list Z);
  reqErrors : gmap (string * Z) Z;
  inFlight : gmap string Z;
  breakerState : gmap string Z;
}.

Definition NewMetrics : Metrics := mkMetrics ∅ ∅ ∅ ∅.

(** The codes as the numbers gRPC gives them. *)
Definition code_number (c : code) : Z :=
  match c with
  | OK => 0 | Canceled => 1 | Unknown => 2 | InvalidArgument => 3 | DeadlineExceeded => 4 | NotFound => 5
  | AlreadyExists => 6 | PermissionDenied => 7 | ResourceExhausted => 8 | FailedPrecondition => 9 | Aborted => 10
  | OutOfRange => 11 | Unimplemented => 12 | Internal => 13 | Unavailable => 14 | DataLoss => 15 | Unauthenticated => 16
  end.

(** [status.Code(err)], OK for nil. *)
Definition code_of (err : option go_error) : code := match err with Some e => status_Code e | None => OK end.

Definition ObserveRPC (method : string) (elapsed : Z) (err : option go_error) (m : Metrics) : Metrics :=
  let k := (method, code_number (code_of err)) in
  mkMetrics (<[k := default [] (reqDuration m !! k) ++ [elapsed]]> (reqDuration m))
    (match err with Some _ => <[k := default 0 (reqErrors m !! k) + 1]> (reqErrors m) | None => reqErrors m end)
    (inFlight m) (breakerState m).

Definition add_in_flight (method : string) (n : Z) (m : Metrics) : Metrics :=
  mkMetrics (reqDuration m) (reqErrors m) (<[method := default 0 (inFlight m !! method) + n]> (inFlight m)) (breakerState m).

(** Breaker.State *)
Definition State (b : Breaker) : string :=
  match state b with Closed => "closed" | Open => "open" | HalfOpen => "half-open" end.

Definition SetBreakerState (dependency st : string) (m : Metrics) : Metrics :=
  let v := if bool_decide (st = "half-open") then 1 else if bool_decide (st = "open") then 2 else 0 in
  mkMetrics (reqDuration m) (reqErrors m) (inFlight m) (<[dependency := v]> (breakerState m)).

(** Core.publishBreaker of the gateway *)
Definition publishBreaker (dep : string) (br : Breaker) (m : Metrics) : Metrics :=
  if bool_decide (dep = "") then m else SetBreakerState dep (State br) m.

Definition RPCName (fullMethod : string) : string := TrimPrefix fullMethod "/".

(** ** Around a call *)

(** The two halves of both interceptors, before and after the call. *)
Definition rpc_begin (fullMethod : string) (m : Metrics) : Metrics := add_in_flight (RPCName fullMethod) 1 m.

Definition rpc_end (fullMethod : string) (elapsed : Z) (err : option go_error) (m : Metrics) : Metrics :=
  ObserveRPC (RPCName fullMethod) elapsed err (add_in_flight (RPCName fullMethod) (-1) m).

(** Histories: the halves of concurrent calls interleave. *)
Inductive rpc_event := RpcBegin (fullMethod : string) | RpcEnd (fullMethod : string) (elapsed : Z) (err : option go_error).

Definition rpc_event_run (m : Metrics) (e : rpc_event) : Metrics :=
  match e with RpcBegin f => rpc_begin f m | RpcEnd f t err => rpc_end f t err m end.

Definition begins (name : string) (es : list rpc_event) : Z :=
  zsum (λ e, match e with RpcBegin f => if bool_decide (RPCName f = name) then 1 else 0 | _ => 0 end) es.

(** The durations of the calls that ended with a code, in order. *)
Definition ends (name : string) (c : Z) (es : list rpc_event) : list (Z * option go_error) :=
  omap (λ e, match e with
             | RpcEnd f t err => if bool_decide (RPCName f = name ∧ code_number (code_of err) = c) then Some (t, err) else None
             | _ => None
             end) es.

Definition finished (name : string) (es : list rpc_event) : Z :=
  zsum (λ e, match e with RpcEnd f _ _ => if bool_decide (RPCName f = name) then 1 else 0 | _ => 0 end) es.

(** ** Lemmas *)

(** *** Hexadecimal *)

Lemma length_append (a b : string) : String.length (a +:+ b) = (String.length a + String.length b)%nat.
Proof. induction a as [|c a IH]; [done|]. change (String c a +:+ b) with (String c (a +:+ b)). cbn. by rewrite IH. Qed.

Lemma hex_length k : ∀ z, String.length (hex k z) = k.
Proof. induction k as [|k IH]; intros z; [done|]. cbn [hex]. rewrite length_append, IH. cbn. lia. Qed.

Lemma hex_value_app a b : ∀ acc, hex_value (a +:+ b) acc = hex_value a acc ≫= hex_value b.
Proof.
  induction a as [|c a IH]; intros acc; [done|]. change (String c a +:+ b) with (String c (a +:+ b)).
  cbn [hex_value]. destruct (nibble_value c); [apply IH|done].
Qed.

Lemma nibble_value_nibble d : 0 <= d < 16 → nibble_value (nibble d) = Some d.
Proof.
  intros Hd. assert (d ∈ seqZ 0 16) as Hin by (apply elem_of_seqZ; lia).
  assert (Forall (λ d, nibble_value (nibble d) = Some d) (seqZ 0 16)) as Hall.
  { repeat constructor. }
  by apply (proj1 (Forall_forall _ _) Hall).
Qed.

Lemma hex_value_hex k : ∀ z acc, 0 <= z < 16 ^ Z.of_nat k → hex_value (hex k z) acc = Some (acc * 16 ^ Z.of_nat k + z).
Proof.
  induction k as [|k IH]; intros z acc Hz; [cbn in *; f_equal; lia|].
  rewrite Nat2Z.inj_succ, Z.pow_succ_r in * by lia. cbn [hex]. rewrite hex_value_app, IH.
  - cbn [mbind option_bind hex_value]. rewrite nibble_value_nibble by (apply Z.mod_pos_bound; lia). f_equal.
    pose proof (Z.div_mod z 16). lia.
  - split; [apply Z.div_pos; lia|]. apply Z.div_lt_upper_bound; lia.
Qed.

(** *** Metrics *)

(** Reading an entry of a map with a default after it was changed. *)
Lemma default_insert {K A} `{Countable K} (m : gmap K A) (k k' : K) (d v : A) :
  default d (<[k := v]> m !! k') = if bool_decide (k = k') then v else default d (m !! k').
Proof.
  destruct (decide (k = k')) as [->|Hne]; [by rewrite lookup_insert_eq, bool_decide_true|].
  by rewrite lookup_insert_ne, bool_decide_false.
Qed.

Lemma in_flight_history es name :
  default 0 (inFlight (foldl rpc_event_run NewMetrics es) !! name) = begins name es - finished name es.
Proof.
  unfold begins, finished. induction es as [|e es IH] using rev_ind; [done|].
  rewrite foldl_app, !zsum_app. cbn [foldl zsum].
  destruct e as [f|f t err]; cbn [rpc_event_run]; unfold rpc_begin, rpc_end, ObserveRPC, add_in_flight; cbn [inFlight];
    rewrite default_insert; destruct (decide (RPCName f = name)) as [->|Hf];
    rewrite ?bool_decide_true by done; rewrite ?bool_decide_false by done; lia.
Qed.

(** One more call that has ended. *)
Lemma ends_snoc name c es e :
  ends name c (es ++ [e]) = ends name c es ++
    match e with
    | RpcEnd f t err => if bool_decide ((RPCName f, code_number (code_of err)) = (name, c)) then [(t, err)] else []
    | _ => []
    end.
Proof.
  unfold ends. rewrite omap_app. f_equal. destruct e as [f|f t err]; [done|]. cbn [omap list_omap].
  destruct (decide (RPCName f = name ∧ code_number (code_of err) = c)) as [Heq|Hne].
  - rewrite (bool_decide_true _ Heq), bool_decide_true by (destruct Heq; congruence). done.
  - rewrite (bool_decide_false _ Hne), bool_decide_false by (intros Heq; apply Hne; by simplify_eq). done.
Qed.

Lemma ended_history es name c :
  let m := foldl rpc_event_run NewMetrics es in
  default [] (reqDuration m !! (name, c)) = (ends name c es).*1 ∧
  default 0 (reqErrors m !! (name, c)) = Z.of_nat (length (filter (λ te, is_Some te.2) (ends name c es))).
Proof.
  cbn zeta. induction es as [|e es [I1 I2]] using rev_ind; [done|]. rewrite foldl_app, ends_snoc. cbn [foldl].
  destruct e as [f|f t err]; cbn [rpc_event_run]; [by rewrite app_nil_r|].
  unfold rpc_end, ObserveRPC, add_in_flight. cbn [reqDuration reqErrors]. rewrite default_insert, filter_app, fmap_app, length_app.
  destruct (decide ((RPCName f, code_number (code_of err)) = (name, c))) as [He|He].
  - rewrite (bool_decide_true _ He), He, I1. split; [done|].
    destruct err as [e|]; [rewrite default_insert, bool_decide_true by done|]; rewrite I2.
    + rewrite filter_cons_True by done. cbn. lia.
    + rewrite filter_cons_False by (by intros []). cbn. lia.
  - rewrite (bool_decide_false _ He), I1, app_nil_r. split; [done|].
    destruct err as [e|]; [rewrite default_insert, (bool_decide_false _ He)|]; rewrite I2; cbn; lia.
Qed.

(** *** From the row to the consumer *)

Lemma routed_trace `{UuidText} `{W3CLaws} sc ctx topic offset r :
  in_range sc → ctx_traceparent ctx = Traceparent sc → ob_Traceparent (ob r) = TraceparentText ctx →
  TraceContextFromMessage (mg_Headers (routed topic offset r)) = if IsValid sc then Some sc else None.
Proof.
  intros [Ht Hs] Hctx Hr. unfold TraceContextFromMessage.
  assert (carrier_Get (mg_Headers (routed topic offset r)) "traceparent" = Traceparent sc) as ->.
  { change (default "" (ob_Traceparent (ob r)) = Traceparent sc). rewrite Hr. unfold TraceparentText. rewrite Hctx.
    destruct (decide (Traceparent sc = "")) as [He|He]; [by rewrite bool_decide_true|by rewrite bool_decide_false]. }
  unfold Traceparent. destruct (IsValid sc) eqn:Hv; [|apply extract_none].
  apply andb_prop in Hv as [Hvt Hvs]. bprop. cbn [negb].
  rewrite (extract_format _ _ _ (TraceID sc) (SpanID sc)); [by destruct sc|apply hex_length|apply hex_length| | |done|done].
  - by rewrite hex_value_hex by done.
  - by rewrite hex_value_hex by done.
Qed.

(** ** Theorems *)

(** A trace survives the outbox: of the rows that any request of the stock
    service adds to it in the span context [sc], whatever happens to the
    transaction, each gives the consumer of its routed message back exactly [sc],
    trace id, span id and sampling flag, and no trace if there was no valid
    span. *)
Theorem trace_survives `{UuidText} `{StockHashes} `{W3CLaws} sc env ctx c d p :
  stock_wf d → call_ok c = true → in_range sc → ctx_traceparent ctx = Traceparent sc →
  p ∈ drop (length (stock_outbox d)) (ob <$> stock_outbox (deliver env ctx c d)) →
  ∀ topic offset r, ob r = p →
    TraceContextFromMessage (mg_Headers (routed topic offset r)) = if IsValid sc then Some sc else None.
Proof.
  intros Hd Hc Hsc Hctx Hp topic offset r Hr. apply (routed_trace sc ctx); [done|done|]. rewrite Hr.
  destruct (deliver_cases env ctx c d Hd Hc) as [He|(t & _ & _ & Hw)].
  - rewrite He, drop_ge in Hp by (by rewrite length_fmap). by apply elem_of_nil in Hp.
  - destruct (tw_outbox _ _ _ _ _ _ Hw) as (new & Ho & Hnew). rewrite Ho, drop_app_length' in Hp by by rewrite length_fmap.
    by apply (proj1 (Forall_forall _ _) Hnew p).
Qed.

(** The RED metrics of a service, over any interleaving of the beginnings and
    ends of its calls: the in-flight gauge of a method is the number of calls
    begun less the number ended, the histogram of a method and code has exactly
    the durations of the calls that ended with it, in order, and the error
    counter the number of those that failed. *)
Theorem red_metrics es name c :
  let m := foldl rpc_event_run NewMetrics es in
  default 0 (inFlight m !! name) = begins name es - finished name es ∧
  default [] (reqDuration m !! (name, c)) = (ends name c es).*1 ∧
  default 0 (reqErrors m !! (name, c)) = Z.of_nat (length (filter (λ te, is_Some te.2) (ends name c es))).
Proof. intros m. split; [apply in_flight_history|]. apply ended_history. Qed.
