(* ===== verification/Logging.v ===== *)
(** * Structured logging (pkg/observability/logging.go)

    The handler that appends the trace id, the service's logger and the
    redirection of the standard logger, over the part of log/slog they use: the
    Handler interface, the JSON handler and Logger. *)

From S2P Require Import Prelude GoStrings Database Streaming Telemetry.

(** ** log/slog *)

Inductive Level := LevelDebug | LevelInfo | LevelWarn | LevelError.

Definition level_number (l : Level) : Z :=
  match l with LevelDebug => -4 | LevelInfo => 0 | LevelWarn => 4 | LevelError => 8 end.

Definition level_text (l : Level) : string :=
  match l with LevelDebug => "DEBUG" | LevelInfo => "INFO" | LevelWarn => "WARN" | LevelError => "ERROR" end.

Definition Attr : Type := string * json.

(** A record; the time is rendered text. *)
Record LogRecord := mkLogRecord { lr_Time : string; lr_Level : Level; lr_Message : string; lr_Attrs : list Attr }.

(** Record.AddAttrs *)
Definition AddAttrs (attrs : list Attr) (r : LogRecord) : LogRecord :=
  mkLogRecord (lr_Time r) (lr_Level r) (lr_Message r) (lr_Attrs r ++ attrs).

(** slog.Handler; what Handle writes is one line, in the span context that
    travels in the context, if any. *)
Class Handler (H : Type) := {
  Enabled : H → Level → bool;
  Handle : H → option SpanContext → LogRecord → json;
  WithAttrs : list Attr → H → H;
  WithGroup : string → H → H;
}.

(** The JSON handler: the attributes and groups it was given, outermost first. *)
Inductive group_or_attrs := OpenGroup (name : string) | GivenAttrs (attrs : list Attr).

Record JSONHandler := mkJSONHandler { jh_Level : Level; jh_goas : list group_or_attrs }.

(** A group without fields is left out. *)
Fixpoint nest (gs : list group_or_attrs) (attrs : list Attr) : list Attr :=
  match gs with
  | [] => attrs
  | GivenAttrs given :: gs' => given ++ nest gs' attrs
  | OpenGroup name :: gs' => match nest gs' attrs with [] => [] | fields => [(name, JObj fields)] end
  end.

#[export] Instance json_handler : Handler JSONHandler := {|
  Enabled h l := level_number (jh_Level h) <=? level_number l;
  Handle h _ r :=
    JObj ([("time", JStr (lr_Time r)); ("level", JStr (level_text (lr_Level r))); ("msg", JStr (lr_Message r))] ++
          nest (jh_goas h) (lr_Attrs r));
  WithAttrs attrs h := match attrs with [] => h | _ => mkJSONHandler (jh_Level h) (jh_goas h ++ [GivenAttrs attrs]) end;
  WithGroup name h := if bool_decide (name = "") then h else mkJSONHandler (jh_Level h) (jh_goas h ++ [OpenGroup name]);
|}.

(** slog.Logger: [now] is the time of the record. *)
Record Logger (H : Type) := mkLogger { lg_Handler : H }.
Arguments mkLogger {H}.
Arguments lg_Handler {H}.

Section Logger.
Context {H : Type} `{!Handler H}.

Definition logger_log (now : string) (ctx : option SpanContext) (l : Level) (msg : string) (args : list Attr)
    (lg : Logger H) : option json :=
  if Enabled (lg_Handler lg) l then Some (Handle (lg_Handler lg) ctx (mkLogRecord now l msg args)) else None.

(** Info logs in context.Background. *)
Definition Info (now msg : string) (lg : Logger H) : option json := logger_log now None LevelInfo msg [] lg.

Definition InfoContext (now : string) (ctx : option SpanContext) (msg : string) (args : list Attr) (lg : Logger H)
  : option json := logger_log now ctx LevelInfo msg args lg.

Definition With (args : list Attr) (lg : Logger H) : Logger H :=
  match args with [] => lg | _ => mkLogger (WithAttrs args (lg_Handler lg)) end.

End Logger.

(** ** traceHandler *)

Definition traceIDKey : string := "trace_id".

Record traceHandler (H : Type) := mkTraceHandler { inner : H }.
Arguments mkTraceHandler {H}.
Arguments inner {H}.

Section TraceHandler.
Context {H : Type} `{!Handler H}.

Definition traceHandler_Enabled (h : traceHandler H) (l : Level) : bool := Enabled (inner h) l.

Definition traceHandler_Handle (h : traceHandler H) (ctx : option SpanContext) (r : LogRecord) : json :=
  Handle (inner h) ctx
    (match ctx with
     | Some sc => if IsValid sc then AddAttrs [(traceIDKey, JStr (hex 32 (TraceID sc)))] r else r
     | None => r
     end).

Definition traceHandler_WithAttrs (attrs : list Attr) (h : traceHandler H) : traceHandler H :=
  mkTraceHandler (WithAttrs attrs (inner h)).

Definition traceHandler_WithGroup (name : string) (h : traceHandler H) : traceHandler H :=
  mkTraceHandler (WithGroup name (inner h)).

#[export] Instance trace_handler : Handler (traceHandler H) := {|
  Enabled := traceHandler_Enabled;
  Handle := traceHandler_Handle;
  WithAttrs := traceHandler_WithAttrs;
  WithGroup := traceHandler_WithGroup;
|}.

End TraceHandler.

Definition NewLogger (service : string) : Logger (traceHandler JSONHandler) :=
  With [("service", JStr service)] (mkLogger (mkTraceHandler (mkJSONHandler LevelInfo []))).

(** ** The standard logger *)

Inductive log_line := PlainLine (s : string) | JsonLine (j : json).

(** Where package log writes: stderr, or a slogWriter. *)
Inductive log_writer := Stderr | slogWriter (logger : Logger (traceHandler JSONHandler)).

(** [None]: the default logger Go starts with. *)
Record LogState := mkLogState {
  slog_default : option (Logger (traceHandler JSONHandler));
  log_output : log_writer;
  log_flags : Z;
}.

(** Go starts with LstdFlags. *)
Definition log_start : LogState := mkLogState None Stderr 3.

Definition LoggerFrom (logger : option (Logger (traceHandler JSONHandler))) (st : LogState)
  : option (Logger (traceHandler JSONHandler)) :=
  match logger with None => slog_default st | Some l => Some l end.

Definition SetDefaultLogger (service : string) (st : LogState) : LogState :=
  let logger := NewLogger service in mkLogState (Some logger) (slogWriter logger) 0.

(** slogWriter.Write: what is logged, and the bytes it claims to have written. *)
Definition slogWriter_Write (now : string) (logger : Logger (traceHandler JSONHandler)) (p : string)
  : option json * nat := (Info now (TrimSuffix p newline) logger, String.length p).

Definition log_write (now : string) (w : log_writer) (p : string) : option log_line :=
  match w with
  | Stderr => Some (PlainLine p)
  | slogWriter logger => JsonLine <$> (slogWriter_Write now logger p).1
  end.

(** log.Printf of a formatted text: the header the flags ask for, and a newline
    if the text has none at its end. *)
Definition log_Printf (now header text : string) (st : LogState) : option log_line :=
  let line := (if log_flags st =? 0 then "" else header) +:+ text in
  log_write now (log_output st) (if HasSuffix line newline then line else line +:+ newline).

(** ** Specification *)

(** The values a line has under a name, at its top. *)
Definition fields_named (k : string) (line : json) : list json :=
  match line with JObj l => (filter (λ kv, kv.1 = k) l).*2 | _ => [] end.

(** The names the handler itself writes. *)
Definition reserved_names : list string := ["time"; "level"; "msg"; "service"; traceIDKey].

(** ** Lemmas *)

Lemma nest_attrs given attrs : nest (GivenAttrs <$> given) attrs = concat given ++ attrs.
Proof. induction given as [|g given IH]; [done|]. cbn. rewrite <- app_assoc. f_equal. exact IH. Qed.

Lemma fields_none k (l : list Attr) : k ∉ l.*1 → (filter (λ kv : Attr, kv.1 = k) l).*2 = [].
Proof.
  intros Hk. induction l as [|[k' v] l IH]; [done|]. cbn in Hk. apply not_elem_of_cons in Hk as [Hne Hk].
  rewrite filter_cons_False by (cbn; congruence). by apply IH.
Qed.

(** The line of the service's logger, with attributes of its own. *)
Definition service_logger (service : string) (withs : list (list Attr)) : Logger (traceHandler JSONHandler) :=
  foldl (λ lg args, With args lg) (NewLogger service) withs.

Lemma service_logger_handler service withs :
  ∃ given, concat given = concat withs ∧
    service_logger service withs =
    mkLogger (mkTraceHandler (mkJSONHandler LevelInfo (GivenAttrs <$> [("service", JStr service)] :: given))).
Proof.
  unfold service_logger. induction withs as [|w withs (given & Hc & IH)] using rev_ind; [by exists []|].
  rewrite foldl_app. cbn [foldl]. rewrite IH, concat_app, <- Hc. destruct w as [|a w].
  - exists given. split; [by rewrite app_nil_r|done].
  - exists (given ++ [a :: w]). split; [by rewrite concat_app|]. cbn. by rewrite fmap_app.
Qed.

Lemma service_line service withs now ctx msg args :
  InfoContext now ctx msg args (service_logger service withs) =
  Some (JObj ([("time", JStr now); ("level", JStr "INFO"); ("msg", JStr msg); ("service", JStr service)] ++
              concat withs ++ args ++
              match ctx with
              | Some sc => if IsValid sc then [(traceIDKey, JStr (hex 32 (TraceID sc)))] else []
              | None => []
              end)).
Proof.
  destruct (service_logger_handler service withs) as (given & Hc & ->). unfold InfoContext, logger_log.
  cbn [lg_Handler Enabled trace_handler json_handler]. unfold traceHandler_Enabled.
  cbn [Enabled json_handler inner jh_Level level_number Z.leb Z.compare Handle trace_handler]. unfold traceHandler_Handle.
  cbn [Handle json_handler inner jh_goas]. do 2 f_equal.
  assert (∀ attrs, nest (GivenAttrs <$> [("service", JStr service)] :: given) attrs =
            [("service", JStr service)] ++ concat withs ++ attrs) as Hn.
  { intros attrs. rewrite nest_attrs, <- Hc. done. }
  rewrite Hn. destruct ctx as [sc|]; [destruct (IsValid sc)|]; cbn [AddAttrs lr_Time lr_Level lr_Message lr_Attrs level_text];
    by rewrite ?app_nil_r.
Qed.

(** ** Theorem *)

(** What the lines of a process say after SetDefaultLogger: a line written in a
    span context has the service's name and exactly that context's trace id,
    whatever attributes the logger and the call bring (but these names), and no
    trace id without a valid span; and log.Printf gives one line whose message is
    the text less one newline at its end, with the service's name, and never a
    trace id, whatever span the caller is in. *)
Theorem log_lines service withs now ctx msg args header text st :
  (∀ k, k ∈ (concat withs ++ args).*1 → k ∉ reserved_names) →
  (∃ line, InfoContext now ctx msg args (service_logger service withs) = Some line ∧
     fields_named "msg" line = [JStr msg] ∧ fields_named "service" line = [JStr service] ∧
     fields_named traceIDKey line =
       match ctx with Some sc => if IsValid sc then [JStr (hex 32 (TraceID sc))] else [] | None => [] end) ∧
  (∃ line, log_Printf now header text (SetDefaultLogger service st) = Some (JsonLine line) ∧
     fields_named "msg" line = [JStr (TrimSuffix text newline)] ∧
     fields_named "service" line = [JStr service] ∧ fields_named traceIDKey line = []).
Proof.
  intros Hown. split.
  - eexists. split; [apply service_line|]. rewrite (app_assoc (concat withs)).
    assert (∀ k, k ∈ reserved_names → (filter (λ kv : Attr, kv.1 = k) (concat withs ++ args)).*2 = []) as Hnone.
    { intros k Hk. apply fields_none. intros Hin. by apply (Hown k). }
    unfold fields_named. repeat split; rewrite (filter_app _ (_ :: _)), (filter_app _ (concat withs ++ args)), !fmap_app,
      Hnone by (unfold reserved_names; set_solver); destruct ctx as [sc|]; try destruct (IsValid sc); done.
  - eexists. split.
    + unfold log_Printf, SetDefaultLogger. cbn [log_flags Z.eqb log_output log_write slogWriter_Write fst].
      change (NewLogger service) with (service_logger service []).
      change (Info now ?m ?lg) with (InfoContext now None m [] lg). rewrite service_line. reflexivity.
    + cbn [concat app]. change ("" +:+ text) with text. unfold fields_named. cbn.
      by rewrite TrimSuffix_add.
Qed.
