(* ===== verification/Tracing.v ===== *)
(** * Spans across processes (pkg/observability/observability.go, pkg/streaming/trace.go)

    The gRPC interceptors: a client's span travels in the metadata of the call,
    the server's span joins it, both are recorded with the RED metrics of their
    process.  A request that passes through several services, the outbox and the
    broker is one trace, and so are the lines logged on the way.  Ids are drawn
    by OpenTelemetry's tracer and the header is read and written by its W3C
    propagator: arguments, with what their documentation says as laws. *)

From S2P Require Import Prelude GoStrings Database StockDb StockApi StockService StockEffects StockRefine StockSteps.
From S2P Require Import CircuitBreaker Events Streaming Telemetry Logging.

(** ** gRPC metadata *)

(** metadata.MD: Get and Set take a key in lower case. *)
Definition MD : Type := gmap string (list string).

Definition md_Get (k : string) (md : MD) : list string := default [] (md !! ToLower k).

Definition md_Set (k : string) (vals : list string) (md : MD) : MD :=
  match vals with [] => md | _ => <[ToLower k := vals]> md end.

(** mdCarrier; the keys come in any order. *)
Definition mdCarrier_Get (md : MD) (key : string) : string := default "" (head (md_Get key md)).

Definition mdCarrier_Set (md : MD) (key value : string) : MD := md_Set key [value] md.

Definition mdCarrier_Keys (order : list string → list string) (md : MD) : list string := order (map_to_list md).*1.

(** ** Spans *)

Inductive SpanKind := SpanKindServer | SpanKindClient | SpanKindConsumer.

Inductive span_status := StatusUnset | StatusError (text : string) | StatusOk.

Record Span := mkSpan {
  sp_Name : string;
  sp_Kind : SpanKind;
  sp_Context : SpanContext;
  sp_Status : span_status;
}.

(** Tracer.Start: the context of the new span under [parent], for the random
    numbers [seed]. *)
Class Tracer := span_start : Z → option SpanContext → SpanContext.

(** A new span is valid and has the trace of its parent. *)
Class TracerLaws `{Tracer} : Prop := {
  start_valid seed parent : IsValid (span_start seed parent) = true ∧ in_range (span_start seed parent);
  start_joins seed sc : IsValid sc = true → in_range sc → TraceID (span_start seed (Some sc)) = TraceID sc;
}.

(** Propagator().Inject, into the carrier's get and set. *)
Class W3CInject := inject : SpanContext → MD → MD.

Class W3CInjectLaws `{W3CInject} : Prop := {
  inject_valid sc md : IsValid sc = true → mdCarrier_Get (inject sc md) "traceparent" = Traceparent sc;
}.

Definition setSpanStatus `{ErrorText} (err : option go_error) (span : Span) : Span :=
  mkSpan (sp_Name span) (sp_Kind span) (sp_Context span)
    (match err with Some e => StatusError (error_text e) | None => StatusOk end).

(** ** The telemetry of the processes *)

(** The metrics of a process and the spans it has ended, in order. *)
Record Telemetry := mkTelemetry { te_Metrics : Metrics; te_Ended : list Span }.

Definition NewTelemetry : Telemetry := mkTelemetry NewMetrics [].

(** The telemetry of every process, by its name, and the rest of the system. *)
Definition Fleet (X : Type) : Type := gmap string Telemetry * X.

Definition telemetry_of {X} (p : string) (st : Fleet X) : Telemetry := default NewTelemetry (st.1 !! p).

Definition on_process {X} (p : string) (f : Telemetry → Telemetry) (st : Fleet X) : Fleet X :=
  (<[p := f (telemetry_of p st)]> st.1, st.2).

Definition tel_begin (fullMethod : string) (t : Telemetry) : Telemetry :=
  mkTelemetry (rpc_begin fullMethod (te_Metrics t)) (te_Ended t).

Definition tel_end (fullMethod : string) (elapsed : Z) (err : option go_error) (span : Span) (t : Telemetry) : Telemetry :=
  mkTelemetry (rpc_end fullMethod elapsed err (te_Metrics t)) (te_Ended t ++ [span]).

Section Interceptors.
Context `{ErrorText} `{W3C} `{W3CInject} `{Tracer} {X Req Resp : Type}.

Definition error_of (r : res Resp) : option go_error := match r with Ok _ => None | Err e => Some e end.

(** The server's interceptor of the process [p], around one call: [md] is the
    incoming metadata, if any. *)
Definition UnaryServerInterceptor (p fullMethod : string) (md : option MD) (seed elapsed : Z)
    (handler : SpanContext → Req → Fleet X → Fleet X * res Resp) (req : Req) (st : Fleet X) : Fleet X * res Resp :=
  let parent := match md with Some md => extract (mdCarrier_Get md "traceparent") | None => None end in
  let span := mkSpan (RPCName fullMethod) SpanKindServer (span_start seed parent) StatusUnset in
  let st := on_process p (tel_begin fullMethod) st in
  let '(st, r) := handler (sp_Context span) req st in
  (on_process p (tel_end fullMethod elapsed (error_of r) (setSpanStatus (error_of r) span)) st, r).

(** The client's: [parent] is the span the caller is in, [md] what it has put into
    the outgoing metadata. *)
Definition UnaryClientInterceptor (p method : string) (parent : option SpanContext) (md : option MD) (seed elapsed : Z)
    (invoker : MD → Req → Fleet X → Fleet X * res Resp) (req : Req) (st : Fleet X) : Fleet X * res Resp :=
  let span := mkSpan (RPCName method) SpanKindClient (span_start seed parent) StatusUnset in
  let md := inject (sp_Context span) (default ∅ md) in
  let st := on_process p (tel_begin method) st in
  let '(st, r) := invoker md req st in
  (on_process p (tel_end method elapsed (error_of r) (setSpanStatus (error_of r) span)) st, r).

(** ** A request through several services *)

(** One call: from a process to another, under the ids and in the times drawn. *)
Record Hop := mkHop {
  hop_From : string;
  hop_To : string;
  hop_Method : string;
  hop_Seeds : Z * Z;
  hop_Times : Z * Z;
}.

(** Each service calls the next one in its handler; the last runs [k]. *)
Fixpoint relay (hops : list Hop) (k : SpanContext → Req → Fleet X → Fleet X * res Resp) (span : SpanContext)
    (req : Req) (st : Fleet X) : Fleet X * res Resp :=
  match hops with
  | [] => k span req st
  | h :: hops' =>
      UnaryClientInterceptor (hop_From h) (hop_Method h) (Some span) None (hop_Seeds h).1 (hop_Times h).1
        (λ md, UnaryServerInterceptor (hop_To h) (hop_Method h) (Some md) (hop_Seeds h).2 (hop_Times h).2
                 (relay hops' k)) req st
  end.

End Interceptors.

(** MessageSpan of the consumer. *)
Definition MessageSpan `{W3C} `{Tracer} (seed : Z) (msg : Message) : Span :=
  mkSpan (mg_Topic msg +:+ " process") SpanKindConsumer
    (span_start seed (TraceContextFromMessage (mg_Headers msg))) StatusUnset.

(** ** Specification *)

(** The calls of a method a process has under way. *)
Definition under_way {X} (p name : string) (st : Fleet X) : Z :=
  default 0 (inFlight (te_Metrics (telemetry_of p st)) !! name).

(** Every span that was ended in between is of the trace [tid], and no call was
    left under way. *)
Record same_trace {X} (tid : Z) (st st' : Fleet X) : Prop := {
  tr_ended p : ∃ new, te_Ended (telemetry_of p st') = te_Ended (telemetry_of p st) ++ new ∧
    Forall (λ s, TraceID (sp_Context s) = tid ∧ sp_Status s ≠ StatusUnset) new;
  tr_under_way p name : under_way p name st' = under_way p name st;
}.

(** The stock service at the end of the chain: its context has the span's
    traceparent; [r] is what it answers. *)
Definition stock_handler `{UuidText} `{StockHashes} {Resp} (env : TxEnv) (tenant : option string) (r : res Resp)
    (sc : SpanContext) (c : stock_call) (st : Fleet StockDB) : Fleet StockDB * res Resp :=
  ((st.1, deliver env (mkCtx tenant (Traceparent sc)) c st.2), r).

(** ** Lemmas *)

Lemma telemetry_on {X} p f (st : Fleet X) q :
  telemetry_of q (on_process p f st) = if decide (q = p) then f (telemetry_of p st) else telemetry_of q st.
Proof.
  unfold telemetry_of at 1, on_process. cbn [fst]. destruct (decide (q = p)) as [->|Hne].
  - by rewrite lookup_insert_eq.
  - by rewrite lookup_insert_ne.
Qed.

Lemma same_trace_refl {X} tid (st st' : Fleet X) : st'.1 = st.1 → same_trace tid st st'.
Proof.
  intros E. assert (∀ p, telemetry_of p st' = telemetry_of p st) as Ht by (intros p; unfold telemetry_of; by rewrite E).
  split; [intros p; exists []; rewrite app_nil_r; split; [by rewrite Ht|constructor]|]. intros p name. unfold under_way. by rewrite Ht.
Qed.

(** A call around what happens inside it. *)
Lemma same_trace_around {X} tid p f t err span (st st' : Fleet X) :
  TraceID (sp_Context span) = tid → sp_Status span ≠ StatusUnset → same_trace tid (on_process p (tel_begin f) st) st' →
  same_trace tid st (on_process p (tel_end f t err span) st').
Proof.
  intros Hspan Hset [He Hg]. split.
  - intros q. destruct (He q) as (new & E & Hnew). revert E. rewrite !telemetry_on.
    destruct (decide (q = p)) as [->|Hne]; intros E; [|by exists new].
    exists (new ++ [span]). cbn [tel_end te_Ended]. rewrite E. cbn [tel_begin te_Ended]. rewrite <- app_assoc.
    split; [done|]. apply Forall_app. by split; [|apply Forall_singleton].
  - intros q name. specialize (Hg q name). unfold under_way in *. revert Hg. rewrite !telemetry_on.
    destruct (decide (q = p)) as [->|Hne]; [|done].
    cbn [tel_end te_Metrics tel_begin]. unfold rpc_end, rpc_begin, ObserveRPC, add_in_flight.
    cbn [inFlight]. rewrite !default_insert. destruct (decide (RPCName f = name)) as [->|Hf].
    + rewrite !bool_decide_true by done. lia.
    + by rewrite !bool_decide_false by done.
Qed.

(** A header that was written is read back. *)
Lemma extract_traceparent `{W3CLaws} sc : in_range sc → IsValid sc = true → extract (Traceparent sc) = Some sc.
Proof.
  intros [Ht Hs] Hv. unfold Traceparent. rewrite Hv. apply andb_prop in Hv as [Hvt Hvs]. bprop. cbn [negb].
  rewrite (extract_format _ _ _ (TraceID sc) (SpanID sc)); [by destruct sc|apply hex_length|apply hex_length| | |done|done];
    by rewrite hex_value_hex by done.
Qed.

Section Relay.
Context `{ErrorText} `{W3CLaws} `{W3CInjectLaws} `{TracerLaws} {X Req Resp : Type}.

(** The span a service is in belongs to the trace of the caller. *)
Definition joined_to (sc sc' : SpanContext) : Prop := IsValid sc' = true ∧ in_range sc' ∧ TraceID sc' = TraceID sc.

Lemma start_joined seed sc : IsValid sc = true → in_range sc → joined_to sc (span_start seed (Some sc)).
Proof. intros Hv Hr. destruct (start_valid seed (Some sc)) as [Hsv Hsr]. split; [done|]. split; [done|]. by apply start_joins. Qed.

Lemma relay_joins hops (k : SpanContext → Req → Fleet X → Fleet X * res Resp) req : ∀ span st,
  IsValid span = true → in_range span → (∀ sc st, (k sc req st).1.1 = st.1) →
  ∃ sc st1, joined_to span sc ∧ st1.2 = st.2 ∧
    (relay hops k span req st).1.2 = (k sc req st1).1.2 ∧ (relay hops k span req st).2 = (k sc req st1).2 ∧
    same_trace (TraceID span) st (relay hops k span req st).1.
Proof using All.
  induction hops as [|h hops IH]; intros span st Hv Hr Hk; cbn [relay].
  { exists span, st. split; [done|]. do 3 (split; [done|]). apply same_trace_refl, Hk. }
  unfold UnaryClientInterceptor, UnaryServerInterceptor. cbn [sp_Context].
  set (cs := span_start _ (Some span)). destruct (start_joined (hop_Seeds h).1 span Hv Hr) as (Hcv & Hcr & Hct).
  fold cs in Hcv, Hcr, Hct.
  rewrite inject_valid, extract_traceparent by done. set (ss := span_start _ (Some cs)).
  destruct (start_joined (hop_Seeds h).2 cs Hcv Hcr) as (Hsv & Hsr & Hst). fold ss in Hsv, Hsr, Hst.
  set (st0 := on_process (hop_To h) _ _).
  destruct (IH ss st0 Hsv Hsr Hk) as (sc & st1 & (Hj1 & Hj2 & Hj3) & E1 & E2 & E3 & Hsame).
  destruct (relay hops k ss req st0) as [st2 r] eqn:Hrun. cbn [fst snd] in *.
  exists sc, st1. split; [split; [done|split; [done|congruence]]|]. split; [done|]. split; [done|]. split; [done|].
  assert (∀ err span0, sp_Status (setSpanStatus err span0) ≠ StatusUnset) as Hset by by intros [e|] s0.
  apply same_trace_around; [done|apply Hset|]. apply same_trace_around; [cbn; congruence|apply Hset|].
  by rewrite <- Hct, <- Hst.
Qed.

End Relay.

(** ** Theorem *)

