(* ===== verification/Observe.v ===== *)
(** * The observability stack of a process (Setup, Shutdown and MustRun of
    pkg/observability/observability.go)

    The tracer provider a process installs for its OTLP endpoint, the admin
    listener with the metrics and the probes, and the cleanup that closes both.
    What OpenTelemetry answers (merging resources, making an exporter, flushing
    it) is an argument; [W] is the state the exporters flush to. *)

From S2P Require Import Prelude GoStrings Database Closer Readiness CircuitBreaker Telemetry.

Section Observe.
Context {W : Type}.

(** ** Setup *)

(** cfg *)
Record ObsConfig := mkObsConfig { oc_ServiceName : string; oc_OTLPEndpoint : string }.

(** The provider: one that never samples, or one that exports in batches. *)
Inductive TracerProvider := NeverSampling | Exporting (endpoint service : string).

(** otel's globals: the W3C propagator with baggage, and the tracer provider. *)
Record OtelGlobals := mkOtelGlobals { og_W3C : bool; og_Provider : option TracerProvider }.

Record OtelEnv := mkOtelEnv {
  ot_resource : string → option go_error;            (* resource.Merge *)
  ot_exporter : string → option go_error;            (* otlptracegrpc.New *)
  ot_shutdown : TracerProvider → CleanupFunc (W := W);
}.

(** Providers: the metrics, the readiness registry, and what to shut down. *)
Record Stack := mkStack {
  sk_Metrics : Metrics;
  sk_Readiness : Providers;
  sk_shutdowns : list (CleanupFunc (W := W));
}.

(** The endpoint without its scheme, and whether the warning about https is
    logged. *)
Definition otlp_endpoint (raw : string) : string * bool :=
  match cut_at "://" raw with
  | Some (scheme, rest) => (rest, bool_decide (scheme = "https"))
  | None => (raw, false)
  end.

Definition install (env : OtelEnv) (tp : TracerProvider) : OtelGlobals * res Stack :=
  (mkOtelGlobals true (Some tp), Ok (mkStack NewMetrics newProviders [ot_shutdown env tp])).

Definition Setup (env : OtelEnv) (cfg : ObsConfig) (g : OtelGlobals) : OtelGlobals * res Stack :=
  let g := mkOtelGlobals true (og_Provider g) in
  match ot_resource env (oc_ServiceName cfg) with
  | Some e => (g, Err e)
  | None =>
      if bool_decide (oc_OTLPEndpoint cfg = "") then install env NeverSampling
      else
        let endpoint := (otlp_endpoint (oc_OTLPEndpoint cfg)).1 in
        match ot_exporter env endpoint with
        | Some e => (g, Err e)
        | None => install env (Exporting endpoint (oc_ServiceName cfg))
        end
  end.

(** Providers.Shutdown, last to first; the errors are joined. *)
Definition Shutdown (p : Stack) (x : W) : W * list go_error :=
  foldl (λ '(x, errs) f, let '(x, err) := f x in (x, errs ++ option_list err)) (x, []) (reverse (sk_shutdowns p)).

(** ** The admin listener *)

Inductive admin_page := MetricsPage (m : Metrics) | ProbePage (status : Z) (body : string) | NotFoundPage.

(** Metrics.Handler: the scrape of the registry. *)
Definition Metrics_Handler (m : Metrics) : admin_page := MetricsPage m.

(** The address and the handler of MetricsServer. *)
Definition MetricsServer (m : Metrics) (addr : string) : string * admin_page := (addr, Metrics_Handler m).

(** adminMux, for a cleaned path. *)
Definition adminMux `{ErrorText} (p : Stack) (sched : list (string * Check) → list (string * Check)) (n : Net)
    (path : string) : admin_page :=
  if bool_decide (path = "/metrics") then Metrics_Handler (sk_Metrics p)
  else if bool_decide (path = "/healthz") then ProbePage LiveHandler.1 LiveHandler.2
  else if bool_decide (path = "/readyz")
  then ProbePage (ReadyHandler (sk_Readiness p) sched n).1 (ReadyHandler (sk_Readiness p) sched n).2
  else NotFoundPage.

(** The listener, whether the cleanup was done (its sync.Once), and the errors it
    logged. *)
Record Admin := mkAdmin { ad_Addr : string; ad_Open : bool; ad_Once : bool; ad_Log : list go_error }.

(** MustRun: [None] is log.Fatalf. *)
Definition MustRun (env : OtelEnv) (service metricsAddr endpoint : string) (g : OtelGlobals)
  : OtelGlobals * option (Stack * Admin) :=
  match Setup env (mkObsConfig service endpoint) g with
  | (g, Err _) => (g, None)
  | (g, Ok p) => (g, Some (p, mkAdmin metricsAddr true false []))
  end.

Definition cleanup (p : Stack) (st : Admin * W) : Admin * W :=
  if ad_Once st.1 then st
  else let '(x, errs) := Shutdown p st.2 in (mkAdmin (ad_Addr st.1) false true (ad_Log st.1 ++ errs), x).

(** What the mains give to Defer: it never fails. *)
Definition defer_stopObs (p : Stack) : CleanupFunc (W := Admin * W) := λ st, (cleanup p st, None).

(** ** Theorems *)

Lemma shutdown_spec (p : Stack) (x : W) :
  Shutdown p x = (cleanup_world (reverse (sk_shutdowns p)) x, cleanup_errors (reverse (sk_shutdowns p)) x).
Proof.
  unfold Shutdown.
  assert (∀ (fs : list (CleanupFunc (W := W))) x errs, foldl (λ '(x, errs) f, let '(x, err) := f x in (x, errs ++ option_list err)) (x, errs) fs =
            (cleanup_world fs x, errs ++ cleanup_errors fs x)) as Hall; [|by rewrite Hall].
  clear x. induction fs as [|f fs IH]; intros x errs; [by rewrite app_nil_r|].
  cbn [foldl cleanup_world cleanup_errors]. destruct (f x) as [x' err]. by rewrite IH, app_assoc.
Qed.

(** Whatever the endpoint, a process that starts has one provider installed, under
    the W3C propagator: one that never samples without an endpoint, and otherwise
    one that exports under the service's name to the endpoint, less a scheme in
    front of it; however often its cleanup runs, the provider is shut down once,
    the listener is closed, a failure is logged, and the exit code does not depend
    on it. *)
Theorem observability_life env service addr endpoint g n x :
  match MustRun env service addr endpoint g with
  | (g', None) => ∃ e, ot_resource env service = Some e ∨
      endpoint ≠ "" ∧ ot_exporter env (otlp_endpoint endpoint).1 = Some e
  | (g', Some (p, adm)) =>
      let tp := if bool_decide (endpoint = "") then NeverSampling else Exporting (otlp_endpoint endpoint).1 service in
      g' = mkOtelGlobals true (Some tp) ∧
      let '(x', err) := ot_shutdown env tp x in
      Nat.iter (S n) (cleanup p) (adm, x) = (mkAdmin addr false true (option_list err), x') ∧
      (defer_stopObs p (adm, x)).2 = None
  end.
Proof.
  unfold MustRun, Setup. cbn [oc_ServiceName oc_OTLPEndpoint].
  assert (∀ tp, let '(x', err) := ot_shutdown env tp x in
    Nat.iter (S n) (cleanup (mkStack NewMetrics newProviders [ot_shutdown env tp])) (mkAdmin addr true false [], x) =
    (mkAdmin addr false true (option_list err), x')) as Hclean.
  { intros tp. destruct (ot_shutdown env tp x) as [x' err] eqn:Hs. induction n as [|k IH].
    - change (Nat.iter 1 ?f ?a) with (f a). unfold cleanup. cbn [fst snd ad_Once]. rewrite shutdown_spec. cbn.
      rewrite Hs. cbn. by rewrite app_nil_r.
    - change (Nat.iter (S (S k)) ?f ?a) with (f (Nat.iter (S k) f a)). by rewrite IH. }
  destruct (ot_resource env service) as [e|]; [eauto|].
  destruct (decide (endpoint = "")) as [->|He].
  - rewrite (bool_decide_true ("" = "")) by done. cbn [install]. split; [done|].
    specialize (Hclean NeverSampling). by destruct (ot_shutdown env NeverSampling x) as [x' err].
  - rewrite !(bool_decide_false _ He). destruct (ot_exporter env _) as [e|] eqn:Hx; [eauto|]. cbn [install].
    split; [done|]. specialize (Hclean (Exporting (otlp_endpoint endpoint).1 service)).
    by destruct (ot_shutdown env _ x) as [x' err].
Qed.

End Observe.

(** "http://jaeger:4317" and "jaeger:4317" are the same endpoint; a path stays. *)
Example endpoints :
  otlp_endpoint "http://jaeger:4317" = ("jaeger:4317", false) ∧ otlp_endpoint "jaeger:4317" = ("jaeger:4317", false) ∧
  otlp_endpoint "https://c/v1" = ("c/v1", true).
Proof. repeat split. Qed.
