(* ===== verification/ChannelSync.v ===== *)
(** * Channel sync (internal/channelsync/service.go, pkg/channel/channel.go)

    The reactor that keeps the availability projection and the sales channel in
    step with stock.events, and routes deficit alerts. *)

From S2P Require Import Prelude GoStrings Database StockDb StockApi StockService StockEffects StockRefine.
From S2P Require Import Payment Events.

(** ** The database (db/migrations/channelsync, gen/go/db/channelsync) *)

Record AvailabilityProjection := mkProjection { ap_AvailableQty : Z; ap_UpdatedAt : Z }.

Record Alert := mkAlert {
  at_ID : uuid;
  at_TenantID : uuid;
  at_SkuID : string;
  at_WarehouseID : string;
  at_Delta : Z;
  at_Reason : string;
  at_Source : string;
  at_CreatedAt : Z;
}.

Record ChanDB := mkChanDB {
  projection : gmap loc AvailabilityProjection;
  alert_rows : list Alert;
  chan_idem : gmap (uuid * string) IdemRow;
  chan_next_uuid : uuid;
}.

(** payload_hash stays at its zero value. *)
Definition CheckAndInsertIdempotencyKey (tenant : uuid) (key : string) : Q ChanDB string := λ s d,
  if negb (visible s tenant) then Err ErrRowSecurity
  else match chan_idem d !! (tenant, key) with
       | Some _ => Err ErrNoRows
       | None =>
           Ok (mkChanDB (projection d) (alert_rows d)
                 (<[(tenant, key) := mkIdemRow "" (s_now s)]> (chan_idem d)) (chan_next_uuid d), key)
       end.

(** INSERT ... ON CONFLICT DO UPDATE SET available_qty = EXCLUDED.available_qty *)
Definition UpsertAvailability (k : loc) (q : Z) : Q ChanDB AvailabilityProjection := λ s d,
  if negb (visible s k.1.1) then Err ErrRowSecurity
  else let row := mkProjection q (s_now s) in
       Ok (mkChanDB (<[k := row]> (projection d)) (alert_rows d) (chan_idem d) (chan_next_uuid d), row).

Definition InsertAlert (k : loc) (delta : Z) (reason source : string) : Q ChanDB Alert := λ s d,
  if negb (visible s k.1.1) then Err ErrRowSecurity
  else let row := mkAlert (chan_next_uuid d) k.1.1 k.1.2 k.2 delta reason source (s_now s) in
       Ok (mkChanDB (projection d) (alert_rows d ++ [row]) (chan_idem d) (N.succ (chan_next_uuid d)), row).

Definition GetAvailability (k : loc) : Q ChanDB AvailabilityProjection := λ s d,
  if negb (visible s k.1.1) then Err ErrNoRows
  else match projection d !! k with Some row => Ok (d, row) | None => Err ErrNoRows end.

(** ORDER BY created_at DESC; [plan] is the order in which the rows come to the
    sort. *)
Definition newer_first (a b : Alert) : Prop := at_CreatedAt b <= at_CreatedAt a.

#[export] Instance newer_first_dec a b : Decision (newer_first a b).
Proof. unfold newer_first. apply _. Defined.

Definition ListAlerts (plan : list Alert → list Alert) (tenant : uuid) (limit : Z) : Q ChanDB (list Alert) := λ s d,
  if limit <? 0 then Err (ErrNew "LIMIT must not be negative")
  else Ok (d, take (Z.to_nat limit)
                (merge_sort newer_first
                   (plan (filter (λ a, visible s (at_TenantID a) = true ∧ at_TenantID a = tenant) (alert_rows d))))).

(** ** The sandbox channel *)

Record AvailabilityUpdate := mkAvailabilityUpdate {
  au_TenantID : string;
  au_SKUID : string;
  au_WarehouseID : string;
  au_AvailableQty : Z;
}.

Record DeficitAlert := mkDeficitAlert {
  da_TenantID : string;
  da_SKUID : string;
  da_WarehouseID : string;
  da_Delta : Z;
  da_Reason : string;
  da_Source : string;
}.

Record Sandbox := mkSandbox {
  availability : gmap string AvailabilityUpdate;
  alerts : list DeficitAlert;
}.

(** [fail_skus] is TAPER_SANDBOX_FAIL_SKUS. *)
Definition sku_fail_listed (fail_skus sku : string) : bool :=
  if bool_decide (fail_skus = "") then false
  else existsb (λ id, bool_decide (TrimSpace id = sku)) (split_on ","%char fail_skus "").

Definition availabilityKey (tenant sku warehouse : string) : string :=
  tenant +:+ ":" +:+ sku +:+ ":" +:+ warehouse.

Definition ErrChannelDown : go_error := ErrNew "channel unavailable".

Definition SetAvailability (fail_skus : string) (u : AvailabilityUpdate) (s : Sandbox) : Sandbox * option go_error :=
  if au_AvailableQty u <? 0 then (s, Some (ErrNew "availability must be non-negative"))
  else if sku_fail_listed fail_skus (au_SKUID u) then (s, Some (ErrWrap "sku" ErrChannelDown))
  else (mkSandbox (<[availabilityKey (au_TenantID u) (au_SKUID u) (au_WarehouseID u) := u]> (availability s))
          (alerts s), None).

Definition NotifyDeficit (fail_skus : string) (a : DeficitAlert) (s : Sandbox) : Sandbox * option go_error :=
  if sku_fail_listed fail_skus (da_SKUID a) then (s, Some (ErrWrap "sku" ErrChannelDown))
  else (mkSandbox (availability s) (alerts s ++ [a]), None).

Definition NewSandbox : Sandbox := mkSandbox ∅ [].

(** Sandbox.Availability and Sandbox.Alerts (a copy). *)
Definition Availability (tenant sku warehouse : string) (s : Sandbox) : option AvailabilityUpdate :=
  availability s !! availabilityKey tenant sku warehouse.

Definition Alerts (s : Sandbox) : list DeficitAlert := alerts s.

(** ** The service *)

Record ChanWorld := mkChanWorld {
  cw_db : ChanDB;
  cw_channels : Sandbox;
  cw_notifier : Sandbox;
}.

Record ChanEnv := mkChanEnv { ce_tx : TxEnv; ce_fail_skus : string }.

(** An offset in decimal, for the content-derived key. *)
Class ZText := z_text : Z → string.

Section Service.
Context `{UuidText} `{ZText}.

Definition tryIdempotency (tenant : uuid) (eventID : string) : Q ChanDB bool :=
  r ← attempt (CheckAndInsertIdempotencyKey tenant eventID);
  match r with
  | Err ErrNoRows => mret true
  | Err e => fail e
  | Ok _ => mret false
  end.

(** The transaction of a handler: once per event id. *)
Definition once (tenant : uuid) (eventID : string) (write : Q ChanDB unit) : Q ChanDB unit :=
  dup ← tryIdempotency tenant eventID;
  if (dup : bool) then mret () else write.

Definition commit_once (env : ChanEnv) (ctx : Ctx) (tenant : uuid) (eventID : string) (write : Q ChanDB unit)
    (w : ChanWorld) : ChanWorld * option go_error :=
  let '(d, _, e) := ExecTxWithTenant (ce_tx env) ctx (tx_body (once tenant eventID write)) (cw_db w) in
  (mkChanWorld d (cw_channels w) (cw_notifier w), e).

(** Push first, then the projection. *)
Definition handleAdjusted (env : ChanEnv) (ctx : Ctx) (eventID tenant sku : string) (value : option json)
    (w : ChanWorld) : ChanWorld * option go_error :=
  let bad := (w, Some (ErrNew "decode stock.adjusted")) in
  match value with
  | Some (JObj l) =>
      match get_string "sku_id" l, get_string "warehouse_id" l, get_int32 "quantity_delta" l,
            get_int32 "available_qty" l with
      | Some _, Some warehouse, Some _, Some available =>
          if bool_decide (warehouse = "") then (w, Some (ErrNew "stock.adjusted missing warehouse_id"))
          else match ParseUUID tenant with
          | Err e => (w, Some (ErrWrap "tenant id" e))
          | Ok tenantUUID =>
              let ctx := WithTenantID ctx tenant in
              match SetAvailability (ce_fail_skus env) (mkAvailabilityUpdate tenant sku warehouse available)
                      (cw_channels w) with
              | (ch, Some e) => (mkChanWorld (cw_db w) ch (cw_notifier w), Some e)
              | (ch, None) =>
                  commit_once env ctx tenantUUID eventID
                    (_ ← UpsertAvailability (tenantUUID, sku, warehouse) available; mret ())
                    (mkChanWorld (cw_db w) ch (cw_notifier w))
              end
          end
      | _, _, _, _ => bad
      end
  | _ => bad
  end.

Definition handleDeficit (env : ChanEnv) (ctx : Ctx) (eventID tenant sku : string) (value : option json)
    (w : ChanWorld) : ChanWorld * option go_error :=
  let bad := (w, Some (ErrNew "decode stock.deficit_alert")) in
  match value with
  | Some (JObj l) =>
      match get_string "sku_id" l, get_string "warehouse_id" l, get_int32 "delta" l, get_string "reason" l,
            get_string "source" l with
      | Some _, Some warehouse, Some delta, Some reason, Some source =>
          if bool_decide (warehouse = "") then (w, Some (ErrNew "stock.deficit_alert missing warehouse_id"))
          else match ParseUUID tenant with
          | Err e => (w, Some (ErrWrap "tenant id" e))
          | Ok tenantUUID =>
              let ctx := WithTenantID ctx tenant in
              match NotifyDeficit (ce_fail_skus env) (mkDeficitAlert tenant sku warehouse delta reason source)
                      (cw_notifier w) with
              | (nt, Some e) => (mkChanWorld (cw_db w) (cw_channels w) nt, Some e)
              | (nt, None) =>
                  commit_once env ctx tenantUUID eventID
                    (_ ← InsertAlert (tenantUUID, sku, warehouse) delta reason source; mret ())
                    (mkChanWorld (cw_db w) (cw_channels w) nt)
              end
          end
      | _, _, _, _, _ => bad
      end
  | _ => bad
  end.

Definition event_id (msg : Message) : string :=
  let id := headerValue (mg_Headers msg) "id" in
  if bool_decide (id = "")
  then "raw:" +:+ mg_Topic msg +:+ ":" +:+ mg_Key msg +:+ ":" +:+ z_text (mg_Offset msg)
  else id.

(** The header, or else the event_type member of the value (errors ignored). *)
Definition event_type (msg : Message) : string :=
  let ty := headerValue (mg_Headers msg) "eventType" in
  if bool_decide (ty = "") then
    match mg_Value msg with
    | Some (JObj l) => match get_string "event_type" l with Some s => s | None => "" end
    | _ => ""
    end
  else ty.

Definition HandleStockEvent (env : ChanEnv) (ctx : Ctx) (msg : Message) (w : ChanWorld)
  : ChanWorld * option go_error :=
  match splitKey (mg_Key msg) with
  | None => (w, None)
  | Some (tenant, sku) =>
      if bool_decide (event_type msg = "stock.adjusted")
      then handleAdjusted env ctx (event_id msg) tenant sku (mg_Value msg) w
      else if bool_decide (event_type msg = "stock.deficit_alert")
      then handleDeficit env ctx (event_id msg) tenant sku (mg_Value msg) w
      else (w, None)
  end.

(** ** Lemmas *)

Lemma try_run t now key d :
  tryIdempotency t key (mkSession (RlsTenant (Some t)) now) d =
  match chan_idem d !! (t, key) with
  | Some _ => Ok (d, true)
  | None => Ok (mkChanDB (projection d) (alert_rows d)
                  (<[(t, key) := mkIdemRow "" now]> (chan_idem d)) (chan_next_uuid d), false)
  end.
Proof.
  unfold tryIdempotency, mbind, Q_bind, attempt, CheckAndInsertIdempotencyKey, visible. cbn [s_rls].
  rewrite bool_decide_true by done. cbn [negb]. by destruct (chan_idem d !! (t, key)).
Qed.

(** Once its id is on record an event changes nothing in the database,
    whatever happens to its transaction. *)
Lemma commit_once_dup env ctx t tid eventID write w row :
  ctx_tenant ctx = Some tid → uuid_scan tid = Some t → chan_idem (cw_db w) !! (t, eventID) = Some row →
  cw_db (commit_once env ctx t eventID write w).1 = cw_db w.
Proof.
  intros Hctx Ht Hrow. unfold commit_once.
  pose proof (exec_tx_atomic (ce_tx env) ctx (tx_body (once t eventID write)) (cw_db w)) as Hat.
  destruct (ExecTxWithTenant _ _ _ _) as [[d r] e]. cbn [fst] in *. destruct Hat as [->|(tid' & Htid & Hfn)]; [done|].
  simplify_eq. rewrite Ht in Hfn. unfold tx_body, once, mbind, Q_bind in Hfn. rewrite try_run, Hrow in Hfn.
  cbn in Hfn. by injection Hfn as ->.
Qed.

(** Redelivery of an event whose id is on record. *)
Lemma redelivery env ctx msg w t tid rest row :
  splitKey (mg_Key msg) = Some (tid, rest) → uuid_scan tid = Some t →
  chan_idem (cw_db w) !! (t, event_id msg) = Some row →
  cw_db (HandleStockEvent env ctx msg w).1 = cw_db w.
Proof.
  intros Hk Ht Hrow. unfold HandleStockEvent. rewrite Hk.
  destruct (bool_decide (event_type msg = "stock.adjusted")).
  - unfold handleAdjusted, ParseUUID. rewrite Ht. repeat case_match; simplify_eq; try done.
    by rewrite (commit_once_dup _ (WithTenantID ctx tid) t tid _ _ _ row).
  - destruct (bool_decide (event_type msg = "stock.deficit_alert")); [|done].
    unfold handleDeficit, ParseUUID. rewrite Ht. repeat case_match; simplify_eq; try done.
    by rewrite (commit_once_dup _ (WithTenantID ctx tid) t tid _ _ _ row).
Qed.

(** What the consumer makes of a routed outbox row. *)
Lemma routed_type topic offset row :
  ob_EventType (ob row) ≠ "" → event_type (routed topic offset row) = ob_EventType (ob row).
Proof.
  intros Hne. unfold event_type. cbn [routed mg_Headers headerValue].
  rewrite (bool_decide_false ("id" = "eventType")), (bool_decide_true ("eventType" = "eventType")) by done.
  by rewrite bool_decide_false.
Qed.

Lemma routed_id `{!UuidTextLaws} topic offset row :
  event_id (routed topic offset row) = uuid_string (ob_ID row).
Proof.
  unfold event_id. cbn [routed mg_Headers headerValue]. rewrite (bool_decide_true ("id" = "id")) by done.
  by rewrite bool_decide_false by apply uuid_string_nonempty.
Qed.

End Service.

(** The delivery of the row of an adjustment. *)
Lemma adjusted_delivered `{UuidTextLaws} `{ZText} `{StockHashes}
    now ctx actx t req snow d d' topic offset row lv w :
  adjust_effect actx t req snow d d' → adj_SkuId req ≠ "" → adj_WarehouseId req ≠ "" →
  stock_levels d' !! adjust_loc t req = Some lv →
  in_int32 (adj_QuantityDelta req) = true →
  last (ob <$> stock_outbox d') = Some (ob row) →
  chan_idem (cw_db w) !! (t, uuid_string (ob_ID row)) = None →
  ∃ w', HandleStockEvent (mkChanEnv (healthy now) "") ctx (routed topic offset row) w = (w', None) ∧
    (ap_AvailableQty <$> projection (cw_db w') !! adjust_loc t req = Some (AvailableQty lv)) ∧
    (au_AvailableQty <$> availability (cw_channels w') !!
       availabilityKey (uuid_string t) (adj_SkuId req) (adj_WarehouseId req) = Some (AvailableQty lv)) ∧
    ∀ env w1, cw_db w1 = cw_db w' → cw_db (HandleStockEvent env ctx (routed topic offset row) w1).1 = cw_db w'.
Proof.
  intros Heff Hsku Hwh Hlv Hq Hlast Hfresh. destruct Heff as [_ [Hlevels Hob] _ _ Hwf].
  set (new := adjusted_level _ _ _) in *. rewrite Hlevels, lookup_insert_eq in Hlv. injection Hlv as <-.
  rewrite Hob, last_snoc in Hlast. injection Hlast as Hrow.
  assert (level_ok new) as [Hav _] by (apply (proj2 Hwf (adjust_loc t req)); rewrite Hlevels; apply lookup_insert_eq).
  assert (in_int32 (AvailableQty new) = true) as Hav32.
  { unfold qty_ok in Hav. unfold in_int32. apply andb_true_intro. split; [apply Z.leb_le|apply Z.ltb_lt]; lia. }
  pose proof (splitKey_roundtrip t (adj_SkuId req) Hsku) as Hkey.
  assert (mg_Key (routed topic offset row) = uuid_string t +:+ ":" +:+ adj_SkuId req) as Hmk
    by (cbn; by rewrite <- Hrow).
  pose proof (routed_id topic offset row) as Hid.
  set (k := adjust_loc t req).
  set (d1 := mkChanDB (<[k := mkProjection (AvailableQty new) now]> (projection (cw_db w))) (alert_rows (cw_db w))
         (<[(t, uuid_string (ob_ID row)) := mkIdemRow "" now]> (chan_idem (cw_db w))) (chan_next_uuid (cw_db w))).
  set (u := mkAvailabilityUpdate (uuid_string t) (adj_SkuId req) (adj_WarehouseId req) (AvailableQty new)).
  set (ch := mkSandbox (<[availabilityKey (uuid_string t) (adj_SkuId req) (adj_WarehouseId req) := u]>
               (availability (cw_channels w))) (alerts (cw_channels w))).
  exists (mkChanWorld d1 ch (cw_notifier w)). split; [|split; [|split]].
  - unfold HandleStockEvent. rewrite Hmk, Hkey, Hid.
    rewrite routed_type by (rewrite <- Hrow; done). rewrite <- Hrow.
    cbn [adjust_outbox stock_outbox_event ob_EventType].
    rewrite (bool_decide_true ("stock.adjusted" = "stock.adjusted")) by done. cbn [routed mg_Value]. rewrite <- Hrow.
    cbn [adjust_outbox stock_outbox_event ob_Payload marshalAdjustEvent].
    unfold handleAdjusted, marshalAdjustEvent. lazy beta iota zeta. change (get_string "sku_id" _) with (Some (adj_SkuId req)).
    change (get_string "warehouse_id" _) with (Some (adj_WarehouseId req)).
    unfold get_int32. lazy beta iota zeta. change (member "quantity_delta" _) with (Some (JInt (adj_QuantityDelta req))).
    change (member "available_qty" _) with (Some (JInt (AvailableQty new))).
    lazy beta iota. rewrite Hq, Hav32, (bool_decide_false _ Hwh). unfold ParseUUID. rewrite uuid_scan_string.
    unfold SetAvailability. cbn [au_AvailableQty]. rewrite (proj2 (Z.ltb_ge _ _)) by apply Hav.
    unfold commit_once. cbn [ce_tx ce_fail_skus sku_fail_listed cw_db].
    rewrite (exec_tx_healthy _ _ _ _ (uuid_string t)) by (done || apply uuid_string_nonempty).
    rewrite uuid_scan_string. unfold tx_body, once, mbind, Q_bind. rewrite try_run, Hfresh.
    unfold UpsertAvailability, visible. cbn [s_rls fst]. rewrite bool_decide_true by done. done.
  - cbn. by rewrite lookup_insert_eq.
  - cbn. by rewrite lookup_insert_eq.
  - intros env w1 Hw1. rewrite <- Hw1. eapply redelivery; [by rewrite Hmk, Hkey|apply uuid_scan_string|].
    rewrite Hid, Hw1. cbn. apply lookup_insert_eq.
Qed.

(** ** Theorem *)

(** C33. An adjustment of stock reaches the sales channel: the outbox row that an
    AdjustStock which changed the database leaves (whatever its caller was told),
    delivered with an id not seen before to a channel that is up, makes the
    availability projection and the channel show exactly the available quantity
    of the adjusted row; and however often the message is delivered again,
    whatever fails in the process, the projection and the alerts stay as they
    are. *)
Theorem adjustment_reaches_channel `{UuidTextLaws} `{ZText} `{StockHashes}
    aenv actx req d t now ctx topic offset row lv w :
  stock_wf d → uuid_scan (adj_TenantId req) = Some t → in_int32 (adj_QuantityDelta req) = true →
  adj_SkuId req ≠ "" → adj_WarehouseId req ≠ "" →
  let d' := (AdjustStock aenv actx req d).1 in
  d' ≠ d → last (stock_outbox d') = Some row → stock_levels d' !! adjust_loc t req = Some lv →
  chan_idem (cw_db w) !! (t, uuid_string (ob_ID row)) = None →
  ∃ w', HandleStockEvent (mkChanEnv (healthy now) "") ctx (routed topic offset row) w = (w', None) ∧
    (∀ s, visible s t = true → ∃ p, GetAvailability (adjust_loc t req) s (cw_db w') = Ok (cw_db w', p) ∧
       ap_AvailableQty p = AvailableQty lv) ∧
    (au_AvailableQty <$> Availability (uuid_string t) (adj_SkuId req) (adj_WarehouseId req) (cw_channels w') =
       Some (AvailableQty lv)) ∧
    ∀ env w1, cw_db w1 = cw_db w' → cw_db (HandleStockEvent env ctx (routed topic offset row) w1).1 = cw_db w'.
Proof.
  intros Hwf Ht Hq Hsku Hwh d' Hch Hlast Hlv Hfresh.
  destruct (AdjustStock_cases aenv actx req d Hwf Hq) as [He|(t' & Ht' & _ & Heff)]; [done|].
  rewrite Ht in Ht'. injection Ht' as <-.
  destruct (adjusted_delivered now ctx _ t req _ _ d' topic offset row lv w Heff) as (w' & Hrun & Hp & Hch' & Hagain);
    [done|done|exact Hlv|done|by rewrite fmap_last, Hlast|done|].
  exists w'. split; [done|]. split; [|by split]. intros s Hs. unfold GetAvailability. cbn [adjust_loc fst]. rewrite Hs. cbn [negb].
  fold (adjust_loc t req). destruct (projection (cw_db w') !! adjust_loc t req) as [p|]; [|done].
  exists p. split; [done|]. by injection Hp.
Qed.
