(* ===== verification/Fulfillment.v ===== *)
(** * Fulfilment (internal/fulfillment/service.go)

    The reactor that turns order.fulfilled events into FulfillStock calls: what
    the order service wrote into its outbox is what the stock service is asked
    to ship. *)

From S2P Require Import Prelude GoStrings Database StockDb StockApi StockService StockClient ReservationService Payment.
From S2P Require Import OrderDb OrderService OrderSteps OrderSaga OrderProps OrderInvariant Events.

(** The one method of the stock client this service uses. *)
Class FulfillClient (X : Type) :=
  rpc_FulfillStock : Ctx → FulfillStockRequest → X → X * res FulfillStockResponse.

(** ** Decoding *)

(** One element of [lines]. *)
Definition decode_line (v : json) : option StockLine :=
  match v with
  | JObj l =>
      match get_string "sku_id" l, get_string "warehouse_id" l, get_int32 "quantity" l with
      | Some sku, Some wh, Some q => Some (mkLine sku wh q)
      | _, _, _ => None
      end
  | _ => None
  end.

Definition decode_lines (l : list (string * json)) : option (list StockLine) :=
  match member "lines" l with
  | None => Some []
  | Some (JArr vs) => mapM decode_line vs
  | Some _ => None
  end.

Record OrderEvent := mkOrderEvent {
  oe_EventType : string;
  oe_TenantID : string;
  oe_OrderID : string;
  oe_Lines : list StockLine;
}.

Definition decode_order_event (v : option json) : option OrderEvent :=
  match v with
  | Some (JObj l) =>
      match get_string "event_type" l, get_string "tenant_id" l, get_string "order_id" l, decode_lines l with
      | Some ty, Some t, Some o, Some ls => Some (mkOrderEvent ty t o ls)
      | _, _, _, _ => None
      end
  | _ => None
  end.

Definition fulfill_request (tenant orderID : string) (lines : list StockLine) : FulfillStockRequest :=
  {| ful_TenantId := tenant; ful_OrderId := orderID;
     ful_IdempotencyKey := "fulfill:" +:+ tenant +:+ ":" +:+ orderID; ful_Lines := lines |}.

Definition HandleOrderEvent {X} `{FulfillClient X} (ctx : Ctx) (msg : Message) (x : X) : X * option go_error :=
  match decode_order_event (mg_Value msg) with
  | None => (x, Some (ErrNew "decode order event"))
  | Some ev =>
      if negb (bool_decide (oe_EventType ev = "order.fulfilled")) then (x, None)
      else
        let '(tenant, orderID) :=
          if bool_decide (oe_TenantID ev = "") || bool_decide (oe_OrderID ev = "")
          then match cut_colon (mg_Key msg) with Some ids => ids | None => (oe_TenantID ev, oe_OrderID ev) end
          else (oe_TenantID ev, oe_OrderID ev) in
        if bool_decide (tenant = "") || bool_decide (orderID = "") || bool_decide (length (oe_Lines ev) = 0%nat)
        then (x, Some (ErrNew "order.fulfilled missing tenant/order/lines"))
        else
          match rpc_FulfillStock ctx (fulfill_request tenant orderID (oe_Lines ev)) x with
          | (x, Err e) => (x, Some (ErrWrap ("FulfillStock " +:+ orderID) e))
          | (x, Ok _) => (x, None)
          end
  end.

(** ** Lemmas *)

Lemma decode_event_lines (lines : list OrderLine) :
  Forall (λ l, in_int32 (ln_Quantity l) = true) lines →
  mapM decode_line (event_line <$> lines) = Some (stockLines lines).
Proof.
  induction 1 as [|l lines Hq _ IH]; [done|].
  assert (decode_line (event_line l) = Some (mkLine (ln_SkuId l) (ln_WarehouseId l) (ln_Quantity l))) as Hl.
  { unfold event_line, decode_line. change (get_string "sku_id" _) with (Some (ln_SkuId l)).
    change (get_string "warehouse_id" _) with (Some (ln_WarehouseId l)).
    unfold get_int32. change (member "quantity" _) with (Some (JInt (ln_Quantity l))). lazy beta iota.
    by rewrite Hq. }
  rewrite fmap_cons. cbn [mapM]. rewrite Hl. cbn [mbind option_bind]. by rewrite IH.
Qed.

Lemma decode_marshalled state orderID total (lines : list OrderLine) :
  lines ≠ [] → Forall (λ l, in_int32 (ln_Quantity l) = true) lines →
  decode_order_event (Some (marshalOrderEvent state orderID total lines)) =
  Some (mkOrderEvent ("order." +:+ ToLower state) "" orderID (stockLines lines)).
Proof.
  intros Hne Hq. unfold marshalOrderEvent. destruct lines as [|l ls] eqn:Hl; [done|]. rewrite <- Hl in *. clear Hl.
  unfold decode_order_event, app.
  change (get_string "event_type" _) with (Some ("order." +:+ ToLower state)).
  change (get_string "tenant_id" _) with (Some ""). change (get_string "order_id" _) with (Some orderID).
  unfold decode_lines. change (member "lines" _) with (Some (JArr (event_line <$> lines))).
  lazy beta iota. by rewrite (decode_event_lines lines Hq).
Qed.

(** The lines of an order as FulfillOrder reads them. *)
Definition lines_of (t : uuid) (orderID : string) (d : OrderDB) : list OrderLineRow :=
  merge_sort ol_le (filter (λ l, ol_TenantID l = t ∧ ol_OrderID l = orderID) (order_lines d)).

Lemma lines_of_visible t orderID now d :
  merge_sort ol_le (filter (λ l, visible (mkSession (RlsTenant (Some t)) now) (ol_TenantID l) = true ∧
                                 ol_OrderID l = orderID) (order_lines d)) = lines_of t orderID d.
Proof.
  unfold lines_of. f_equal. apply list_filter_iff. intros l. unfold visible. cbn [s_rls].
  rewrite bool_decide_eq_true. naive_solver.
Qed.

Definition shipment (l : OrderLineRow) : StockLine := mkLine (ol_SkuID l) (ol_WarehouseID l) (ol_Quantity l).

(** ** Theorem *)

(** C32. What is fulfilled is shipped: the outbox row that a FulfillOrder which
    changed the database leaves (whatever the caller was told), delivered as the
    connector routes it, makes exactly one FulfillStock call, for the order's
    tenant and id, with every line of the order (SKU, warehouse and quantity) and
    a key of its own that is the same at every redelivery. *)
Theorem fulfilled_order_ships `{UuidTextLaws} `{OrderHashes} `{ErrorText} {Y} `{StockClient Y} `{ReservationClient Y}
    {X} `{FulfillClient X} env octx req (w : OrderWorld Y) t row topic offset ctx (x : X) :
  saga_wf (ow_db w) → uuid_scan (fo_TenantId req) = Some t → fo_OrderId req ≠ "" →
  lines_of t (fo_OrderId req) (ow_db w) ≠ [] →
  Forall (λ l, in_int32 (ol_Quantity l) = true) (lines_of t (fo_OrderId req) (ow_db w)) →
  ow_db (FulfillOrder env octx req w).1 ≠ ow_db w →
  last (ord_outbox (ow_db (FulfillOrder env octx req w).1)) = Some row →
  HandleOrderEvent ctx (routed topic offset row) x =
  match rpc_FulfillStock ctx
          (mkFulfillStockRequest (uuid_string t) (fo_OrderId req)
             ("fulfill:" +:+ uuid_string t +:+ ":" +:+ fo_OrderId req)
             (shipment <$> lines_of t (fo_OrderId req) (ow_db w))) x with
  | (x', Ok _) => (x', None)
  | (x', Err e) => (x', Some (ErrWrap ("FulfillStock " +:+ fo_OrderId req) e))
  end.
Proof.
  intros Hwf Ht Ho Hne Hq Hch Hlast.
  destruct (FulfillOrder_cases env octx req w) as [He|(t' & o & Ht' & _ & _ & Heff)]; [done|].
  rewrite Ht in Ht'. injection Ht' as <-.
  assert (last (ob <$> ord_outbox (ow_db (FulfillOrder env octx req w).1)) = Some (ob row)) as Hl
    by (rewrite fmap_last, Hlast; done).
  rewrite (fe_outbox _ _ _ _ _ _ _ Heff), last_snoc, lines_of_visible in Hl. injection Hl as Hrow.
  set (rows := lines_of _ _ _) in *. unfold HandleOrderEvent. cbn [routed mg_Value mg_Key].
  rewrite <- Hrow. cbn [order_event ob_Payload ob_AggregateID]. rewrite decode_marshalled.
  - assert (stockLines (ev_line <$> rows) = (shipment <$> rows)) as ->
      by (unfold stockLines; by rewrite <- list_fmap_compose).
    cbn [oe_EventType oe_TenantID oe_OrderID oe_Lines].
    change ("order." +:+ ToLower OrderFulfilled) with "order.fulfilled".
    rewrite (bool_decide_true ("order.fulfilled" = "order.fulfilled")) by done.
    rewrite (bool_decide_true ("" = "")) by done. cbn [negb orb].
    rewrite cut_colon_app by apply uuid_string_no_colon.
    rewrite (bool_decide_false (uuid_string t = "")) by apply uuid_string_nonempty.
    rewrite (bool_decide_false _ Ho). cbn [orb]. rewrite length_fmap.
    rewrite bool_decide_false; [by destruct (rpc_FulfillStock _ _ _) as [x' [a|e]]|].
    intros Hlen. apply Hne. by apply nil_length_inv.
  - by intros ?%fmap_nil_inv.
  - by apply Forall_fmap.
Qed.
