(* ===== verification/Float64.v ===== *)
(** * float64

    IEEE binary64 with the round-to-nearest-even operations of the Standard
    Library's SpecFloat, and their exactness on integers of at most 53 bits. *)

From Stdlib Require Import SpecFloat.
From S2P Require Import Prelude.

(** ** Operations *)

Definition float64 := spec_float.
Definition fadd : float64 → float64 → float64 := SFadd 53 1024.
Definition fsub : float64 → float64 → float64 := SFsub 53 1024.
Definition fmul : float64 → float64 → float64 := SFmul 53 1024.
Definition fdiv : float64 → float64 → float64 := SFdiv 53 1024.
Definition flt : float64 → float64 → bool := SFltb.
Definition fle : float64 → float64 → bool := SFleb.

(** float64(z) *)
Definition f_of_Z (z : Z) : float64 := binary_normalize 53 1024 z 0 false.

(** The builtin min: NaN if either is, and -0 before 0. *)
Definition fmin (a b : float64) : float64 :=
  match a, b with
  | S754_nan, _ => S754_nan
  | _, S754_nan => S754_nan
  | S754_zero s1, S754_zero s2 => S754_zero (s1 || s2)
  | _, _ => if flt b a then b else a
  end.

(** int64(f): truncation; out of range it is what amd64 gives. *)
Definition f_to_int64 (f : float64) : Z :=
  let z := match f with
           | S754_finite s m e =>
               let q := if 0 <=? e then Zpos m * 2 ^ e else Zpos m / 2 ^ (- e) in if s then - q else q
           | S754_zero _ => 0
           | _ => -9223372036854775808
           end in
  if in_int64 z then z else -9223372036854775808.

(** [d.Seconds()] *)
Definition Seconds (d : Z) : float64 :=
  fadd (f_of_Z (Z.quot d 1000000000)) (fdiv (f_of_Z (Z.rem d 1000000000)) (f_of_Z 1000000000)).

(** ** Integers *)

(** [p] shifted left by [n]. *)
Definition shl (p : positive) (n : nat) : positive := Nat.iter n xO p.

Definition digits (p : positive) : Z := Zpos (digits2_pos p).

(** The float64 of a positive integer: 53 bits of mantissa. *)
Definition float_of_pos (p : positive) : float64 :=
  S754_finite false (shl p (Z.to_nat (53 - digits p))) (digits p - 53).

Lemma iter_xO p n : Pos.iter xO p n = shl p (Pos.to_nat n).
Proof. unfold shl. by rewrite Pos2Nat.inj_iter. Qed.

Lemma iter_pos_nat {A} (f : A → A) n : ∀ x, SpecFloat.iter_pos f n x = Nat.iter (Pos.to_nat n) f x.
Proof.
  induction n as [n IH|n IH|]; intros x; cbn [SpecFloat.iter_pos]; [| |done]; rewrite !IH, <- Nat.iter_add.
  - rewrite <- Nat.iter_succ_r. f_equal. lia.
  - f_equal. lia.
Qed.

Lemma digits_shl p n : digits (shl p n) = digits p + Z.of_nat n.
Proof.
  unfold digits. induction n as [|n IH]; [cbn; lia|].
  change (digits2_pos (shl p (S n))) with (Pos.succ (digits2_pos (shl p n))). rewrite Pos2Z.inj_succ. lia.
Qed.

Lemma digits_pos p : 1 <= digits p.
Proof. unfold digits. lia. Qed.

Lemma shl_value p n : Zpos (shl p n) = Zpos p * 2 ^ Z.of_nat n.
Proof.
  induction n as [|n IH]; [cbn; lia|]. change (shl p (S n)) with (xO (shl p n)).
  rewrite Pos2Z.inj_xO, IH, Nat2Z.inj_succ, Z.pow_succ_r by lia. lia.
Qed.

Lemma digits_bounds p : 2 ^ (digits p - 1) <= Zpos p < 2 ^ digits p.
Proof.
  unfold digits. induction p as [p IH|p IH|]; cbn [digits2_pos]; rewrite ?Pos2Z.inj_succ; [| |done].
  - replace (Z.succ (Zpos (digits2_pos p)) - 1) with (Z.succ (Zpos (digits2_pos p) - 1)) by lia.
    rewrite !Z.pow_succ_r by lia. lia.
  - replace (Z.succ (Zpos (digits2_pos p)) - 1) with (Z.succ (Zpos (digits2_pos p) - 1)) by lia.
    rewrite !Z.pow_succ_r by lia. lia.
Qed.

(** Shifting zeros out loses nothing. *)
Lemma shr_zeros p j : ∀ n, (j <= n)%nat →
  Nat.iter j shr_1 (Build_shr_record (Zpos (shl p n)) false false) = Build_shr_record (Zpos (shl p (n - j))) false false.
Proof.
  induction j as [|j IH]; intros n Hn; [by rewrite Nat.sub_0_r|]. rewrite Nat.iter_succ, IH by lia.
  replace (n - j)%nat with (S (n - S j)) by lia. done.
Qed.

Lemma shr_nat p n j e :
  (j <= n)%nat →
  shr (Build_shr_record (Zpos (shl p n)) false false) e (Z.of_nat j) =
  (Build_shr_record (Zpos (shl p (n - j))) false false, e + Z.of_nat j).
Proof.
  intros Hj. destruct j as [|j]; [cbn [shr Z.of_nat]; by rewrite Nat.sub_0_r, Z.add_0_r|].
  change (Z.of_nat (S j)) with (Zpos (Pos.of_succ_nat j)). cbn [shr].
  by rewrite iter_pos_nat, SuccNat2Pos.id_succ, shr_zeros.
Qed.

(** Bringing an integer with [k] zeros to 53 bits. *)
Lemma shr_fexp_shifted p k :
  digits p <= 53 → 53 - digits p <= Z.of_nat k <= 1074 →
  shr_fexp 53 1024 (Zpos (shl p k)) (- Z.of_nat k) loc_Exact =
  (Build_shr_record (Zpos (shl p (Z.to_nat (53 - digits p)))) false false, digits p - 53).
Proof.
  intros Hd Hk. pose proof (digits_pos p). unfold shr_fexp. cbn [Zdigits2 shr_record_of_loc].
  fold (digits (shl p k)). rewrite digits_shl.
  assert (fexp 53 1024 (digits p + Z.of_nat k + - Z.of_nat k) - - Z.of_nat k = Z.of_nat (k - Z.to_nat (53 - digits p))) as ->
    by (unfold fexp, emin; lia).
  rewrite shr_nat by lia. f_equal; [|lia]. do 3 f_equal. lia.
Qed.

(** A mantissa that has its 53 bits stays. *)
Lemma shr_fexp_canonical m e :
  digits m = 53 → -1074 <= e → shr_fexp 53 1024 (Zpos m) e loc_Exact = (Build_shr_record (Zpos m) false false, e).
Proof.
  intros Hd He. unfold shr_fexp. cbn [Zdigits2 shr_record_of_loc]. fold (digits m).
  assert (fexp 53 1024 (digits m + e) - e = 0) as -> by (unfold fexp, emin; lia). done.
Qed.

Lemma round_canonical sx m e :
  digits m = 53 → -1074 <= e <= 971 → binary_round_aux 53 1024 sx (Zpos m) e loc_Exact = S754_finite sx m e.
Proof.
  intros Hd He. unfold binary_round_aux. rewrite shr_fexp_canonical by lia.
  cbn [shr_m loc_of_shr_record round_nearest_even]. rewrite shr_fexp_canonical by lia. cbn [shr_m].
  by rewrite (proj2 (Z.leb_le _ _)) by lia.
Qed.

Lemma shl_shl p a b : shl (shl p a) b = shl p (a + b).
Proof. unfold shl. by rewrite <- Nat.iter_add, Nat.add_comm. Qed.

(** Aligning to a lower exponent is a shift. *)
Lemma align_down m e e' : e' <= e → shl_align m e e' = (shl m (Z.to_nat (e - e')), e').
Proof.
  intros He. unfold shl_align. destruct (e' - e) as [|d|d] eqn:Hd; [|lia|].
  - assert (e = e') as -> by lia. by rewrite Z.sub_diag.
  - rewrite iter_xO. do 2 f_equal. lia.
Qed.

Lemma align_same m e e' : e <= e' → shl_align m e e' = (m, e).
Proof. intros He. unfold shl_align. by destruct (e' - e) eqn:Hd; [| |lia]. Qed.

Lemma float_of_pos_exact p : digits p <= 53 → f_of_Z (Zpos p) = float_of_pos p.
Proof.
  intros Hd. pose proof (digits_pos p). unfold f_of_Z, binary_normalize, binary_round. fold (digits p).
  assert (fexp 53 1024 (digits p + 0) = digits p - 53) as -> by (unfold fexp, emin; lia).
  rewrite align_down by lia. rewrite round_canonical; [|rewrite digits_shl; lia|lia]. unfold float_of_pos. do 2 f_equal. lia.
Qed.

(** The same number with [k] zeros after the point. *)
Lemma round_shifted p k :
  digits p <= 53 → 53 - digits p <= Z.of_nat k <= 1074 →
  binary_round 53 1024 false (shl p k) (- Z.of_nat k) = float_of_pos p.
Proof.
  intros Hd Hk. pose proof (digits_pos p). unfold binary_round. fold (digits (shl p k)). rewrite digits_shl.
  assert (fexp 53 1024 (digits p + Z.of_nat k + - Z.of_nat k) = digits p - 53) as -> by (unfold fexp, emin; lia).
  rewrite align_same by lia. unfold binary_round_aux. rewrite shr_fexp_shifted by done.
  cbn [shr_m loc_of_shr_record round_nearest_even].
  rewrite shr_fexp_canonical; [|rewrite digits_shl; lia|lia]. cbn [shr_m].
  by rewrite (proj2 (Z.leb_le _ _)) by lia.
Qed.

Lemma digits_mono p q : Zpos p <= Zpos q → digits p <= digits q.
Proof.
  intros Hle. destruct (Z.le_gt_cases (digits p) (digits q)) as [|Hgt]; [done|].
  pose proof (digits_bounds p) as [Hp _]. pose proof (digits_bounds q) as [_ Hq].
  assert (2 ^ digits q <= 2 ^ (digits p - 1)) by (apply Z.pow_le_mono_r; lia). lia.
Qed.

(** One less. *)
Lemma fsub_one p : digits p <= 53 → fsub (f_of_Z (Zpos p)) (f_of_Z 1) = f_of_Z (Zpos p - 1).
Proof.
  intros Hd. pose proof (digits_pos p). rewrite !float_of_pos_exact by (done || (cbn; lia)).
  unfold fsub, SFsub, float_of_pos. change (digits 1) with 1.
  rewrite Z.min_r by lia. rewrite !align_down by lia. cbn [fst cond_Zopp]. rewrite !shl_shl.
  assert (Zpos (shl p (Z.to_nat (53 - digits p) + Z.to_nat (digits p - 53 - (1 - 53)))) -
          Zpos (shl 1 (Z.to_nat (53 - 1) + Z.to_nat (1 - 53 - (1 - 53)))) = (Zpos p - 1) * 2 ^ Z.of_nat 52) as ->.
  { rewrite !shl_value. replace (Z.to_nat (53 - digits p) + Z.to_nat (digits p - 53 - (1 - 53)))%nat with 52%nat by lia.
    replace (Z.to_nat (53 - 1) + Z.to_nat (1 - 53 - (1 - 53)))%nat with 52%nat by lia. lia. }
  destruct (Zpos p - 1) as [|q|q] eqn:Hq; [done| |lia].
  assert (digits q <= 53) as Hdq by (etransitivity; [apply digits_mono|done]; lia).
  rewrite float_of_pos_exact, <- shl_value by done. change (1 - 53) with (- Z.of_nat 52). cbn [binary_normalize].
  apply round_shifted; [done|]. pose proof (digits_pos q). lia.
Qed.

(** The order of the floats is that of the integers. *)
Lemma flt_of_Z p q : digits p <= 53 → digits q <= 53 → flt (f_of_Z (Zpos p)) (f_of_Z (Zpos q)) = (Zpos p <? Zpos q).
Proof.
  intros Hp Hq. rewrite !float_of_pos_exact by done. unfold flt, SFltb, SFcompare, float_of_pos.
  destruct (Z.lt_trichotomy (digits p) (digits q)) as [Hlt|[Heq|Hgt]].
  - rewrite (proj2 (Z.compare_lt_iff _ _)) by lia. symmetry. apply Z.ltb_lt.
    apply Z.nle_gt. intros ?%digits_mono. lia.
  - rewrite Heq, Z.compare_refl. set (k := Z.to_nat (53 - digits q)).
    change (Pos.compare_cont Eq (shl p k) (shl q k)) with (Zpos (shl p k) ?= Zpos (shl q k)). rewrite !shl_value.
    rewrite <- Zmult_compare_compat_r; [done|]. apply Z.lt_gt, Z.pow_pos_nonneg; lia.
  - rewrite (proj2 (Z.compare_gt_iff _ _)) by lia. symmetry. apply Z.ltb_ge.
    apply Z.lt_le_incl, Z.nle_gt. intros ?%digits_mono. lia.
Qed.

(** Fifty-three bits. *)
Lemma digits_small p : Zpos p <= 2 ^ 53 - 1 → digits p <= 53.
Proof.
  intros Hle. destruct (Z.le_gt_cases (digits p) 53) as [|Hgt]; [done|]. pose proof (digits_bounds p) as [Hp _].
  assert (2 ^ 53 <= 2 ^ (digits p - 1)) by (apply Z.pow_le_mono_r; lia). lia.
Qed.

Lemma f_of_Z_pos p : digits p <= 53 → ∃ m e, f_of_Z (Zpos p) = S754_finite false m e.
Proof. intros Hp. rewrite float_of_pos_exact by done. by eexists _, _. Qed.
