(* ===== verification/RateLimit.v ===== *)
(** * The rate limiter (pkg/ratelimit/ratelimit.go)

    Token buckets per tenant.  Instants are nanoseconds; Go's map iteration order
    is an argument. *)

From Stdlib Require Import SpecFloat.
From S2P Require Import Prelude Float64.

(** ** State *)

Record bucket := mkBucket { tokens : float64; last : Z }.

Record Decision := mkDecision { Allowed : bool; RetryAfter : Z }.

Record Limiter := mkLimiter {
  rate : float64;
  burst : float64;
  max_buckets : Z;
  buckets : gmap string bucket;
}.

Definition NewLimited (rate burst : float64) (max : Z) : Limiter := mkLimiter rate burst max ∅.

(** New: without a bound on the buckets. *)
Definition NewUnbounded (rate burst : float64) : Limiter := NewLimited rate burst 0.

Definition Len (l : Limiter) : Z := Z.of_nat (size (buckets l)).

(** ** Operations *)

(** The scan for the least recently used bucket. *)
Definition older (acc : string * Z) (kb : string * bucket) : string * Z :=
  if bool_decide (acc.1 = "") || (last kb.2 <? acc.2) then (kb.1, last kb.2) else acc.

Definition evictLocked (order : list (string * bucket) → list (string * bucket)) (l : Limiter) : Limiter :=
  if (max_buckets l <=? 0) || (Z.of_nat (size (buckets l)) <? max_buckets l) then l
  else
    let oldestKey := (foldl older ("", 0) (order (map_to_list (buckets l)))).1 in
    if bool_decide (oldestKey = "") then l
    else mkLimiter (rate l) (burst l) (max_buckets l) (delete oldestKey (buckets l)).

Definition set_bucket (tenant : string) (b : bucket) (l : Limiter) : Limiter :=
  mkLimiter (rate l) (burst l) (max_buckets l) (<[tenant := b]> (buckets l)).

Definition Take (order : list (string * bucket) → list (string * bucket)) (now : Z) (tenant : string)
    (l : Limiter) : Limiter * Decision :=
  if fle (rate l) (S754_zero false) || fle (burst l) (S754_zero false) then (l, mkDecision true 0)
  else
    let '(l, b) :=
      match buckets l !! tenant with
      | Some b => (l, b)
      | None => (evictLocked order l, mkBucket (burst l) now)
      end in
    let elapsed := Seconds (now - last b) in
    let level := fmin (burst l) (fadd (tokens b) (fmul elapsed (rate l))) in
    if flt level (f_of_Z 1) then
      let needed := fdiv (fsub (f_of_Z 1) level) (rate l) in
      (set_bucket tenant (mkBucket level now) l,
       mkDecision false (f_to_int64 (fmul needed (f_of_Z 1000000000))))
    else (set_bucket tenant (mkBucket (fsub level (f_of_Z 1)) now) l, mkDecision true 0).

(** ** Lemmas *)

(** The scan of a non-empty map without the empty key ends at a least recently
    used bucket. *)
Lemma older_scan (kbs : list (string * bucket)) acc :
  Forall (λ kb, kb.1 ≠ "") kbs →
  let r := foldl older acc kbs in
  (acc.1 ≠ "" → r.1 ≠ "" ∧ r.2 <= acc.2 ∧ (∀ kb, kb ∈ kbs → r.2 <= last kb.2)) ∧
  (acc.1 = "" → kbs ≠ [] → r.1 ≠ "" ∧ ∀ kb, kb ∈ kbs → r.2 <= last kb.2) ∧
  (r = acc ∨ ∃ b, (r.1, b) ∈ kbs ∧ last b = r.2).
Proof.
  revert acc. induction kbs as [|[k b] kbs IH]; intros acc Hall; cbn zeta.
  { split; [|split; [done|by left]]. intros Hne. split; [done|]. split; [apply Z.le_refl|].
    by intros kb ?%elem_of_nil. }
  apply Forall_cons in Hall as [Hk Hall]. cbn [foldl fst] in *.
  destruct (IH (older acc (k, b)) Hall) as (I1 & I2 & I3). cbn zeta in I1, I2, I3.
  assert (older acc (k, b) = (k, last b) ∨ acc.1 ≠ "" ∧ acc.2 <= last b ∧ older acc (k, b) = acc) as Hold.
  { unfold older. cbn [fst snd]. destruct (decide (acc.1 = "")) as [He|He];
      [left; by rewrite bool_decide_true|]. rewrite bool_decide_false by done. cbn [orb].
    destruct (last b <? acc.2) eqn:Hlt; [by left|]. right. apply Z.ltb_ge in Hlt. done. }
  assert ((older acc (k, b)).1 ≠ "") as Hne by (destruct Hold as [-> |(? & _ & ->)]; done).
  assert ((older acc (k, b)).2 <= last b) as Hle by (destruct Hold as [-> |(_ & ? & ->)]; [apply Z.le_refl|done]).
  destruct (I1 Hne) as (R1 & R2 & R3). split; [|split].
  - intros Ha. split; [done|]. split.
    + destruct Hold as [Ho|(_ & _ & Ho)]; [|by rewrite Ho in R2 |- *].
      unfold older in Hle, R2 |- *. cbn [fst snd] in *. rewrite bool_decide_false in * by done. cbn [orb] in *.
      destruct (last b <? acc.2) eqn:Hlt; [apply Z.ltb_lt in Hlt; cbn in R2; lia|done].
    + intros kb [->|Hkb]%elem_of_cons; [cbn [snd]; lia|by apply R3].
  - intros _ _. split; [done|]. intros kb [->|Hkb]%elem_of_cons; [cbn [snd]; lia|by apply R3].
  - destruct I3 as [Hr|(b' & Hb' & Hl)]; [|right; exists b'; split; [by apply list_elem_of_further|done]].
    destruct Hold as [Ho|(_ & _ & Ho)]; [|left; congruence]. right. exists b. rewrite Hr, Ho. cbn [fst snd].
    split; [apply list_elem_of_here|done].
Qed.

(** What an eviction does. *)
Lemma evict_spec order l :
  (∀ m, order m ≡ₚ m) → 0 < max_buckets l → Z.of_nat (size (buckets l)) <= max_buckets l →
  buckets l !! "" = None →
  Z.of_nat (size (buckets (evictLocked order l))) < max_buckets l ∧
  max_buckets (evictLocked order l) = max_buckets l ∧
  ∀ k b, buckets l !! k = Some b →
    buckets (evictLocked order l) !! k = Some b ∨
    Z.of_nat (size (buckets l)) = max_buckets l ∧ buckets (evictLocked order l) !! k = None ∧
    ∀ k2 b2, buckets l !! k2 = Some b2 → last b <= last b2.
Proof.
  intros Hord Hmax Hsz Hempty. unfold evictLocked. rewrite (proj2 (Z.leb_gt _ _) Hmax). cbn [orb].
  destruct (_ <? max_buckets l) eqn:Hlt; [apply Z.ltb_lt in Hlt; by auto|]. apply Z.ltb_ge in Hlt.
  set (kbs := order (map_to_list (buckets l))).
  assert (∀ k b, (k, b) ∈ kbs ↔ buckets l !! k = Some b) as Hin.
  { intros k b. unfold kbs. rewrite Hord. apply elem_of_map_to_list. }
  assert (Forall (λ kb, kb.1 ≠ "") kbs) as Hall.
  { apply Forall_forall. intros [k b] Hkb Hk. cbn in Hk. subst k. apply Hin in Hkb. congruence. }
  assert (kbs ≠ []) as Hne.
  { intros Hnil. assert (length (map_to_list (buckets l)) = 0%nat) as Hlen
      by (rewrite <- (Hord (map_to_list _)); fold kbs; by rewrite Hnil).
    rewrite length_map_to_list in Hlen. rewrite Hlen in Hlt. cbn in Hlt. lia. }
  destruct (older_scan kbs ("", 0) Hall) as (_ & H2 & H3). cbn zeta in H2, H3.
  destruct (H2 eq_refl Hne) as [Hk Hmin]. rewrite (bool_decide_false _ Hk).
  destruct H3 as [Hr|(b & Hb & Hlb)]; [by rewrite Hr in Hk|].
  set (old := (foldl older ("", 0) kbs).1) in *. cbn [buckets max_buckets]. apply Hin in Hb.
  split; [|split; [done|]].
  - rewrite map_size_delete, Hb. assert (size (buckets l) ≠ 0%nat); [|lia].
    apply map_size_non_empty_iff. intros Hnil. by rewrite Hnil, lookup_empty in Hb.
  - intros k b0 Hk0. destruct (decide (k = old)) as [->|Hko]; [|left; by rewrite lookup_delete_ne].
    right. rewrite Hb in Hk0. injection Hk0 as ->. split; [lia|]. split; [apply lookup_delete_eq|].
    intros k2 b2 Hb2. rewrite Hlb. by apply (Hmin (k2, b2)), Hin.
Qed.

Lemma take_shape order now tenant l :
  (Take order now tenant l).1 = l ∨
  ∃ b, (Take order now tenant l).1 =
    set_bucket tenant b (match buckets l !! tenant with Some _ => l | None => evictLocked order l end).
Proof.
  unfold Take. destruct (_ || _); [by left|]. right. destruct (buckets l !! tenant) as [b0|];
    (destruct (flt _ _); [by eexists|by eexists]).
Qed.

(** *** Bursts *)

(** [k] Takes of a tenant at one instant, with their answers. *)
Fixpoint takes (order : list (string * bucket) → list (string * bucket)) (now : Z) (tenant : string) (k : nat) (l : Limiter)
  : Limiter * list bool :=
  match k with
  | O => (l, [])
  | S k =>
      let '(l, d) := Take order now tenant l in
      let '(l, ds) := takes order now tenant k l in (l, Allowed d :: ds)
  end.

(** A limiter with an integral burst of [n] and a positive finite rate. *)
Definition bursty (n : positive) (l : Limiter) : Prop :=
  burst l = f_of_Z (Zpos n) ∧ ∃ m e, rate l = S754_finite false m e.

(** No time, no tokens. *)
Lemma no_refill t r m e :
  r = S754_finite false m e → 0 <= t → (∀ p, t = Zpos p → digits p <= 53) →
  fadd (f_of_Z t) (fmul (Seconds 0) r) = f_of_Z t.
Proof.
  intros -> Ht Hd. change (Seconds 0) with (S754_zero false). cbn [fmul SFmul xorb].
  destruct t as [|p|p]; [done| |lia]. destruct (f_of_Z_pos p (Hd p eq_refl)) as (m' & e' & ->). done.
Qed.

Lemma fmin_below n t :
  digits n <= 53 → 0 <= t <= Zpos n → fmin (f_of_Z (Zpos n)) (f_of_Z t) = f_of_Z t.
Proof.
  intros Hn Ht. destruct t as [|p|p]; [| |lia].
  - destruct (f_of_Z_pos n Hn) as (m & e & ->). done.
  - assert (digits p <= 53) as Hp by (etransitivity; [apply digits_mono|done]; lia).
    pose proof (flt_of_Z p n Hp Hn) as Hlt.
    destruct (f_of_Z_pos n Hn) as (m & e & En), (f_of_Z_pos p Hp) as (m' & e' & Ep).
    unfold fmin. rewrite En, Ep in *. destruct (flt _ _); [done|]. symmetry in Hlt. apply Z.ltb_ge in Hlt.
    assert (p = n) as -> by lia. congruence.
Qed.

Lemma evict_params order l : rate (evictLocked order l) = rate l ∧ burst (evictLocked order l) = burst l.
Proof. unfold evictLocked. repeat case_match; done. Qed.

(** A Take with [t] whole tokens and no time passed. *)
Lemma take_tokens n t r m e now :
  r = S754_finite false m e → digits n <= 53 → 0 <= t <= Zpos n →
  let level := fmin (f_of_Z (Zpos n)) (fadd (f_of_Z t) (fmul (Seconds (now - now)) r)) in
  level = f_of_Z t ∧ flt level (f_of_Z 1) = (t <? 1) ∧ (1 <= t → fsub level (f_of_Z 1) = f_of_Z (t - 1)).
Proof.
  intros Hr Hn Ht. cbn zeta. rewrite Z.sub_diag.
  assert (∀ p, t = Zpos p → digits p <= 53) as Hd
    by (intros p ->; etransitivity; [apply digits_mono|done]; lia).
  rewrite (no_refill t r m e), fmin_below by (done || lia). split; [done|].
  destruct t as [|p|p]; [done| |lia]. split; [apply flt_of_Z; [by apply Hd|done]|]. intros _. by apply fsub_one, Hd.
Qed.

Lemma take_instant order now tenant l n t :
  bursty n l → digits n <= 53 → 0 <= t <= Zpos n →
  (buckets l !! tenant = Some (mkBucket (f_of_Z t) now) ∨ buckets l !! tenant = None ∧ t = Zpos n) →
  let r := Take order now tenant l in
  Allowed r.2 = (1 <=? t) ∧ bursty n r.1 ∧ buckets r.1 !! tenant = Some (mkBucket (f_of_Z (Z.max 0 (t - 1))) now).
Proof.
  intros [Hb (m & e & Hr)] Hn Ht Hbucket. cbn zeta.
  set (l' := match buckets l !! tenant with Some _ => l | None => evictLocked order l end).
  assert (burst l' = f_of_Z (Zpos n) ∧ rate l' = S754_finite false m e) as [Hb' Hr'].
  { unfold l'. destruct (buckets l !! tenant); [done|]. by destruct (evict_params order l) as [-> ->]. }
  assert (∀ b, bursty n (set_bucket tenant b l')) as Hset by (intros b; split; [done|by eexists _, _]).
  assert (∀ b, buckets (set_bucket tenant b l') !! tenant = Some b) as Hget by (intros b; apply lookup_insert_eq).
  destruct (take_tokens n t (rate l') m e now Hr' Hn Ht) as (Hlevel & Hlt & Hsub). cbn zeta in *.
  unfold Take. rewrite Hr. assert (fle (burst l) (S754_zero false) = false) as ->
    by (rewrite Hb; by destruct (f_of_Z_pos n Hn) as (? & ? & ->)).
  change (fle (S754_finite false m e) (S754_zero false)) with false. cbn [orb].
  assert (match buckets l !! tenant with
          | Some b => (l, b)
          | None => (evictLocked order l, mkBucket (burst l) now)
          end = (l', mkBucket (f_of_Z t) now)) as ->.
  { unfold l'. destruct Hbucket as [->|[-> ->]]; [done|by rewrite Hb]. }
  cbn [tokens last]. rewrite Hb', Hlt, Hlevel in *. destruct (Z.ltb_spec t 1) as [H1|H1]; cbn [fst snd Allowed].
  - assert (t = 0) as -> by lia. split; [done|]. split; [apply Hset|apply Hget].
  - rewrite Hsub by done. split; [symmetry; by apply Z.leb_le|]. split; [apply Hset|].
    rewrite Hget. do 3 f_equal. lia.
Qed.

Lemma takes_instant order now tenant n k : ∀ l t,
  bursty n l → digits n <= 53 → 0 <= t <= Zpos n →
  (buckets l !! tenant = Some (mkBucket (f_of_Z t) now) ∨ buckets l !! tenant = None ∧ t = Zpos n) →
  (takes order now tenant k l).2 = replicate (Nat.min k (Z.to_nat t)) true ++ replicate (k - Z.to_nat t) false.
Proof.
  induction k as [|k IH]; intros l t Hl Hn Ht Hb; [done|]. cbn [takes].
  destruct (take_instant order now tenant l n t Hl Hn Ht Hb) as (Ha & Hl' & Hb'). cbn zeta in *.
  destruct (Take order now tenant l) as [l' d]. cbn [fst snd] in *.
  specialize (IH l' (Z.max 0 (t - 1)) Hl' Hn ltac:(lia) (or_introl Hb')).
  destruct (takes order now tenant k l') as [l'' ds]. cbn [snd] in *. rewrite IH, Ha.
  destruct (Z.leb_spec 1 t) as [H1|H1].
  - replace (Z.to_nat t) with (S (Z.to_nat (Z.max 0 (t - 1)))) by lia. done.
  - assert (t = 0) as -> by lia. cbn. by rewrite Nat.min_0_r, Nat.sub_0_r.
Qed.

(** ** Theorems *)

(** The limiter's memory is bounded and its tenants are apart: with a bound
    on the buckets, in whatever order the map is scanned, a Take never leaves
    more buckets than the bound; another tenant's bucket is as it was before,
    or it was dropped to make room for a new tenant in a full map, and then no
    bucket had been used longer ago. *)
Theorem limiter_bounded order now tenant l :
  (∀ m, order m ≡ₚ m) → 0 < max_buckets l → Z.of_nat (size (buckets l)) <= max_buckets l →
  buckets l !! "" = None →
  let l' := (Take order now tenant l).1 in
  Z.of_nat (size (buckets l')) <= max_buckets l' ∧
  ∀ k b, k ≠ tenant → buckets l !! k = Some b →
    buckets l' !! k = Some b ∨
    buckets l' !! k = None ∧ buckets l !! tenant = None ∧ Z.of_nat (size (buckets l)) = max_buckets l ∧
    ∀ k2 b2, buckets l !! k2 = Some b2 → last b <= last b2.
Proof.
  intros Hord Hmax Hsz Hempty. cbn zeta.
  destruct (evict_spec order l Hord Hmax Hsz Hempty) as (E1 & E2 & E3).
  destruct (take_shape order now tenant l) as [->|(b & ->)]; [by auto|].
  destruct (buckets l !! tenant) as [b0|] eqn:Ht; cbn [set_bucket buckets max_buckets].
  - split; [by rewrite map_size_insert_Some by eauto|]. intros k b' Hne Hk. left. by rewrite lookup_insert_ne.
  - split.
    + rewrite E2, map_size_insert. destruct (buckets (evictLocked order l) !! tenant); cbn [id]; lia.
    + intros k b' Hne Hk. rewrite lookup_insert_ne by done. destruct (E3 k b' Hk) as [?|(? & ? & ?)]; auto.
Qed.

(** The burst is exact: with an integral burst of [n] (of at most 53 bits) and
    any positive finite rate, of any number [k] of requests that a new tenant
    makes at one instant exactly the first [n] are allowed, whichever other
    tenants are there and whichever of them is evicted. *)
Theorem burst_exact order now tenant l n k :
  Zpos n <= 2 ^ 53 - 1 → bursty n l → buckets l !! tenant = None →
  (takes order now tenant k l).2 =
  replicate (Nat.min k (Pos.to_nat n)) true ++ replicate (k - Pos.to_nat n) false.
Proof.
  intros Hn Hl Hnew. rewrite (takes_instant order now tenant n k l (Zpos n)); [done|done| |lia|by right].
  by apply digits_small.
Qed.

(** A new tenant in a full map of two. *)
Definition full_limiter : Limiter :=
  mkLimiter (f_of_Z 10) (f_of_Z 2) 2 {["a" := mkBucket (f_of_Z 1) 5; "b" := mkBucket (f_of_Z 1) 3]}.

Lemma limiter_bounded_witness : Z.of_nat (size (buckets (Take id 9 "c" full_limiter).1)) <= 2.
Proof.
  assert (max_buckets (Take id 9 "c" full_limiter).1 = 2) as Hm by (vm_compute; reflexivity).
  rewrite <- Hm. apply (limiter_bounded id 9 "c" full_limiter); [done|done| |]; vm_compute; (reflexivity || discriminate).
Defined.

Lemma burst_exact_witness : (takes id 9 "c" 4 full_limiter).2 = [true; true; false; false].
Proof.
  apply (burst_exact id 9 "c" full_limiter 2 4); [done| |reflexivity].
  split; [reflexivity|]. eexists _, _. vm_compute. reflexivity.
Defined.
