(* ===== verification/Env.v ===== *)
(** * Configuration from the environment (pkg/config, and the readers of
    settings in pkg/closer, pkg/idemprune and pkg/outboxprune)

    The environment is the function [os.Getenv].  strconv.Atoi and
    time.ParseDuration are written out, strconv.ParseFloat for decimal numbers
    and the special values; the forms it reads in hexadecimal or with underscores,
    and the quoting of a value in a message, are arguments. *)

From Stdlib Require Import SpecFloat.
From S2P Require Import Prelude GoStrings Database Float64 RateLimit Prune.

Definition Getenv : Type := string → string.

(** ** The parsers of the standard library *)

Definition digit_of (c : ascii) : option Z :=
  let n := Z.of_nat (Ascii.nat_of_ascii c) in if (48 <=? n) && (n <=? 57) then Some (n - 48) else None.

(** The digits at the head of [s], appended to the number [x]; how many there
    were; the rest. *)
Fixpoint leading_digits (s : string) (x n : Z) : Z * Z * string :=
  match s with
  | EmptyString => (x, n, s)
  | String c s' =>
      match digit_of c with
      | Some d => leading_digits s' (x * 10 + d) (n + 1)
      | None => (x, n, s)
      end
  end.

(** A sign at the head. *)
Definition sign_of (s : string) : bool * string :=
  match s with
  | String "-"%char s' => (true, s')
  | String "+"%char s' => (false, s')
  | _ => (false, s)
  end.

(** [strconv.Atoi]: an optional sign, digits, the range of int. *)
Definition Atoi (s : string) : option Z :=
  let '(neg, s) := sign_of s in
  match leading_digits s 0 0 with
  | (x, n, EmptyString) =>
      let z := if (neg : bool) then - x else x in
      if (n =? 0) || negb (in_int64 z) then None else Some z
  | _ => None
  end.

(** *** time.ParseDuration *)

Definition two63 : Z := 9223372036854775808.

Definition unit_of (u : string) : option Z :=
  if bool_decide (u = "ns") then Some 1
  else if bool_decide (u = "us") || bool_decide (u = "µs") || bool_decide (u = "μs") then Some 1000
  else if bool_decide (u = "ms") then Some 1000000
  else if bool_decide (u = "s") then Some 1000000000
  else if bool_decide (u = "m") then Some (60 * 1000000000)
  else if bool_decide (u = "h") then Some (3600 * 1000000000)
  else None.

(** leadingInt: [None] on overflow. *)
Fixpoint leadingInt (s : string) (x : Z) : option (Z * string) :=
  match s with
  | EmptyString => Some (x, s)
  | String c s' =>
      match digit_of c with
      | None => Some (x, s)
      | Some d =>
          if two63 / 10 <? x then None
          else if two63 <? x * 10 + d then None else leadingInt s' (x * 10 + d)
      end
  end.

(** leadingFraction: the digits that fit, and their scale. *)
Fixpoint leadingFraction (s : string) (x : Z) (scale : float64) (overflow : bool) : Z * float64 * string :=
  match s with
  | EmptyString => (x, scale, s)
  | String c s' =>
      match digit_of c with
      | None => (x, scale, s)
      | Some d =>
          if overflow || ((two63 - 1) / 10 <? x) || (two63 <? x * 10 + d) then leadingFraction s' x scale true
          else leadingFraction s' (x * 10 + d) (fmul scale (f_of_Z 10)) false
      end
  end.

(** The unit: everything before the next digit or point. *)
Fixpoint unit_prefix (s : string) : string * string :=
  match s with
  | EmptyString => (EmptyString, s)
  | String c s' =>
      if Ascii.eqb c "."%char || bool_decide (is_Some (digit_of c)) then (EmptyString, s)
      else let '(u, r) := unit_prefix s' in (String c u, r)
  end.

(** One group of digits and unit: its nanoseconds and the rest. *)
Definition duration_group (s : string) : option (Z * string) :=
  match leadingInt s 0 with
  | None => None
  | Some (v, s1) =>
      let '(f, scale, s2) :=
        match s1 with
        | String "."%char s1' => leadingFraction s1' 0 (f_of_Z 1) false
        | _ => (0, f_of_Z 1, s1)
        end in
      let pre := negb (Nat.eqb (String.length s1) (String.length s)) in
      let post := match s1 with
                  | String "."%char s1' => negb (Nat.eqb (String.length s2) (String.length s1'))
                  | _ => false
                  end in
      if negb pre && negb post then None
      else
        match unit_prefix s2 with
        | (u, s3) =>
            match unit_of u with
            | None => None
            | Some unit =>
                if two63 / unit <? v then None
                else
                  let v := v * unit + (if 0 <? f then f_to_int64 (fmul (f_of_Z f) (fdiv (f_of_Z unit) scale)) else 0) in
                  if two63 <? v then None else Some (v, s3)
            end
        end
  end.

(** The loop; every turn reads at least a digit and a unit, so the length of
    the text is fuel enough. *)
Fixpoint duration_groups (fuel : nat) (s : string) (d : Z) : option Z :=
  match s, fuel with
  | EmptyString, _ => Some d
  | _, O => None
  | String c _, S fuel =>
      if negb (Ascii.eqb c "."%char || bool_decide (is_Some (digit_of c))) then None
      else match duration_group s with
      | None => None
      | Some (v, s') => if two63 <? d + v then None else duration_groups fuel s' (d + v)
      end
  end.

Definition ParseDuration (s : string) : option Z :=
  let '(neg, s) := sign_of s in
  if bool_decide (s = "0") then Some 0
  else if bool_decide (s = "") then None
  else match duration_groups (String.length s) s 0 with
  | None => None
  | Some d => if (neg : bool) then Some (wrap64 (- d)) else if two63 - 1 <? d then None else Some d
  end.

(** *** strconv.ParseFloat *)

Class OtherFloat := other_float : string → option float64.

(** The nearest float64 to [m * 10 ^ e]: a quotient of integers, rounded once. *)
Definition f_of_decimal (neg : bool) (m : Z) (e : Z) : float64 :=
  match (if 0 <=? e then m * 10 ^ e else m), (if 0 <=? e then 1 else 10 ^ (- e)) with
  | Zpos p, Zpos q => SFdiv 53 1024 (S754_finite neg p 0) (S754_finite false q 0)
  | _, _ => S754_zero neg
  end.

(** The exponent at the end of a decimal. *)
Definition exponent_of (s : string) : option Z :=
  match s with
  | EmptyString => Some 0
  | String c s' =>
      if Ascii.eqb (lower_char c) "e"%char then
        let '(neg, s') := sign_of s' in
        match leading_digits s' 0 0 with
        | (x, n, EmptyString) => if n =? 0 then None else Some (if (neg : bool) then - x else x)
        | _ => None
        end
      else None
  end.

Definition is_hex (s : string) : bool :=
  match s with
  | String "0"%char (String c _) => Ascii.eqb (lower_char c) "x"%char
  | _ => false
  end.

(** A number out of range is an error, as a syntax error is. *)
Definition ParseFloat `{OtherFloat} (s : string) : option float64 :=
  let '(neg, s1) := sign_of s in
  let l := ToLower s1 in
  if bool_decide (l = "inf") || bool_decide (l = "infinity") then Some (S754_infinity neg)
  else if bool_decide (ToLower s = "nan") then Some S754_nan
  else if is_hex s1 || negb (free_of "_"%char s) then other_float s
  else
    let '(x, n, r) := leading_digits s1 0 0 in
    let '(x, n, frac, r) :=
      match r with
      | String "."%char r' => let '(x, k, r) := leading_digits r' x 0 in (x, n + k, k, r)
      | _ => (x, n, 0, r)
      end in
    match exponent_of r with
    | None => None
    | Some e =>
        if n =? 0 then None
        else match f_of_decimal neg x (e - frac) with
        | S754_infinity _ => None
        | f => Some f
        end
    end.

(** ** pkg/config/env.go *)

Definition EnvOr (env : Getenv) (key def : string) : string :=
  if bool_decide (env key = "") then def else env key.

(** The values the switches count as true. *)
Definition truthy (v : string) : bool :=
  bool_decide (v = "1") || bool_decide (v = "true") || bool_decide (v = "TRUE") || bool_decide (v = "True") ||
  bool_decide (v = "yes") || bool_decide (v = "YES") || bool_decide (v = "Yes").

Definition EnvBool (env : Getenv) (key : string) : bool := truthy (env key).

Definition EnvOrFloat `{OtherFloat} (env : Getenv) (key : string) (def : float64) : float64 :=
  if bool_decide (env key = "") then def else default def (ParseFloat (env key)).

Definition EnvDuration (env : Getenv) (key : string) (def : Z) : Z :=
  match ParseDuration (env key) with
  | Some d => if d <=? 0 then def else d
  | None => def
  end.

Definition EnvOrInt (env : Getenv) (key : string) (def : Z) : Z :=
  match Atoi (env key) with
  | Some n => if n <=? 0 then def else n
  | None => def
  end.

(** ** pkg/config/validate.go *)

(** [%q] *)
Class Quote := quote : string → string.

Section Validate.
Context `{OtherFloat} `{Quote} (env : Getenv).

Definition not_set (key : string) : go_error := ErrNew (key +:+ " is required but not set").

Definition bad_value (key what : string) : go_error := ErrNew (key +:+ "=" +:+ quote (env key) +:+ what).

Definition EnvRequired (key : string) : res string :=
  if bool_decide (env key = "") then Err (not_set key) else Ok (env key).

Definition EnvFloat (key : string) : res float64 :=
  if bool_decide (env key = "") then Err (not_set key)
  else match ParseFloat (env key) with
  | None => Err (bad_value key " is not a number")
  | Some f => if fle f (S754_zero false) then Err (bad_value key " must be > 0") else Ok f
  end.

Definition EnvPositiveInt (key : string) : res Z :=
  if bool_decide (env key = "") then Err (not_set key)
  else match Atoi (env key) with
  | None => Err (bad_value key " is not an integer")
  | Some n => if n <=? 0 then Err (bad_value key " must be > 0") else Ok n
  end.

Definition EnvDurationRequired (key : string) : res Z :=
  if bool_decide (env key = "") then Err (not_set key)
  else match ParseDuration (env key) with
  | None => Err (bad_value key " is not a duration (use e.g. 30s, 5m)")
  | Some d => if d <=? 0 then Err (bad_value key " must be > 0") else Ok d
  end.

End Validate.

Record ValidateError := mkValidateError { Problems : list string }.

Definition ValidateError_Error (e : ValidateError) : string :=
  foldl (λ msg p, msg +:+ newline +:+ "  - " +:+ p) "invalid configuration:" (Problems e).

Definition Collect `{ErrorText} (errs : list (option go_error)) : option ValidateError :=
  match omap (λ e, error_text <$> e) errs with
  | [] => None
  | problems => Some (mkValidateError problems)
  end.

(** The error of a result. *)
Definition err_of {A} (r : res A) : option go_error := match r with Ok _ => None | Err e => Some e end.

(** ** Settings of the workers *)

(** closer.DrainWindow, with [DefaultDrain] of fifteen seconds. *)
Definition DrainWindow (env : Getenv) : Z := EnvDuration env "TAPER_DRAIN" (15 * 1000000000).

(** idemprune.envDuration *)
Definition envDuration (env : Getenv) (key : string) (def : Z) : Z :=
  if bool_decide (env key = "") then def
  else match ParseDuration (env key) with
  | Some d => if 0 <? d then d else def
  | None => def
  end.

(** StartFromEnv of the two packages: the worker that is started, if any. *)
Definition idem_StartFromEnv (env : Getenv) : option PruneConfig :=
  if truthy (env "IDEMPOTENCY_PRUNE_ENABLED")
  then Some (idem_withDefaults (mkPruneConfig (envDuration env "IDEMPOTENCY_PRUNE_INTERVAL" 0)
                                  (envDuration env "IDEMPOTENCY_PRUNE_RETENTION" 0) 0))
  else None.

Definition outbox_StartFromEnv (env : Getenv) : option PruneConfig :=
  if EnvBool env "OUTBOX_PRUNE_ENABLED"
  then Some (outbox_withDefaults (mkPruneConfig (EnvDuration env "OUTBOX_PRUNE_INTERVAL" 0)
                                    (EnvDuration env "OUTBOX_PRUNE_RETENTION" 0) 0))
  else None.

(** closer.KafkaBrokers *)
Definition KafkaBrokers (v : string) : list string :=
  filter (λ a, a ≠ "") (TrimSpace <$> split_on ","%char v "").

(** ** Lemmas *)

(** *** The loop of ParseDuration ends *)

Lemma leadingInt_shorter s : ∀ x v r, leadingInt s x = Some (v, r) → (String.length r <= String.length s)%nat.
Proof.
  induction s as [|c s IH]; intros x v r; cbn [leadingInt]; [by intros [= <- <-]|].
  destruct (digit_of c); [|by intros [= <- <-]]. do 2 (case_match; [done|]). intros Hr%IH. cbn. lia.
Qed.

Lemma leadingFraction_shorter s : ∀ x scale o, (String.length (leadingFraction s x scale o).2 <= String.length s)%nat.
Proof.
  induction s as [|c s IH]; intros x scale o; cbn [leadingFraction]; [done|].
  destruct (digit_of c); [|done]. case_match; (etransitivity; [apply IH|cbn; lia]).
Qed.

Lemma unit_prefix_length s u r : unit_prefix s = (u, r) → (String.length s = String.length u + String.length r)%nat.
Proof.
  revert u r. induction s as [|c s IH]; intros u r; cbn [unit_prefix]; [by intros [= <- <-]|].
  case_match; [by intros [= <- <-]|]. destruct (unit_prefix s) as [u' r'] eqn:E. intros [= <- <-].
  cbn. by rewrite (IH u' r').
Qed.

(** A unit is not empty, so a group is not either. *)
Lemma duration_group_shorter s v r : duration_group s = Some (v, r) → (String.length r < String.length s)%nat.
Proof.
  unfold duration_group. destruct (leadingInt s 0) as [[v1 s1]|] eqn:E1; [|done]. apply leadingInt_shorter in E1.
  set (fr := match s1 with String "." _ => _ | _ => _ end).
  assert (String.length fr.2 <= String.length s1)%nat as Hfr.
  { unfold fr. repeat (case_match; try done). etransitivity; [apply leadingFraction_shorter|]. subst. cbn. lia. }
  destruct fr as [[f scale] s2]. cbn [snd] in Hfr. case_match; [done|].
  destruct (unit_prefix s2) as [u s3] eqn:Hu. apply unit_prefix_length in Hu.
  destruct (unit_of u) as [unit|] eqn:Hun; [|done].
  destruct (two63 / unit <? v1); [done|]. cbn zeta. destruct (two63 <? v1 * unit + _); [done|]. intros [= _ <-].
  assert (u ≠ "") as Hne by by intros ->. destruct u as [|c u]; [done|]. cbn in Hu. lia.
Qed.

Lemma duration_groups_fuel n : ∀ m s d,
  (String.length s <= n)%nat → (String.length s <= m)%nat → duration_groups n s d = duration_groups m s d.
Proof.
  induction n as [|n IH]; intros m s d Hn Hm; (destruct s as [|c s]; [by destruct m|]); [cbn in Hn; lia|].
  destruct m as [|m]; [cbn in Hm; lia|]. cbn [duration_groups]. case_match; [done|].
  destruct (duration_group (String c s)) as [[v r]|] eqn:Hg; [|done]. apply duration_group_shorter in Hg.
  case_match; [done|]. apply IH; lia.
Qed.

(** *** Settings *)

Lemma EnvDuration_pos env key def : 0 < def → 0 < EnvDuration env key def.
Proof. unfold EnvDuration. intros Hd. destruct (ParseDuration _) as [d|]; [|done]. destruct (Z.leb_spec d 0); lia. Qed.

(** Whatever the environment says, a started worker has a positive interval,
    retention and batch. *)
Lemma started_worker env cfg :
  idem_StartFromEnv env = Some cfg ∨ outbox_StartFromEnv env = Some cfg →
  0 < pc_Interval cfg ∧ 0 < pc_Retention cfg ∧ 0 < pc_BatchSize cfg.
Proof.
  assert (∀ r c, 0 < r → 0 < pc_Interval (prune_defaults r c) ∧ 0 < pc_Retention (prune_defaults r c) ∧
                  0 < pc_BatchSize (prune_defaults r c)) as Hd.
  { intros r c Hr. unfold prune_defaults. cbn. unfold hour. repeat split; case_match; bprop; lia. }
  intros [He|He].
  - unfold idem_StartFromEnv in He. case_match; [|done]. injection He as <-. apply Hd. unfold hour. lia.
  - unfold outbox_StartFromEnv in He. case_match; [|done]. injection He as <-. apply Hd. unfold hour. lia.
Qed.

(** What passes for a rate: a positive number, or NaN, which is not at most 0. *)
Lemma EnvFloat_ok `{OtherFloat} `{Quote} env key f :
  EnvFloat env key = Ok f → flt (S754_zero false) f = true ∨ f = S754_nan.
Proof.
  unfold EnvFloat. case_match; [done|]. destruct (ParseFloat (env key)) as [g|]; [|done].
  case_match; [done|]. intros [= <-]. destruct g as [[]|[]| |[]]; (by auto) || by vm_compute.
Qed.
