(* ===== verification/GoFlag.v ===== *)
(** * The parts of Go's packages flag and strconv that the command line uses

    strconv.ParseInt with base 0, strconv.ParseBool, and the parser of a FlagSet
    with the ExitOnError policy. *)

From S2P Require Import Prelude GoStrings Database Float64 RateLimit Prune Env.

(** ** strconv *)

Definition char_code (c : ascii) : Z := Z.of_nat (Ascii.nat_of_ascii c).

(** The value of a digit in some base. *)
Definition digit_value (c : ascii) : option Z :=
  let n := char_code c in
  if (48 <=? n) && (n <=? 57) then Some (n - 48)
  else let n := char_code (lower_char c) in
       if (97 <=? n) && (n <=? 122) then Some (n - 87) else None.

(** The digits of a number, with the underscores skipped: the value and whether
    there were any. *)
Fixpoint digits_in (base : Z) (s : string) (x : Z) (underscores : bool) : option (Z * bool) :=
  match s with
  | EmptyString => Some (x, underscores)
  | String c s' =>
      if Ascii.eqb c "_" then digits_in base s' x true
      else match digit_value c with
           | Some d => if d <? base then digits_in base s' (x * base + d) underscores else None
           | None => None
           end
  end.

(** The base prefix: the base and the digits. *)
Definition base_of (s : string) : Z * string :=
  match s with
  | String "0" (String c (String c' s')) =>
      if Ascii.eqb (lower_char c) "b" then (2, String c' s')
      else if Ascii.eqb (lower_char c) "o" then (8, String c' s')
      else if Ascii.eqb (lower_char c) "x" then (16, String c' s')
      else (8, String c (String c' s'))
  | String "0" s' => (8, s')
  | _ => (10, s)
  end.

(** underscoreOK: an underscore only between digits, or after the prefix. *)
Inductive seen_class := SeenStart | SeenDigit | SeenUnderscore | SeenOther.

Definition prefix_letter (c : ascii) : bool :=
  Ascii.eqb (lower_char c) "b" || Ascii.eqb (lower_char c) "o" || Ascii.eqb (lower_char c) "x".

Fixpoint underscores_ok (hex : bool) (s : string) (i : seen_class) : bool :=
  match s with
  | EmptyString => match i with SeenUnderscore => false | _ => true end
  | String c s' =>
      let n := char_code (lower_char c) in
      if ((48 <=? n) && (n <=? 57)) || (hex && (97 <=? n) && (n <=? 102)) then underscores_ok hex s' SeenDigit
      else if Ascii.eqb c "_"
      then match i with SeenDigit => underscores_ok hex s' SeenUnderscore | _ => false end
      else match i with SeenUnderscore => false | _ => underscores_ok hex s' SeenOther end
  end.

Definition underscoreOK (s : string) : bool :=
  match s with
  | String "0" (String c s') =>
      if prefix_letter c then underscores_ok (Ascii.eqb (lower_char c) "x") s' SeenDigit
      else underscores_ok false s SeenStart
  | _ => underscores_ok false s SeenStart
  end.

(** strconv.ParseInt(s, 0, 64) *)
Definition ParseInt0 (s : string) : option Z :=
  let '(neg, u) := sign_of s in
  if bool_decide (u = "") then None
  else
    let '(base, ds) := base_of u in
    match digits_in base ds 0 false with
    | None => None
    | Some (x, underscores) =>
        let z := if (neg : bool) then - x else x in
        if (underscores && negb (underscoreOK u)) || negb (in_int64 z) then None else Some z
    end.

(** strconv.ParseBool *)
Definition ParseBool (s : string) : option bool :=
  if bool_decide (s ∈ ["1"; "t"; "T"; "true"; "TRUE"; "True"]) then Some true
  else if bool_decide (s ∈ ["0"; "f"; "F"; "false"; "FALSE"; "False"]) then Some false
  else None.

(** ** FlagSet *)

Inductive flag_value := FlagString (s : string) | FlagInt (z : Z) | FlagBool (b : bool).

(** The flags by name, each with its value. *)
Notation FlagSet := (gmap string flag_value).

(** Value.Set: the type of the flag reads the text. *)
Definition flag_set (old : flag_value) (text : string) : option flag_value :=
  match old with
  | FlagString _ => Some (FlagString text)
  | FlagInt _ => FlagInt <$> ParseInt0 text
  | FlagBool _ => FlagBool <$> ParseBool text
  end.

(** name=value, where the equals sign is not the first character. *)
Definition name_value (name : string) : string * option string :=
  match name with
  | EmptyString => (EmptyString, None)
  | String c rest =>
      match cut_at "=" rest with
      | Some (n, v) => (String c n, Some v)
      | None => (name, None)
      end
  end.

(** What is after the dashes of an argument that is a flag. *)
Inductive flag_arg := NotFlag | EndOfFlags | BadSyntax | FlagArg (name : string) (value : option string).

Definition flag_argument (s : string) : flag_arg :=
  match s with
  | String "-" (String c rest) =>
      if Ascii.eqb c "-" && bool_decide (rest = "") then EndOfFlags
      else
        let name := if Ascii.eqb c "-" then rest else String c rest in
        match name with
        | EmptyString => BadSyntax
        | String a _ =>
            if Ascii.eqb a "-" || Ascii.eqb a "=" then BadSyntax
            else let '(n, v) := name_value name in FlagArg n v
        end
  | _ => NotFlag
  end.

(** Parse with ExitOnError: the flags, or the exit code.  The measure is the
    number of arguments. *)
Fixpoint parse_flags (args : list string) (fs : FlagSet) : FlagSet + Z :=
  match args with
  | [] => inl fs
  | s :: args' =>
      match flag_argument s with
      | NotFlag | EndOfFlags => inl fs
      | BadSyntax => inr 2
      | FlagArg name value =>
          match fs !! name with
          | None => inr (if bool_decide (name = "help") || bool_decide (name = "h") then 0 else 2)
          | Some old =>
              let put text rest := match flag_set old text with
                                   | Some new => parse_flags rest (<[name := new]> fs)
                                   | None => inr 2
                                   end in
              match old, value with
              | FlagBool _, Some v => put v args'
              | FlagBool _, None => put "true" args'
              | _, Some v => put v args'
              | _, None => match args' with [] => inr 2 | v :: rest =>
                  match flag_set old v with
                  | Some new => parse_flags rest (<[name := new]> fs)
                  | None => inr 2
                  end end
              end
          end
      end
  end.

(** ** Spelling *)

(** An assignment: one dash or two, and the value after an equals sign or in the
    next argument. *)
Record assignment := mkAssignment { as_Name : string; as_Value : string; as_Dashes : bool; as_Joined : bool }.

Definition spell_flag (a : assignment) : list string :=
  let dashes := if as_Dashes a then "--" else "-" in
  if as_Joined a then [dashes +:+ as_Name a +:+ "=" +:+ as_Value a] else [dashes +:+ as_Name a; as_Value a].

(** A name that can be spelled. *)
Definition flag_name (name : string) : bool :=
  match name with
  | EmptyString => false
  | String c rest => negb (Ascii.eqb c "-") && negb (Ascii.eqb c "=") && free_of "="%char rest
  end.

(** ** Lemmas *)

Lemma name_value_plain name : flag_name name = true → name_value name = (name, None).
Proof.
  destruct name as [|c rest]; [done|]. cbn [flag_name name_value]. intros [_ Hf]%andb_prop.
  assert (cut_at "=" rest = None) as ->; [|done].
  induction rest as [|d rest IH]; [done|]. cbn [free_of] in Hf. apply andb_prop in Hf as [Hd Hf]. apply negb_true_iff in Hd.
  cbn [cut_at strip_prefix]. rewrite Ascii.eqb_sym, Hd, (IH Hf). done.
Qed.

Lemma name_value_joined name v : flag_name name = true → name_value (name +:+ "=" +:+ v) = (name, Some v).
Proof.
  destruct name as [|c rest]; [done|]. cbn [flag_name]. intros [_ Hf]%andb_prop.
  change (String c rest +:+ "=" +:+ v) with (String c (rest +:+ String "=" v)). cbn [name_value].
  by rewrite cut_at_free.
Qed.

(** An argument that starts with the dashes and a name. *)
Lemma flag_argument_name (dd : bool) name tail :
  flag_name name = true → tail = "" ∨ (∃ v, tail = "=" +:+ v) →
  flag_argument ((if dd then "--" else "-") +:+ name +:+ tail) = let '(n, v) := name_value (name +:+ tail) in FlagArg n v.
Proof.
  intros Hn Ht. destruct name as [|c rest]; [done|]. cbn [flag_name] in Hn. apply andb_prop in Hn as [[Hc1 Hc2]%andb_prop _].
  apply negb_true_iff in Hc1, Hc2.
  change (String c rest +:+ tail) with (String c (rest +:+ tail)). destruct dd.
  - change ("--" +:+ String c (rest +:+ tail)) with (String "-" (String "-" (String c (rest +:+ tail)))).
    cbn [flag_argument]. rewrite Ascii.eqb_refl, bool_decide_false by done. cbn [andb]. by rewrite Hc1, Hc2.
  - change ("-" +:+ String c (rest +:+ tail)) with (String "-" (String c (rest +:+ tail))).
    cbn [flag_argument]. rewrite Hc1. cbn [andb]. by rewrite Hc1, Hc2.
Qed.

(** One assignment of a string flag. *)
Lemma parse_assignment a rest fs old :
  flag_name (as_Name a) = true → fs !! as_Name a = Some (FlagString old) →
  parse_flags (spell_flag a ++ rest) fs = parse_flags rest (<[as_Name a := FlagString (as_Value a)]> fs).
Proof.
  intros Hn Hf. unfold spell_flag. destruct (as_Joined a); cbn [app parse_flags].
  - rewrite (flag_argument_name (as_Dashes a)) by (done || by right; eexists). rewrite name_value_joined by done.
    by rewrite Hf.
  - rewrite <- (append_nil_r (as_Name a)) at 1.
    rewrite (flag_argument_name (as_Dashes a) (as_Name a) "") by (done || by left). rewrite append_nil_r, name_value_plain by done.
    by rewrite Hf.
Qed.

(** The string flags of a set, given in any order and spelling: the last one
    counts, and the arguments after them are read as before. *)
Lemma parse_assignments (l : list assignment) : ∀ rest (fs : gmap string flag_value),
  Forall (λ a, flag_name (as_Name a) = true ∧ ∃ old, fs !! as_Name a = Some (FlagString old)) l →
  parse_flags (concat (spell_flag <$> l) ++ rest) fs =
  parse_flags rest (foldl (λ fs a, <[as_Name a := FlagString (as_Value a)]> fs) fs l).
Proof.
  induction l as [|a l IH]; intros rest fs Hall; [done|].
  apply Forall_cons in Hall as [[Hn [old Hf]] Hall]. cbn [fmap list_fmap concat foldl]. rewrite <- app_assoc.
  rewrite (parse_assignment a _ fs old Hn Hf). apply IH. eapply Forall_impl; [exact Hall|].
  intros b [Hb [old' Hb']]. split; [done|]. destruct (decide (as_Name a = as_Name b)) as [->|Hne].
  - rewrite lookup_insert_eq. by eexists.
  - rewrite lookup_insert_ne by done. by eexists.
Qed.
