(* ===== verification/DlqTool.v ===== *)
(** * The dead letter tool (cmd/dlqreplay/main.go)

    What the tool puts back on a topic is, for the handlers of the two reactors,
    the message that was dead-lettered; the command line, inspect, and replay over
    a broker that keeps the offsets of consumer groups. *)

From stdpp Require Import pretty.
From S2P Require Import Prelude GoStrings Database StockApi StockClient Payment Events Streaming.
From S2P Require Import ChannelSync Fulfillment GoFlag.

(** ** Dead letters come back *)

Section Replay.
Context `{EnvelopeCodec} `{ErrorText} `{JsonText}.

(** The dead letters of a DLQ that the tool puts back. *)
Definition letters (order : list (string * string) → list (string * string)) (dlq : list KMessage) : list KMessage :=
  omap (λ m, match ParseEnvelope (km_Value m) with Ok e => Some (replay_message order e) | Err _ => None end) dlq.

Lemma replay_all order dlq : ∀ out n s,
  ∃ n' s', replay order "" false (λ _, Written) dlq out n s = (out ++ letters order dlq, Some (n', s')) ∧
    n' + s' = n + s + Z.of_nat (length dlq) ∧ n' = n + Z.of_nat (length (letters order dlq)).
Proof.
  induction dlq as [|m dlq IH]; intros out n s; cbn [replay letters omap list_omap].
  { exists n, s. rewrite app_nil_r. cbn. split; [done|]. split; lia. }
  fold (letters order dlq). destruct (ParseEnvelope (km_Value m)) as [e|e].
  - rewrite (bool_decide_true ("" = "")) by done. cbn [negb andb write].
    destruct (IH (out ++ [replay_message order e]) (n + 1) s) as (n' & s' & -> & I1 & I2).
    exists n', s'. rewrite <- app_assoc. cbn [app length]. split; [done|]. split; lia.
  - destruct (IH out n (s + 1)) as (n' & s' & -> & I1 & I2). exists n', s'. cbn [length]. split; [done|]. split; lia.
Qed.

Lemma parse_dead_letter `{!EnvelopeLaws} cfg env msg cause n v :
  envelope_clean (envelope_of cfg env msg cause n) → km_Topic msg ≠ "" → km_Value msg = Some v →
  ParseEnvelope (Some (env_marshal (envelope_of cfg env msg cause n))) = Ok (envelope_of cfg env msg cause n).
Proof.
  intros Hclean Ht Hv. unfold ParseEnvelope. cbn [mbind option_bind]. rewrite (env_roundtrip _ Hclean).
  cbn [envelope_of OriginalTopic Payload]. rewrite (bool_decide_false _ Ht), Hv. by rewrite bool_decide_false.
Qed.

(** C35. A dead letter is not lost: replaying a DLQ that holds the envelope of a
    message (with a topic, a value, distinct header names and texts in UTF-8)
    produces a message with the same topic, key, value and header values, and
    the reactors do with it exactly what they would do with the original, so
    that an event that was processed before is recognised by its id. *)
Theorem replay_is_redelivery `{!EnvelopeLaws} `{UuidText} `{ZText} {Y} `{FulfillClient Y}
    order cfg env msg cause n v m dlq :
  (∀ l, order l ≡ₚ l) → envelope_clean (envelope_of cfg env msg cause n) →
  km_Topic msg ≠ "" → km_Value msg = Some v → NoDup (km_Headers msg).*1 →
  km_Value m = Some (env_marshal (envelope_of cfg env msg cause n)) → m ∈ dlq →
  ∃ msg', msg' ∈ (replay order "" false (λ _, Written) dlq [] 0 0).1 ∧
    km_Topic msg' = km_Topic msg ∧ km_Key msg' = km_Key msg ∧ km_Value msg' = Some v ∧
    (∀ k, headerValue (km_Headers msg') k = headerValue (km_Headers msg) k) ∧
    (headerValue (km_Headers msg) "id" ≠ "" →
     ∀ cenv ctx w, HandleStockEvent cenv ctx (as_message msg') w = HandleStockEvent cenv ctx (as_message msg) w) ∧
    ∀ ctx (y : Y), HandleOrderEvent ctx (as_message msg') y = HandleOrderEvent ctx (as_message msg) y.
Proof.
  intros Hord Hclean Ht Hv Hnd Hm Hin. set (e := envelope_of cfg env msg cause n) in *.
  pose proof (parse_dead_letter cfg env msg cause n v Hclean Ht Hv) as Hp. fold e in Hp.
  exists (replay_message order e). destruct (replay_all order dlq [] 0 0) as (n' & s' & -> & _).
  assert (∀ k, headerValue (km_Headers (replay_message order e)) k = headerValue (km_Headers msg) k) as Hh.
  { intros k. cbn. by apply replayed_headers. }
  split.
  { cbn [fst app]. apply list_elem_of_omap. exists m. split; [done|]. by rewrite Hm, Hp. }
  split; [done|]. split; [done|]. split; [done|]. split; [done|]. split.
  - intros Hid cenv ctx w. unfold HandleStockEvent, event_id, event_type.
    cbn [as_message mg_Headers mg_Value mg_Key mg_Topic mg_Offset]. rewrite !Hh.
    rewrite (bool_decide_false _ Hid). cbn [replay_message km_Key km_Value e envelope_of OriginalKey Payload]. done.
  - intros ctx y. unfold HandleOrderEvent. cbn [as_message mg_Key mg_Value].
    cbn [replay_message km_Key km_Value e envelope_of OriginalKey Payload]. done.
Qed.

End Replay.

(** ** The broker *)

(** The messages of the DLQ topics, the offset a group has committed on a topic,
    and what the tool has produced. *)
Record Broker := mkBroker {
  bk_dlq : gmap string (list KMessage);
  bk_offsets : gmap (string * string) nat;
  bk_out : list KMessage;
}.

(** What surrounds a run: the clock (nanoseconds), how many messages are fetched
    before the time is over or three fetches fail in a row, whether commits go
    through, the order of header maps, and the outcome of writes. *)
Record ToolEnv := mkToolEnv {
  tv_now : Z;
  tv_reach : nat;
  tv_commits : bool;
  tv_order : list (string * string) → list (string * string);
  tv_writes : nat → write_outcome;
}.

Definition offset_of (topic group : string) (b : Broker) : nat := default 0%nat (bk_offsets b !! (group, topic)).

Definition unread (topic group : string) (b : Broker) : list KMessage :=
  drop (offset_of topic group b) (default [] (bk_dlq b !! topic)).

(** readAll: fetch and commit from the group's offset (the first message for a new
    group). *)
Definition read_group (env : ToolEnv) (topic group : string) (b : Broker) : Broker * list KMessage :=
  let msgs := readAll ((Some <$> take (tv_reach env) (unread topic group b)) ++ replicate 3 None) 0 in
  let offset := if tv_commits env then (offset_of topic group b + length msgs)%nat else offset_of topic group b in
  (mkBroker (bk_dlq b) (<[(group, topic) := offset]> (bk_offsets b)) (bk_out b), msgs).

Section Tool.
Context `{EnvelopeCodec}.

(** ** inspect *)

(** The lines it prints; the formats of error, time and payload (%q, RFC 3339 and
    the first 120 runes) are not written out. *)
Inductive inspect_line :=
| NoMessages (topic : string)
| AndMore (n : Z)
| NotEnvelope (i : Z) (key : string)
| Shown (i : Z) (e : Envelope).

Fixpoint inspect_lines (limit i total : Z) (msgs : list KMessage) : list inspect_line :=
  match msgs with
  | [] => []
  | m :: ms =>
      if limit <=? i then [AndMore (total - limit)]
      else (match ParseEnvelope (km_Value m) with
            | Err _ => NotEnvelope i (km_Key m)
            | Ok e => Shown i e
            end) :: inspect_lines limit (i + 1) total ms
  end.

Definition inspect (env : ToolEnv) (topic group : string) (limit : Z) (b : Broker) : Broker * list inspect_line :=
  let '(b, msgs) := read_group env topic group b in
  (b, match msgs with
      | [] => [NoMessages topic]
      | _ => inspect_lines limit 0 (Z.of_nat (length msgs)) msgs
      end).

(** ** The command line *)

Definition tool_flags : FlagSet :=
  list_to_map [("brokers", FlagString "localhost:29092"); ("topic", FlagString ""); ("group", FlagString "");
               ("key", FlagString ""); ("limit", FlagInt 20); ("dry-run", FlagBool false)].

Definition flag_text (name : string) (fs : FlagSet) : string :=
  match fs !! name with Some (FlagString s) => s | _ => "" end.

Definition flag_int (name : string) (fs : FlagSet) : Z := match fs !! name with Some (FlagInt z) => z | _ => 0 end.

Definition flag_bool (name : string) (fs : FlagSet) : bool := match fs !! name with Some (FlagBool b) => b | _ => false end.

Definition ephemeralGroup (now : Z) (g : string) : string :=
  if bool_decide (g = "") then "dlqreplay-" +:+ pretty now else g.

Definition dryRunSuffix (dryRun : bool) : string := if dryRun then " (dry-run, nothing produced)" else "".

(** How the process ends: an exit code, the lines of inspect, or the counts of
    replay with the suffix of its last line. *)
Inductive tool_end :=
| Exited (code : Z)
| Inspected (lines : list inspect_line)
| Replayed (replayed skipped : Z) (suffix : string).

Definition usage : tool_end := Exited 2.

(** replay with the messages of the group. *)
Definition replay_group (env : ToolEnv) (topic group key : string) (dryRun : bool) (b : Broker) : Broker * tool_end :=
  let '(b, msgs) := read_group env topic group b in
  match replay (tv_order env) key dryRun (tv_writes env) msgs (bk_out b) 0 0 with
  | (out, None) => (mkBroker (bk_dlq b) (bk_offsets b) out, Exited 1)
  | (out, Some (n, s)) => (mkBroker (bk_dlq b) (bk_offsets b) out, Replayed n s (dryRunSuffix dryRun))
  end.

(** main: [args] without the program's name. *)
Definition dlqreplay_main (env : ToolEnv) (args : list string) (b : Broker) : Broker * tool_end :=
  match args with
  | [] => (b, usage)
  | cmd :: rest =>
      match parse_flags rest tool_flags with
      | inr code => (b, Exited code)
      | inl fs =>
          let topic := flag_text "topic" fs in
          let group := ephemeralGroup (tv_now env) (flag_text "group" fs) in
          if bool_decide (topic = "") then (b, usage)
          else if bool_decide (cmd = "inspect") then
            let '(b, lines) := inspect env topic group (flag_int "limit" fs) b in (b, Inspected lines)
          else if bool_decide (cmd = "replay") then
            replay_group env topic group (flag_text "key" fs) (flag_bool "dry-run" fs) b
          else (b, usage)
      end
  end.

(** ** Specification *)

Definition string_flags : list string := ["brokers"; "topic"; "group"; "key"].

(** The value the last assignment of a flag gives it. *)
Definition assigned (name def : string) (l : list assignment) : string :=
  foldl (λ v a, if bool_decide (as_Name a = name) then as_Value a else v) def l.

Definition command (cmd : string) (l : list assignment) (dry : bool) : list string :=
  cmd :: concat (spell_flag <$> l) ++ (if dry then ["-dry-run"] else []).

(** ** Lemmas *)

Lemma readAll_all (l : list KMessage) : readAll ((Some <$> l) ++ replicate 3 None) 0 = l.
Proof. induction l as [|m l IH]; [done|]. cbn [fmap list_fmap app readAll]. f_equal. exact IH. Qed.

Lemma assigned_flag (l : list assignment) name : ∀ (fs : gmap string flag_value) v,
  fs !! name = Some (FlagString v) →
  foldl (λ fs a, <[as_Name a := FlagString (as_Value a)]> fs) fs l !! name = Some (FlagString (assigned name v l)).
Proof.
  induction l as [|a l IH]; intros fs v Hf; [done|]. cbn [foldl assigned]. apply IH.
  destruct (decide (as_Name a = name)) as [<-|Hne].
  - by rewrite lookup_insert_eq, bool_decide_true.
  - by rewrite lookup_insert_ne, bool_decide_false.
Qed.

Lemma unassigned_flag (l : list assignment) name : ∀ (fs : gmap string flag_value),
  Forall (λ a, as_Name a ≠ name) l →
  foldl (λ fs a, <[as_Name a := FlagString (as_Value a)]> fs) fs l !! name = fs !! name.
Proof.
  induction l as [|a l IH]; intros fs Hall; [done|]. apply Forall_cons in Hall as [Ha Hall]. cbn [foldl].
  rewrite IH by done. by rewrite lookup_insert_ne.
Qed.

(** The flags of a command whose string flags are spelled in any way. *)
Lemma command_flags (l : list assignment) (dry : bool) :
  Forall (λ a, as_Name a ∈ string_flags) l →
  ∃ fs, parse_flags (concat (spell_flag <$> l) ++ (if dry then ["-dry-run"] else [])) tool_flags = inl fs ∧
    (∀ name v, name ∈ string_flags → tool_flags !! name = Some (FlagString v) →
       flag_text name fs = assigned name v l) ∧
    flag_int "limit" fs = 20 ∧ flag_bool "dry-run" fs = dry.
Proof.
  intros Hall. set (fs1 := foldl (λ fs a, <[as_Name a := FlagString (as_Value a)]> fs) (tool_flags : gmap string flag_value) l).
  assert (∀ name, name ∈ string_flags → flag_name name = true ∧ ∃ v, tool_flags !! name = Some (FlagString v)) as Hknown.
  { intros name Hn. unfold string_flags in Hn.
    repeat (apply elem_of_cons in Hn as [->|Hn]; [split; [reflexivity|by eexists]|]). by apply elem_of_nil in Hn. }
  rewrite (parse_assignments l).
  2: { eapply Forall_impl; [exact Hall|]. intros a Ha. by apply Hknown. }
  fold fs1. assert (Forall (λ a, as_Name a ≠ "limit") l ∧ Forall (λ a, as_Name a ≠ "dry-run") l) as [Hl Hd].
  { split; (eapply Forall_impl; [exact Hall|]); intros a Ha E; cbn in Ha; rewrite E in Ha; unfold string_flags in Ha;
      repeat (apply elem_of_cons in Ha as [?|Ha]; [done|]); by apply elem_of_nil in Ha. }
  pose proof (unassigned_flag l "limit" tool_flags Hl) as El. pose proof (unassigned_flag l "dry-run" tool_flags Hd) as Ed.
  fold fs1 in El, Ed.
  assert (∀ name v, tool_flags !! name = Some (FlagString v) → fs1 !! name = Some (FlagString (assigned name v l))) as Hs
    by (intros name v; apply assigned_flag).
  destruct dry.
  - exists (<["dry-run" := FlagBool true]> fs1).
    assert (parse_flags ["-dry-run"] fs1 = inl (<["dry-run" := FlagBool true]> fs1)) as ->.
    { cbn [parse_flags]. change (flag_argument "-dry-run") with (FlagArg "dry-run" None). cbn iota. by rewrite Ed. }
    split; [done|]. unfold flag_text, flag_int, flag_bool. rewrite lookup_insert_eq, lookup_insert_ne, El by done.
    split; [|done]. intros name v Hn Hv. rewrite lookup_insert_ne; [by rewrite (Hs name v Hv)|].
    intros E. rewrite <- E in Hv. discriminate Hv.
  - exists fs1. split; [done|]. unfold flag_text, flag_int, flag_bool. rewrite El, Ed. split; [|done].
    intros name v Hn Hv. by rewrite (Hs name v Hv).
Qed.

Lemma read_group_spec env topic group b :
  read_group env topic group b =
  (mkBroker (bk_dlq b)
     (<[(group, topic) := if tv_commits env
        then (offset_of topic group b + length (take (tv_reach env) (unread topic group b)))%nat
        else offset_of topic group b]> (bk_offsets b)) (bk_out b),
   take (tv_reach env) (unread topic group b)).
Proof. unfold read_group. by rewrite readAll_all. Qed.

(** What a group has not read after a run that read to the end. *)
Lemma read_to_end env topic group b out :
  tv_commits env = true → (length (unread topic group b) <= tv_reach env)%nat →
  unread topic group (mkBroker (bk_dlq b) (bk_offsets (read_group env topic group b).1) out) = [].
Proof.
  intros Hc Hreach. rewrite read_group_spec. cbn [fst bk_offsets bk_dlq]. rewrite Hc, take_ge by done.
  unfold unread at 1, offset_of at 1. cbn [bk_dlq bk_offsets]. rewrite lookup_insert_eq. cbn [default].
  apply drop_ge. unfold unread. rewrite length_drop. cbn. lia.
Qed.

Lemma main_replay env l dry b :
  Forall (λ a, as_Name a ∈ string_flags) l → assigned "topic" "" l ≠ "" →
  dlqreplay_main env (command "replay" l dry) b =
  replay_group env (assigned "topic" "" l) (ephemeralGroup (tv_now env) (assigned "group" "" l)) (assigned "key" "" l) dry b.
Proof.
  intros Hall Ht. destruct (command_flags l dry Hall) as (fs & Hp & Hs & _ & Hd). unfold dlqreplay_main, command.
  rewrite Hp, Hd. rewrite (Hs "topic" ""), (Hs "group" ""), (Hs "key" "") by (reflexivity || unfold string_flags; set_solver).
  by rewrite (bool_decide_false _ Ht).
Qed.

Lemma main_inspect env l b :
  Forall (λ a, as_Name a ∈ string_flags) l → assigned "topic" "" l ≠ "" →
  dlqreplay_main env (command "inspect" l false) b =
  let '(b', lines) := inspect env (assigned "topic" "" l) (ephemeralGroup (tv_now env) (assigned "group" "" l)) 20 b in
  (b', Inspected lines).
Proof.
  intros Hall Ht. destruct (command_flags l false Hall) as (fs & Hp & Hs & Hl & _). unfold dlqreplay_main, command.
  rewrite Hp, Hl. rewrite (Hs "topic" ""), (Hs "group" "") by (reflexivity || unfold string_flags; set_solver).
  by rewrite (bool_decide_false _ Ht).
Qed.

Lemma dry_replay order key writes msgs : ∀ out n s, (replay order key true writes msgs out n s).1 = out.
Proof.
  induction msgs as [|m msgs IH]; intros out n s; [done|]. cbn [replay].
  destruct (ParseEnvelope (km_Value m)); [|apply IH]. destruct (_ && _); apply IH.
Qed.

(** ** Theorems *)

(** The replay command: however its flags are spelled and ordered, the last value
    of each counts; a dry run produces nothing; a run whose writes succeed and
    that has no key puts back exactly the dead letters the group had not read, in
    their order, and counts every message; and either leaves the group at the end
    of the topic when it has read that far. *)
Theorem replay_command env l dry b b' r :
  Forall (λ a, as_Name a ∈ string_flags) l → assigned "topic" "" l ≠ "" →
  dlqreplay_main env (command "replay" l dry) b = (b', r) →
  let topic := assigned "topic" "" l in
  let group := ephemeralGroup (tv_now env) (assigned "group" "" l) in
  let msgs := take (tv_reach env) (unread topic group b) in
  bk_dlq b' = bk_dlq b ∧
  (dry = true → bk_out b' = bk_out b) ∧
  (dry = false → assigned "key" "" l = "" → tv_writes env = (λ _, Written) →
     bk_out b' = bk_out b ++ letters (tv_order env) msgs ∧
     ∃ n s, r = Replayed n s "" ∧ n + s = Z.of_nat (length msgs) ∧ n = Z.of_nat (length (letters (tv_order env) msgs))) ∧
  (tv_commits env = true → (length (unread topic group b) <= tv_reach env)%nat → unread topic group b' = []).
Proof.
  intros Hall Ht Hrun topic group msgs. rewrite (main_replay env l dry b Hall Ht) in Hrun. fold topic group in Hrun.
  pose proof (read_to_end env topic group b) as Hend. unfold replay_group in Hrun. rewrite read_group_spec in Hrun, Hend.
  cbn [fst bk_offsets bk_dlq bk_out] in Hrun, Hend. fold msgs in Hrun, Hend.
  destruct (replay (tv_order env) (assigned "key" "" l) dry (tv_writes env) msgs (bk_out b) 0 0) as [out res] eqn:Hrep.
  assert (b' = mkBroker (bk_dlq b) (<[(group, topic) := if tv_commits env
             then (offset_of topic group b + length msgs)%nat else offset_of topic group b]> (bk_offsets b)) out ∧
          r = match res with None => Exited 1 | Some (n, s) => Replayed n s (dryRunSuffix dry) end) as [-> ->].
  { destruct res as [[n s]|]; by injection Hrun as <- <-. }
  cbn [bk_dlq bk_out]. split; [done|]. split; [|split].
  - intros ->. pose proof (dry_replay (tv_order env) (assigned "key" "" l) (tv_writes env) msgs (bk_out b) 0 0) as Hd.
    by rewrite Hrep in Hd.
  - intros -> Hk Hw. rewrite Hk, Hw in Hrep. destruct (replay_all (tv_order env) msgs (bk_out b) 0 0) as (n & s & E & Hns & Hn).
    rewrite Hrep in E. injection E as -> ->. split; [done|]. exists n, s. split; [done|]. split; lia.
  - intros Hc Hr. by apply Hend.
Qed.

(** Inspecting spends the group: readAll commits what it shows, so that after an
    inspection of the whole topic under a named group a replay under the same
    group finds nothing to put back. *)
Theorem inspect_spends_group env env' l b g topic :
  Forall (λ a, as_Name a ∈ string_flags) l → assigned "topic" "" l = topic → assigned "group" "" l = g →
  topic ≠ "" → g ≠ "" → tv_commits env = true → (length (unread topic g b) <= tv_reach env)%nat →
  ∃ b1 lines b2, dlqreplay_main env (command "inspect" l false) b = (b1, Inspected lines) ∧
    dlqreplay_main env' (command "replay" l false) b1 = (b2, Replayed 0 0 "") ∧ bk_out b2 = bk_out b.
Proof.
  intros Hall Ht Hg Hne Hgne Hc Hr. assert (assigned "topic" "" l ≠ "") as Ht' by congruence.
  rewrite (main_inspect env l b Hall Ht'). unfold ephemeralGroup at 1. rewrite Hg, Ht, (bool_decide_false _ Hgne).
  unfold inspect. pose proof (read_to_end env topic g b (bk_out b) Hc Hr) as Hend.
  rewrite read_group_spec in *. cbn [fst bk_offsets bk_dlq] in Hend.
  eexists _, _. eexists. split; [reflexivity|]. rewrite (main_replay env' l false _ Hall Ht').
  unfold ephemeralGroup. rewrite Hg, Ht, (bool_decide_false _ Hgne). unfold replay_group. rewrite read_group_spec, Hend, take_nil.
  cbn [replay]. by split.
Qed.

End Tool.
