(* ===== verification/Workers.v ===== *)
(** * The background workers of the processes

    The passes of the reconciliation worker, of the two retention workers and of
    the order process's resume loop with what they log, the loops each process
    starts from its environment, and what these loops leave alone. *)

From S2P Require Import Prelude Database StockDb Reconcile StockSteps StockRefine Prune Closer Loops.
From S2P Require Import StockApi StockClient ReservationService CircuitBreaker Payment OrderDb OrderService Float64 Env.

(** ** Passes *)

(** The lines the workers log. *)
Inductive pass_log :=
| LogFailed (e : go_error)        (* "pass failed: %v" *)
| LogDrifted (n : Z)              (* "%d location(s) drifted; audit locks applied" *)
| LogNoDrift                      (* "no drift" *)
| LogDeleted (n : Z)              (* "deleted %d rows" *)
| LogNothing.

(** Worker.pass of the reconciliation. *)
Definition reconcile_pass (interfere : StockDB → StockDB) (now : Z) (d : StockDB) : StockDB * pass_log :=
  match Reconcile_with interfere now d with
  | (d', Err e) => (d', LogFailed e)
  | (d', Ok drifts) =>
      (d', if (0 <? Z.of_nat (length drifts)) then LogDrifted (Z.of_nat (length drifts)) else LogNoDrift)
  end.

(** What the retention workers log of a batch. *)
Definition prune_log (r : res Z) : pass_log :=
  match r with
  | Err e => LogFailed e
  | Ok deleted => if 0 <? deleted then LogDeleted deleted else LogNothing
  end.

Section Prunes.
Context {D : Type} `{PgStore D}.

(** Worker.sweepOnce of idemprune. *)
Definition idem_sweepOnce (plan : keys_plan) (cfg : PruneConfig) (env : PruneEnv) (d : D) : D * pass_log :=
  let '(d', r) := idem_PruneBatch plan cfg env d in (d', prune_log r).

(** Worker.pruneOnce of outboxprune. *)
Definition outbox_pruneOnce (plan : list OutboxRow → list OutboxRow) (cfg : PruneConfig) (env : PruneEnv) (d : D)
  : D * pass_log :=
  let '(d', r) := outbox_PruneBatch plan cfg env d in (d', prune_log r).

(** What surrounds one pass: the order the database reads rows in, the clock,
    the transaction and the advisory lock, and what other transactions commit
    while the reconciliation reads. *)
Record PassEnv := mkPassEnv {
  pe_keys : keys_plan;
  pe_rows : list OutboxRow → list OutboxRow;
  pe_prune : PruneEnv;
  pe_between : D → D;
}.

Definition idem_pass (cfg : PruneConfig) (e : PassEnv) (d : D) : D := (idem_sweepOnce (pe_keys e) cfg (pe_prune e) d).1.
Definition outbox_pass (cfg : PruneConfig) (e : PassEnv) (d : D) : D := (outbox_pruneOnce (pe_rows e) cfg (pe_prune e) d).1.

(** The loops idemprune.StartFromEnv and outboxprune.StartFromEnv start. *)
Definition prune_loops (env : Getenv) : list (PassEnv → D → D) :=
  option_list (outbox_pass <$> outbox_StartFromEnv env) ++ option_list (idem_pass <$> idem_StartFromEnv env).

End Prunes.
Arguments PassEnv : clear implicits.

(** ** The loops of a process *)

(** Worker.Run of the reconciliation: the interval, unless it is disabled. *)
Definition reconcile_interval (env : Getenv) : option Z :=
  if EnvBool env "RECONCILE_ENABLED" then Some (EnvDuration env "RECONCILE_INTERVAL" (24 * hour)) else None.

Definition stock_reconcile (e : PassEnv StockDB) (d : StockDB) : StockDB :=
  (reconcile_pass (pe_between e) (pr_now (pe_prune e)) d).1.

(** The loops of cmd/stock, in the order main starts them. *)
Definition stock_loops (env : Getenv) : list (PassEnv StockDB → StockDB → StockDB) :=
  prune_loops env ++ match reconcile_interval env with Some _ => [stock_reconcile] | None => [] end.

(** The resume loop of cmd/order: a hundred sagas every ten seconds, if it is
    enabled. *)
Definition resume_enabled (env : Getenv) : bool :=
  negb (bool_decide (EnvOr env "SAGA_RESUME_ENABLED" "" = "")) && negb (bool_decide (EnvOr env "SAGA_RESUME_ENABLED" "" = "0")).

Definition resume_batch : Z := 100.
Definition resume_interval : Z := 10 * 1000000000.

Record ResumeEnv := mkResumeEnv {
  rm_scan : TxEnv;
  rm_locked : uuid → bool;
  rm_sagas : okey → SagaEnv;
  rm_ctx : Ctx;
}.

Definition resume_pass `{UuidText} `{OrderHashes} `{ErrorText} {X} `{StockClient X} `{ReservationClient X}
    (e : ResumeEnv) (w : OrderWorld X) : OrderWorld X * option go_error :=
  ResumePendingSagas (rm_scan e) (rm_locked e) (rm_sagas e) (rm_ctx e) resume_batch w.

(** ** Specification *)

(** What no maintenance may touch: the quantities, the events, and the keys and
    messages that are young. *)
Record untouched (since : Z) (d d' : StockDB) : Prop := {
  ut_levels k : level_buckets <$> stock_levels d' !! k = level_buckets <$> stock_levels d !! k;
  ut_events : stock_events d' = stock_events d;
  ut_keys k row : stock_idem d !! k = Some row → since <= idem_created_at row → stock_idem d' !! k = Some row;
  ut_outbox r : r ∈ stock_outbox d → since <= ob_CreatedAt r → r ∈ stock_outbox d';
}.

(** A pass while nothing else commits, no retention reaching past [since]. *)
Record calm_pass (env : Getenv) (since : Z) (e : PassEnv StockDB) : Prop := {
  cp_between : ∀ d, pe_between e d = d;
  cp_keys : ∀ l, pe_keys e l ≡ₚ l;
  cp_rows : ∀ l, pe_rows e l ≡ₚ l;
  cp_since : ∀ cfg, idem_StartFromEnv env = Some cfg ∨ outbox_StartFromEnv env = Some cfg →
    cutoff cfg (pe_prune e) <= since;
}.

(** ** Lemmas *)

Lemma untouched_refl since d : untouched since d d.
Proof. by split. Qed.

Lemma untouched_trans since d1 d2 d3 : untouched since d1 d2 → untouched since d2 d3 → untouched since d1 d3.
Proof.
  intros [L1 E1 K1 O1] [L2 E2 K2 O2]. split; [intros k; by rewrite L2|congruence|auto|auto].
Qed.

(** The outbox keeps the young rows. *)
Lemma delete_outbox_keeps plan before limit (d : StockDB) r :
  (∀ l, plan l ≡ₚ l) → NoDup (ob_ID <$> stock_outbox d) → r ∈ stock_outbox d → before <= ob_CreatedAt r →
  r ∈ stock_outbox (delete_outbox plan before limit d).1.
Proof.
  intros Hplan Hnd Hr Hyoung. cbn [delete_outbox fst set_outbox stock_store stock_outbox outbox].
  apply list_elem_of_filter. split; [|done]. intros (r' & Hid & Hin)%list_elem_of_fmap.
  apply oldest_elem in Hin as [Hin Hold]; [|done].
  assert (r = r') as ->; [|lia].
  apply list_elem_of_lookup in Hr as [i Hi]. apply list_elem_of_lookup in Hin as [j Hj].
  assert (i = j) as ->; [|congruence]. eapply NoDup_lookup; [exact Hnd|..]; rewrite list_lookup_fmap; [by rewrite Hi|].
  rewrite Hj. cbn. by rewrite Hid.
Qed.

Lemma delete_outbox_ids plan before limit (d : StockDB) :
  NoDup (ob_ID <$> stock_outbox d) → NoDup (ob_ID <$> stock_outbox (delete_outbox plan before limit d).1).
Proof.
  intros Hnd. eapply sublist_NoDup; [exact Hnd|]. apply fmap_sublist. cbn. apply sublist_filter.
Qed.

Lemma outbox_pass_keeps since env cfg e d :
  calm_pass env since e → outbox_StartFromEnv env = Some cfg → NoDup (ob_ID <$> stock_outbox d) →
  untouched since d (outbox_pass cfg e d) ∧ NoDup (ob_ID <$> stock_outbox (outbox_pass cfg e d)).
Proof.
  intros [_ _ Hrows Hs] Hcfg Hnd. unfold outbox_pass, outbox_pruneOnce, outbox_PruneBatch.
  destruct (prune_tx _ _ d) as [d' r] eqn:Hp. cbn [fst].
  destruct (prune_tx_cases (pe_prune e)
    (delete_outbox (pe_rows e) (cutoff cfg (pe_prune e)) (pc_BatchSize cfg)) d) as [E|E];
    rewrite Hp in E; cbn [fst] in E; subst d'; [split; [apply untouched_refl|done]|].
  split; [|by apply delete_outbox_ids]. split; try done. intros r0 Hr0 Hy.
  apply delete_outbox_keeps; try done. specialize (Hs cfg (or_intror Hcfg)). lia.
Qed.

Lemma idem_pass_keeps since env cfg e d :
  calm_pass env since e → idem_StartFromEnv env = Some cfg → NoDup (ob_ID <$> stock_outbox d) →
  untouched since d (idem_pass cfg e d) ∧ NoDup (ob_ID <$> stock_outbox (idem_pass cfg e d)).
Proof.
  intros [_ Hkeys _ Hs] Hcfg Hnd. unfold idem_pass, idem_sweepOnce.
  pose proof (prune_keeps (pe_keys e) Hkeys cfg (pe_prune e) d) as Hkeep.
  unfold idem_PruneBatch in *. destruct (prune_tx _ _ d) as [d' r] eqn:Hp. cbn [fst] in *.
  specialize (Hs cfg (or_introl Hcfg)).
  assert (∀ k row, stock_idem d !! k = Some row → since <= idem_created_at row → stock_idem d' !! k = Some row) as Hk.
  { intros k row Hrow Hy. apply Hkeep; [done|]. lia. }
  destruct (prune_tx_cases (pe_prune e)
    (delete_keys (pe_keys e) (cutoff cfg (pe_prune e)) (pc_BatchSize cfg)) d) as [E|E];
    rewrite Hp in E; cbn [fst] in E; subst d'; (split; [|done]); by split.
Qed.


(** A lock is a flag: it moves no quantity. *)
Lemma audit_lock_keeps since now k d d' u :
  SetAuditLock k true (sweeper_session now) d = Ok (d', u) → untouched since d d' ∧ stock_outbox d' = stock_outbox d.
Proof.
  unfold SetAuditLock, sweeper_session, visible. cbn [s_rls negb]. intros [= <- _]. split; [|done]. split; try done.
  intros k'. cbn [set_levels stock_levels]. destruct (decide (k = k')) as [<-|Hne].
  - rewrite lookup_alter_eq. by destruct (stock_levels d !! k).
  - by rewrite lookup_alter_ne.
Qed.

Lemma reconcile_location_keeps since interfere now k d :
  (∀ d, interfere d = d) →
  untouched since d (reconcile_location interfere now k d).1 ∧
  stock_outbox (reconcile_location interfere now k d).1 = stock_outbox d.
Proof.
  intros Hid. unfold reconcile_location.
  destruct (GetStockLevelAny _ _ _) as [[d0 lv]|e]; [|split; [apply untouched_refl|done]]. rewrite Hid.
  destruct (SumDeltasByReason _ _ _) as [[d1 sums]|e]; [|split; [apply untouched_refl|done]].
  destruct (drifted _); [|split; [apply untouched_refl|done]].
  destruct (SetAuditLock k true (sweeper_session now) d) as [[d2 u]|e] eqn:Hl; [|split; [apply untouched_refl|done]].
  by eapply audit_lock_keeps.
Qed.

Lemma reconcile_locations_keeps since interfere now locs : (∀ d, interfere d = d) → ∀ drifts d,
  untouched since d (reconcile_locations interfere now locs drifts d).1 ∧
  stock_outbox (reconcile_locations interfere now locs drifts d).1 = stock_outbox d.
Proof.
  intros Hid. induction locs as [|k locs IH]; intros drifts d; [split; [apply untouched_refl|done]|].
  cbn [reconcile_locations]. pose proof (reconcile_location_keeps since interfere now k d Hid) as [H1 H2].
  destruct (reconcile_location interfere now k d) as [d' [[x|]|e]]; cbn [fst] in *; [| |done].
  - destruct (IH (drifts ++ [x]) d') as [H3 H4]. split; [by eapply untouched_trans|congruence].
  - destruct (IH drifts d') as [H3 H4]. split; [by eapply untouched_trans|congruence].
Qed.

Lemma reconcile_pass_keeps since e d :
  (∀ d, pe_between e d = d) → NoDup (ob_ID <$> stock_outbox d) →
  untouched since d (stock_reconcile e d) ∧ NoDup (ob_ID <$> stock_outbox (stock_reconcile e d)).
Proof.
  intros Hid Hnd. unfold stock_reconcile, reconcile_pass, Reconcile_with.
  destruct (ListDistinctEventLocations _ _) as [[d0 locs]|err]; [|split; [apply untouched_refl|done]].
  pose proof (reconcile_locations_keeps since _ (pr_now (pe_prune e)) locs Hid [] d) as [H1 H2].
  destruct (reconcile_locations _ _ _ _ _) as [d' [drifts|err]]; cbn [fst] in *; (split; [done|by rewrite H2]).
Qed.

(** ** Theorem *)

(** C24. Maintenance moves no goods: whatever the environment of the stock process
    starts of the retention workers and the reconciliation, however their ticks
    fall among signals and each other, and whatever fails in their passes, every
    quantity of every location, the whole event log, and every idempotency key
    and message younger than the retentions are what they were when the process
    started. *)
Theorem maintenance_moves_no_goods env since first rs window evs d p :
  NoDup (ob_ID <$> stock_outbox d) →
  proc_run (stock_loops env) evs (proc_boot (stock_loops env) first rs window d) = Some p → ps_exit p = None →
  Forall (calm_pass env since) first →
  Forall (λ ev, match ev with Pass _ e => calm_pass env since e | _ => True end) evs →
  untouched since d (ps_world p).
Proof.
  intros Hnd Hrun Hx Hfirst Hevs.
  set (I := λ d', untouched since d d' ∧ NoDup (ob_ID <$> stock_outbox d')).
  assert (∀ i f e d', stock_loops env !! i = Some f → calm_pass env since e → I d' → I (f e d')) as Hkeep.
  { intros i f e d' Hf He [Hu Hn]. apply list_elem_of_lookup_2 in Hf. unfold stock_loops, prune_loops in Hf.
    rewrite !elem_of_app in Hf.
    assert (untouched since d' (f e d') ∧ NoDup (ob_ID <$> stock_outbox (f e d'))) as [Hu' Hn'];
      [|split; [by eapply untouched_trans|done]].
    destruct Hf as [[Hf|Hf]|Hf].
    - destruct (outbox_StartFromEnv env) as [cfg|] eqn:Hc; [|by apply elem_of_nil in Hf].
      apply list_elem_of_singleton in Hf as ->. by eapply outbox_pass_keeps.
    - destruct (idem_StartFromEnv env) as [cfg|] eqn:Hc; [|by apply elem_of_nil in Hf].
      apply list_elem_of_singleton in Hf as ->. by eapply idem_pass_keeps.
    - destruct (reconcile_interval env); [|by apply elem_of_nil in Hf].
      apply list_elem_of_singleton in Hf as ->. apply reconcile_pass_keeps; [apply He|done]. }
  assert (I (ps_world p)) as [Hu _]; [|done].
  eapply (run_invariant (stock_loops env) I (calm_pass env since) Hkeep); [done| |done|done].
  apply (boot_invariant (stock_loops env) I (calm_pass env since) Hkeep); [done|].
  split; [apply untouched_refl|done].
Qed.
