(* ===== verification/Processes.v ===== *)
(** * The background loops of the reservation and the order process

    The loops that cmd/reservation and cmd/order start, and the reservation
    process as a whole: its sweeper and its retention workers, interleaved as
    their timers fall, drain what has expired. *)

From S2P Require Import Prelude Database StockDb StockApi StockService StockEffects StockRefine StockReserve.
From S2P Require Import StockClient ReservationDb ReservationService ReservationBooks ReservationProps.
From S2P Require Import ReservationSweep SweepLoop Closer Loops Prune CircuitBreaker Payment OrderDb OrderService Float64 Env Workers.

(** ** The loops *)

Section Loops.
Context `{UuidText} `{ReservationHashes} `{JsonbText} {X : Type} `{!StockClient X}.

(** What surrounds a pass of the reservation process: of a retention worker, and
    of the sweeper. *)
Definition ResPassEnv : Type := PassEnv ResDB * (SweepEnv * Ctx).

(** cmd/reservation: the sweeper, and the retention workers its environment
    enables. *)
Definition reservation_loops (env : Getenv) : list (ResPassEnv → ResDB * X → ResDB * X) :=
  (λ e st, sweeper_pass e.2 st) :: ((λ f e st, (f e.1 st.1, st.2)) <$> prune_loops env).

End Loops.

(** cmd/order: the retention workers, and the resumption of sagas. *)
Definition order_loops `{UuidText} `{OrderHashes} `{ErrorText} {X} `{StockClient X} `{ReservationClient X} (env : Getenv)
  : list (PassEnv OrderDB * ResumeEnv → OrderWorld X → OrderWorld X) :=
  ((λ f e w, with_db (f e.1 (ow_db w)) w) <$> prune_loops env) ++
  (if resume_enabled env then [λ e w, (resume_pass e.2 w).1] else []).

(** ** Lemmas *)

(** A retention worker of any database touches only the keys and the outbox. *)
Lemma prune_loop_frame {D A} `{PgStore D} (view : D → A) env f e d :
  (∀ m d, view (set_idem m d) = view d) → (∀ l d, view (set_outbox l d) = view d) →
  f ∈ prune_loops env → view (f e d) = view d.
Proof.
  intros Hi Ho Hf. unfold prune_loops in Hf. apply elem_of_app in Hf as [Hf|Hf].
  - destruct (outbox_StartFromEnv env) as [cfg|]; [|by apply elem_of_nil in Hf]. apply list_elem_of_singleton in Hf as ->.
    unfold outbox_pass, outbox_pruneOnce, outbox_PruneBatch. destruct (prune_tx _ _ d) as [d' r] eqn:Hp. cbn [fst].
    destruct (prune_tx_cases (pe_prune e) (delete_outbox (pe_rows e) (cutoff cfg (pe_prune e)) (pc_BatchSize cfg)) d) as [E|E];
      rewrite Hp in E; cbn [fst] in E; subst d'; [done|apply Ho].
  - destruct (idem_StartFromEnv env) as [cfg|]; [|by apply elem_of_nil in Hf]. apply list_elem_of_singleton in Hf as ->.
    unfold idem_pass, idem_sweepOnce, idem_PruneBatch. destruct (prune_tx _ _ d) as [d' r] eqn:Hp. cbn [fst].
    destruct (prune_tx_cases (pe_prune e) (delete_keys (pe_keys e) (cutoff cfg (pe_prune e)) (pc_BatchSize cfg)) d) as [E|E];
      rewrite Hp in E; cbn [fst] in E; subst d'; [done|apply Hi].
Qed.

Section Reservation.
Context `{UuidText} `{!UuidTextLaws} `{ReservationHashes} `{JsonbText} {X : Type}
  `{!StockClient X} `{!StockClientLaws X} `{!StockReplayLaws X}.
Implicit Types st : ResDB * X.

Lemma retention_neutral env f (e : ResPassEnv) st :
  f ∈ (λ f e st, (f e.1 st.1, st.2)) <$> prune_loops (D := ResDB) env → neutral st (f e st).
Proof.
  intros (g & -> & Hg)%list_elem_of_fmap. unfold neutral. cbn [fst snd].
  split; [by eapply (prune_loop_frame reservations)|]. split; [|done].
  by eapply (prune_loop_frame res_next_uuid).
Qed.

(** The sweeps among the passes of a run. *)
Definition sweeps_of (ps : list (nat * ResPassEnv)) : list (SweepEnv * Ctx) :=
  omap (λ ie, match ie with (O, e) => Some e.2 | _ => None end) ps.

Lemma passes_swept t0 a env ps : ∀ n st,
  Forall (quiet_after t0) (sweeps_of ps) → swept_by t0 a n st →
  swept_by t0 a (n + length (sweeps_of ps)) (foldl (run_pass (reservation_loops env)) st ps).
Proof using All.
  induction ps as [|[i e] ps IH]; intros n st Hq Hs; [by rewrite Nat.add_0_r|]. cbn [foldl]. destruct i as [|i].
  - cbn [sweeps_of omap list_omap] in *. apply Forall_cons in Hq as [He Hq]. cbn [length]. rewrite Nat.add_succ_r, <- Nat.add_succ_l.
    apply IH; [done|]. by apply swept_pass.
  - cbn [sweeps_of omap list_omap] in *. apply IH; [done|]. unfold run_pass. cbn [fst snd].
    change (reservation_loops env !! S i) with (((λ f (e : ResPassEnv) st, (f e.1 st.1, st.2)) <$> prune_loops env) !! i).
    destruct (_ !! i) as [f|] eqn:Hf; [|done].
    eapply swept_neutral; [|exact Hs]. by eapply retention_neutral, list_elem_of_lookup_2.
Qed.

Lemma neutral_fold {A} t0 a n (l : list ((A → ResDB * X → ResDB * X) * A)) : ∀ st,
  (∀ f e, (f, e) ∈ l → ∀ st, neutral st (f e st)) → swept_by t0 a n st →
  swept_by t0 a n (foldl (λ st fe, fe.1 fe.2 st) st l).
Proof using All.
  induction l as [|[f e] l IH]; intros st Hn Hs; [done|]. cbn [foldl fst snd]. apply IH.
  - intros f' e' Hin. apply Hn. by apply list_elem_of_further.
  - eapply swept_neutral; [|exact Hs]. apply Hn, list_elem_of_here.
Qed.

Lemma boot_swept t0 a env first rest rs window d (x : X) :
  quiet_after t0 first.2 → swept_by t0 a 0 (d, x) →
  swept_by t0 a 1 (ps_world (proc_boot (reservation_loops env) (first :: rest) rs window (d, x))).
Proof using All.
  intros Hq Hs. cbn [proc_boot ps_world reservation_loops zip zip_with foldl fst snd].
  apply neutral_fold; [|by apply swept_pass].
  intros f e Hin st. apply list_elem_of_lookup in Hin as [i Hi]. apply lookup_zip_Some in Hi as [Hf _].
  by eapply retention_neutral, list_elem_of_lookup_2.
Qed.

(** ** Theorem *)

(** C26. The reservation process drains: over working services, once its sweeper has
    made as many passes as there are hundreds of active reservations, however its
    ticks fell among those of the retention workers, whatever these deleted or
    failed to delete, whichever rows the database picked for a batch and in
    whatever order the groups were visited, no reservation that was past its time
    when the process began is active any more; and the stock service always has
    reserved at least what the active rows hold, also when an order was split
    over two batches or compensated before. *)
Theorem sweeper_drains env t0 first rest rs window evs d (x : X) p :
  res_wf d → stock_fine x → books_cover d x →
  proc_run (reservation_loops env) evs (proc_boot (reservation_loops env) (first :: rest) rs window (d, x)) = Some p →
  ps_exit p = None → Forall (quiet_after t0) (first.2 :: sweeps_of (passes_of evs)) →
  books_cover (ps_world p).1 (ps_world p).2 ∧
  (active_rows_of d <= 100 * Z.of_nat (S (length (sweeps_of (passes_of evs)))) →
   ∀ r, r ∈ reservations (ps_world p).1 → row_expired t0 r = false).
Proof using All.
  intros Hd Hx Hb Hrun Hex [Hq0 Hq]%Forall_cons.
  pose proof (boot_swept t0 (active_rows_of d) env first rest rs window d x Hq0 (swept_start t0 d x Hd Hx Hb)) as Hboot.
  pose proof (passes_swept t0 (active_rows_of d) env (passes_of evs) 1 _ Hq Hboot) as Hs.
  rewrite (world_of_passes _ evs _ p Hrun Hex). split; [apply Hs|]. intros Hcount.
  by apply (swept_drained _ _ _ _ Hs).
Qed.

End Reservation.
