(* ===== verification/Transport.v ===== *)
(** * The transport between the services (pkg/grpcx)

    Which credentials a dial and a listener get from the environment and the
    files it names, and which pairs of them can talk.  Certificates and their
    verification are crypto/tls and crypto/x509: arguments, with the one fact
    that an empty pool verifies nothing. *)

From S2P Require Import Prelude GoStrings Database RateLimit Env.

(** ** Certificates and files *)

(** What is in the files: [cert_of_pem] the certificates AppendCertsFromPEM
    finds, [cert_of_pair] LoadX509KeyPair on two files' contents; [verify roots
    name c] that [c] is good for the host [name] with a chain to [roots]. *)
Class X509 (Cert : Type) := {
  certs_of_pem : string → list Cert;
  cert_of_pair : string → string → option Cert;
  verify : list Cert → string → Cert → bool;
  system_roots : list Cert;
}.

Class X509Laws (Cert : Type) `{X509 Cert} : Prop :=
  verify_nothing name c : verify [] name c = false.

(** The process's surroundings: its variables and its files. *)
Record Host := mkHost { ho_Getenv : Getenv; ho_ReadFile : string → option string }.

Record TLSClientOptions := mkTLSClientOptions {
  CAFile : string;
  CertFile : string;
  KeyFile : string;
  ServerName : string;
}.

Definition ErrTLSConfig : go_error := ErrNew "grpcx: tls configuration error".

Definition TLSFromEnv (env : Getenv) : TLSClientOptions :=
  {| CAFile := env "GRPC_TLS_CA"; CertFile := env "GRPC_TLS_CLIENT_CERT";
     KeyFile := env "GRPC_TLS_CLIENT_KEY"; ServerName := env "GRPC_TLS_SERVER_NAME" |}.

Definition InsecureFromEnv (env : Getenv) : bool := truthy (env "GRPC_INSECURE").

(** tls.VersionTLS12 *)
Definition VersionTLS12 : Z := 771.

Section Transport.
Context {Cert : Type} `{X509 Cert}.

(** tls.Config: [RootCAs] nil is the system's pool. *)
Record TLSConfig := mkTLSConfig {
  InsecureSkipVerify : bool;
  MinVersion : Z;
  RootCAs : option (list Cert);
  tc_ServerName : string;
  Certificates : list Cert;
}.

Definition load_pair (h : Host) (certFile keyFile : string) : option Cert :=
  match ho_ReadFile h certFile, ho_ReadFile h keyFile with
  | Some c, Some k => cert_of_pair c k
  | _, _ => None
  end.

(** x509.NewCertPool is an empty pool. *)
Definition loadCertPool (h : Host) (caFile : string) : res (list Cert) :=
  if bool_decide (caFile = "") then Ok []
  else match ho_ReadFile h caFile with
  | None => Err (ErrWrap "read CA" ErrTLSConfig)
  | Some pem =>
      match certs_of_pem pem with
      | [] => Err (ErrWrap "no certificates" ErrTLSConfig)
      | certs => Ok certs
      end
  end.

Definition ClientCredentials (h : Host) (insecure : bool) (opts : TLSClientOptions) : res TLSConfig :=
  if insecure then Ok (mkTLSConfig false 0 None "" [])
  else
    match loadCertPool h (CAFile opts) with
    | Err e => Err e
    | Ok pool =>
        if bool_decide (CertFile opts = "") && bool_decide (KeyFile opts = "")
        then Ok (mkTLSConfig false VersionTLS12 (Some pool) (ServerName opts) [])
        else match load_pair h (CertFile opts) (KeyFile opts) with
        | None => Err (ErrWrap "load client cert" ErrTLSConfig)
        | Some c => Ok (mkTLSConfig false VersionTLS12 (Some pool) (ServerName opts) [c])
        end
    end.

(** [None] is a listener in plaintext. *)
Definition ServerCredentials (h : Host) (certFile keyFile : string) : res (option TLSConfig) :=
  if bool_decide (certFile = "") && bool_decide (keyFile = "") then Ok None
  else if bool_decide (certFile = "") || bool_decide (keyFile = "")
  then Err (ErrWrap "must be set together" ErrTLSConfig)
  else match load_pair h certFile keyFile with
  | None => Err (ErrWrap "load server cert" ErrTLSConfig)
  | Some c => Ok (Some (mkTLSConfig false VersionTLS12 None "" [c]))
  end.

(** Dial's options: the service config, the caller's, the credentials. *)
Record DialOptions := mkDialOptions { do_ServiceConfig : string; do_Creds : TLSConfig }.

Definition quoted (s : string) : string := String "034"%char s +:+ String "034"%char "".

Definition roundRobinConfig : string :=
  "{" +:+ quoted "loadBalancingConfig" +:+ ":[{" +:+ quoted "round_robin" +:+ ":{}}]}".

Definition Dial (creds : TLSConfig) : DialOptions := mkDialOptions roundRobinConfig creds.

Definition DialFromEnv (h : Host) : res DialOptions :=
  if InsecureFromEnv (ho_Getenv h) then Ok (Dial (mkTLSConfig true 0 None "" []))
  else match ClientCredentials h false (TLSFromEnv (ho_Getenv h)) with
  | Err e => Err e
  | Ok cfg => Ok (Dial cfg)
  end.

Definition ServerOptionFromEnv (h : Host) : res (option TLSConfig) :=
  ServerCredentials h (ho_Getenv h "GRPC_TLS_CERT") (ho_Getenv h "GRPC_TLS_KEY").

(** ** Connections *)

(** The handshake of a dial to the host [name] with a listener: a client that
    speaks TLS does not talk to a plaintext listener. *)
Definition handshake (name : string) (client : TLSConfig) (server : option TLSConfig) : bool :=
  match server with
  | None => false
  | Some s =>
      match Certificates s with
      | [] => false
      | c :: _ =>
          InsecureSkipVerify client ||
          verify (default system_roots (RootCAs client))
            (if bool_decide (tc_ServerName client = "") then name else tc_ServerName client) c
      end
  end.

(** ** Lemmas *)

(** The pool of a dial is what is in the file that GRPC_TLS_CA names. *)
Lemma loadCertPool_ok h file pool :
  loadCertPool h file = Ok pool →
  (file = "" ∧ pool = []) ∨ (file ≠ "" ∧ ∃ pem, ho_ReadFile h file = Some pem ∧ pool = certs_of_pem pem).
Proof.
  unfold loadCertPool. destruct (bool_decide (file = "")) eqn:Hf.
  - intros [= <-]. left. by apply bool_decide_eq_true in Hf.
  - destruct (ho_ReadFile h file) as [pem|] eqn:Hr; [|done]. intros Hp. right.
    apply bool_decide_eq_false in Hf. split; [done|]. exists pem. split; [done|]. destruct (certs_of_pem pem); [done|congruence].
Qed.

Lemma credential_errors h opts e : ClientCredentials h false opts = Err e → errors_Is e ErrTLSConfig = true.
Proof.
  unfold ClientCredentials, loadCertPool. intros He. repeat (case_match; simplify_eq/=; try done).
Qed.

Lemma client_credentials h opts cfg :
  ClientCredentials h false opts = Ok cfg →
  ∃ pool, loadCertPool h (CAFile opts) = Ok pool ∧ InsecureSkipVerify cfg = false ∧ MinVersion cfg = VersionTLS12 ∧
    RootCAs cfg = Some pool ∧ tc_ServerName cfg = ServerName opts.
Proof.
  unfold ClientCredentials. destruct (loadCertPool h (CAFile opts)) as [pool|]; [|done]. intros Hc. exists pool.
  destruct (_ && _); [by simplify_eq/=|]. destruct (load_pair _ _ _); by simplify_eq/=.
Qed.

(** A client that verifies accepts what its pool vouches for. *)
Lemma handshake_verified name client server pool :
  InsecureSkipVerify client = false → RootCAs client = Some pool →
  handshake name client server = true ↔ ∃ s c rest, server = Some s ∧ Certificates s = c :: rest ∧
    verify pool (if bool_decide (tc_ServerName client = "") then name else tc_ServerName client) c = true.
Proof.
  unfold handshake. intros -> ->. split.
  - destruct server as [s|]; [|done]. destruct (Certificates s) as [|c rest] eqn:Hc; [done|].
    cbn [orb default]. intros Hv. by exists s, c, rest.
  - by intros (s & c & rest & -> & -> & Hv).
Qed.

Lemma server_credentials h certFile keyFile :
  match ServerCredentials h certFile keyFile with
  | Err e => errors_Is e ErrTLSConfig = true
  | Ok None => certFile = "" ∧ keyFile = ""
  | Ok (Some s) => ∃ c, Certificates s = [c] ∧ MinVersion s = VersionTLS12 ∧ load_pair h certFile keyFile = Some c
  end.
Proof.
  unfold ServerCredentials. destruct (bool_decide (certFile = "")) eqn:H1, (bool_decide (keyFile = "")) eqn:H2;
    cbn [andb orb]; try done; [by apply bool_decide_eq_true in H1, H2|].
  destruct (load_pair h certFile keyFile) as [c|]; [|done]. by exists c.
Qed.

(** ** Theorem *)

(** The posture of a dial.  DialFromEnv fails only with a configuration error
    and never hands out plaintext credentials: what it returns does not talk to a
    plaintext listener, under any setting of GRPC_INSECURE.  Unless GRPC_INSECURE
    is set to one of its true values the server is verified, with TLS 1.2 as the
    floor: a listener is accepted exactly if its certificate verifies against
    those of the file GRPC_TLS_CA, under the name of GRPC_TLS_SERVER_NAME or of
    the host dialled; with that variable unset no listener is accepted (a comment
    promises the system's pool).  And a listener whose certificate and key are
    not both readable does not come up in plaintext. *)
Theorem dial_posture `{!X509Laws Cert} h :
  match DialFromEnv h with
  | Err e => errors_Is e ErrTLSConfig = true
  | Ok d =>
      (∀ name, handshake name (do_Creds d) None = false) ∧
      (InsecureFromEnv (ho_Getenv h) = false →
         InsecureSkipVerify (do_Creds d) = false ∧ MinVersion (do_Creds d) = VersionTLS12 ∧
         ∀ name server, handshake name (do_Creds d) server = true ↔
           ∃ s c rest pem, server = Some s ∧ Certificates s = c :: rest ∧ ho_Getenv h "GRPC_TLS_CA" ≠ "" ∧
             ho_ReadFile h (ho_Getenv h "GRPC_TLS_CA") = Some pem ∧
             verify (certs_of_pem pem)
               (if bool_decide (ho_Getenv h "GRPC_TLS_SERVER_NAME" = "") then name
                else ho_Getenv h "GRPC_TLS_SERVER_NAME") c = true)
  end ∧
  match ServerOptionFromEnv h with
  | Err e => errors_Is e ErrTLSConfig = true
  | Ok None => ho_Getenv h "GRPC_TLS_CERT" = "" ∧ ho_Getenv h "GRPC_TLS_KEY" = ""
  | Ok (Some s) => ∃ c, Certificates s = [c] ∧ MinVersion s = VersionTLS12 ∧
      load_pair h (ho_Getenv h "GRPC_TLS_CERT") (ho_Getenv h "GRPC_TLS_KEY") = Some c
  end.
Proof.
  split; [|apply server_credentials]. unfold DialFromEnv. destruct (InsecureFromEnv (ho_Getenv h)); [done|].
  destruct (ClientCredentials _ _ _) as [cfg|e] eqn:Hc; [|by apply credential_errors in Hc].
  apply client_credentials in Hc as (pool & Hpool & Hskip & Hmin & Hroots & Hname). cbn [Dial do_Creds].
  split; [done|]. intros _.
  apply loadCertPool_ok in Hpool as Hpool'. cbn [TLSFromEnv CAFile ServerName] in *.
  split; [done|]. split; [done|]. intros name server. rewrite (handshake_verified _ _ _ _ Hskip Hroots), Hname. split.
  - intros (s & c & rest & -> & Hcs & Hv).
    destruct Hpool' as [[_ ->]|(Hne & pem & Hpem & ->)]; [by rewrite verify_nothing in Hv|]. by exists s, c, rest, pem.
  - intros (s & c & rest & pem & -> & Hcs & Hne & Hpem & Hv). exists s, c, rest. split; [done|]. split; [done|].
    destruct Hpool' as [[? _]|(_ & pem' & Hpem' & ->)]; [done|]. congruence.
Qed.

End Transport.
