(* ===== verification/Auth.v ===== *)
(** * Tokens and roles (pkg/auth/auth.go)

    HS256 tokens: issue, verification and the operations a role covers.  The
    encodings (JSON, base64url) and the HMAC are the library's, arguments of
    the model with the round trips the code relies on. *)

From S2P Require Import Prelude GoStrings Database.

(** ** Claims, roles, operations *)

Record Claims := mkClaims {
  TenantID : string;
  Expiry : Z;
  Subject : string;
  Role : string;
  Scopes : list string;
  IssuedAt : Z;
  NotBefore : Z;
}.

Definition RoleReadOnly : string := "read-only".
Definition RoleReadWrite : string := "read-write".
Definition RoleAdmin : string := "admin".

Definition OpStockRead : string := "stock:read".
Definition OpStockWrite : string := "stock:write".
Definition OpStockAdmin : string := "stock:admin".
Definition OpReservationRead : string := "reservation:read".
Definition OpReservationMutate : string := "reservation:mutate".
Definition OpOrderRead : string := "order:read".
Definition OpOrderMutate : string := "order:mutate".

Definition roleOperations (role : string) : list string :=
  if bool_decide (role = RoleReadOnly) then [OpStockRead; OpReservationRead; OpOrderRead]
  else if bool_decide (role = RoleReadWrite)
  then [OpStockRead; OpStockWrite; OpReservationRead; OpReservationMutate; OpOrderRead; OpOrderMutate]
  else [].

Definition Allows (c : Claims) (op : string) : bool :=
  if bool_decide (Role c = RoleAdmin) then true
  else if negb (bool_decide (Role c = RoleReadOnly) || bool_decide (Role c = RoleReadWrite) ||
                bool_decide (Role c = "")) then false
  else
    let role := if bool_decide (Role c = "") then RoleReadWrite else Role c in
    match Scopes c with
    | [] => existsb (λ o, bool_decide (o = op)) (roleOperations role)
    | _ => existsb (λ s, bool_decide (s = op)) (Scopes c)
    end.

(** ** The wire format *)

(** [strings.Cut(s, ".")] *)
Fixpoint Cut (s : string) : option (string * string) :=
  match s with
  | EmptyString => None
  | String c s' =>
      if Ascii.eqb c "."%char then Some ("", s')
      else match Cut s' with Some (a, b) => Some (String c a, b) | None => None end
  end.

Fixpoint no_dot (s : string) : bool :=
  match s with
  | EmptyString => true
  | String c s' => negb (Ascii.eqb c "."%char) && no_dot s'
  end.

Class TokenCodec := {
  b64_encode : string → string;                  (* base64.RawURLEncoding *)
  b64_decode : string → option string;
  header_json : string → string;                 (* json.Marshal(jwtHeader{alg, "JWT"}) *)
  header_alg : string → option string;           (* json.Unmarshal, the Alg member *)
  claims_json : Claims → string;
  claims_parse : string → option Claims;
  hmac_sha256 : string → string → string;        (* secret, input *)
}.

Class TokenCodecLaws `{TokenCodec} : Prop := {
  b64_roundtrip s : b64_decode (b64_encode s) = Some s;
  b64_no_dot s : no_dot (b64_encode s) = true;
  b64_nonempty s : s ≠ "" → b64_encode s ≠ "";
  header_roundtrip alg : header_alg (header_json alg) = Some alg;
  header_nonempty alg : header_json alg ≠ "";
  claims_roundtrip c : claims_parse (claims_json c) = Some c;
  claims_nonempty c : claims_json c ≠ "";
  hmac_nonempty k s : hmac_sha256 k s ≠ "";
}.

Section Tokens.
Context `{TokenCodec}.

Definition sign (secret input : string) : string := b64_encode (hmac_sha256 secret input).

Definition nanos : Z := 1000000000.

(** IssueOptions *)
Record IssueOptions := mkIssueOptions { io_Subject : string; io_Role : string; io_Scopes : list string }.

Definition issued_claims (now : Z) (tenantID : string) (ttl : Z) (o : IssueOptions) : Claims :=
  let ttl := if ttl <=? 0 then 15 * 60 * nanos else ttl in
  {| TenantID := tenantID; Expiry := (now + ttl) / nanos; Subject := io_Subject o; Role := io_Role o;
     Scopes := io_Scopes o; IssuedAt := now / nanos; NotBefore := 0 |}.

(** [None] is ErrUnauthenticated; [now] is nanoseconds. *)
Definition Issue (secret : string) (now : Z) (tenantID : string) (ttl : Z) (o : IssueOptions) : option string :=
  if bool_decide (tenantID = "") then None
  else
    let body := b64_encode (header_json "HS256") +:+ "." +:+ b64_encode (claims_json (issued_claims now tenantID ttl o)) in
    Some (body +:+ "." +:+ sign secret body).

Definition Verify (secret : string) (now : Z) (token : string) : option Claims :=
  match Cut token with
  | None => None
  | Some (header, rest) =>
      match Cut rest with
      | None => None
      | Some (payload, sig) =>
          if bool_decide (header = "") || bool_decide (payload = "") || bool_decide (sig = "") then None
          else if negb (bool_decide (sig = sign secret (header +:+ "." +:+ payload))) then None
          else match b64_decode header with
          | None => None
          | Some hb =>
              if negb (bool_decide (header_alg hb = Some "HS256")) then None
              else match b64_decode payload with
              | None => None
              | Some pb =>
                  match claims_parse pb with
                  | None => None
                  | Some claims =>
                      let unix := now / nanos in
                      if bool_decide (TenantID claims = "") then None
                      else if Expiry claims <=? unix then None
                      else if negb (NotBefore claims =? 0) && (unix <? NotBefore claims) then None
                      else Some claims
                  end
              end
          end
      end
  end.

(** ** Lemmas *)

Lemma Cut_app a b : no_dot a = true → Cut (a +:+ "." +:+ b) = Some (a, b).
Proof.
  induction a as [|c a IH]; [done|]. cbn [no_dot]. intros [Hc Ha]%andb_prop. apply negb_true_iff in Hc.
  change (String c a +:+ "." +:+ b) with (String c (a +:+ "." +:+ b)). cbn [Cut]. by rewrite Hc, (IH Ha).
Qed.

Lemma Cut_inv s a b : Cut s = Some (a, b) → s = a +:+ "." +:+ b.
Proof.
  revert a. induction s as [|c s IH]; intros a Hs; [done|]. cbn [Cut] in Hs.
  destruct (Ascii.eqb c ".") eqn:Hc.
  - apply Ascii.eqb_eq in Hc as ->. by injection Hs as <- <-.
  - destruct (Cut s) as [[a' b']|]; [|done]. injection Hs as <- <-. rewrite (IH a' eq_refl). done.
Qed.

(** A token that verifies is signed with the secret and in its time. *)
Lemma verify_signed secret now token claims :
  Verify secret now token = Some claims →
  TenantID claims ≠ "" ∧ now / nanos < Expiry claims ∧
  ∃ header payload, token = header +:+ "." +:+ payload +:+ "." +:+ sign secret (header +:+ "." +:+ payload).
Proof.
  unfold Verify. destruct (Cut token) as [[header rest]|] eqn:H1; [|done].
  destruct (Cut rest) as [[payload sig]|] eqn:H2; [|done]. destruct (_ || _); [done|].
  destruct (bool_decide (sig = _)) eqn:Hsig; [|done]. apply bool_decide_eq_true in Hsig. cbn [negb].
  destruct (b64_decode header); [|done]. destruct (negb _); [done|]. destruct (b64_decode payload); [|done].
  destruct (claims_parse _) as [cl|]; [|done]. destruct (bool_decide (TenantID cl = "")) eqn:Ht; [done|].
  apply bool_decide_eq_false in Ht. destruct (Expiry cl <=? now / nanos) eqn:He; [done|]. apply Z.leb_gt in He.
  destruct (_ && _); [done|]. intros [= <-]. split; [done|]. split; [done|].
  exists header, payload. apply Cut_inv in H1, H2. by rewrite H1, H2, Hsig.
Qed.

Lemma issue_nonempty secret now tenantID ttl o token : Issue secret now tenantID ttl o = Some token → token ≠ "".
Proof.
  unfold Issue. destruct (bool_decide (tenantID = "")); [done|]. intros [= <-]. by destruct (b64_encode (header_json "HS256")).
Qed.

(** A token issued for a tenant verifies, at any instant under the same secret,
    to the very claims it was issued with as long as its expiry is not reached,
    and to nothing from then on. *)
Lemma issue_verify `{!TokenCodecLaws} secret now tenantID ttl o token later :
  Issue secret now tenantID ttl o = Some token →
  Verify secret later token =
    (if later / nanos <? Expiry (issued_claims now tenantID ttl o)
     then Some (issued_claims now tenantID ttl o) else None).
Proof.
  unfold Issue. intros Hissue.
  destruct (bool_decide (tenantID = "")) eqn:Ht; [done|]. apply bool_decide_eq_false in Ht. injection Hissue as <-.
  set (cl := issued_claims now tenantID ttl o). set (h := b64_encode (header_json "HS256")).
  set (p := b64_encode (claims_json cl)).
  assert (h ≠ "" ∧ p ≠ "" ∧ sign secret (h +:+ "." +:+ p) ≠ "") as (N1 & N2 & N3).
  { split; [apply b64_nonempty, header_nonempty|]. split; [apply b64_nonempty, claims_nonempty|].
    apply b64_nonempty, hmac_nonempty. }
  unfold Verify. rewrite append_assoc3. rewrite (append_assoc3 "." p).
  rewrite (Cut_app h) by apply b64_no_dot. rewrite (Cut_app p) by apply b64_no_dot.
  rewrite (bool_decide_false _ N1), (bool_decide_false _ N2), (bool_decide_false _ N3). cbn [orb].
  rewrite bool_decide_true by done. cbn [negb]. unfold h, p. rewrite b64_roundtrip, header_roundtrip.
  rewrite bool_decide_true by done. cbn [negb]. rewrite b64_roundtrip, claims_roundtrip.
  unfold cl at 1. cbn [TenantID issued_claims]. rewrite (bool_decide_false _ Ht).
  change (NotBefore cl) with 0. cbn [Z.eqb negb andb].
  rewrite Z.leb_antisym. by destruct (later / nanos <? Expiry cl).
Qed.

End Tokens.

(** ** A concrete codec

    Claims as the spelling of their number in an enumeration. *)

#[export] Instance Claims_eq_dec : EqDecision Claims.
Proof. solve_decision. Defined.

#[export] Instance Claims_countable : Countable Claims.
Proof.
  refine (inj_countable' (λ c, (TenantID c, Expiry c, Subject c, Role c, Scopes c, IssuedAt c, NotBefore c))
            (λ '(a, b, c, d, e, f, g), mkClaims a b c d e f g) _). by intros [].
Defined.

Definition spell {A} `{Countable A} (a : A) : string := pos_text (encode a).
Definition unspell {A} `{Countable A} (s : string) : option A := pos_parse s ≫= decode.

(** An alphabet without the dot: "." is written "%p" and "%" is "%%". *)
Fixpoint escape (s : string) : string :=
  match s with
  | EmptyString => ""
  | String c s' =>
      if Ascii.eqb c "."%char then String "%" (String "p" (escape s'))
      else if Ascii.eqb c "%"%char then String "%" (String "%" (escape s'))
      else String c (escape s')
  end.

Fixpoint unescape (s : string) : option string :=
  match s with
  | EmptyString => Some ""
  | String "%" (String "p" s') => String "." <$> unescape s'
  | String "%" (String "%" s') => String "%" <$> unescape s'
  | String "%" _ => None
  | String c s' => String c <$> unescape s'
  end.

Definition number_codec : TokenCodec := {|
  b64_encode := escape; b64_decode := unescape;
  header_json alg := "h" +:+ alg; header_alg s := match s with String "h" alg => Some alg | _ => None end;
  claims_json := spell; claims_parse := unspell; hmac_sha256 k s := "hmac" +:+ k;
|}.

Lemma unspell_spell {A} `{Countable A} (a : A) : unspell (spell a) = Some a.
Proof. unfold unspell, spell. rewrite pos_parse_text. apply decode_encode. Qed.

Lemma pos_text_nonempty p : pos_text p ≠ "".
Proof. by destruct p. Qed.

Lemma unescape_escape s : unescape (escape s) = Some s.
Proof.
  induction s as [|c s IH]; [done|]. cbn [escape].
  destruct (Ascii.eqb c ".") eqn:Hd; [apply Ascii.eqb_eq in Hd as ->; cbn; by rewrite IH|].
  destruct (Ascii.eqb c "%") eqn:Hp; [apply Ascii.eqb_eq in Hp as ->; cbn; by rewrite IH|].
  assert (unescape (String c (escape s)) = String c <$> unescape (escape s)) as ->; [|by rewrite IH].
  destruct c as [[] [] [] [] [] [] [] []]; done.
Qed.

Lemma escape_no_dot s : no_dot (escape s) = true.
Proof.
  induction s as [|c s IH]; [done|]. cbn [escape].
  destruct (Ascii.eqb c ".") eqn:Hd; [done|]. destruct (Ascii.eqb c "%"); [done|]. cbn. by rewrite Hd.
Qed.

#[export] Instance number_codec_laws : @TokenCodecLaws number_codec.
Proof.
  split; try done.
  - apply unescape_escape.
  - apply escape_no_dot.
  - intros [|c s]; [done|]. intros _. cbn. by destruct (Ascii.eqb c "."), (Ascii.eqb c "%").
  - intros c. apply unspell_spell.
  - intros c. apply pos_text_nonempty.
Qed.

(** The comment on Claims says that scopes narrow the role; they replace it,
    and can grant what the role does not. *)
Example scopes_widen :
  let reader := mkClaims "t" 0 "" RoleReadOnly [] 0 0 in
  let scoped := mkClaims "t" 0 "" RoleReadOnly [OpStockAdmin] 0 0 in
  Allows reader OpStockAdmin = false ∧ Allows scoped OpStockAdmin = true.
Proof. split; reflexivity. Qed.
