(* ===== verification/Http.v ===== *)
(** * Responses of the gateway (internal/gateway/core.go: httpError, loginHost)

    The errors with a decided HTTP response, how a gRPC error becomes one, and
    the host of a client's address; with what they use of fmt, time and net. *)

From stdpp Require Import pretty.
From S2P Require Import Prelude GoStrings Database Float64.

(** ** time.Duration.String *)

(** fmtFrac: the last [prec] decimal digits of [v] without the zeros at their end,
    and what is before them. *)
Fixpoint fmtFrac (prec : nat) (v : Z) (print : bool) (acc : string) : string * Z :=
  match prec with
  | O => (if print then "." +:+ acc else acc, v)
  | S prec' =>
      let digit := v mod 10 in
      let print' := print || negb (digit =? 0) in
      fmtFrac prec' (v / 10) print' (if print' then pretty digit +:+ acc else acc)
  end.

Definition with_unit (prec : nat) (u : Z) (unit : string) : string :=
  let '(frac, u) := fmtFrac prec u false "" in pretty u +:+ frac +:+ unit.

(** "µ" in UTF-8. *)
Definition micro : string := String (Ascii.ascii_of_nat 194) (String (Ascii.ascii_of_nat 181) EmptyString).

Definition Duration_String (d : Z) : string :=
  let u := Z.abs d in
  let text :=
    if u =? 0 then "0s"
    else if u <? 1000 then with_unit 0 u "ns"
    else if u <? 1000000 then with_unit 3 u (micro +:+ "s")
    else if u <? 1000000000 then with_unit 6 u "ms"
    else
      let '(frac, u) := fmtFrac 9 u false "" in
      let secs := pretty (u mod 60) +:+ frac +:+ "s" in
      let u := u / 60 in
      if u =? 0 then secs
      else
        let mins := pretty (u mod 60) +:+ "m" +:+ secs in
        if u / 60 =? 0 then mins else pretty (u / 60) +:+ "h" +:+ mins in
  if d <? 0 then "-" +:+ text else text.

(** ** net.SplitHostPort *)

(** What is before the last colon and after it. *)
Fixpoint cut_last (c : ascii) (s : string) : option (string * string) :=
  match s with
  | EmptyString => None
  | String a s' =>
      match cut_last c s' with
      | Some (before, after) => Some (String a before, after)
      | None => if Ascii.eqb a c then Some (EmptyString, s') else None
      end
  end.

Definition SplitHostPort (hostport : string) : option (string * string) :=
  match cut_last ":"%char hostport with
  | None => None
  | Some (before, port) =>
      match hostport with
      | String "["%char inside =>
          match cut_at "]" inside with
          | None => None
          | Some (host, rest) =>
              if bool_decide (rest = String ":" port) && free_of "["%char inside && free_of "]"%char rest
              then Some (host, port) else None
          end
      | _ =>
          if free_of ":"%char before && free_of "["%char hostport && free_of "]"%char hostport
          then Some (before, port) else None
      end
  end.

Definition loginHost (remoteAddr : string) : string :=
  match SplitHostPort remoteAddr with Some (host, _) => host | None => remoteAddr end.

(** ** Responses *)

(** A body: JSON, text, or the page net/http writes for a path or method the mux
    does not know. *)
Inductive http_body := JsonBody (j : json) | TextBody (s : string) | MuxPage.

Record HttpResponse := mkHttpResponse {
  rp_Status : Z;
  rp_Headers : list (string * string);
  rp_Body : http_body;
}.

Record httpError := mkHttpError { he_status : Z; he_code : string; he_message : string }.

Definition httpError_Error (e : httpError) : string := he_message e.

Definition json_type : string * string := ("Content-Type", "application/json").

(** httpError.write, after the headers that were set before. *)
Definition httpError_write_after (headers : list (string * string)) (e : httpError) : HttpResponse :=
  mkHttpResponse (he_status e) (headers ++ [json_type])
    (JsonBody (JObj [("error", JObj [("code", JStr (he_code e)); ("message", JStr (he_message e))])])).

Definition httpError_write (e : httpError) : HttpResponse := httpError_write_after [] e.

(** ** gRPC errors *)

Definition httpStatusFromCode (c : code) : Z :=
  match c with
  | InvalidArgument => 400
  | NotFound => 404
  | AlreadyExists | FailedPrecondition => 409
  | Unauthenticated => 401
  | PermissionDenied => 403
  | ResourceExhausted => 429
  | Unavailable => 503
  | DeadlineExceeded => 504
  | _ => 500
  end.

(** codes.Code.String *)
Definition code_String (c : code) : string :=
  match c with
  | OK => "OK" | Canceled => "Canceled" | Unknown => "Unknown" | InvalidArgument => "InvalidArgument"
  | DeadlineExceeded => "DeadlineExceeded" | NotFound => "NotFound" | AlreadyExists => "AlreadyExists"
  | PermissionDenied => "PermissionDenied" | ResourceExhausted => "ResourceExhausted"
  | FailedPrecondition => "FailedPrecondition" | Aborted => "Aborted" | OutOfRange => "OutOfRange"
  | Unimplemented => "Unimplemented" | Internal => "Internal" | Unavailable => "Unavailable"
  | DataLoss => "DataLoss" | Unauthenticated => "Unauthenticated"
  end.

(** fmt.Sprintf of a format with one %v. *)
Definition Sprintf_v (format v : string) : string :=
  match cut_at "%v" format with Some (before, after) => before +:+ v +:+ after | None => format end.

(** status.Status.Message of an error that is one. *)
Definition status_message `{ErrorText} (e : go_error) : string :=
  match e with
  | ErrStatus _ msg => msg
  | ErrStatusf _ format cause => Sprintf_v format (error_text cause)
  | _ => error_text e
  end.

(** status.FromError: whether the error is a status. *)
Definition is_status (e : go_error) : bool :=
  match e with ErrStatus _ _ | ErrStatusf _ _ _ => true | _ => false end.

Definition errorFromGRPC `{ErrorText} (e : go_error) : httpError :=
  if is_status e
  then mkHttpError (httpStatusFromCode (status_Code e)) (code_String (status_Code e)) (status_message e)
  else mkHttpError 500 "unknown" (error_text e).

(** ** Lemmas *)

Lemma cut_last_app c a b :
  free_of c b = true → cut_last c (a +:+ String c b) = Some (a, b).
Proof.
  intros Hb. assert (cut_last c b = None) as Hn.
  { clear a. induction b as [|x b IH]; [done|]. cbn [free_of] in Hb. apply andb_prop in Hb as [Hx Hb].
    apply negb_true_iff in Hx. cbn [cut_last]. by rewrite (IH Hb), Hx. }
  induction a as [|x a IH].
  - change ("" +:+ String c b) with (String c b). cbn [cut_last]. by rewrite Hn, Ascii.eqb_refl.
  - change (String x a +:+ String c b) with (String x (a +:+ String c b)). cbn [cut_last]. by rewrite IH.
Qed.

Lemma free_of_app c a b : free_of c (a +:+ b) = free_of c a && free_of c b.
Proof.
  induction a as [|x a IH]; [done|]. change (String x a +:+ b) with (String x (a +:+ b)). cbn [free_of].
  by rewrite IH, andb_assoc.
Qed.

(** The text has none of the characters an address is made of. *)
Definition plain (s : string) : bool := free_of ":"%char s && free_of "["%char s && free_of "]"%char s.

(** The port does not matter, for a name or an IPv4 address and for a bracketed
    IPv6 address. *)
Lemma loginHost_name host port :
  plain host = true → plain port = true → loginHost (host +:+ ":" +:+ port) = host.
Proof.
  intros [[H1 H2]%andb_prop H3]%andb_prop [[P1 P2]%andb_prop P3]%andb_prop. unfold loginHost, SplitHostPort.
  change (":" +:+ port) with (String ":" port). rewrite cut_last_app by done.
  assert (free_of "["%char (host +:+ String ":" port) = true ∧ free_of "]"%char (host +:+ String ":" port) = true) as [F1 F2].
  { rewrite !free_of_app. cbn [free_of]. by rewrite H2, H3, P2, P3. }
  rewrite H1, F1, F2. cbn [andb]. destruct host as [|c host]; [done|].
  destruct (Ascii.eqb c "["%char) eqn:Hc.
  - apply Ascii.eqb_eq in Hc as ->. done.
  - change (String c host +:+ String ":" port) with (String c (host +:+ String ":" port)).
    destruct c as [[] [] [] [] [] [] [] []]; done.
Qed.

Lemma loginHost_bracketed host port :
  free_of "["%char host = true → free_of "]"%char host = true → plain port = true →
  loginHost ("[" +:+ host +:+ "]:" +:+ port) = host.
Proof.
  intros H2 H3 [[P1 P2]%andb_prop P3]%andb_prop. unfold loginHost, SplitHostPort.
  change ("[" +:+ host +:+ "]:" +:+ port) with (String "[" (host +:+ String "]" (String ":" port))).
  assert (String "[" (host +:+ String "]" (String ":" port)) = (String "[" (host +:+ "]")) +:+ String ":" port) as E.
  { change (String "[" (host +:+ "]") +:+ String ":" port) with (String "[" ((host +:+ "]") +:+ String ":" port)).
    by rewrite append_assoc3. }
  rewrite E at 1. rewrite cut_last_app by done. rewrite cut_at_free by done.
  rewrite bool_decide_true by done. rewrite free_of_app. cbn [free_of andb]. by rewrite H2, P2, P3.
Qed.
