(* ===== verification/AuthRoutes.v ===== *)
(** * Login (internal/gateway/authroutes.go)

    The static users of GATEWAY_AUTH_USERS and the endpoint that trades their
    credentials for a token. *)

From S2P Require Import Prelude GoStrings Database Float64 RateLimit Auth Http.

Record AuthUser := mkAuthUser { Username : string; Password : string; us_TenantID : string; us_Role : string }.

(** ** ParseAuthUsers *)

Definition known_role (role : string) : bool :=
  bool_decide (role = RoleReadOnly) || bool_decide (role = RoleReadWrite) || bool_decide (role = RoleAdmin).

(** One entry; [seen] are the names so far. *)
Definition parse_entry (seen : list string) (entry : string) : res AuthUser :=
  if bool_decide (TrimSpace entry = "") then Err (ErrNew "GATEWAY_AUTH_USERS entry is empty")
  else match split_on ":"%char entry "" with
  | [name; password; tenant; role] =>
      if negb (known_role role) then Err (ErrNew "GATEWAY_AUTH_USERS: unknown role")
      else if bool_decide (name = "") || bool_decide (password = "") || bool_decide (tenant = "")
      then Err (ErrNew "GATEWAY_AUTH_USERS: username, password and tenant_id are required")
      else if existsb (λ n, bool_decide (n = name)) seen then Err (ErrNew "GATEWAY_AUTH_USERS: duplicate username")
      else Ok (mkAuthUser name password tenant role)
  | _ => Err (ErrNew "GATEWAY_AUTH_USERS: want username:password:tenant_id:role")
  end.

Fixpoint parse_entries (users : list AuthUser) (entries : list string) : res (list AuthUser) :=
  match entries with
  | [] => Ok users
  | e :: es =>
      match parse_entry (Username <$> users) e with
      | Err err => Err err
      | Ok u => parse_entries (users ++ [u]) es
      end
  end.

Definition ParseAuthUsers (spec : string) : res (list AuthUser) :=
  if bool_decide (TrimSpace spec = "") then Ok [] else parse_entries [] (split_on ","%char spec "").

(** ** The endpoint *)

Class Sha256 := sha256 : string → string.

Record AuthRoutes := mkAuthRoutes { ar_users : gmap string AuthUser; ar_ttl : Z }.

Definition NewAuthRoutes (users : list AuthUser) (ttl : Z) : AuthRoutes :=
  mkAuthRoutes (foldl (λ m u, <[Username u := u]> m) ∅ users) ttl.

Record LoginAnswer := mkLoginAnswer { la_token : string; la_expires_in : Z; la_tenant_id : string }.

Definition wrong_login : httpError := mkHttpError 401 "unauthenticated" "invalid username or password".

(** The body: [None] does not decode. *)
Definition login `{TokenCodec} `{Sha256} (secret : string) (now : Z) (a : AuthRoutes)
    (body : option (string * string)) : LoginAnswer + httpError :=
  match body with
  | None => inr (mkHttpError 400 "invalid_argument" "invalid JSON body")
  | Some (name, password) =>
      if bool_decide (name = "") || bool_decide (password = "")
      then inr (mkHttpError 400 "invalid_argument" "username and password are required")
      else match ar_users a !! name with
      | None => inr wrong_login
      | Some u =>
          if negb (bool_decide (sha256 (Password u) = sha256 password)) then inr wrong_login
          else match Issue secret now (us_TenantID u) (ar_ttl a) (mkIssueOptions name (us_Role u) []) with
          | None => inr (mkHttpError 500 "internal" "token issue failed")
          | Some tok => inl (mkLoginAnswer tok (f_to_int64 (Seconds (ar_ttl a))) (us_TenantID u))
          end
      end
  end.

(** What is written: encoding/json sorts the keys. *)
Definition login_response (r : LoginAnswer + httpError) : HttpResponse :=
  match r with
  | inr e => httpError_write e
  | inl ans =>
      mkHttpResponse 200 [json_type]
        (JsonBody (JObj [("expires_in", JInt (la_expires_in ans)); ("tenant_id", JStr (la_tenant_id ans));
                         ("token", JStr (la_token ans)); ("token_type", JStr "Bearer")]))
  end.

(** ** Lemmas *)

(** What the parser lets through. *)
Definition user_ok (u : AuthUser) : Prop :=
  Username u ≠ "" ∧ Password u ≠ "" ∧ us_TenantID u ≠ "" ∧ known_role (us_Role u) = true.

Lemma parse_entry_ok seen e u : parse_entry seen e = Ok u → user_ok u ∧ Username u ∉ seen.
Proof.
  unfold parse_entry. destruct (bool_decide _); [done|].
  destruct (split_on _ _ _) as [|name [|password [|tenant [|role [|]]]]]; try done.
  destruct (known_role role) eqn:Hr; [|done]. cbn [negb].
  destruct (_ || _ || _) eqn:Hne; [done|]. apply orb_false_elim in Hne as [[H1 H2]%orb_false_elim H3].
  apply bool_decide_eq_false in H1, H2, H3. destruct (existsb _ seen) eqn:Hs; [done|]. intros [= <-].
  split; [done|]. cbn. intros Hin. apply not_true_iff_false in Hs. apply Hs, existsb_exists.
  exists name. split; [by apply list_elem_of_In|by apply bool_decide_eq_true].
Qed.

Lemma parse_entries_ok es : ∀ users us,
  Forall user_ok users → NoDup (Username <$> users) → parse_entries users es = Ok us →
  Forall user_ok us ∧ NoDup (Username <$> us).
Proof.
  induction es as [|e es IH]; intros users us Hok Hnd Hp; cbn [parse_entries] in Hp; [by injection Hp as <-|].
  destruct (parse_entry _ e) as [u|] eqn:He; [|done]. apply parse_entry_ok in He as [Hu Hnew].
  apply (IH _ _ (Forall_app_2 _ _ _ Hok (Forall_cons_2 _ _ _ Hu (Forall_nil_2 _)))) in Hp; [done|].
  rewrite fmap_app. apply NoDup_app. split; [done|]. split; [|apply NoDup_singleton].
  intros n Hn ->%list_elem_of_singleton. done.
Qed.

Lemma ParseAuthUsers_ok spec us :
  ParseAuthUsers spec = Ok us → Forall user_ok us ∧ NoDup (Username <$> us).
Proof.
  unfold ParseAuthUsers. destruct (bool_decide _).
  - intros [= <-]. split; constructor.
  - apply parse_entries_ok; constructor.
Qed.

(** With one user per name the table of the routes is the list. *)
Lemma users_table us ttl name u :
  NoDup (Username <$> us) →
  ar_users (NewAuthRoutes us ttl) !! name = Some u ↔ u ∈ us ∧ Username u = name.
Proof.
  unfold NewAuthRoutes. cbn [ar_users]. induction us as [|v us IH] using rev_ind; intros Hnd.
  { cbn. rewrite lookup_empty, elem_of_nil. naive_solver. }
  rewrite fmap_app in Hnd. apply NoDup_app in Hnd as (Hnd & Hnew & _). specialize (IH Hnd).
  rewrite foldl_app. cbn [foldl]. rewrite elem_of_app, list_elem_of_singleton.
  destruct (decide (Username v = name)) as [<-|Hne].
  - rewrite lookup_insert_eq. split.
    + intros [= <-]. by auto.
    + intros [[Hin| ->] Hu]; [|done]. exfalso. apply (Hnew (Username v)); [|apply list_elem_of_here].
      rewrite <- Hu. by apply list_elem_of_fmap_2.
  - rewrite lookup_insert_ne by done. rewrite IH. naive_solver.
Qed.
