(* ===== verification/Gateway.v ===== *)
(** * The gateway (internal/gateway/core.go, routes.go, orders.go, authroutes.go)

    The path of a request from the middleware over the mux to the backend:
    authentication, the role check, the rate limit, the tenant of the body, the
    breaker; and the login endpoint. *)

From stdpp Require Import pretty.
From S2P Require Import Prelude GoStrings Database Payment CircuitBreaker Telemetry Float64 RateLimit Auth Http AuthRoutes.

(** ** Requests *)

(** What the handlers read of an http.Request.  [hr_Segments] are the segments
    of the path as the mux sees them: of the escaped path, cleaned (the mux
    redirects a path that is not), each unescaped. *)
Record HttpRequest := mkHttpRequest {
  hr_Method : string;
  hr_Segments : list string;
  hr_Authorization : string;
  hr_IdempotencyKey : string;
  hr_RemoteAddr : string;
}.

(** [r.URL.Path] *)
Definition hr_Path (r : HttpRequest) : string := "/" +:+ String.concat "/" (hr_Segments r).

(** The body against the message type of the route: not read (over maxBodyBytes,
    or the connection broke), empty, not a message (with protojson's error), or a
    message. *)
Definition maxBodyBytes : Z := Z.shiftl 1 20.

Inductive body_state (P : Type) := BodyUnreadable | BodyEmpty | BodyInvalid (err : string) | BodyMessage (msg : P).
Arguments BodyUnreadable {_}.
Arguments BodyEmpty {_}.
Arguments BodyInvalid {_} _.
Arguments BodyMessage {_} _.

(** The messages of the backends: an empty one for each rpc, and what protoreflect
    tells of a field by its name. *)
Inductive proto_kind := StringKind | OtherKind.

Class ProtoReflect (P : Type) := {
  new_message : string → P;
  pr_Kind : P → string → option proto_kind;
  pr_Has : P → string → bool;
  pr_Get : P → string → string;
  pr_Set : P → string → string → P;
}.

Definition stringField `{ProtoReflect P} (msg : P) (field : string) : string :=
  match pr_Kind msg field with
  | Some StringKind => if pr_Has msg field then pr_Get msg field else ""
  | _ => ""
  end.

Definition setStringField `{ProtoReflect P} (msg : P) (field value : string) : P :=
  match pr_Kind msg field with Some StringKind => pr_Set msg field value | _ => msg end.

(** protojson.Marshal of an answer. *)
Class ProtoJson (Resp : Type) := marshal : Resp → option json.

(** ** Helpers *)

(** [strings.Split(strings.Trim(path, "/"), "/")] *)
Definition segments (path : string) : list string :=
  split_on "/"%char (trim_slash_right (trim_slash_left path)) "".

Definition operationFor (method path : string) : option string :=
  match segments path with
  | v1 :: area :: more =>
      if negb (bool_decide (v1 = "v1")) then None
      else
        let read := bool_decide (method = "GET") || bool_decide (method = "HEAD") in
        if bool_decide (area = "orders") then Some (if read then OpOrderRead else OpOrderMutate)
        else if bool_decide (area = "stock") then
          Some (if read then OpStockRead
                else match more with
                     | s :: _ => if bool_decide (s = "unlock") then OpStockAdmin else OpStockWrite
                     | [] => OpStockWrite
                     end)
        else if bool_decide (area = "reservations") then Some (if read then OpReservationRead else OpReservationMutate)
        else None
  | _ => None
  end.

Definition loginPath : string := "/v1/auth/login".

(** ** The core *)

Record GwEnv := mkGwEnv {
  ge_now : Z;                                                         (* nanoseconds *)
  ge_order : list (string * bucket) → list (string * bucket);         (* map iteration *)
  ge_report : Z;                                                      (* time.Now in RecordFailure *)
  ge_ready : Z * string;                                              (* the readiness probe *)
}.

Record Core := mkCore {
  gc_Secret : string;                (* of the verifier *)
  gc_Limiter : Limiter;
  StockBreaker : Breaker;
  ReservationBreaker : Breaker;
  OrderBreaker : Breaker;
  BreakerGauge : option Metrics;
}.

Definition breaker_of (dep : string) (c : Core) : Breaker :=
  if bool_decide (dep = "stock") then StockBreaker c
  else if bool_decide (dep = "reservation") then ReservationBreaker c else OrderBreaker c.

Definition set_breaker (dep : string) (br : Breaker) (c : Core) : Core :=
  if bool_decide (dep = "stock")
  then mkCore (gc_Secret c) (gc_Limiter c) br (ReservationBreaker c) (OrderBreaker c) (BreakerGauge c)
  else if bool_decide (dep = "reservation")
  then mkCore (gc_Secret c) (gc_Limiter c) (StockBreaker c) br (OrderBreaker c) (BreakerGauge c)
  else mkCore (gc_Secret c) (gc_Limiter c) (StockBreaker c) (ReservationBreaker c) br (BreakerGauge c).

Definition set_gauge (g : option Metrics) (c : Core) : Core :=
  mkCore (gc_Secret c) (gc_Limiter c) (StockBreaker c) (ReservationBreaker c) (OrderBreaker c) g.

(** publishBreaker, when there is an observer. *)
Definition publish (dep : string) (br : Breaker) (g : option Metrics) : option Metrics :=
  publishBreaker dep br <$> g.

(** ** The surface *)

Inductive handler := HRoute | HById | HGet.

Record endpoint := mkEndpoint {
  ep_Method : string;
  ep_Pattern : string;
  ep_Handler : handler;
  ep_Dep : string;
  ep_Rpc : string;
}.

Definition StockRoutes_Mount : list endpoint :=
  [mkEndpoint "POST" "/v1/stock/adjust" HRoute "stock" "AdjustStock";
   mkEndpoint "POST" "/v1/stock/reserve" HRoute "stock" "ReserveStock";
   mkEndpoint "POST" "/v1/stock/release" HRoute "stock" "ReleaseStock";
   mkEndpoint "POST" "/v1/stock/allocate" HRoute "stock" "ConfirmStockAllocation";
   mkEndpoint "POST" "/v1/stock/fulfill" HRoute "stock" "FulfillStock";
   mkEndpoint "POST" "/v1/stock/unlock" HRoute "stock" "UnlockStockForAudit"].

Definition ReservationRoutes_Mount : list endpoint :=
  [mkEndpoint "POST" "/v1/reservations" HRoute "reservation" "Reserve";
   mkEndpoint "POST" "/v1/reservations/release" HRoute "reservation" "Release";
   mkEndpoint "POST" "/v1/reservations/allocate" HRoute "reservation" "AllocateReservation"].

Definition OrderRoutes_Mount : list endpoint :=
  [mkEndpoint "POST" "/v1/orders" HRoute "order" "CreateOrder";
   mkEndpoint "POST" "/v1/orders/{id}/cancel" HById "order" "CancelOrder";
   mkEndpoint "POST" "/v1/orders/{id}/fulfill" HById "order" "FulfillOrder";
   mkEndpoint "GET" "/v1/orders/{id}" HGet "order" "GetOrder"].

Definition mounted : list endpoint := StockRoutes_Mount ++ ReservationRoutes_Mount ++ OrderRoutes_Mount.

(** A ServeMux pattern against the segments; the result is {id}. *)
Fixpoint match_segments (pattern segs : list string) : option string :=
  match pattern, segs with
  | [], [] => Some ""
  | p :: ps, s :: ss =>
      if bool_decide (p = "{id}") then
        if bool_decide (s = "") then None
        else match match_segments ps ss with Some _ => Some s | None => None end
      else if bool_decide (p = s) then match_segments ps ss else None
  | _, _ => None
  end.

(** A GET pattern takes HEAD too. *)
Definition method_matches (pattern method : string) : bool :=
  bool_decide (pattern = method) || (bool_decide (pattern = "GET") && bool_decide (method = "HEAD")).

Definition path_matches (r : HttpRequest) (e : endpoint) : option string :=
  match_segments (segments (ep_Pattern e)) (hr_Segments r).

Fixpoint mux_find (r : HttpRequest) (es : list endpoint) : option (endpoint * string) :=
  match es with
  | [] => None
  | e :: es' =>
      match path_matches r e with
      | Some id => if method_matches (ep_Method e) (hr_Method r) then Some (e, id) else mux_find r es'
      | None => mux_find r es'
      end
  end.

Inductive target := ToApi (e : endpoint) (id : string) | ToLogin | ToHealth | ToReady | ToNone (status : Z).

(** The mux of cmd/gateway; the login route is there when users are configured. *)
Definition mux (auth : option AuthRoutes) (r : HttpRequest) : target :=
  match mux_find r mounted with
  | Some (e, id) => ToApi e id
  | None =>
      let get := method_matches "GET" (hr_Method r) in
      if bool_decide (hr_Segments r = ["healthz"]) then if get then ToHealth else ToNone 405
      else if bool_decide (hr_Segments r = ["readyz"]) then if get then ToReady else ToNone 405
      else if bool_decide (hr_Segments r = ["v1"; "auth"; "login"]) then
        match auth with
        | Some _ => if bool_decide (hr_Method r = "POST") then ToLogin else ToNone 405
        | None => ToNone 404
        end
      else ToNone (if existsb (λ e, bool_decide (is_Some (path_matches r e))) mounted then 405 else 404)
  end.

Section Gateway.
Context `{TokenCodec} `{Sha256} `{ErrorText}.

(** ** The middleware *)

Definition unauthenticated (message : string) : httpError := mkHttpError 401 "unauthenticated" message.

Definition authorize (env : GwEnv) (c : Core) (r : HttpRequest) : Claims + httpError :=
  let token := TrimPrefix (hr_Authorization r) "Bearer " in
  if bool_decide (token = "") then inr (unauthenticated "missing bearer token")
  else match Verify (gc_Secret c) (ge_now env) token with
       | Some claims => inl claims
       | None => inr (unauthenticated "invalid token")
       end.

(** Core.admit: [Some resp] when it has answered. *)
Definition admit_tenant (env : GwEnv) (c : Core) (tenant : string) : Core * option HttpResponse :=
  let '(l, d) := Take (ge_order env) (ge_now env) tenant (gc_Limiter c) in
  let c := mkCore (gc_Secret c) l (StockBreaker c) (ReservationBreaker c) (OrderBreaker c) (BreakerGauge c) in
  if Allowed d then (c, None)
  else
    let secs := f_to_int64 (Seconds (RetryAfter d)) + 1 in
    (c, Some (httpError_write_after [("Retry-After", pretty secs)]
                (mkHttpError 429 "resource_exhausted"
                   ("rate limit exceeded, retry after " +:+ Duration_String (RetryAfter d))))).

(** The middleware answers, or hands the request on with the claims it put into
    the context. *)
Inductive passage := Answer (resp : HttpResponse) | Forward (claims : option Claims).

(** What follows an admission. *)
Definition admitted (claims : option Claims) (a : Core * option HttpResponse) : Core * passage :=
  (a.1, match a.2 with Some resp => Answer resp | None => Forward claims end).

Definition Middleware (env : GwEnv) (c : Core) (r : HttpRequest) : Core * passage :=
  if bool_decide (hr_Path r = "/healthz") || bool_decide (hr_Path r = "/readyz") then (c, Forward None)
  else if bool_decide (hr_Path r = loginPath) then
    admitted None (admit_tenant env c ("login:" +:+ loginHost (hr_RemoteAddr r)))
  else
    match authorize env c r with
    | inr e => (c, Answer (httpError_write e))
    | inl claims =>
        if match operationFor (hr_Method r) (hr_Path r) with
           | Some op => negb (Allows claims op)
           | None => false
           end
        then (c, Answer (httpError_write
                           (mkHttpError 403 "permission_denied" "token role does not permit this operation")))
        else admitted (Some claims) (admit_tenant env c (TenantID claims))
    end.

(** ** Handlers *)

Section Route.
Context {P Resp X : Type} `{ProtoReflect P} `{ProtoJson Resp}.

(** The message for the backend, or an error.  protojson's Unmarshal resets the
    message it is given. *)
Definition gw_decode (r : HttpRequest) (claims : Claims) (body : body_state P) (start : P) : P + httpError :=
  let finish msg :=
    if negb (bool_decide (stringField msg "tenant_id" = "")) &&
       negb (bool_decide (stringField msg "tenant_id" = TenantID claims))
    then inr (mkHttpError 403 "permission_denied" "body tenant does not match token tenant")
    else
      let msg := setStringField msg "tenant_id" (TenantID claims) in
      inl (if bool_decide (hr_IdempotencyKey r = "") then msg
           else setStringField msg "idempotency_key" (hr_IdempotencyKey r)) in
  match body with
  | BodyUnreadable => inr (mkHttpError 400 "invalid_argument" "unreadable body")
  | BodyInvalid err => inr (mkHttpError 400 "invalid_argument" ("invalid JSON body: " +:+ err))
  | BodyEmpty => finish start
  | BodyMessage msg => finish msg
  end.

(** The call through its breaker; [called] is what the backend was given. *)
Record invoked := mkInvoked {
  iv_breaker : Breaker;
  iv_gauge : option Metrics;
  iv_backend : X;
  iv_response : HttpResponse;
  called : option P;
}.

Definition callTimeout : Z := 10 * nanos.

Definition invoke (env : GwEnv) (g : option Metrics) (dep : string) (br : Breaker) (call : P → X → X * res Resp)
    (msg : P) (x : X) : invoked :=
  match Allow (ge_now env) br with
  | (br, Some e) =>
      mkInvoked br (publish dep br g) x (httpError_write (mkHttpError 503 "unavailable" (error_text e))) None
  | (br, None) =>
      match call msg x with
      | (x, Err e) =>
          let br := match status_Code e with
                    | Unavailable | DeadlineExceeded => RecordFailure (ge_report env) br
                    | _ => RecordSuccess br
                    end in
          mkInvoked br (publish dep br g) x (httpError_write (errorFromGRPC e)) (Some msg)
      | (x, Ok resp) =>
          let br := RecordSuccess br in
          mkInvoked br (publish dep br g) x
            (match marshal resp with
             | Some j => mkHttpResponse 200 [json_type] (JsonBody j)
             | None => httpError_write (mkHttpError 500 "internal" "response encoding failed")
             end) (Some msg)
      end
  end.

(** Nothing was called: the response is the error's. *)
Definition refused_with (g : option Metrics) (br : Breaker) (x : X) (e : httpError) : invoked :=
  mkInvoked br g x (httpError_write e) None.

(** Core.claims: the middleware's, or an error. *)
Definition core_claims (claims : option Claims) : Claims + httpError :=
  match claims with Some cl => inl cl | None => inr (unauthenticated "missing claims") end.

(** route: decode, then the call. *)
Definition route (env : GwEnv) (g : option Metrics) (dep : string) (br : Breaker) (rpc : string)
    (call : P → X → X * res Resp) (r : HttpRequest) (claims : option Claims) (body : body_state P) (x : X) : invoked :=
  match core_claims claims with
  | inr e => refused_with g br x e
  | inl claims =>
      match gw_decode r claims body (new_message rpc) with
      | inr e => refused_with g br x e
      | inl msg => invoke env g dep br call msg x
      end
  end.

Definition missing_id : httpError := mkHttpError 400 "invalid_argument" "missing order id".

(** byID: the order id comes from the path. *)
Definition byID (env : GwEnv) (g : option Metrics) (dep : string) (br : Breaker) (rpc : string)
    (call : P → X → X * res Resp) (r : HttpRequest) (id : string) (claims : option Claims) (body : body_state P) (x : X)
  : invoked :=
  if bool_decide (id = "") then refused_with g br x missing_id
  else match core_claims claims with
  | inr e => refused_with g br x e
  | inl claims =>
      match gw_decode r claims body (new_message rpc) with
      | inr e => refused_with g br x e
      | inl msg => invoke env g dep br call (setStringField msg "order_id" id) x
      end
  end.

(** OrderRoutes.get: the order id is in the message before it is decoded. *)
Definition get (env : GwEnv) (g : option Metrics) (dep : string) (br : Breaker) (rpc : string)
    (call : P → X → X * res Resp) (r : HttpRequest) (id : string) (claims : option Claims) (body : body_state P) (x : X)
  : invoked :=
  if bool_decide (id = "") then refused_with g br x missing_id
  else match core_claims claims with
  | inr e => refused_with g br x e
  | inl claims =>
      match gw_decode r claims body (setStringField (new_message rpc) "order_id" id) with
      | inr e => refused_with g br x e
      | inl msg => invoke env g dep br call msg x
      end
  end.

Definition handle (env : GwEnv) (g : option Metrics) (e : endpoint) (br : Breaker) (call : P → X → X * res Resp)
    (r : HttpRequest) (id : string) (claims : option Claims) (body : body_state P) (x : X) : invoked :=
  match ep_Handler e with
  | HRoute => route env g (ep_Dep e) br (ep_Rpc e) call r claims body x
  | HById => byID env g (ep_Dep e) br (ep_Rpc e) call r id claims body x
  | HGet => get env g (ep_Dep e) br (ep_Rpc e) call r id claims body x
  end.

(** ** The server *)

(** The outcome of a request: the backends, the response, the rpc that was made
    with its message, the answer of a login. *)
Record served := mkServed {
  sv_backend : X;
  sv_response : HttpResponse;
  sv_call : option (string * P);
  sv_login : option LoginAnswer;
}.

(** core.Middleware(mux).  [creds] is the body of a login, [body] that of an API
    request. *)
Definition serve (env : GwEnv) (auth : option AuthRoutes) (c : Core) (call : string → P → X → X * res Resp)
    (r : HttpRequest) (creds : option (string * string)) (body : body_state P) (x : X) : Core * served :=
  match Middleware env c r with
  | (c, Answer resp) => (c, mkServed x resp None None)
  | (c, Forward claims) =>
      match mux auth r with
      | ToNone status => (c, mkServed x (mkHttpResponse status [] MuxPage) None None)
      | ToHealth => (c, mkServed x (mkHttpResponse 200 [] (TextBody "ok")) None None)
      | ToReady => (c, mkServed x (mkHttpResponse (ge_ready env).1 [] (TextBody (ge_ready env).2)) None None)
      | ToLogin =>
          match auth with
          | None => (c, mkServed x (mkHttpResponse 404 [] MuxPage) None None)
          | Some a =>
              let r := login (gc_Secret c) (ge_now env) a creds in
              (c, mkServed x (login_response r) None (match r with inl ans => Some ans | inr _ => None end))
          end
      | ToApi e id =>
          let v := handle env (BreakerGauge c) e (breaker_of (ep_Dep e) c) (call (ep_Rpc e)) r id claims body x in
          (set_gauge (iv_gauge v) (set_breaker (ep_Dep e) (iv_breaker v) c),
           mkServed (iv_backend v) (iv_response v) ((λ m, (ep_Rpc e, m)) <$> called v) None)
      end
  end.

Definition sv_status (v : served) : Z := rp_Status (sv_response v).

(** What protoreflect promises for the string fields of proto3 messages, all of
    which have a tenant_id: setting one is read back, and changes no other. *)
Class ReflectLaws : Prop := {
  tenant_field (m : P) : pr_Kind m "tenant_id" = Some StringKind;
  set_kind (m : P) f v g : pr_Kind (pr_Set m f v) g = pr_Kind m g;
  set_has (m : P) f v : pr_Kind m f = Some StringKind → pr_Has (pr_Set m f v) f = negb (bool_decide (v = ""));
  set_get (m : P) f v : pr_Kind m f = Some StringKind → pr_Get (pr_Set m f v) f = v;
  set_other (m : P) f v g : f ≠ g → pr_Has (pr_Set m f v) g = pr_Has m g ∧ pr_Get (pr_Set m f v) g = pr_Get m g;
}.

(** ** Lemmas *)

Lemma set_same `{!ReflectLaws} (m : P) v : stringField (setStringField m "tenant_id" v) "tenant_id" = v.
Proof.
  unfold setStringField, stringField. rewrite tenant_field, tenant_field, set_has, set_get by apply tenant_field.
  destruct (bool_decide (v = "")) eqn:Hv; [|done]. by apply bool_decide_eq_true in Hv as ->.
Qed.

Lemma set_field_other `{!ReflectLaws} (m : P) f v g :
  f ≠ g → stringField (setStringField m f v) g = stringField m g.
Proof.
  intros Hne. unfold setStringField, stringField. destruct (pr_Kind m f) as [[]|]; try done.
  destruct (set_other m f v g Hne) as [-> ->]. by rewrite set_kind.
Qed.

Lemma decode_tenant `{!ReflectLaws} r claims body start msg :
  gw_decode r claims body start = inl msg → stringField msg "tenant_id" = TenantID claims.
Proof.
  unfold gw_decode. intros Hd.
  assert (∀ m, (if bool_decide (hr_IdempotencyKey r = "") then setStringField m "tenant_id" (TenantID claims)
     else setStringField (setStringField m "tenant_id" (TenantID claims)) "idempotency_key" (hr_IdempotencyKey r)) = msg →
     stringField msg "tenant_id" = TenantID claims) as Hm.
  { clear Hd. intros m <-. destruct (bool_decide (hr_IdempotencyKey r = "")); rewrite ?set_field_other by done; apply set_same. }
  destruct body as [| |err|m]; try done; (destruct (_ && _); [done|]); injection Hd as Hd; by eapply Hm.
Qed.

Lemma invoke_called env g dep br call msg x m : called (invoke env g dep br call msg x) = Some m → m = msg.
Proof.
  unfold invoke. destruct (Allow _ _) as [br' [e|]]; [done|]. destruct (call msg x) as [x' [a|e]]; cbn; by intros [= <-].
Qed.

(** Whatever the handler, the backend is called only with the claims of the
    middleware, and for their tenant. *)
Lemma handle_called `{!ReflectLaws} env g e br call r id claims body x m :
  called (handle env g e br call r id claims body x) = Some m →
  ∃ cl, claims = Some cl ∧ stringField m "tenant_id" = TenantID cl.
Proof.
  unfold handle, route, byID, get.
  destruct (ep_Handler e), claims as [cl|]; cbn [core_claims]; try (destruct (bool_decide (id = "")); done); try done;
    intros Hc; try (destruct (bool_decide (id = "")); [done|]);
    (destruct (gw_decode _ _ _ _) as [msg|] eqn:Hd; [|done]); apply invoke_called in Hc as ->;
    exists cl; (split; [done|]); rewrite ?set_field_other by done; by eapply decode_tenant.
Qed.

Lemma admit_secret env c t : gc_Secret (admit_tenant env c t).1 = gc_Secret c.
Proof. unfold admit_tenant. destruct (Take _ _ _ _) as [l d]. by destruct (Allowed d). Qed.

End Route.

(** *** The mux *)

Lemma mux_find_ok r es e id :
  mux_find r es = Some (e, id) → e ∈ es ∧ path_matches r e = Some id ∧ method_matches (ep_Method e) (hr_Method r) = true.
Proof.
  induction es as [|e' es IH]; [done|]. cbn [mux_find]. rewrite elem_of_cons.
  destruct (path_matches r e') as [id'|] eqn:Hp; [|naive_solver].
  destruct (method_matches (ep_Method e') (hr_Method r)) eqn:Hm; [|naive_solver].
  intros He. injection He as -> ->. by auto.
Qed.

Lemma mux_api auth r e id : mux auth r = ToApi e id → mux_find r mounted = Some (e, id).
Proof.
  unfold mux. destruct (mux_find r mounted) as [[e' id']|]; [by intros [= -> ->]|].
  destruct (bool_decide (_ = ["healthz"])); [by destruct (method_matches _ _)|].
  destruct (bool_decide (_ = ["readyz"])); [by destruct (method_matches _ _)|].
  destruct (bool_decide (_ = ["v1"; "auth"; "login"])); [|done]. destruct auth; [by destruct (bool_decide _)|done].
Qed.

Lemma match_cons p ps segs id :
  match_segments (p :: ps) segs = Some id →
  ∃ s ss id', segs = s :: ss ∧ match_segments ps ss = Some id' ∧ (p = "{id}" ∨ p = s).
Proof.
  destruct segs as [|s ss]; [done|]. cbn [match_segments].
  destruct (bool_decide (p = "{id}")) eqn:Hw; [apply bool_decide_eq_true in Hw|].
  - destruct (bool_decide (s = "")); [done|]. destruct (match_segments ps ss) as [id'|] eqn:Hm; [|done].
    intros _. exists s, ss, id'. by auto.
  - destruct (bool_decide (p = s)) eqn:He; [|done]. apply bool_decide_eq_true in He. intros Hm. exists s, ss, id. by auto.
Qed.

Lemma match_nil segs id : match_segments [] segs = Some id → segs = [].
Proof. by destruct segs. Qed.

Lemma method_POST m : method_matches "POST" m = true → m = "POST".
Proof.
  unfold method_matches. rewrite (bool_decide_false ("POST" = "GET")) by done. cbn [andb]. rewrite orb_false_r.
  by intros <-%bool_decide_eq_true.
Qed.

Lemma method_GET m : method_matches "GET" m = true → m = "GET" ∨ m = "HEAD".
Proof.
  unfold method_matches. rewrite (bool_decide_true ("GET" = "GET")) by done. cbn [andb].
  intros [<-%bool_decide_eq_true | ->%bool_decide_eq_true]%orb_prop; auto.
Qed.

(** A path with the segments v1 and [area] at its head. *)
Lemma path_head r area rest :
  hr_Segments r = "v1" :: area :: rest →
  hr_Path r = "/v1/" +:+ area ∨ ∃ tail, hr_Path r = "/v1/" +:+ area +:+ "/" +:+ tail.
Proof.
  intros Hs. unfold hr_Path. rewrite Hs. destruct rest as [|s rest]; [by left|]. right.
  exists (String.concat "/" (s :: rest)). done.
Qed.

Lemma split_area area rest :
  free_of "/"%char area = true → rest = "" ∨ (∃ r, rest = String "/" r) →
  ∃ more, split_on "/"%char ("v1/" +:+ area +:+ rest) "" = "v1" :: area :: more.
Proof.
  intros Ha Hr. assert (split_on "/"%char ("v1/" +:+ area +:+ rest) "" = "v1" :: split_on "/"%char rest area) as ->.
  { change ("v1/" +:+ area +:+ rest) with (String "v" (String "1" (String "/" (area +:+ rest)))).
    cbn [split_on]. by rewrite split_on_free. }
  destruct Hr as [->|[r ->]]; cbn; by eexists.
Qed.

(** The areas of the surface, and what each rpc needs. *)
Definition areas : list string := ["stock"; "reservations"; "orders"].

Lemma segments_head r area rest :
  area ∈ areas → hr_Segments r = "v1" :: area :: rest → ∃ more, segments (hr_Path r) = "v1" :: area :: more.
Proof.
  intros Harea Hs. unfold segments.
  assert (∃ tail, (tail = "" ∨ ∃ t, tail = String "/" t) ∧ trim_slash_left (hr_Path r) = "v1/" +:+ area +:+ tail)
    as (tail & Htail & ->).
  { destruct (path_head r area rest Hs) as [->|[t ->]].
    - exists "". split; [by left|]. by rewrite append_nil_r.
    - exists ("/" +:+ t). split; [right; by eexists|]. done. }
  rewrite <- append_assoc3, trim_slash_right_app.
  assert (trim_slash_right ("v1/" +:+ area) = "v1/" +:+ area ∧ free_of "/"%char area = true) as [Htrim Hfree].
  { unfold areas in Harea. repeat (apply elem_of_cons in Harea as [->|Harea]);
      try (by apply elem_of_nil in Harea); done. }
  assert (∃ t', (t' = "" ∨ ∃ t, t' = String "/" t) ∧
    match trim_slash_right tail with "" => trim_slash_right ("v1/" +:+ area) | r => ("v1/" +:+ area) +:+ r end =
    "v1/" +:+ area +:+ t') as (t' & Ht' & ->).
  { destruct Htail as [->|[t ->]].
    - exists "". split; [by left|]. cbn. by rewrite append_nil_r.
    - destruct (trim_slash_right_head t) as [-> |[t' ->]].
      + exists "". split; [by left|]. by rewrite append_nil_r.
      + exists (String "/" t'). split; [right; by eexists|]. by rewrite append_assoc3. }
  by apply split_area.
Qed.

Definition needed (rpc : string) : string :=
  if bool_decide (rpc ∈ ["Reserve"; "Release"; "AllocateReservation"]) then OpReservationMutate
  else if bool_decide (rpc ∈ ["CreateOrder"; "CancelOrder"; "FulfillOrder"]) then OpOrderMutate
  else if bool_decide (rpc = "GetOrder") then OpOrderRead
  else if bool_decide (rpc = "UnlockStockForAudit") then OpStockAdmin
  else OpStockWrite.

(** The segments that a literal pattern leaves. *)
Ltac by_pattern Hp :=
  match type of Hp with
  | match_segments (segments ?p) _ = _ => let p' := eval vm_compute in (segments p) in change (segments p) with p' in Hp
  end;
  repeat (let H := fresh in apply match_cons in Hp as (? & ? & ? & -> & Hp & [H|H]); [try discriminate H|subst]);
  repeat match goal with H : match_segments [] _ = Some _ |- _ => apply match_nil in H as -> end.

(** The endpoints by area. *)
Inductive area_case (method rpc : string) : list string → Prop :=
| area_stock s : method = "POST" →
    needed rpc = (if bool_decide (s = "unlock") then OpStockAdmin else OpStockWrite) →
    s ∈ ["adjust"; "reserve"; "release"; "allocate"; "fulfill"; "unlock"] → area_case method rpc ["v1"; "stock"; s]
| area_reservations rest : method = "POST" → needed rpc = OpReservationMutate →
    area_case method rpc ("v1" :: "reservations" :: rest)
| area_orders rest : method = "POST" → needed rpc = OpOrderMutate → area_case method rpc ("v1" :: "orders" :: rest)
| area_order_read rest : method = "GET" ∨ method = "HEAD" → needed rpc = OpOrderRead →
    area_case method rpc ("v1" :: "orders" :: rest).

Lemma mounted_area e method segs id :
  e ∈ mounted → match_segments (segments (ep_Pattern e)) segs = Some id →
  method_matches (ep_Method e) method = true → area_case method (ep_Rpc e) segs.
Proof.
  intros Hin Hp Hm. unfold mounted, StockRoutes_Mount, ReservationRoutes_Mount, OrderRoutes_Mount, app in Hin.
  repeat (apply elem_of_cons in Hin as [->|Hin]); try (by apply elem_of_nil in Hin);
    cbn [ep_Pattern ep_Method ep_Rpc] in *; by_pattern Hp; first [apply method_POST in Hm|apply method_GET in Hm];
    first [ by apply area_stock; [done|vm_compute; reflexivity|set_solver]
          | by apply area_reservations | by apply area_orders | by apply area_order_read].
Qed.

(** Every mounted route stands for the operation its rpc needs, and is none of
    the paths that the middleware lets through without a token. *)
Lemma mounted_needs r e id :
  mux_find r mounted = Some (e, id) →
  operationFor (hr_Method r) (hr_Path r) = Some (needed (ep_Rpc e)) ∧
  hr_Path r ≠ "/healthz" ∧ hr_Path r ≠ "/readyz" ∧ hr_Path r ≠ loginPath.
Proof.
  intros (Hin & Hp & Hm)%mux_find_ok. pose proof (mounted_area _ _ _ _ Hin Hp Hm) as Hc.
  assert (∀ area rest, hr_Segments r = "v1" :: area :: rest → area ∈ areas →
    hr_Path r ≠ "/healthz" ∧ hr_Path r ≠ "/readyz" ∧ hr_Path r ≠ loginPath) as Hpath.
  { intros area rest Hs Ha. unfold areas in Ha. destruct (path_head r area rest Hs) as [->|[t ->]];
      repeat (apply elem_of_cons in Ha as [->|Ha]); try (by apply elem_of_nil in Ha); done. }
  inversion Hc as [s Hpost Hn Hs Heq|rest Hpost Hn Heq|rest Hpost Hn Heq|rest Hget Hn Heq];
    (split; [|eapply Hpath; [by symmetry|set_solver]]); rewrite Hn.
  - unfold hr_Path. rewrite <- Heq, Hpost. repeat (apply elem_of_cons in Hs as [->|Hs]);
      try (by apply elem_of_nil in Hs); vm_compute; reflexivity.
  - destruct (segments_head r "reservations" rest) as [more Hmore]; [set_solver|done|].
    unfold operationFor. rewrite Hmore, Hpost. reflexivity.
  - destruct (segments_head r "orders" rest) as [more Hmore]; [set_solver|done|].
    unfold operationFor. rewrite Hmore, Hpost. reflexivity.
  - destruct (segments_head r "orders" rest) as [more Hmore]; [set_solver|done|].
    unfold operationFor. rewrite Hmore. by destruct Hget as [-> | ->].
Qed.

(** A login and the token it hands out. *)
Lemma login_token `{!TokenCodecLaws} spec users ttl c env name password :
  ParseAuthUsers spec = Ok users →
  let attempt := login (gc_Secret c) (ge_now env) (NewAuthRoutes users ttl) (Some (name, password)) in
  let expiry := (ge_now env + (if ttl <=? 0 then 15 * 60 * nanos else ttl)) / nanos in
  ((∃ ans, attempt = inl ans) ↔
     ∃ u, u ∈ users ∧ Username u = name ∧ password ≠ "" ∧ sha256 (Password u) = sha256 password) ∧
  ∀ ans u env' c' r, attempt = inl ans → u ∈ users → Username u = name →
    gc_Secret c' = gc_Secret c → hr_Authorization r = "Bearer " +:+ la_token ans →
    la_tenant_id ans = us_TenantID u ∧
    if ge_now env' / nanos <? expiry
    then ∃ claims, authorize env' c' r = inl claims ∧ TenantID claims = us_TenantID u ∧
           ∀ op, Allows claims op = true ↔ us_Role u = RoleAdmin ∨ op ∈ roleOperations (us_Role u)
    else authorize env' c' r = inr (unauthenticated "invalid token").
Proof.
  intros (Hok & Hnd)%ParseAuthUsers_ok attempt expiry.
  assert (∀ u, u ∈ users → Username u = name → ar_users (NewAuthRoutes users ttl) !! name = Some u ∧ user_ok u) as Hu.
  { intros u Hin Hn. split; [by apply users_table|]. by apply (Forall_forall user_ok users). }
  assert (∀ u, ar_users (NewAuthRoutes users ttl) !! name = Some u →
    attempt = if bool_decide (password = "") || negb (bool_decide (sha256 (Password u) = sha256 password))
              then inr (if bool_decide (password = "")
                        then mkHttpError 400 "invalid_argument" "username and password are required" else wrong_login)
              else match Issue (gc_Secret c) (ge_now env) (us_TenantID u) ttl (mkIssueOptions name (us_Role u) []) with
                   | None => inr (mkHttpError 500 "internal" "token issue failed")
                   | Some tok => inl (mkLoginAnswer tok (f_to_int64 (Seconds ttl)) (us_TenantID u))
                   end) as Hattempt.
  { intros u Hl. unfold attempt, login. pose proof Hl as [Hin Hn]%users_table; [|done].
    destruct (Hu u Hin Hn) as [_ (Hne & _)]. rewrite Hn in Hne. rewrite (bool_decide_false _ Hne), Hl. cbn [orb].
    destruct (bool_decide (password = "")); [done|]. by destruct (bool_decide (sha256 _ = _)). }
  split.
  - split.
    + intros [ans Hans]. assert (∃ u, ar_users (NewAuthRoutes users ttl) !! name = Some u) as [u Hl].
      { unfold attempt, login in Hans. destruct (_ || _); [done|].
        destruct (ar_users _ !! name) as [u|]; [by eexists|done]. }
      exists u. rewrite (Hattempt u Hl) in Hans. apply users_table in Hl as [Hin Hn]; [|done].
      destruct (bool_decide (password = "")) eqn:Hp; [done|]. apply bool_decide_eq_false in Hp. cbn [orb] in Hans.
      destruct (bool_decide (sha256 _ = _)) eqn:Hh; [|done]. by apply bool_decide_eq_true in Hh.
    + intros (u & Hin & Hn & Hp & Hh). destruct (Hu u Hin Hn) as [Hl (_ & _ & Ht & _)].
      rewrite (Hattempt u Hl), (bool_decide_false _ Hp), (bool_decide_true _ Hh). cbn [orb negb].
      unfold Issue. rewrite (bool_decide_false _ Ht). by eexists.
  - intros ans u env' c' r Hans Hin Hn Hsec Hauth. destruct (Hu u Hin Hn) as [Hl (_ & _ & _ & Hrole)].
    rewrite (Hattempt u Hl) in Hans. destruct (_ || _); [done|]. destruct (Issue _ _ _ _ _) as [tok|] eqn:Hi; [|done].
    injection Hans as <-. split; [done|]. cbn [la_token] in Hauth.
    assert (authorize env' c' r = match Verify (gc_Secret c') (ge_now env') tok with
                                  | Some cl => inl cl | None => inr (unauthenticated "invalid token") end) as ->.
    { unfold authorize. rewrite Hauth, TrimPrefix_app. rewrite bool_decide_false; [done|].
      by eapply issue_nonempty. }
    rewrite Hsec, (issue_verify _ _ _ _ _ _ (ge_now env') Hi). cbn [issued_claims Expiry]. fold expiry.
    destruct (ge_now env' / nanos <? expiry); [|done]. eexists. split; [done|]. split; [done|].
    intros op. unfold Allows. cbn [issued_claims Role Scopes io_Role io_Scopes].
    unfold known_role in Hrole. destruct (bool_decide (us_Role u = RoleAdmin)) eqn:Had.
    { apply bool_decide_eq_true in Had. naive_solver. }
    apply bool_decide_eq_false in Had. rewrite orb_false_r in Hrole. rewrite Hrole. cbn [orb negb].
    rewrite bool_decide_false; [|intros He; by rewrite He in Hrole].
    rewrite existsb_exists. setoid_rewrite bool_decide_eq_true. setoid_rewrite <- list_elem_of_In. naive_solver.
Qed.

(** ** Theorems *)

(** C37. Least privilege and tenant isolation at the surface: whenever a request
    makes the gateway call a backend, its Authorization header carried a token
    that verifies now under the gateway's secret, the token's role or scopes
    cover the operation that the rpc needs (UnlockStockForAudit only for an
    administrator, every other change only with write access to its area), and
    the message names the token's tenant, whatever the body said. *)
Theorem backend_call_is_authorized {P Resp X : Type} `{ProtoReflect P} `{ProtoJson Resp} `{!ReflectLaws (P := P)} env auth c
    (call : string → P → X → X * res Resp) r creds body x rpc m :
  sv_call (serve env auth c call r creds body x).2 = Some (rpc, m) →
  ∃ claims, Verify (gc_Secret c) (ge_now env) (TrimPrefix (hr_Authorization r) "Bearer ") = Some claims ∧
    Allows claims (needed rpc) = true ∧ stringField m "tenant_id" = TenantID claims ∧ TenantID claims ≠ "".
Proof.
  unfold serve. destruct (Middleware env c r) as [c1 [resp|claims]] eqn:Hmw; [done|].
  destruct (mux auth r) as [e id| | | |] eqn:Hf; [|by destruct auth|done..].
  apply mux_api in Hf.
  cbn [snd sv_call]. intros Hcall. destruct (called _) as [m'|] eqn:Hm; [|done]. injection Hcall as <- ->.
  apply handle_called in Hm as (cl & -> & Hten). exists cl.
  apply mounted_needs in Hf as (Hop & N1 & N2 & N3). unfold Middleware in Hmw.
  rewrite (bool_decide_false _ N1), (bool_decide_false _ N2), (bool_decide_false _ N3), Hop in Hmw. cbn [orb] in Hmw.
  destruct (authorize env c r) as [cl'|] eqn:Ha; [|done].
  destruct (Allows cl' _) eqn:Hal; [|done]. cbn [negb] in Hmw. unfold admitted in Hmw.
  destruct (admit_tenant _ _ _) as [c2 [|]]; [done|]. injection Hmw as _ ->.
  unfold authorize in Ha. destruct (bool_decide (TrimPrefix _ _ = "")); [done|].
  destruct (Verify _ _ _) eqn:Hver; [|done]. injection Ha as ->.
  split; [done|]. split; [done|]. split; [done|]. apply (verify_signed _ _ _ _ Hver).
Qed.

(** C38. Login hands out exactly the configured powers: with the users that
    ParseAuthUsers read, a login succeeds exactly for the name of a user and a
    password with the hash of the user's; the token it answers with is accepted
    by the gateway's authorization, for that user's tenant and exactly the
    operations of that user's role, until the time to live has passed (to the
    second), and never after. *)
Theorem login_token_works `{!TokenCodecLaws} spec users ttl c env name password :
  ParseAuthUsers spec = Ok users →
  let attempt := login (gc_Secret c) (ge_now env) (NewAuthRoutes users ttl) (Some (name, password)) in
  let expiry := (ge_now env + (if ttl <=? 0 then 15 * 60 * nanos else ttl)) / nanos in
  ((∃ ans, attempt = inl ans) ↔
     ∃ u, u ∈ users ∧ Username u = name ∧ password ≠ "" ∧ sha256 (Password u) = sha256 password) ∧
  ∀ ans u env' c' r, attempt = inl ans → u ∈ users → Username u = name →
    gc_Secret c' = gc_Secret c → hr_Authorization r = "Bearer " +:+ la_token ans →
    la_tenant_id ans = us_TenantID u ∧
    if ge_now env' / nanos <? expiry
    then ∃ claims, authorize env' c' r = inl claims ∧ TenantID claims = us_TenantID u ∧
           ∀ op, Allows claims op = true ↔ us_Role u = RoleAdmin ∨ op ∈ roleOperations (us_Role u)
    else authorize env' c' r = inr (unauthenticated "invalid token").
Proof. apply login_token. Qed.

End Gateway.
