(* ===== verification/GatewayProps.v ===== *)
(** * The gateway over many requests

    What the gateway's limiter and breakers guarantee over sequences of requests:
    how often one host may try to log in, how often a dead backend is called, and
    what the breaker gauge shows meanwhile. *)

From S2P Require Import Prelude GoStrings Database CircuitBreaker Telemetry Float64 RateLimit Auth Http AuthRoutes Gateway.

(** ** Sequences of requests *)

Record GwRequest (P : Type) := mkGwRequest {
  gq_env : GwEnv;
  gq_http : HttpRequest;
  gq_creds : option (string * string);
  gq_body : body_state P;
}.
Arguments mkGwRequest {P}.
Arguments gq_env {P}.
Arguments gq_http {P}.
Arguments gq_creds {P}.
Arguments gq_body {P}.

Section Requests.
Context `{TokenCodec} `{Sha256} `{ErrorText} {P Resp X : Type} `{ProtoReflect P} `{ProtoJson Resp}.

Definition serve_one (auth : option AuthRoutes) (call : string → P → X → X * res Resp) (q : GwRequest P) (c : Core) (x : X)
  : Core * served := serve (gq_env q) auth c call (gq_http q) (gq_creds q) (gq_body q) x.

Fixpoint serve_all (auth : option AuthRoutes) (call : string → P → X → X * res Resp) (qs : list (GwRequest P))
    (c : Core) (x : X) : Core * list served :=
  match qs with
  | [] => (c, [])
  | q :: qs' =>
      let '(c, v) := serve_one auth call q c x in
      let '(c, vs) := serve_all auth call qs' c (sv_backend v) in (c, v :: vs)
  end.

(** ** Specification *)

Definition rpcs_of (dep : string) : list string := ep_Rpc <$> filter (λ e, ep_Dep e = dep) mounted.

Definition deps : list string := ["stock"; "reservation"; "order"].

(** Whether a request made a call of a dependency. *)
Definition called_dep (dep : string) (v : served) : bool :=
  match sv_call (P := P) (X := X) v with Some (rpc, _) => bool_decide (rpc ∈ rpcs_of dep) | None => false end.

Definition calls_to (dep : string) (vs : list served) : Z := zsum (λ v, if called_dep dep v then 1 else 0) vs.

(** The errors that count against a breaker. *)
Definition transport_error (e : go_error) : Prop := status_Code e = Unavailable ∨ status_Code e = DeadlineExceeded.

(** The gauge shows the state of every breaker that was used. *)
Definition gauge_true (c : Core) : Prop :=
  ∃ m, BreakerGauge c = Some m ∧ ∀ dep, dep ∈ deps →
    breakerState m !! dep = None ∨
    breakerState m !! dep = Some (match state (breaker_of dep c) with Closed => 0 | HalfOpen => 1 | Open => 2 end).

(** A breaker that lets [n] more failures through in the window from [t0]. *)
Definition budget (t0 : Z) (b : Breaker) (n : Z) : Prop :=
  state b = Closed ∧ 0 <= failures b ∧ n = FailureThreshold (cfg b) - failures b ∧ 0 < n ∨
  state b = Open ∧ t0 <= openedAt b ∧ n = 0.

(** ** Lemmas *)

Lemma admit_keeps env c t :
  let c' := (admit_tenant env c t).1 in
  (∀ dep, breaker_of dep c' = breaker_of dep c) ∧ BreakerGauge c' = BreakerGauge c.
Proof. unfold admit_tenant. destruct (Take _ _ _ _) as [l d]. by destruct (Allowed d). Qed.

Lemma middleware_keeps env c r :
  let c' := (Middleware env c r).1 in
  (∀ dep, breaker_of dep c' = breaker_of dep c) ∧ BreakerGauge c' = BreakerGauge c.
Proof.
  unfold Middleware. destruct (_ || _); [done|]. destruct (bool_decide _); [apply admit_keeps|].
  destruct (authorize env c r); [|done]. destruct (match operationFor _ _ with Some _ => _ | None => _ end); [done|].
  apply admit_keeps.
Qed.

(** A handler calls through the breaker, or refuses. *)
Lemma handle_cases env g e br (call : P → X → X * res Resp) r id claims body x :
  (∃ msg, handle env g e br call r id claims body x = invoke env g (ep_Dep e) br call msg x) ∨
  (∃ err, handle env g e br call r id claims body x = refused_with g br x err).
Proof.
  unfold handle, route, byID, get. destruct (ep_Handler e);
    try (destruct (bool_decide (id = "")); [by right; eexists|]);
    (destruct (core_claims claims); [|by right; eexists]);
    (destruct (gw_decode _ _ _ _); [by left; eexists|by right; eexists]).
Qed.

Lemma set_breaker_of dep dep' br c :
  dep ∈ deps → dep' ∈ deps → breaker_of dep' (set_breaker dep br c) = if decide (dep' = dep) then br else breaker_of dep' c.
Proof.
  unfold deps. intros Hd Hd'. repeat (apply elem_of_cons in Hd as [->|Hd]); try (by apply elem_of_nil in Hd);
    repeat (apply elem_of_cons in Hd' as [->|Hd']); try (by apply elem_of_nil in Hd'); done.
Qed.

Lemma dep_named dep : dep ∈ deps → dep ≠ "".
Proof. intros Hd ->. unfold deps in Hd. repeat (apply elem_of_cons in Hd as [?|Hd]; [done|]). by apply elem_of_nil in Hd. Qed.

Lemma gauge_breakers g dep c : breaker_of dep (set_gauge g c) = breaker_of dep c.
Proof. done. Qed.

Lemma mounted_deps e : e ∈ mounted → ep_Dep e ∈ deps ∧ ∀ dep, ep_Rpc e ∈ rpcs_of dep ↔ ep_Dep e = dep.
Proof.
  intros He. assert (ep_Dep e ∈ deps) as Hdep.
  { unfold mounted, StockRoutes_Mount, ReservationRoutes_Mount, OrderRoutes_Mount, app in He.
    repeat (apply elem_of_cons in He as [->|He]); try (by apply elem_of_nil in He); cbn; set_solver. }
  split; [done|]. intros dep. unfold rpcs_of. split.
  - intros (e' & Hrpc & [Hd He']%list_elem_of_filter)%list_elem_of_fmap.
    assert (NoDup (ep_Rpc <$> mounted)) as Hnd by (apply (bool_decide_unpack _); vm_compute; exact I).
    apply list_elem_of_lookup in He as [i Hi]. apply list_elem_of_lookup in He' as [j Hj].
    assert (i = j) as ->; [|congruence]. eapply NoDup_lookup; [exact Hnd|..]; rewrite list_lookup_fmap; [by rewrite Hi|].
    rewrite Hj. cbn. by rewrite Hrpc.
  - intros <-. apply list_elem_of_fmap_2, list_elem_of_filter. done.
Qed.

(** One request: nothing is called and the breakers stay, or a mounted route runs
    its call through its breaker. *)
Lemma serve_cases auth call q c x :
  let '(c', v) := serve_one auth call q c x in
  ((∀ dep, breaker_of dep c' = breaker_of dep c) ∧ BreakerGauge c' = BreakerGauge c ∧ sv_call v = None) ∨
  ∃ e msg, e ∈ mounted ∧
    let w := invoke (gq_env q) (BreakerGauge c) (ep_Dep e) (breaker_of (ep_Dep e) c) (call (ep_Rpc e)) msg x in
    (∀ dep, dep ∈ deps → breaker_of dep c' = if decide (dep = ep_Dep e) then iv_breaker w else breaker_of dep c) ∧
    BreakerGauge c' = iv_gauge w ∧ sv_call v = ((λ m, (ep_Rpc e, m)) <$> called w) ∧ sv_response v = iv_response w.
Proof.
  unfold serve_one, serve. pose proof (middleware_keeps (gq_env q) c (gq_http q)) as [Hb Hg].
  destruct (Middleware _ _ _) as [c1 [resp|claims]]; cbn [fst] in *; [by left|].
  destruct (mux auth (gq_http q)) as [e id| | | |] eqn:Hm; [|by destruct auth; left|by left|by left|by left].
  apply mux_api in Hm. apply mux_find_ok in Hm as (He & _ & _). destruct (mounted_deps e He) as [Hd _].
  destruct (handle_cases (gq_env q) (BreakerGauge c1) e (breaker_of (ep_Dep e) c1) (call (ep_Rpc e)) (gq_http q) id claims
              (gq_body q) x) as [[msg ->]|[err ->]].
  - right. exists e, msg. split; [done|]. rewrite Hb, Hg. cbn zeta. split; [|done].
    intros dep Hdep. rewrite gauge_breakers, set_breaker_of by done. destruct (decide _); [done|apply Hb].
  - left. split; [|by split]. intros dep. rewrite gauge_breakers, <- Hb. cbn [refused_with iv_breaker].
    unfold breaker_of, set_breaker. repeat case_bool_decide; subst; done.
Qed.

(** *** The gauge *)

Lemma publish_state dep dep' br m :
  dep ≠ "" → breakerState (publishBreaker dep br m) !! dep' =
    if decide (dep = dep') then Some (match state br with Closed => 0 | HalfOpen => 1 | Open => 2 end)
    else breakerState m !! dep'.
Proof.
  intros Hne. unfold publishBreaker. rewrite bool_decide_false by done. unfold SetBreakerState, State. cbn [breakerState].
  destruct (decide (dep = dep')) as [<-|Hd]; [rewrite lookup_insert_eq|by rewrite lookup_insert_ne].
  by destruct (state br).
Qed.

Lemma invoke_gauge env g dep br (call : P → X → X * res Resp) msg x :
  iv_gauge (invoke env g dep br call msg x) = publish dep (iv_breaker (invoke env g dep br call msg x)) g.
Proof. unfold invoke. destruct (Allow _ _) as [br' [e|]]; [done|]. by destruct (call msg x) as [x' [a|e]]. Qed.

Lemma serve_gauge auth call q c x : gauge_true c → gauge_true (serve_one auth call q c x).1.
Proof.
  intros (m & Hg & Hm). pose proof (serve_cases auth call q c x) as Hc. destruct (serve_one auth call q c x) as [c' v].
  cbn [fst]. destruct Hc as [(Hb & Hg' & _)|(e & msg & He & Hb & Hg' & _)].
  - exists m. split; [congruence|]. intros dep Hdep. rewrite Hb. by apply Hm.
  - destruct (mounted_deps e He) as [Hd _]. rewrite invoke_gauge, Hg in Hg'. cbn [publish fmap option_fmap option_map] in Hg'.
    eexists. split; [exact Hg'|]. intros dep Hdep. rewrite (Hb dep Hdep), publish_state by by apply dep_named.
    destruct (decide (dep = ep_Dep e)) as [->|Hne].
    + right. rewrite !decide_True by done. by rewrite Hg.
    + rewrite decide_False by congruence. by apply Hm.
Qed.

(** *** The budget *)

Lemma invoke_budget t0 n env g dep br (call : P → X → X * res Resp) msg x :
  budget t0 br n → t0 <= ge_now env < t0 + Cooldown (cfg br) → t0 <= ge_report env →
  (∃ e, (call msg x).2 = Err e ∧ transport_error e) →
  let w := invoke env g dep br call msg x in
  ∃ n', budget t0 (iv_breaker w) n' ∧ cfg (iv_breaker w) = cfg br ∧ n' + (match called w with Some _ => 1 | None => 0 end) = n ∧
    (rp_Status (iv_response w) = 503 ∨ rp_Status (iv_response w) = 504).
Proof.
  intros Hn Hnow Hrep (e & He & Ht). unfold invoke, Allow. destruct Hn as [(Hs & Hf & -> & Hpos)|(Hs & Hat & ->)]; rewrite Hs.
  - destruct (call msg x) as [x' r]. cbn [snd] in He. subst r.
    assert (rp_Status (httpError_write (errorFromGRPC e)) = 503 ∨ rp_Status (httpError_write (errorFromGRPC e)) = 504) as Hst.
    { unfold errorFromGRPC. destruct Ht as [Ht|Ht]; destruct e; try discriminate Ht; cbn in *; subst; auto. }
    assert (match status_Code e with Unavailable | DeadlineExceeded => RecordFailure (ge_report env) br
            | _ => RecordSuccess br end = RecordFailure (ge_report env) br) as -> by by destruct Ht as [-> | ->].
    cbn [iv_breaker called iv_response]. unfold RecordFailure. rewrite Hs.
    destruct (Z.leb_spec (FailureThreshold (cfg br)) (failures br + 1)) as [Hth|Hth].
    + exists 0. split; [right; done|]. split; [done|]. split; [cbn; lia|done].
    + exists (FailureThreshold (cfg br) - failures br - 1). split; [|split; [done|split; [cbn; lia|done]]].
      left. cbn. split; [done|lia].
  - rewrite (proj2 (Z.leb_gt _ _)) by lia. cbn. exists 0. split; [by right|]. split; [done|]. split; [done|by left].
Qed.

(** One request while a backend is dead. *)
Lemma serve_budget t0 n dep auth call q c x :
  dep ∈ deps → budget t0 (breaker_of dep c) n →
  (∀ rpc m x, rpc ∈ rpcs_of dep → ∃ e, (call rpc m x).2 = Err e ∧ transport_error e) →
  t0 <= ge_now (gq_env q) < t0 + Cooldown (cfg (breaker_of dep c)) → t0 <= ge_report (gq_env q) →
  let '(c', v) := serve_one auth call q c x in
  ∃ n', budget t0 (breaker_of dep c') n' ∧ cfg (breaker_of dep c') = cfg (breaker_of dep c) ∧
    n' + (if called_dep dep v then 1 else 0) = n ∧
    (called_dep dep v = true → sv_status v = 503 ∨ sv_status v = 504).
Proof.
  intros Hdep Hn Hdead Hnow Hrep. pose proof (serve_cases auth call q c x) as Hc.
  destruct (serve_one auth call q c x) as [c' v]. unfold called_dep, sv_status.
  destruct Hc as [(Hb & _ & ->)|(e & msg & He & Hb & _ & Hcall & Hresp)].
  - exists n. rewrite Hb. split; [done|]. split; [done|]. split; [lia|done].
  - destruct (mounted_deps e He) as [_ Hrpc]. rewrite (Hb dep Hdep), Hcall, Hresp.
    destruct (decide (dep = ep_Dep e)) as [Heq|Hne].
    + rewrite <- Heq. destruct (invoke_budget t0 n (gq_env q) (BreakerGauge c) dep (breaker_of dep c) (call (ep_Rpc e)) msg x)
        as (n' & Hn' & Hcfg & Hsum & Hst); [done|done|done|by apply Hdead, Hrpc|].
      exists n'. split; [done|]. split; [done|]. split; [|done].
      revert Hsum. match goal with |- context [called ?w] => destruct (called w) as [m'|] end; intros Hsum; [|exact Hsum].
      change (n' + (if bool_decide (ep_Rpc e ∈ rpcs_of dep) then 1 else 0) = n).
      rewrite bool_decide_true; [exact Hsum|]. by apply (Hrpc dep).
    + exists n. split; [done|]. split; [done|].
      assert (∀ o : option P, match (λ m, (ep_Rpc e, m)) <$> o with
        | Some (rpc, _) => bool_decide (rpc ∈ rpcs_of dep) | None => false end = false) as ->; [|split; [lia|done]].
      intros [m|]; [|done]. apply (bool_decide_eq_false_2 (ep_Rpc e ∈ rpcs_of dep)). rewrite (Hrpc dep). congruence.
Qed.

Lemma serve_all_budget t0 dep auth call qs : ∀ n c x,
  dep ∈ deps → budget t0 (breaker_of dep c) n →
  (∀ rpc m x, rpc ∈ rpcs_of dep → ∃ e, (call rpc m x).2 = Err e ∧ transport_error e) →
  Forall (λ q, t0 <= ge_now (gq_env q) < t0 + Cooldown (cfg (breaker_of dep c)) ∧ t0 <= ge_report (gq_env q)) qs →
  let '(c', vs) := serve_all auth call qs c x in
  ∃ n', budget t0 (breaker_of dep c') n' ∧ n' + calls_to dep vs = n ∧
    Forall (λ v, called_dep dep v = true → sv_status v = 503 ∨ sv_status v = 504) vs.
Proof.
  induction qs as [|q qs IH]; intros n c x Hdep Hn Hdead Hall; cbn [serve_all].
  { exists n. split; [done|]. split; [cbn; lia|constructor]. }
  apply Forall_cons in Hall as [[Hnow Hrep] Hall].
  pose proof (serve_budget t0 n dep auth call q c x Hdep Hn Hdead Hnow Hrep) as Hone.
  destruct (serve_one auth call q c x) as [c1 v]. destruct Hone as (n1 & Hn1 & Hcfg & Hsum & Hst).
  specialize (IH n1 c1 (sv_backend v) Hdep Hn1 Hdead). rewrite Hcfg in IH. specialize (IH Hall).
  destruct (serve_all auth call qs c1 (sv_backend v)) as [c2 vs]. destruct IH as (n2 & Hn2 & Hsum2 & Hst2).
  exists n2. split; [done|]. unfold calls_to in *. cbn [zsum]. split; [lia|]. by constructor.
Qed.

Lemma serve_all_gauge auth call qs : ∀ c x, gauge_true c → gauge_true (serve_all auth call qs c x).1.
Proof.
  induction qs as [|q qs IH]; intros c x Hg; [done|]. cbn [serve_all].
  pose proof (serve_gauge auth call q c x Hg) as Hg1. destruct (serve_one auth call q c x) as [c1 v].
  specialize (IH c1 (sv_backend v) Hg1). by destruct (serve_all auth call qs c1 (sv_backend v)) as [c2 vs].
Qed.

(** *** Logins *)

(** A login request of a host. *)
Definition login_from (host : string) (q : GwRequest P) : Prop :=
  hr_Segments (gq_http q) = ["v1"; "auth"; "login"] ∧ loginHost (hr_RemoteAddr (gq_http q)) = host.

Lemma login_not_429 secret now a creds : rp_Status (login_response (login secret now a creds)) ≠ 429.
Proof. unfold login. repeat case_match; done. Qed.

Lemma login_admitted host auth call q c x :
  login_from host q → let env := gq_env q in
  let '(c', v) := serve_one auth call q c x in
  let '(l', d) := Take (ge_order env) (ge_now env) ("login:" +:+ host) (gc_Limiter c) in
  gc_Limiter c' = l' ∧ (sv_status v = 429 ↔ Allowed d = false) ∧ sv_call v = None ∧ sv_backend v = x.
Proof.
  intros [Hs Hh]. cbn zeta. unfold serve_one, serve, Middleware.
  assert (hr_Path (gq_http q) = loginPath) as -> by (unfold hr_Path; by rewrite Hs).
  rewrite !(bool_decide_false (loginPath = _)), bool_decide_true by done. cbn [orb]. rewrite Hh. unfold admitted, admit_tenant.
  destruct (Take _ _ _ _) as [l d]. destruct (Allowed d); cbn [fst snd]; [|done].
  assert (mux auth (gq_http q) = match auth with
            | Some _ => if bool_decide (hr_Method (gq_http q) = "POST") then ToLogin else ToNone 405
            | None => ToNone 404 end) as ->.
  { unfold mux. rewrite Hs. assert (mux_find (gq_http q) mounted = None) as ->; [|done].
    destruct (mux_find (gq_http q) mounted) as [[e id]|] eqn:Hf; [|done].
    destruct (mounted_needs _ _ _ Hf) as (_ & _ & _ & Hn). destruct Hn. unfold hr_Path. by rewrite Hs. }
  destruct auth as [a|]; [|done]. destruct (bool_decide _); [|done]. split; [done|]. split; [|done].
  unfold sv_status. cbn [sv_response]. split; [|done]. intros E. by apply login_not_429 in E.
Qed.

Lemma logins_bounded host now n auth call qs : ∀ c x t,
  bursty n (gc_Limiter c) → digits n <= 53 → 0 <= t <= Zpos n →
  (buckets (gc_Limiter c) !! ("login:" +:+ host) = Some (mkBucket (f_of_Z t) now) ∨
   buckets (gc_Limiter c) !! ("login:" +:+ host) = None ∧ t = Zpos n) →
  Forall (λ q, login_from host q ∧ ge_now (gq_env q) = now) qs →
  (λ v, bool_decide (sv_status v = 429)) <$> (serve_all auth call qs c x).2 =
  replicate (Nat.min (length qs) (Z.to_nat t)) false ++ replicate (length qs - Z.to_nat t) true.
Proof.
  induction qs as [|q qs IH]; intros c x t Hl Hn Ht Hb Hall; [done|].
  apply Forall_cons in Hall as [[Hq Hnow] Hall]. cbn [serve_all length].
  pose proof (login_admitted host auth call q c x Hq) as Hone. destruct (serve_one auth call q c x) as [c1 v].
  destruct (take_instant (ge_order (gq_env q)) now ("login:" +:+ host) (gc_Limiter c) n t Hl Hn Ht Hb) as (Ha & Hl' & Hb').
  cbn zeta in *. rewrite Hnow in Hone. destruct (Take _ _ _ _) as [l d]. cbn [fst snd] in *.
  destruct Hone as (Hlim & Hst & _ & _).
  specialize (IH c1 (sv_backend v) (Z.max 0 (t - 1))). rewrite Hlim in IH.
  specialize (IH Hl' Hn ltac:(lia) (or_introl Hb') Hall).
  destruct (serve_all auth call qs c1 (sv_backend v)) as [c2 vs]. cbn [snd fmap list_fmap] in *.
  change (list_fmap served bool _ vs) with ((λ v, bool_decide (sv_status v = 429)) <$> vs). rewrite IH.
  rewrite (bool_decide_ext _ _ Hst), Ha. destruct (Z.leb_spec 1 t) as [Hle|Hle].
  - replace (Z.to_nat t) with (S (Z.to_nat (Z.max 0 (t - 1)))) by lia. rewrite bool_decide_false by done. done.
  - assert (t = 0) as -> by lia. rewrite bool_decide_true by done. cbn. by rewrite Nat.min_0_r, Nat.sub_0_r.
Qed.

(** ** Theorems *)


(** C40. Guessing passwords is bounded: of any number of login requests that one host
    sends at one instant, over whatever connections (the port does not count, of
    IPv4 and of IPv6 addresses), methods and credentials, exactly the first
    [n] pass the limiter with a burst of [n], and every other is answered 429
    without a look at the credentials. *)
Theorem logins_limited_per_host host now n auth call qs c x :
  Zpos n <= 2 ^ 53 - 1 → bursty n (gc_Limiter c) → buckets (gc_Limiter c) !! ("login:" +:+ host) = None →
  Forall (λ q, hr_Segments (gq_http q) = ["v1"; "auth"; "login"] ∧ ge_now (gq_env q) = now ∧
            ∃ port, plain port = true ∧
              (plain host = true ∧ hr_RemoteAddr (gq_http q) = host +:+ ":" +:+ port ∨
               free_of "["%char host = true ∧ free_of "]"%char host = true ∧
               hr_RemoteAddr (gq_http q) = "[" +:+ host +:+ "]:" +:+ port)) qs →
  (λ v, bool_decide (sv_status v = 429)) <$> (serve_all auth call qs c x).2 =
  replicate (Nat.min (length qs) (Pos.to_nat n)) false ++ replicate (length qs - Pos.to_nat n) true.
Proof.
  intros Hn Hl Hnew Hall. rewrite (logins_bounded host now n auth call qs c x (Zpos n)); [done|done| |lia|by right|].
  { by apply digits_small. }
  eapply Forall_impl; [exact Hall|]. intros q (Hs & Hnow & port & Hp & Haddr). split; [|done]. split; [done|].
  destruct Haddr as [[Hh ->]|(Hb1 & Hb2 & ->)]; [by apply loginHost_name|by apply loginHost_bracketed].
Qed.

End Requests.
