(* ===== verification/Tenants.v ===== *)
(** * Tenants

    Row-level security keeps the tenants of a service apart: a transaction in the
    scope of a tenant answers and writes exactly as it would in a database that
    holds only this tenant's rows, and leaves the rows of every other tenant
    alone.  The queries of the three databases are shown to have this property one
    by one; it composes, so the closures and handlers have it without a look at
    which tenants their statements name. *)

From S2P Require Import Prelude Database StockDb StockApi StockService StockRefine StockClient.
From S2P Require Import ReservationDb ReservationService CircuitBreaker Payment OrderDb OrderService.

(** ** Parts of a tenant *)

Definition own_map {K V} `{Countable K} (ten : K → uuid) (t : uuid) (m : gmap K V) : gmap K V :=
  filter (λ kv, ten kv.1 = t) m.

Definition own_list {A} (ten : A → uuid) (t : uuid) (l : list A) : list A := filter (λ a, ten a = t) l.

Arguments own_map : simpl never.
Arguments own_list : simpl never.

(** [own t w]: the state without the rows of the other tenants; what the tenants
    share (sequences, faults to come, breakers) stays.  [rows_of t w]: the rows of
    [t] alone. *)
Class Tenanted (W : Type) := {
  own : uuid → W → W;
  Rows : Type;
  rows_of : uuid → W → Rows;
}.

(** A query in the scope of [t]. *)
Definition q_confined `{Tenanted D} {A} (t : uuid) (q : Q D A) : Prop := ∀ now d,
  match q (tenant_session t now) d with
  | Ok (d', a) => q (tenant_session t now) (own t d) = Ok (own t d', a) ∧ ∀ u, u ≠ t → rows_of u d' = rows_of u d
  | Err e => q (tenant_session t now) (own t d) = Err e
  end.

(** A closure of ExecTxWithTenant. *)
Definition fn_confined `{Tenanted D} {R} (t : uuid) (fn : TxFn D R) : Prop := ∀ now d,
  match fn (tenant_session t now) d with
  | (r, Ok d') => fn (tenant_session t now) (own t d) = (r, Ok (own t d')) ∧ ∀ u, u ≠ t → rows_of u d' = rows_of u d
  | (r, Err e) => fn (tenant_session t now) (own t d) = (r, Err e)
  end.

(** A request of [t]: from a state and from its part of [t]. *)
Definition apart `{Tenanted W} {R} (t : uuid) (w : W) (p p' : W * R) : Prop :=
  p' = (own t p.1, p.2) ∧ ∀ u, u ≠ t → rows_of u p.1 = rows_of u w.

Definition confined `{Tenanted W} {R} (t : uuid) (f : W → W * R) : Prop := ∀ w, apart t w (f w) (f (own t w)).

(** The tables every service has. *)
Class TenantedStore (D : Type) `{PgStore D} `{Tenanted D} : Prop := {
  ts_next t (d : D) : next_uuid (own t d) = next_uuid d;
  ts_set_next t n (d : D) : own t (set_next_uuid n d) = set_next_uuid n (own t d);
  ts_rows_next u n (d : D) : rows_of u (set_next_uuid n d) = rows_of u d;
  ts_idem t (d : D) : idem (own t d) = own_map fst t (idem d);
  ts_set_idem t m (d : D) : own t (set_idem m d) = set_idem (own_map fst t m) (own t d);
  ts_rows_idem u m (d : D) : own_map fst u m = own_map fst u (idem d) → rows_of u (set_idem m d) = rows_of u d;
  ts_outbox t (d : D) : outbox (own t d) = own_list (ob_TenantID ∘ ob) t (outbox d);
  ts_set_outbox t l (d : D) : own t (set_outbox l d) = set_outbox (own_list (ob_TenantID ∘ ob) t l) (own t d);
  ts_rows_outbox u l (d : D) :
    own_list (ob_TenantID ∘ ob) u l = own_list (ob_TenantID ∘ ob) u (outbox d) → rows_of u (set_outbox l d) = rows_of u d;
}.

(** ** Lemmas on maps and lists *)

Lemma session_visible t now u : visible (tenant_session t now) u = bool_decide (t = u).
Proof. done. Qed.

Section Parts.
Context {K V : Type} `{Countable K} (ten : K → uuid).

Lemma own_lookup t (m : gmap K V) k : ten k = t → own_map ten t m !! k = m !! k.
Proof.
  intros Ht. unfold own_map. rewrite map_lookup_filter. destruct (m !! k); [|done]. cbn.
  by rewrite option_guard_True.
Qed.

Lemma own_insert t (m : gmap K V) k v : ten k = t → own_map ten t (<[k:=v]> m) = <[k:=v]> (own_map ten t m).
Proof. intros Ht. by apply map_filter_insert_True. Qed.

Lemma own_insert_ne u (m : gmap K V) k v : ten k ≠ u → own_map ten u (<[k:=v]> m) = own_map ten u m.
Proof. intros Ht. by apply map_filter_insert_not. Qed.

Lemma own_alter t f (m : gmap K V) k : ten k = t → own_map ten t (alter f k m) = alter f k (own_map ten t m).
Proof.
  intros Ht. apply map_eq. intros j. destruct (decide (j = k)) as [->|Hne].
  - by rewrite own_lookup, !lookup_alter_eq, own_lookup.
  - unfold own_map. by rewrite map_lookup_filter, !lookup_alter_ne, map_lookup_filter.
Qed.

Lemma own_alter_ne u f (m : gmap K V) k : ten k ≠ u → own_map ten u (alter f k m) = own_map ten u m.
Proof.
  intros Ht. apply map_eq. intros j. unfold own_map. rewrite !map_lookup_filter. destruct (decide (j = k)) as [->|Hne].
  - rewrite lookup_alter_eq. destruct (m !! k); [|done]. cbn. by rewrite !option_guard_False.
  - by rewrite lookup_alter_ne.
Qed.

End Parts.

Lemma own_app {A} (ten : A → uuid) t l a : ten a = t → own_list ten t (l ++ [a]) = own_list ten t l ++ [a].
Proof. intros Ht. unfold own_list. rewrite filter_app. f_equal. by rewrite filter_cons_True. Qed.

Lemma own_app_ne {A} (ten : A → uuid) u l a : ten a ≠ u → own_list ten u (l ++ [a]) = own_list ten u l.
Proof. intros Ht. unfold own_list. rewrite filter_app, filter_cons_False by done. by rewrite app_nil_r. Qed.

(** What a selection that only takes rows of [t] finds. *)
Lemma select_own {A} (ten : A → uuid) t (P : A → Prop) `{!∀ a, Decision (P a)} l :
  (∀ a, P a → ten a = t) → filter P (own_list ten t l) = filter P l.
Proof. apply list_filter_filter_l. Qed.

(** ** Queries and transactions *)

Lemma tenant_from_context ctx tenant T : TenantIDFromContext (WithTenantID ctx tenant) = Ok T → T = tenant.
Proof. unfold TenantIDFromContext. cbn. intros. by case_bool_decide; simplify_eq. Qed.


Section Queries.
Context `{Tenanted D}.

Lemma ret_confined {A} t (a : A) : q_confined t (mret a : Q D A).
Proof. by intros now d. Qed.

Lemma fail_confined {A} t e : q_confined t (fail e : Q D A).
Proof. by intros now d. Qed.

Lemma bind_confined {A B} t (q : Q D A) (f : A → Q D B) :
  q_confined t q → (∀ a, q_confined t (f a)) → q_confined t (q ≫= f).
Proof.
  intros Hq Hf now d. specialize (Hq now d). unfold mbind, Q_bind.
  destruct (q (tenant_session t now) d) as [[d1 a]|e]; [|by rewrite Hq].
  destruct Hq as [-> Hr]. specialize (Hf a now d1).
  destruct (f a (tenant_session t now) d1) as [[d2 b]|e]; [|done].
  destruct Hf as [-> Hr']. split; [done|]. intros u Hu. by rewrite Hr', Hr.
Qed.

Lemma attempt_confined {A} t (q : Q D A) : q_confined t q → q_confined t (attempt q).
Proof.
  intros Hq now d. specialize (Hq now d). unfold attempt.
  destruct (q (tenant_session t now) d) as [[d1 a]|e]; [by destruct Hq as [-> ?]|by rewrite Hq].
Qed.

Lemma fold_confined {A B} t (f : B → A → Q D B) acc l :
  (∀ b a, q_confined t (f b a)) → q_confined t (foldM f acc l).
Proof.
  intros Hf. revert acc. induction l as [|a l IH]; intros acc; [apply ret_confined|].
  cbn [foldM]. by apply bind_confined.
Qed.

Lemma body_confined {A} t (q : Q D A) : q_confined t q → fn_confined t (tx_body q).
Proof.
  intros Hq now d. specialize (Hq now d). unfold tx_body.
  destruct (q (tenant_session t now) d) as [[d1 a]|e]; [by destruct Hq as [-> ?]|by rewrite Hq].
Qed.

(** A transaction of the tenant, whatever becomes of it. *)
Lemma exec_confined `{UuidText} {R} env ctx tenant t (fn : TxFn D R) d :
  uuid_scan tenant = Some t → fn_confined t fn →
  ∃ d' r e, ExecTxWithTenant env (WithTenantID ctx tenant) fn d = (d', r, e) ∧
    ExecTxWithTenant env (WithTenantID ctx tenant) fn (own t d) = (own t d', r, e) ∧
    ∀ u, u ≠ t → rows_of u d' = rows_of u d.
Proof.
  intros Ht Hfn. unfold ExecTxWithTenant. destruct (TenantIDFromContext _) as [T|e] eqn:HT; [|by eauto 6].
  apply tenant_from_context in HT as ->.
  destruct (tx_begin_err env); [by eauto 6|]. unfold SetTenantRLS. destruct (tx_rls_err env); [by eauto 6|].
  rewrite Ht. unfold tx_run. destruct (tx_conn_err env); [by eauto 6|].
  specialize (Hfn (tx_now env) d). unfold tenant_session in Hfn.
  destruct (fn _ d) as [r [d'|e]]; [destruct Hfn as [-> Hr]|rewrite Hfn; by eauto 6].
  destruct (tx_commit env); eauto 6.
Qed.

End Queries.

Create HintDb tenancy.
#[export] Hint Resolve ret_confined fail_confined attempt_confined fold_confined body_confined : tenancy.

(** Goes through the statements of a closure. *)
Ltac confine :=
  repeat (intros; first
    [ solve [auto with tenancy]
    | apply bind_confined
    | apply attempt_confined
    | apply fold_confined
    | apply body_confined
    | progress cbv zeta
    | match goal with |- q_confined _ ?q => match q with context [match ?x with _ => _ end] => destruct x end end ]).

(** ** The tables every service has *)

(** A statement whose first test is the policy of the row's tenant. *)
Ltac by_policy :=
  intros now d; rewrite ?session_visible; case_bool_decide; [|done]; subst.

Section Store.
Context `{TenantedStore D}.

Lemma gen_confined t : q_confined t (gen_random_uuid : Q D uuid).
Proof.
  intros now d. unfold gen_random_uuid. rewrite ts_next, ts_set_next. split; [done|]. intros. apply ts_rows_next.
Qed.

Lemma idem_confined t tenant key hash : q_confined t (idem_insert tenant key hash : Q D string).
Proof.
  unfold idem_insert. by_policy. cbn [negb]. rewrite ts_idem, own_lookup by done.
  destruct (idem d !! _); [done|]. rewrite ts_set_idem, own_insert by done. split; [done|].
  intros u Hu. apply ts_rows_idem, own_insert_ne. done.
Qed.

Lemma outbox_confined t p : q_confined t (outbox_insert p : Q D OutboxRow).
Proof.
  unfold outbox_insert. apply bind_confined; [apply gen_confined|]. intros uid. by_policy. cbn [negb].
  rewrite ts_outbox, ts_set_outbox, own_app by done. split; [done|].
  intros u Hu. apply ts_rows_outbox, own_app_ne. done.
Qed.

End Store.

(** ** Stock *)

Definition loc_tenant (k : loc) : uuid := k.1.1.

#[export] Instance stock_tenanted : Tenanted StockDB := {|
  own t d := mkStockDB (own_map loc_tenant t (stock_levels d)) (own_list (ev_TenantID ∘ ev) t (stock_events d))
    (own_list (ob_TenantID ∘ ob) t (stock_outbox d)) (own_map fst t (stock_idem d)) (stock_next_uuid d) (stock_checks d);
  Rows := gmap loc StockLevel * list StockEvent * list OutboxRow * gmap (uuid * string) IdemRow;
  rows_of t d := (own_map loc_tenant t (stock_levels d), own_list (ev_TenantID ∘ ev) t (stock_events d),
    own_list (ob_TenantID ∘ ob) t (stock_outbox d), own_map fst t (stock_idem d));
|}.

#[export] Instance stock_tenanted_store : TenantedStore StockDB.
Proof. split; try done; intros u x d Hx; cbn in *; by rewrite Hx. Qed.

Lemma level_row_confined t k : q_confined t (GetStockLevelForUpdate k).
Proof.
  unfold GetStockLevelForUpdate. by_policy. cbn [negb]. change (stock_levels (own _ d)) with (own_map loc_tenant k.1.1 (stock_levels d)).
  rewrite own_lookup by done. by destruct (stock_levels d !! k).
Qed.

(** The rows of the other tenants when one row of [stock_levels] is replaced. *)
Lemma set_level_own k lv d :
  own k.1.1 (set_levels (<[k:=lv]> (stock_levels d)) d) =
    set_levels (<[k:=lv]> (stock_levels (own k.1.1 d))) (own k.1.1 d) ∧
  ∀ u, u ≠ k.1.1 → rows_of u (set_levels (<[k:=lv]> (stock_levels d)) d) = rows_of u d.
Proof.
  split.
  - cbn. unfold set_levels. cbn. by rewrite own_insert.
  - intros u Hu. cbn. by rewrite own_insert_ne.
Qed.

Lemma level_own k d : stock_levels (own k.1.1 d) !! k = stock_levels d !! k.
Proof. by apply own_lookup. Qed.

Lemma update_level_confined t k new : q_confined t (UpdateStockLevel k new).
Proof.
  unfold UpdateStockLevel. by_policy. cbn [negb]. rewrite level_own.
  destruct (stock_levels d !! k); [|done]. change (check_level (own _ d)) with (check_level d).
  destruct (check_level d new); [|done]. destruct (set_level_own k new d) as [-> Hr]. done.
Qed.

Lemma upsert_level_confined t k delta : q_confined t (UpsertStockLevel k delta).
Proof.
  unfold UpsertStockLevel. by_policy. cbn [negb]. rewrite level_own. cbv zeta.
  change (check_level (own _ d)) with (check_level d). destruct (check_level d _); [|done].
  destruct (stock_levels d !! k) as [old|].
  - destruct (in_int32 _); [|done]. cbn [negb]. destruct (check_level d _); [|done].
    match goal with |- context [<[k:=?lv]> _] => destruct (set_level_own k lv d) as [-> Hr] end. done.
  - match goal with |- context [<[k:=?lv]> _] => destruct (set_level_own k lv d) as [-> Hr] end. done.
Qed.

Lemma insert_event_confined t p : q_confined t (InsertStockEvent p).
Proof.
  unfold InsertStockEvent. apply bind_confined; [apply gen_confined|]. intros uid. by_policy. cbn [negb].
  split.
  - cbn. unfold set_events. cbn. by rewrite own_app.
  - intros u Hu. cbn. by rewrite own_app_ne.
Qed.

Lemma audit_lock_confined t k locked : q_confined t (SetAuditLock k locked).
Proof.
  unfold SetAuditLock. intros now d. rewrite !session_visible. case_bool_decide; [|done]. subst. cbn [negb]. split.
  - cbn. unfold set_levels. cbn. by rewrite own_alter.
  - intros u Hu. cbn. by rewrite own_alter_ne.
Qed.

Lemma stock_key_confined t tenant key hash : q_confined t (StockDb.CheckAndInsertIdempotencyKey tenant key hash).
Proof. apply idem_confined. Qed.

Lemma stock_outbox_confined t p : q_confined t (StockDb.InsertOutboxEvent p).
Proof. apply outbox_confined. Qed.

#[export] Hint Resolve level_row_confined update_level_confined upsert_level_confined insert_event_confined
  audit_lock_confined stock_key_confined stock_outbox_confined : tenancy.

Section StockHandlers.
Context `{UuidText} `{StockHashes}.

Lemma try_confined {M} `{PayloadHash M} t tenant key (msg : M) : q_confined t (tryIdempotency tenant key msg).
Proof. unfold tryIdempotency. confine. Qed.
#[local] Hint Resolve try_confined : tenancy.

Lemma finish_apart {R} env ctx tenant t (fn : TxFn StockDB R) format d :
  uuid_scan tenant = Some t → fn_confined t fn →
  apart t d (finish format (ExecTxWithTenant env (WithTenantID ctx tenant) fn d))
            (finish format (ExecTxWithTenant env (WithTenantID ctx tenant) fn (own t d))).
Proof.
  intros Ht Hfn. destruct (exec_confined env ctx tenant t fn d Ht Hfn) as (d' & r & e & -> & -> & Hr).
  by destruct r, e.
Qed.

Lemma AdjustStock_confined env ctx req t :
  uuid_scan (adj_TenantId req) = Some t → confined t (AdjustStock env ctx req).
Proof.
  intros Ht d. unfold AdjustStock, ParseUUID. rewrite Ht. apply finish_apart; [done|].
  unfold adjust_closure, adjust_apply. confine.
Qed.

Lemma ReleaseStock_confined env ctx req t :
  uuid_scan (rel_TenantId req) = Some t → confined t (ReleaseStock env ctx req).
Proof.
  intros Ht d. unfold ReleaseStock, ParseUUID. rewrite Ht. apply finish_apart; [done|].
  unfold release_closure, release_line. confine.
Qed.

Lemma ConfirmStockAllocation_confined env ctx req t :
  uuid_scan (cnf_TenantId req) = Some t → confined t (ConfirmStockAllocation env ctx req).
Proof.
  intros Ht d. unfold ConfirmStockAllocation, ParseUUID. rewrite Ht. apply finish_apart; [done|].
  unfold confirm_closure, confirm_line. confine.
Qed.

Lemma FulfillStock_confined env ctx req t :
  uuid_scan (ful_TenantId req) = Some t → confined t (FulfillStock env ctx req).
Proof.
  intros Ht d. unfold FulfillStock, ParseUUID. rewrite Ht. apply finish_apart; [done|].
  unfold fulfill_closure, fulfill_line. confine.
Qed.

Lemma UnlockStockForAudit_confined env ctx req t :
  uuid_scan (ulk_TenantId req) = Some t → confined t (UnlockStockForAudit env ctx req).
Proof.
  intros Ht d. unfold UnlockStockForAudit, ParseUUID. rewrite Ht. apply finish_apart; [done|].
  unfold unlock_closure. confine.
Qed.

Lemma reserve_closure_confined ctx t tenant lines req : fn_confined t (reserve_closure ctx tenant lines req).
Proof.
  unfold reserve_closure. intros now d. cbv zeta.
  match goal with |- context [match ?q (tenant_session t now) d with _ => _ end] =>
    assert (q_confined t q) as Hq by (unfold reserve_line; confine); specialize (Hq now d);
    destruct (q (tenant_session t now) d) as [[d' failed]|e] end; [|by rewrite Hq].
  destruct Hq as [-> Hr]. by destruct failed.
Qed.

Lemma ReserveStock_confined env ctx req t :
  uuid_scan (rsv_TenantId req) = Some t → confined t (ReserveStock env ctx req).
Proof.
  intros Ht d. unfold ReserveStock, ParseUUID. rewrite Ht. cbv zeta.
  destruct (sortedLines (rsv_Lines req)) as [|l ls]; [done|].
  destruct (exec_confined env ctx _ t _ d Ht (reserve_closure_confined (WithTenantID ctx (rsv_TenantId req)) t t (l :: ls) req))
    as (d' & r & e & -> & -> & Hr).
  destruct r as [resp|], e as [e|]; cbn [finish]; try done. by destruct (negb (rsvr_Success resp)).
Qed.

End StockHandlers.

(** ** Calls *)

#[export] Instance world_tenanted : Tenanted StockWorld := {|
  own t x := mkStockWorld (own t (sw_db x)) (sw_faults x);
  Rows := Rows (W := StockDB);
  rows_of t x := rows_of t (sw_db x);
|}.

#[export] Instance prod_tenanted {A B} `{Tenanted A} `{Tenanted B} : Tenanted (A * B) := {|
  own t p := (own t p.1, own t p.2);
  Rows := Rows (W := A) * Rows (W := B);
  rows_of t p := (rows_of t p.1, rows_of t p.2);
|}.

(** A run of a confined function, from the state and from the tenant's part. *)
Lemma confined_run `{Tenanted W} {R} t (f : W → W * R) w :
  confined t f → ∃ w' r, f w = (w', r) ∧ f (own t w) = (own t w', r) ∧ ∀ u, u ≠ t → rows_of u w' = rows_of u w.
Proof. intros Hf. destruct (Hf w) as [He Hr]. exists (f w).1, (f w).2. by rewrite <- surjective_pairing. Qed.

(** Runs the call that is made on the state [w] from both states, with the lemma that
    confines it. *)
Tactic Notation "run_confined" uconstr(lem) constr(w) "as" simple_intropattern(w') simple_intropattern(r) simple_intropattern(Hr) :=
  match goal with |- apart ?t _ _ _ =>
    match goal with |- context [match ?f w with _ => _ end] =>
      let Hf := fresh in assert (confined t f) as Hf;
      [apply lem | destruct (confined_run t f w Hf) as (w' & r & -> & -> & Hr); clear Hf]
    end
  end.

Lemma apart_pair `{Tenanted W} {R} t (w w' : W) (r : R) :
  (∀ u, u ≠ t → rows_of u w' = rows_of u w) → apart t w (w', r) (own t w', r).
Proof. by split. Qed.

Lemma apart_both `{Tenanted A} `{Tenanted B} {R} t (d d' : A) (x x' : B) (r : R) :
  (∀ u, u ≠ t → rows_of u d' = rows_of u d) → (∀ u, u ≠ t → rows_of u x' = rows_of u x) →
  apart t (d, x) (d', x', r) (own t d', own t x', r).
Proof. intros Hd Hx. split; [done|]. intros u Hu. cbn. by rewrite Hd, Hx. Qed.

Lemma apart_trans `{Tenanted W} {R} t (w w1 : W) (p p' : W * R) :
  (∀ u, u ≠ t → rows_of u w1 = rows_of u w) → apart t w1 p p' → apart t w p p'.
Proof. intros Hw [-> Hr]. split; [done|]. intros u Hu. by rewrite Hr, Hw. Qed.

(** What a service promises its clients. *)
Class StockClientTenants (X : Type) `{UuidText} `{Tenanted X} `{StockClient X} : Prop := {
  reserve_tenants ctx req t : uuid_scan (rsv_TenantId req) = Some t → confined t (rpc_ReserveStock (X := X) ctx req);
  release_tenants ctx req t : uuid_scan (rel_TenantId req) = Some t → confined t (rpc_ReleaseStock (X := X) ctx req);
  confirm_tenants ctx req t :
    uuid_scan (cnf_TenantId req) = Some t → confined t (rpc_ConfirmStockAllocation (X := X) ctx req);
}.

Section Calls.
Context `{UuidText} `{StockHashes}.

Lemma call_confined {Req Resp} (handler : TxEnv → Ctx → Req → StockDB → StockDB * res Resp) ctx req t :
  (∀ env ctx, confined t (handler env ctx req)) → confined t (call_stock handler ctx req).
Proof.
  intros Hh x. unfold call_stock, next_fault, remote. cbn [own world_tenanted sw_db sw_faults].
  destruct (match sw_faults x with [] => _ | _ => _ end) as [env faults].
  destruct (rpc_request_lost env); [done|].
  destruct (confined_run t _ (sw_db x) (Hh (rpc_tx env) (mkCtx None (ctx_traceparent ctx)))) as (d' & r & -> & -> & Hr).
  by destruct (rpc_answer_lost env).
Qed.

#[export] Instance stock_world_tenants : StockClientTenants StockWorld.
Proof.
  split; intros ctx req t Ht; apply call_confined; intros.
  - by apply ReserveStock_confined.
  - by apply ReleaseStock_confined.
  - by apply ConfirmStockAllocation_confined.
Qed.

End Calls.

(** ** Transactions that call out *)

Section CallingOut.
Context `{Tenanted D} `{Tenanted X}.

Definition qx_confined {A} (t : uuid) (q : QX D X A) : Prop := ∀ now d x,
  match q (tenant_session t now) d x with
  | (x', Ok (d', a)) =>
      q (tenant_session t now) (own t d) (own t x) = (own t x', Ok (own t d', a)) ∧
      ∀ u, u ≠ t → rows_of u (d', x') = rows_of u (d, x)
  | (x', Err e) =>
      q (tenant_session t now) (own t d) (own t x) = (own t x', Err e) ∧ ∀ u, u ≠ t → rows_of u x' = rows_of u x
  end.

Lemma retx_confined {A} t (a : A) : qx_confined t (mret a : QX D X A).
Proof. by intros now d x. Qed.

Lemma query_confined {A} t (q : Q D A) : q_confined t q → qx_confined t (query q).
Proof.
  intros Hq now d x. specialize (Hq now d). unfold query.
  destruct (q (tenant_session t now) d) as [[d' a]|e]; [|by rewrite Hq].
  destruct Hq as [-> Hr]. split; [done|]. intros u Hu. cbn. by rewrite Hr.
Qed.

Lemma rpc_confined {A} t (f : X → X * res A) : confined t f → qx_confined t (rpc f).
Proof.
  intros Hf now d x. unfold rpc. destruct (confined_run t f x Hf) as (x' & r & -> & -> & Hr).
  destruct r; [|done]. split; [done|]. intros u Hu. cbn. by rewrite Hr.
Qed.

Lemma bindx_confined {A B} t (q : QX D X A) (f : A → QX D X B) :
  qx_confined t q → (∀ a, qx_confined t (f a)) → qx_confined t (q ≫= f).
Proof.
  intros Hq Hf now d x. specialize (Hq now d x). unfold mbind, QX_bind.
  destruct (q (tenant_session t now) d x) as [x1 [[d1 a]|e]]; [|by destruct Hq as [-> ?]].
  destruct Hq as [-> Hr]. specialize (Hf a now d1 x1).
  destruct (f a (tenant_session t now) d1 x1) as [x2 [[d2 b]|e]]; destruct Hf as [-> Hr']; (split; [done|]); intros u Hu.
  - by rewrite Hr', Hr.
  - rewrite Hr' by done. specialize (Hr u Hu). cbn in Hr. congruence.
Qed.

Lemma execx_confined `{UuidText} {R} env ctx tenant t (fn : QX D X R) d x :
  uuid_scan tenant = Some t → qx_confined t fn →
  apart t (d, x) (ExecTxWithTenantX env (WithTenantID ctx tenant) fn d x)
    (ExecTxWithTenantX env (WithTenantID ctx tenant) fn (own t d) (own t x)).
Proof.
  intros Ht Hfn. unfold ExecTxWithTenantX. destruct (TenantIDFromContext _) as [T|e] eqn:HT; [|done].
  apply tenant_from_context in HT as ->.
  destruct (tx_begin_err env); [done|]. unfold SetTenantRLS. destruct (tx_rls_err env); [done|].
  rewrite Ht. specialize (Hfn (tx_now env) d x). unfold tenant_session in Hfn.
  destruct (fn _ d x) as [x' [[d' r]|e]]; destruct Hfn as [-> Hr].
  - assert (∀ u, u ≠ t → rows_of u x' = rows_of u x) as Hx by (intros u Hu; specialize (Hr u Hu); cbn in Hr; congruence).
    destruct (tx_conn_err env), (tx_commit env); split; try done; intros u Hu; cbn; rewrite ?Hx by done; try done; by apply Hr.
  - split; [done|]. intros u Hu. cbn. by rewrite Hr.
Qed.

End CallingOut.

(** ** Reservations *)

#[export] Instance res_tenanted : Tenanted ResDB := {|
  own t d := mkResDB (own_list r_TenantID t (reservations d)) (own_list (ob_TenantID ∘ ob) t (res_outbox d))
    (own_map fst t (res_idem d)) (res_next_uuid d);
  Rows := list Reservation * list OutboxRow * gmap (uuid * string) IdemRow;
  rows_of t d := (own_list r_TenantID t (reservations d), own_list (ob_TenantID ∘ ob) t (res_outbox d),
    own_map fst t (res_idem d));
|}.

#[export] Instance res_tenanted_store : TenantedStore ResDB.
Proof. split; try done; intros u x d Hx; cbn in *; by rewrite Hx. Qed.

Lemma insert_reservation_confined t p : q_confined t (InsertReservation p).
Proof.
  unfold InsertReservation. apply bind_confined; [apply gen_confined|]. intros uid. by_policy. cbn [negb].
  destruct (check_reservation _ _); [|done]. split.
  - cbn. unfold set_reservations. cbn. by rewrite own_app.
  - intros u Hu. cbn. by rewrite own_app_ne.
Qed.

Lemma active_rows_confined t locked orderID : q_confined t (GetActiveReservationsByOrder locked orderID).
Proof.
  intros now d. unfold GetActiveReservationsByOrder. split; [|done]. cbn [own res_tenanted reservations].
  rewrite select_own; [done|]. intros r Hr. unfold active_of_order in Hr. rewrite session_visible in Hr. bprop.
  by apply bool_decide_eq_true in H.
Qed.

(** The update touches the visible rows of the id. *)
Lemma mark_own t (f : Reservation → bool) status l :
  (∀ r, f r = true → r_TenantID r = t) →
  own_list r_TenantID t ((λ r, if f r then set_status status r else r) <$> l) =
    (λ r, if f r then set_status status r else r) <$> own_list r_TenantID t l ∧
  ∀ u, u ≠ t → own_list r_TenantID u ((λ r, if f r then set_status status r else r) <$> l) = own_list r_TenantID u l.
Proof.
  intros Hf. induction l as [|r l [IHt IHu]]; [done|]. unfold own_list in *. split.
  - rewrite fmap_cons, !filter_cons. assert (r_TenantID (if f r then set_status status r else r) = r_TenantID r) as -> by (by destruct (f r)).
    case_decide; rewrite ?fmap_cons; by rewrite IHt.
  - intros u Hu. rewrite fmap_cons, !filter_cons, (IHu u Hu). destruct (f r) eqn:Hfr; [|done].
    assert (r_TenantID r ≠ u) by (rewrite (Hf r Hfr); done). by rewrite !decide_False.
Qed.

Lemma update_reservation_confined t id status : q_confined t (UpdateReservationStatus id status).
Proof.
  intros now d. unfold UpdateReservationStatus, find_reservation. cbn [own res_tenanted reservations].
  rewrite select_own by (intros r [Hr _]; rewrite session_visible in Hr; by apply bool_decide_eq_true in Hr).
  destruct (head _) as [r|]; [|done]. destruct (check_reservation _ _); [|done].
  destruct (mark_own t (λ r, bool_decide (r_ID r = id) && visible (tenant_session t now) (r_TenantID r)) status
              (reservations d)) as [Ht Hu].
  { intros r0 Hr0. rewrite session_visible in Hr0. bprop. by apply bool_decide_eq_true in H0. }
  split; [by rewrite <- Ht|]. intros u Hne. cbn. by rewrite Hu.
Qed.

Lemma res_key_confined t tenant key hash : q_confined t (ReservationDb.CheckAndInsertIdempotencyKey tenant key hash).
Proof. apply idem_confined. Qed.

Lemma res_outbox_confined `{JsonbText} t p : q_confined t (ReservationDb.InsertOutboxEvent p).
Proof. unfold ReservationDb.InsertOutboxEvent. destruct (jsonb_parse _); [apply outbox_confined|apply fail_confined]. Qed.

#[export] Hint Resolve insert_reservation_confined active_rows_confined update_reservation_confined res_key_confined
  res_outbox_confined : tenancy.

Section ReservationHandlers.
Context `{UuidText} `{ReservationHashes} `{JsonbText} {X : Type} `{StockClientTenants X}.

Lemma check_key_confined {M} `{PayloadHash M} t tenant key (msg : M) : q_confined t (check_key tenant key msg).
Proof. unfold check_key. confine. Qed.
#[local] Hint Resolve check_key_confined : tenancy.

Lemma mark_row_confined t ctx tenant orderID status event_type r :
  q_confined t (mark_row ctx tenant orderID status event_type r).
Proof. unfold mark_row. confine. Qed.
#[local] Hint Resolve mark_row_confined : tenancy.

Lemma insert_confined env ctx tenantID tenant t req expiresAt :
  uuid_scan tenantID = Some t → confined t (insertReservations env (WithTenantID ctx tenantID) tenant req expiresAt).
Proof.
  intros Ht d. unfold insertReservations.
  assert (fn_confined t (tx_body (insert_closure (WithTenantID ctx tenantID) tenant req expiresAt))) as Hfn
    by (unfold insert_closure, insert_item; confine).
  destruct (exec_confined env ctx tenantID t _ d Ht Hfn) as (d' & r & e & -> & -> & Hr). by destruct r, e.
Qed.

Lemma first_confined env locked ctx tenantID t orderID d :
  uuid_scan tenantID = Some t →
  firstReservationID env locked (WithTenantID ctx tenantID) orderID (own t d) =
  firstReservationID env locked (WithTenantID ctx tenantID) orderID d.
Proof.
  intros Ht. unfold firstReservationID. cbv zeta.
  match goal with |- context [tx_body ?q] => assert (fn_confined t (tx_body q)) as Hfn by confine end.
  destruct (exec_confined env ctx tenantID t _ d Ht Hfn) as (d' & r & e & -> & -> & Hr). by destruct r.
Qed.

Lemma Reserve_confined env ctx req t :
  uuid_scan (rq_TenantId req) = Some t →
  ∀ d (x : X), apart t (d, x) (Reserve env ctx req d x) (Reserve env ctx req (own t d) (own t x)).
Proof.
  intros Ht d x. unfold Reserve, ParseUUID. rewrite Ht. cbv zeta. destruct (rq_Items req) as [|it its] eqn:Hitems; [done|].
  rewrite <- Hitems.
  run_confined reserve_tenants x as x1 sr Hx1; [done|].
  destruct sr as [resp|e]; [|by apply apart_both].
  destruct (negb (rsvr_Success resp)); [by apply apart_both|].
  run_confined insert_confined d as d1 ir Hd1; [done|].
  destruct ir as [id|e]; [by apply apart_both|].
  destruct (errors_Is e ErrAlreadyProcessed).
  - rewrite first_confined by done. by apply apart_both.
  - run_confined release_tenants x1 as x2 rr Hx2; [done|].
    apply apart_both; [done|]. intros u Hu. by rewrite Hx2, Hx1.
Qed.

Lemma Release_confined env ctx req t :
  uuid_scan (rl_TenantId req) = Some t →
  ∀ d (x : X), apart t (d, x) (ReservationService.Release env ctx req d x)
                              (ReservationService.Release env ctx req (own t d) (own t x)).
Proof.
  intros Ht d x. unfold ReservationService.Release, ParseUUID. rewrite Ht. cbv zeta.
  assert (qx_confined (X := X) t (res_release_closure (re_locked env) (WithTenantID ctx (rl_TenantId req)) t req)) as Hfn.
  { unfold res_release_closure, release_rows. apply bindx_confined; [apply query_confined; auto with tenancy|].
    intros []; [apply query_confined; auto with tenancy|]. apply bindx_confined; [apply query_confined; auto with tenancy|].
    intros [|row rows]; [apply retx_confined|]. apply bindx_confined; [by apply rpc_confined, release_tenants|].
    intros resp. apply bindx_confined; [apply query_confined; auto with tenancy|]. intros _. apply retx_confined. }
  destruct (execx_confined (re_tx env) ctx _ t _ d x Ht Hfn) as [-> Hr].
  destruct (ExecTxWithTenantX _ _ _ d x) as [[d' x'] [released|e]]; cbn [fst snd own prod_tenanted] in *; [done|].
  by destruct (errors_Is e ErrAlreadyProcessed).
Qed.

Lemma AllocateReservation_confined env ctx req t :
  uuid_scan (al_TenantId req) = Some t → confined t (AllocateReservation env ctx req).
Proof.
  intros Ht d. unfold AllocateReservation, ParseUUID. rewrite Ht. cbv zeta.
  assert (fn_confined t (tx_body (allocate_closure (re_locked env) (WithTenantID ctx (al_TenantId req)) t req))) as Hfn
    by (unfold allocate_closure; confine).
  destruct (exec_confined (re_tx env) ctx _ t _ d Ht Hfn) as (d' & r & e & -> & -> & Hr). by destruct r, e.
Qed.

End ReservationHandlers.

(** ** Orders *)

#[export] Instance order_tenanted : Tenanted OrderDB := {|
  own t d := mkOrderDB (own_map fst t (orders d)) (own_list ol_TenantID t (order_lines d)) (own_map fst t (sagas d))
    (own_list (ob_TenantID ∘ ob) t (ord_outbox d)) (own_map fst t (ord_idem d)) (ord_next_uuid d);
  Rows := gmap okey Order * list OrderLineRow * gmap okey SagaInstance * list OutboxRow * gmap (uuid * string) IdemRow;
  rows_of t d := (own_map fst t (orders d), own_list ol_TenantID t (order_lines d), own_map fst t (sagas d),
    own_list (ob_TenantID ∘ ob) t (ord_outbox d), own_map fst t (ord_idem d));
|}.

#[export] Instance order_tenanted_store : TenantedStore OrderDB.
Proof. split; try done; intros u x d Hx; cbn in *; by rewrite Hx. Qed.

Lemma row_own {R} (t : uuid) (now : Z) (m : gmap okey R) (orderID : string) :
  row_of (tenant_session t now) (own_map fst t m) orderID = row_of (tenant_session t now) m orderID.
Proof. by apply own_lookup. Qed.

Lemma get_order_confined t orderID : q_confined t (GetOrderById orderID).
Proof.
  intros now d. unfold GetOrderById. cbn [own order_tenanted orders]. rewrite row_own. by destruct (row_of _ _ _).
Qed.

Lemma get_saga_confined t orderID : q_confined t (GetSagaInstance orderID).
Proof.
  intros now d. unfold GetSagaInstance. cbn [own order_tenanted sagas]. rewrite row_own. by destruct (row_of _ _ _).
Qed.

Lemma update_order_confined t orderID status txn : q_confined t (UpdateOrderStatus orderID status txn).
Proof.
  intros now d. unfold UpdateOrderStatus. cbn [own order_tenanted orders]. rewrite row_own.
  destruct (row_of _ _ _) as [o|]; [|done]. destruct (check_order _ _); [|done]. split.
  - unfold update_rows. cbn. unfold set_orders. cbn. by rewrite own_alter.
  - intros u Hu. cbn. by rewrite own_alter_ne.
Qed.

Lemma update_saga_confined t orderID st step err : q_confined t (UpdateSagaState orderID st step err).
Proof.
  intros now d. unfold UpdateSagaState. cbn [own order_tenanted sagas]. rewrite row_own.
  destruct (row_of _ _ _) as [g|]; [|done]. destruct (saga_state_ok st); [|done]. cbn [negb]. split.
  - unfold update_rows. cbn. unfold set_sagas. cbn. by rewrite own_alter.
  - intros u Hu. cbn. by rewrite own_alter_ne.
Qed.

Lemma upsert_order_confined t tenant orderID status total currency :
  q_confined t (UpsertOrder tenant orderID status total currency).
Proof.
  unfold UpsertOrder. apply bind_confined; [apply gen_confined|]. intros uid. by_policy. cbn [negb].
  destruct (check_order _ _); [|done]. cbn [own order_tenanted orders]. rewrite own_lookup by done.
  destruct (orders d !! _); [done|]. split.
  - unfold set_orders. cbn. by rewrite own_insert.
  - intros u Hu. cbn. by rewrite own_insert_ne.
Qed.

Lemma upsert_saga_confined t tenant orderID st step key : q_confined t (UpsertSagaInstance tenant orderID st step key).
Proof.
  unfold UpsertSagaInstance. apply bind_confined; [apply gen_confined|]. intros uid. by_policy. cbn [negb].
  destruct (saga_state_ok st); [|done]. cbn [negb own order_tenanted sagas]. rewrite own_lookup by done.
  destruct (sagas d !! _); [done|]. split.
  - unfold set_sagas. cbn. by rewrite own_insert.
  - intros u Hu. cbn. by rewrite own_insert_ne.
Qed.

(** The UNIQUE constraint of a tenant's row only looks at rows of the tenant. *)
Lemma exists_own {A} (ten : A → uuid) t (f : A → bool) l :
  (∀ a, f a = true → ten a = t) → existsb f (own_list ten t l) = existsb f l.
Proof.
  intros Hf. induction l as [|a l IH]; [done|]. unfold own_list in *. rewrite filter_cons. cbn [existsb].
  case_decide as Ha; [cbn [existsb]; by rewrite IH|]. destruct (f a) eqn:Hfa; [by apply Hf in Hfa|done].
Qed.

Lemma insert_line_confined t tenant orderID sku wh quantity price :
  q_confined t (InsertOrderLine tenant orderID sku wh quantity price).
Proof.
  unfold InsertOrderLine. apply bind_confined; [apply gen_confined|]. intros uid. by_policy. cbn [negb].
  destruct (check_line _ _); [|done]. cbn [own order_tenanted order_lines].
  rewrite exists_own by (intros l Hl; apply bool_decide_eq_true in Hl; by simplify_eq).
  destruct (existsb _ _); [done|]. split.
  - unfold set_order_lines. cbn. by rewrite own_app.
  - intros u Hu. cbn. by rewrite own_app_ne.
Qed.

Lemma get_lines_confined t orderID : q_confined t (GetOrderLines orderID).
Proof.
  intros now d. unfold GetOrderLines. split; [|done]. cbn [own order_tenanted order_lines].
  rewrite select_own; [done|]. intros l [Hl _]. rewrite session_visible in Hl. by apply bool_decide_eq_true in Hl.
Qed.

Lemma get_key_confined t tenant key : q_confined t (GetIdempotencyKey tenant key).
Proof.
  unfold GetIdempotencyKey. by_policy. cbn [negb own order_tenanted ord_idem]. rewrite own_lookup by done.
  by destruct (ord_idem d !! _).
Qed.

Lemma order_key_confined t tenant key hash : q_confined t (OrderDb.CheckAndInsertIdempotencyKey tenant key hash).
Proof. apply idem_confined. Qed.

Lemma order_outbox_confined t p : q_confined t (OrderDb.InsertOutboxEvent p).
Proof. apply outbox_confined. Qed.

#[export] Hint Resolve get_order_confined get_saga_confined update_order_confined update_saga_confined
  upsert_order_confined upsert_saga_confined insert_line_confined get_lines_confined get_key_confined
  order_key_confined order_outbox_confined : tenancy.

(** ** The world *)

(** What the order service relies on of the reservation service. *)
Class ReservationClientTenants (X : Type) `{UuidText} `{Tenanted X} `{ReservationClient X} : Prop := {
  res_reserve_tenants ctx req t : uuid_scan (rq_TenantId req) = Some t → confined t (rpc_Reserve (X := X) ctx req);
  res_release_tenants ctx req t : uuid_scan (rl_TenantId req) = Some t → confined t (rpc_Release (X := X) ctx req);
  res_allocate_tenants ctx req t :
    uuid_scan (al_TenantId req) = Some t → confined t (rpc_AllocateReservation (X := X) ctx req);
}.

Section Saga.
Context `{UuidText} `{OrderHashes} `{ErrorText} {X : Type} `{Tenanted X} `{!StockClient X} `{!ReservationClient X}.
Context `{!StockClientTenants X} `{!ReservationClientTenants X}.

(** The breakers are shared by the tenants. *)
#[export] Instance order_world_tenanted : Tenanted (OrderWorld X) := {|
  own t w := mkOrderWorld (own t (ow_db w)) (own t (ow_down w)) (resBreaker w) (payBreaker w) (stockBreaker w)
    (filter (λ c, uuid_scan (cr_TenantID c) = Some t) (Charges w));
  Rows := Rows (W := OrderDB) * Rows (W := X) * list ChargeRequest;
  rows_of t w := (rows_of t (ow_db w), rows_of t (ow_down w), filter (λ c, uuid_scan (cr_TenantID c) = Some t) (Charges w));
|}.

(** ** Statements *)

Abbreviation SagaM := (M (OrderWorld X) CreateOrderResponse).

Lemma m_ret_confined {A} t (a : A) : confined t (mret a : SagaM A).
Proof. by intros w. Qed.

Lemma return_confined {A} t r : confined t (return_ r : SagaM A).
Proof. by intros w. Qed.

Lemma m_bind_confined {A B} t (m : SagaM A) (f : A → SagaM B) :
  confined t m → (∀ a, confined t (f a)) → confined t (m ≫= f).
Proof.
  intros Hm Hf w. unfold mbind, M_bind. destruct (confined_run t m w Hm) as (w1 & r & -> & -> & Hr).
  destruct r as [a|r]; [|by apply apart_pair]. eapply apart_trans; [done|]. apply Hf.
Qed.

Lemma lift_confined {A} t (f : OrderWorld X → OrderWorld X * A) : confined t f → confined t (lift f : SagaM A).
Proof. intros Hf w. unfold lift. destruct (confined_run t f w Hf) as (w1 & r & -> & -> & Hr). by apply apart_pair. Qed.

Lemma on_resBreaker_confined t f : confined t (modify (on_resBreaker f) : SagaM unit).
Proof. by intros w. Qed.

Lemma on_payBreaker_confined t f : confined t (modify (on_payBreaker f) : SagaM unit).
Proof. by intros w. Qed.

Lemma on_stockBreaker_confined t f : confined t (modify (on_stockBreaker f) : SagaM unit).
Proof. by intros w. Qed.

Lemma add_charge_confined t c : uuid_scan (cr_TenantID c) = Some t → confined t (modify (add_charge c) : SagaM unit).
Proof.
  intros Ht w. unfold modify, add_charge. split.
  - unfold own. cbn. rewrite filter_app, (filter_cons_True _ _ []) by done. done.
  - intros u Hu. cbn. rewrite filter_app, (filter_cons_False _ _ []) by congruence. by rewrite app_nil_r.
Qed.

Lemma order_tx_confined {R} `{Inhabited R} env ctx tenant t (q : Q OrderDB R) :
  uuid_scan tenant = Some t → q_confined t q → confined t (order_tx (X := X) env (WithTenantID ctx tenant) q).
Proof.
  intros Ht Hq w. unfold order_tx.
  destruct (exec_confined env ctx tenant t _ (ow_db w) Ht (body_confined t q Hq)) as (d' & r & e & -> & Hown & Hr).
  cbn [own order_world_tenanted ow_db]. rewrite Hown.
  destruct r, e; (split; [done|]); intros u Hu; cbn [rows_of order_world_tenanted with_db ow_db ow_down Charges fst];
    by rewrite Hr.
Qed.

Lemma call_down_confined {A} t (f : X → X * res A) : confined t f → confined t (OrderService.call f).
Proof.
  intros Hf w. unfold OrderService.call. cbn [own order_world_tenanted ow_down].
  destruct (confined_run t f (ow_down w) Hf) as (x & r & -> & -> & Hr). split; [done|].
  intros u Hu. cbn [rows_of order_world_tenanted with_down ow_db ow_down Charges fst]. by rewrite Hr.
Qed.

Lemma guard_confined t now get_b set_b :
  (∀ w, get_b (own t w) = get_b w) → (∀ b, confined t (modify (set_b (λ _, b)) : SagaM unit)) →
  confined t (OrderService.guard (X := X) now get_b set_b).
Proof.
  intros Hget Hset w. unfold OrderService.guard, mbind, M_bind, OrderService.get. rewrite Hget.
  destruct (Allow now (get_b w)) as [b e].
  destruct (confined_run t _ w (Hset b)) as (w1 & [[]|r] & -> & -> & Hr); [|by apply apart_pair].
  destruct e; by apply apart_pair.
Qed.

Lemma run_body_confined t (m : SagaM (res CreateOrderResponse)) : confined t m → confined t (run_body m).
Proof.
  intros Hm w. unfold run_body. destruct (confined_run t m w Hm) as (w1 & [r|r] & -> & -> & Hr); by apply apart_pair.
Qed.

(** ** The saga *)

(** The requests of a saga name its tenant. *)
Definition saga_tenant (t : uuid) (inp : sagaInput) : Prop := uuid_scan (in_TenantID inp) = Some t.

Section OfTenant.
Context (ctx : Ctx) (T : string) (t : uuid) (HT : uuid_scan T = Some t).

Lemma transition_confined env tenant orderID state step msg :
  confined t (transition (X := X) env (WithTenantID ctx T) tenant orderID state step msg).
Proof. apply order_tx_confined; [done|]. unfold transition_closure. confine. Qed.

Lemma failSaga_confined env tenantID orderID msg :
  confined t (failSaga (X := X) env (WithTenantID ctx T) tenantID orderID msg).
Proof. intros w. unfold failSaga. destruct (ParseUUID tenantID); [apply transition_confined|done]. Qed.

Lemma compensate_confined env orderID reason :
  confined t (compensate (X := X) env (WithTenantID ctx T) T orderID reason).
Proof.
  intros w. unfold compensate. destruct (ParseUUID T); [|done].
  run_confined call_down_confined w as w1 r Hr; [by apply res_release_tenants|].
  destruct r; [|by apply apart_pair]. eapply apart_trans; [done|]. apply transition_confined.
Qed.

Lemma record_confined env orderID txn : confined t (recordTransaction (X := X) env (WithTenantID ctx T) orderID txn).
Proof. apply order_tx_confined; [done|]. confine. Qed.

End OfTenant.

#[local] Hint Resolve m_ret_confined return_confined lift_confined on_resBreaker_confined on_payBreaker_confined
  on_stockBreaker_confined add_charge_confined transition_confined failSaga_confined compensate_confined record_confined : tenancy.

(** Goes through the statements of a step. *)
Ltac confine_saga :=
  repeat (intros; first
    [ solve [eauto with tenancy]
    | apply guard_confined
    | apply m_bind_confined
    | apply lift_confined, call_down_confined;
      solve [by apply res_reserve_tenants | by apply res_allocate_tenants | by apply confirm_tenants]
    | match goal with |- confined _ ?m => match m with context [match ?x with _ => _ end] => destruct x end end ]).

Lemma saga_confined env ctx inp t :
  saga_tenant t inp → confined t (runSaga (X := X) env (WithTenantID ctx (in_TenantID inp)) inp).
Proof.
  unfold saga_tenant. intros Ht. apply run_body_confined.
  unfold saga_body, step_reserve, step_charge, step_compensate, step_allocate, step_confirm. confine_saga.
Qed.

(** ** The handlers *)

Lemma create_row_confined env ctx T t tenant req total :
  uuid_scan T = Some t → confined t (createOrderRow (X := X) env (WithTenantID ctx T) tenant req total).
Proof. intros HT. apply order_tx_confined; [done|]. unfold create_closure, insert_line. confine. Qed.

Lemma replay_confined env ctx T t req :
  uuid_scan T = Some t → confined t (replayCreateOrder (X := X) env (WithTenantID ctx T) req).
Proof.
  intros HT w. unfold replayCreateOrder.
  run_confined order_tx_confined w as w1 r Hr; [done|apply get_saga_confined|].
  by destruct r; apply apart_pair.
Qed.

Lemma CreateOrder_confined env ctx req t :
  uuid_scan (co_TenantId req) = Some t → confined t (CreateOrder (X := X) env ctx req).
Proof.
  intros Ht w. unfold CreateOrder, ParseUUID. rewrite Ht. cbv zeta.
  destruct (bool_decide (co_OrderId req = "")); [done|]. destruct (bool_decide (length _ = _)); [done|].
  destruct (_ <=? 0); [done|].
  run_confined create_row_confined w as w1 r Hr; [done|].
  eapply apart_trans; [done|]. destruct r as [id|e].
  - match goal with |- context [runSaga _ _ ?inp w1] => by apply (saga_confined env ctx inp t) end.
  - destruct (errors_Is e ErrIdempotentReplay); [by apply replay_confined|done].
Qed.

Lemma GetOrder_confined env ctx req t :
  uuid_scan (go_TenantId req) = Some t → confined t (GetOrder (X := X) env ctx req).
Proof.
  intros Ht w. unfold GetOrder, ParseUUID. rewrite Ht. apply order_tx_confined; [done|].
  unfold get_closure, get_order_or_not_found. confine.
Qed.

Lemma CancelOrder_confined env ctx req t :
  uuid_scan (ca_TenantId req) = Some t → confined t (CancelOrder (X := X) env ctx req).
Proof.
  intros Ht w. unfold CancelOrder, ParseUUID, getSaga. rewrite Ht. cbv zeta.
  run_confined order_tx_confined w as w1 r Hr; [done|apply get_saga_confined|].
  eapply apart_trans; [done|]. destruct r as [saga|e]; [|done].
  destruct (_ || _); [done|]. destruct (_ || _); [done|].
  run_confined compensate_confined w1 as w2 r2 Hr2; [done|].
  by destruct r2; apply apart_pair.
Qed.

Lemma FulfillOrder_confined env ctx req t :
  uuid_scan (fo_TenantId req) = Some t → confined t (FulfillOrder (X := X) env ctx req).
Proof.
  intros Ht w. unfold FulfillOrder, ParseUUID. rewrite Ht. cbv zeta. apply order_tx_confined; [done|].
  unfold OrderService.fulfill_closure, get_order_or_not_found, fulfill_replay, fulfill_key, fulfill_now. confine.
Qed.

End Saga.
