(* ===== verification/Platform.v ===== *)
(** * The platform: the gateway in front of the services

    The messages of the three APIs as the gateway handles them (by the names of
    their fields, over protoreflect), and the backends behind its clients: the
    order service over the reservation service over the stock service.  A client's
    login and its order, from the HTTP requests to the shelves. *)

From S2P Require Import Prelude GoStrings Database StockDb StockApi StockService StockEffects StockReserve StockClient.
From S2P Require Import ReservationDb ReservationService ReservationBooks ReservationProps ReservationSweep.
From S2P Require Import CircuitBreaker Payment OrderDb OrderService OrderSteps OrderSaga OrderProps.
From S2P Require Import OrderInvariant OrderRequests OrderHealthy System.
From S2P Require Import Telemetry Float64 RateLimit Auth Http AuthRoutes Gateway.

(** ** Messages *)

Inductive api_message :=
| MsgAdjustStock (m : AdjustStockRequest)
| MsgReserveStock (m : ReserveStockRequest)
| MsgReleaseStock (m : ReleaseStockRequest)
| MsgConfirmStockAllocation (m : ConfirmStockAllocationRequest)
| MsgFulfillStock (m : FulfillStockRequest)
| MsgUnlockStockForAudit (m : UnlockStockForAuditRequest)
| MsgReserve (m : ReserveRequest)
| MsgRelease (m : ReleaseRequest)
| MsgAllocateReservation (m : AllocateReservationRequest)
| MsgCreateOrder (m : CreateOrderRequest)
| MsgCancelOrder (m : CancelOrderRequest)
| MsgFulfillOrder (m : FulfillOrderRequest)
| MsgGetOrder (m : GetOrderRequest).

Inductive api_answer :=
| AnsAdjustStock (m : AdjustStockResponse)
| AnsReserveStock (m : ReserveStockResponse)
| AnsReleaseStock (m : ReleaseStockResponse)
| AnsConfirmStockAllocation (m : ConfirmStockAllocationResponse)
| AnsFulfillStock (m : FulfillStockResponse)
| AnsUnlockStockForAudit (m : UnlockStockForAuditResponse)
| AnsReserve (m : ReserveResponse)
| AnsRelease (m : ReleaseResponse)
| AnsAllocateReservation (m : AllocateReservationResponse)
| AnsCreateOrder (m : CreateOrderResponse)
| AnsCancelOrder (m : CancelOrderResponse)
| AnsFulfillOrder (m : FulfillOrderResponse)
| AnsGetOrder (m : GetOrderResponse).

(** The string fields of a message: name, value, and the message with another
    value. *)
Definition string_fields (m : api_message) : list (string * (string * (string → api_message))) :=
  match m with
  | MsgAdjustStock (mkAdjustStockRequest t s w q r src k) =>
      [("tenant_id", (t, λ v, MsgAdjustStock (mkAdjustStockRequest v s w q r src k)));
       ("sku_id", (s, λ v, MsgAdjustStock (mkAdjustStockRequest t v w q r src k)));
       ("warehouse_id", (w, λ v, MsgAdjustStock (mkAdjustStockRequest t s v q r src k)));
       ("reason", (r, λ v, MsgAdjustStock (mkAdjustStockRequest t s w q v src k)));
       ("source", (src, λ v, MsgAdjustStock (mkAdjustStockRequest t s w q r v k)));
       ("idempotency_key", (k, λ v, MsgAdjustStock (mkAdjustStockRequest t s w q r src v)))]
  | MsgReserveStock (mkReserveStockRequest t o k ls) =>
      [("tenant_id", (t, λ v, MsgReserveStock (mkReserveStockRequest v o k ls)));
       ("order_id", (o, λ v, MsgReserveStock (mkReserveStockRequest t v k ls)));
       ("idempotency_key", (k, λ v, MsgReserveStock (mkReserveStockRequest t o v ls)))]
  | MsgReleaseStock (mkReleaseStockRequest t o r k ls) =>
      [("tenant_id", (t, λ v, MsgReleaseStock (mkReleaseStockRequest v o r k ls)));
       ("order_id", (o, λ v, MsgReleaseStock (mkReleaseStockRequest t v r k ls)));
       ("reason", (r, λ v, MsgReleaseStock (mkReleaseStockRequest t o v k ls)));
       ("idempotency_key", (k, λ v, MsgReleaseStock (mkReleaseStockRequest t o r v ls)))]
  | MsgConfirmStockAllocation (mkConfirmStockAllocationRequest t o k ls) =>
      [("tenant_id", (t, λ v, MsgConfirmStockAllocation (mkConfirmStockAllocationRequest v o k ls)));
       ("order_id", (o, λ v, MsgConfirmStockAllocation (mkConfirmStockAllocationRequest t v k ls)));
       ("idempotency_key", (k, λ v, MsgConfirmStockAllocation (mkConfirmStockAllocationRequest t o v ls)))]
  | MsgFulfillStock (mkFulfillStockRequest t o k ls) =>
      [("tenant_id", (t, λ v, MsgFulfillStock (mkFulfillStockRequest v o k ls)));
       ("order_id", (o, λ v, MsgFulfillStock (mkFulfillStockRequest t v k ls)));
       ("idempotency_key", (k, λ v, MsgFulfillStock (mkFulfillStockRequest t o v ls)))]
  | MsgUnlockStockForAudit (mkUnlockStockForAuditRequest t s w r a) =>
      [("tenant_id", (t, λ v, MsgUnlockStockForAudit (mkUnlockStockForAuditRequest v s w r a)));
       ("sku_id", (s, λ v, MsgUnlockStockForAudit (mkUnlockStockForAuditRequest t v w r a)));
       ("warehouse_id", (w, λ v, MsgUnlockStockForAudit (mkUnlockStockForAuditRequest t s v r a)));
       ("reason", (r, λ v, MsgUnlockStockForAudit (mkUnlockStockForAuditRequest t s w v a)));
       ("actor_id", (a, λ v, MsgUnlockStockForAudit (mkUnlockStockForAuditRequest t s w r v)))]
  | MsgReserve (mkReserveRequest t o k items ttl) =>
      [("tenant_id", (t, λ v, MsgReserve (mkReserveRequest v o k items ttl)));
       ("order_id", (o, λ v, MsgReserve (mkReserveRequest t v k items ttl)));
       ("idempotency_key", (k, λ v, MsgReserve (mkReserveRequest t o v items ttl)))]
  | MsgRelease (mkReleaseRequest t i o r k) =>
      [("tenant_id", (t, λ v, MsgRelease (mkReleaseRequest v i o r k)));
       ("reservation_id", (i, λ v, MsgRelease (mkReleaseRequest t v o r k)));
       ("order_id", (o, λ v, MsgRelease (mkReleaseRequest t i v r k)));
       ("reason", (r, λ v, MsgRelease (mkReleaseRequest t i o v k)));
       ("idempotency_key", (k, λ v, MsgRelease (mkReleaseRequest t i o r v)))]
  | MsgAllocateReservation (mkAllocateReservationRequest t o k) =>
      [("tenant_id", (t, λ v, MsgAllocateReservation (mkAllocateReservationRequest v o k)));
       ("order_id", (o, λ v, MsgAllocateReservation (mkAllocateReservationRequest t v k)));
       ("idempotency_key", (k, λ v, MsgAllocateReservation (mkAllocateReservationRequest t o v)))]
  | MsgCreateOrder (mkCreateOrderRequest t o ls k ttl force) =>
      [("tenant_id", (t, λ v, MsgCreateOrder (mkCreateOrderRequest v o ls k ttl force)));
       ("order_id", (o, λ v, MsgCreateOrder (mkCreateOrderRequest t v ls k ttl force)));
       ("idempotency_key", (k, λ v, MsgCreateOrder (mkCreateOrderRequest t o ls v ttl force)))]
  | MsgCancelOrder (mkCancelOrderRequest t o r k) =>
      [("tenant_id", (t, λ v, MsgCancelOrder (mkCancelOrderRequest v o r k)));
       ("order_id", (o, λ v, MsgCancelOrder (mkCancelOrderRequest t v r k)));
       ("reason", (r, λ v, MsgCancelOrder (mkCancelOrderRequest t o v k)));
       ("idempotency_key", (k, λ v, MsgCancelOrder (mkCancelOrderRequest t o r v)))]
  | MsgFulfillOrder (mkFulfillOrderRequest t o k) =>
      [("tenant_id", (t, λ v, MsgFulfillOrder (mkFulfillOrderRequest v o k)));
       ("order_id", (o, λ v, MsgFulfillOrder (mkFulfillOrderRequest t v k)));
       ("idempotency_key", (k, λ v, MsgFulfillOrder (mkFulfillOrderRequest t o v)))]
  | MsgGetOrder (mkGetOrderRequest t o) =>
      [("tenant_id", (t, λ v, MsgGetOrder (mkGetOrderRequest v o)));
       ("order_id", (o, λ v, MsgGetOrder (mkGetOrderRequest t v)))]
  end.

(** The other fields of the requests. *)
Definition other_fields (m : api_message) : list string :=
  match m with
  | MsgAdjustStock _ => ["quantity_delta"]
  | MsgReserveStock _ | MsgReleaseStock _ | MsgConfirmStockAllocation _ | MsgFulfillStock _ => ["lines"]
  | MsgReserve _ => ["items"; "ttl_seconds"]
  | MsgCreateOrder _ => ["lines"; "ttl_seconds"; "force_payment_failure"]
  | _ => []
  end.

Fixpoint find_field (fs : list (string * (string * (string → api_message)))) (name : string)
  : option (string * (string → api_message)) :=
  match fs with
  | [] => None
  | (n, f) :: fs' => if bool_decide (n = name) then Some f else find_field fs' name
  end.

(** The empty message of each rpc. *)
Definition empty_message (rpc : string) : api_message :=
  if bool_decide (rpc = "AdjustStock") then MsgAdjustStock (mkAdjustStockRequest "" "" "" 0 "" "" "")
  else if bool_decide (rpc = "ReserveStock") then MsgReserveStock (mkReserveStockRequest "" "" "" [])
  else if bool_decide (rpc = "ReleaseStock") then MsgReleaseStock (mkReleaseStockRequest "" "" "" "" [])
  else if bool_decide (rpc = "ConfirmStockAllocation")
  then MsgConfirmStockAllocation (mkConfirmStockAllocationRequest "" "" "" [])
  else if bool_decide (rpc = "FulfillStock") then MsgFulfillStock (mkFulfillStockRequest "" "" "" [])
  else if bool_decide (rpc = "UnlockStockForAudit")
  then MsgUnlockStockForAudit (mkUnlockStockForAuditRequest "" "" "" "" "")
  else if bool_decide (rpc = "Reserve") then MsgReserve (mkReserveRequest "" "" "" [] 0)
  else if bool_decide (rpc = "Release") then MsgRelease (mkReleaseRequest "" "" "" "" "")
  else if bool_decide (rpc = "AllocateReservation") then MsgAllocateReservation (mkAllocateReservationRequest "" "" "")
  else if bool_decide (rpc = "CreateOrder") then MsgCreateOrder (mkCreateOrderRequest "" "" [] "" 0 false)
  else if bool_decide (rpc = "CancelOrder") then MsgCancelOrder (mkCancelOrderRequest "" "" "" "")
  else if bool_decide (rpc = "FulfillOrder") then MsgFulfillOrder (mkFulfillOrderRequest "" "" "")
  else MsgGetOrder (mkGetOrderRequest "" "").

(** protoreflect on these messages: a proto3 string field is set when it is not
    empty. *)
#[export] Instance api_reflect : ProtoReflect api_message := {|
  new_message := empty_message;
  pr_Kind m f :=
    match find_field (string_fields m) f with
    | Some _ => Some StringKind
    | None => if bool_decide (f ∈ other_fields m) then Some OtherKind else None
    end;
  pr_Has m f := match find_field (string_fields m) f with Some (v, _) => negb (bool_decide (v = "")) | None => false end;
  pr_Get m f := match find_field (string_fields m) f with Some (v, _) => v | None => "" end;
  pr_Set m f v := match find_field (string_fields m) f with Some (_, set) => set v | None => m end;
|}.

(** Setting a field keeps the others, and the type of the message. *)
Lemma find_set m f g v old set :
  find_field (string_fields m) f = Some (old, set) →
  match find_field (string_fields (set v)) g with
  | Some (x, _) => ∃ y s, find_field (string_fields m) g = Some (y, s) ∧ x = if bool_decide (f = g) then v else y
  | None => find_field (string_fields m) g = None
  end ∧ other_fields (set v) = other_fields m.
Proof.
  destruct m as [[]|[]|[]|[]|[]|[]|[]|[]|[]|[]|[]|[]|[]]; cbn [string_fields find_field];
    repeat (case_bool_decide; [intros [= <- <-]; cbn [string_fields find_field other_fields]; subst f;
      split; [|done]; repeat (case_bool_decide; [subst g; do 2 eexists; split; reflexivity|]); reflexivity|]); done.
Qed.

#[export] Instance api_laws : ReflectLaws (P := api_message).
Proof.
  split; cbn [pr_Kind pr_Has pr_Get pr_Set api_reflect].
  - intros m. by destruct m as [[]|[]|[]|[]|[]|[]|[]|[]|[]|[]|[]|[]|[]].
  - intros m f v g. destruct (find_field (string_fields m) f) as [[old set]|] eqn:Hf; [|done].
    destruct (find_set m f g v old set Hf) as [Hg ->].
    destruct (find_field (string_fields (set v)) g) as [[x s]|]; [|by rewrite Hg].
    by destruct Hg as (y & s' & -> & _).
  - intros m f v. destruct (find_field (string_fields m) f) as [[old set]|] eqn:Hf; [|by case_bool_decide].
    intros _. destruct (find_set m f f v old set Hf) as [Hg _]. rewrite bool_decide_true in Hg by done.
    destruct (find_field (string_fields (set v)) f) as [[x s]|]; [|by rewrite Hg in Hf]. by destruct Hg as (y & s' & _ & ->).
  - intros m f v. destruct (find_field (string_fields m) f) as [[old set]|] eqn:Hf; [|by case_bool_decide].
    intros _. destruct (find_set m f f v old set Hf) as [Hg _]. rewrite bool_decide_true in Hg by done.
    destruct (find_field (string_fields (set v)) f) as [[x s]|]; [|by rewrite Hg in Hf]. by destruct Hg as (y & s' & _ & ->).
  - intros m f v g Hne. destruct (find_field (string_fields m) f) as [[old set]|] eqn:Hf; [|done].
    destruct (find_set m f g v old set Hf) as [Hg _]. rewrite bool_decide_false in Hg by done.
    destruct (find_field (string_fields (set v)) g) as [[x s]|]; [|by rewrite Hg].
    by destruct Hg as (y & s' & -> & ->).
Qed.

(** ** The backends *)

(** What surrounds one call of the gateway: the trace it carries, what gets lost,
    and the environment of the handler. *)
Record BackendEnv := mkBackendEnv {
  be_traceparent : string;
  be_request_lost : option string;
  be_answer_lost : option string;
  be_saga : SagaEnv;
  be_tx : TxEnv;
}.

Section Platform.
Context `{UuidText} `{Hlaws : !UuidTextLaws} `{StockHashes} `{ReservationHashes} `{JsonbText} `{OrderHashes} `{ErrorText}.

(** The order service with its database and breakers, behind its clients the
    reservation service, and behind both the stock service. *)
Definition Platform : Type := OrderWorld (System StockWorld).

Definition answered {W A} (f : A → api_answer) (p : W * res A) : W * res api_answer :=
  (p.1, match p.2 with Ok a => Ok (f a) | Err e => Err e end).

Definition via_system {A} (f : System StockWorld → System StockWorld * res A) (w : Platform) : Platform * res A :=
  let '(y, r) := f (ow_down w) in (with_down y w, r).

Definition via_stock {A} (f : StockWorld → StockWorld * res A) : Platform → Platform * res A :=
  via_system (through_stock f).

(** The handler of a message. *)
Definition dispatch (e : BackendEnv) (m : api_message) (w : Platform) : Platform * res api_answer :=
  let ctx := mkCtx None (be_traceparent e) in
  match m with
  | MsgAdjustStock m => answered AnsAdjustStock (via_stock (call_stock AdjustStock ctx m) w)
  | MsgReserveStock m => answered AnsReserveStock (via_stock (call_stock ReserveStock ctx m) w)
  | MsgReleaseStock m => answered AnsReleaseStock (via_stock (call_stock ReleaseStock ctx m) w)
  | MsgConfirmStockAllocation m => answered AnsConfirmStockAllocation (via_stock (call_stock ConfirmStockAllocation ctx m) w)
  | MsgFulfillStock m => answered AnsFulfillStock (via_stock (call_stock FulfillStock ctx m) w)
  | MsgUnlockStockForAudit m => answered AnsUnlockStockForAudit (via_stock (call_stock UnlockStockForAudit ctx m) w)
  | MsgReserve m => answered AnsReserve (via_system (rpc_Reserve ctx m) w)
  | MsgRelease m => answered AnsRelease (via_system (rpc_Release ctx m) w)
  | MsgAllocateReservation m => answered AnsAllocateReservation (via_system (rpc_AllocateReservation ctx m) w)
  | MsgCreateOrder m => answered AnsCreateOrder (CreateOrder (be_saga e) ctx m w)
  | MsgCancelOrder m => answered AnsCancelOrder (CancelOrder (be_saga e) ctx m w)
  | MsgFulfillOrder m => answered AnsFulfillOrder (FulfillOrder (be_tx e) ctx m w)
  | MsgGetOrder m => answered AnsGetOrder (GetOrder (be_tx e) ctx m w)
  end.

(** A call over the network; the rpc goes with the type of the message. *)
Definition platform_call (e : BackendEnv) (rpc : string) (m : api_message) (w : Platform) : Platform * res api_answer :=
  match be_request_lost e with
  | Some msg => (w, Err (unavailable msg))
  | None =>
      let '(w, r) := dispatch e m w in
      (w, match be_answer_lost e with Some msg => Err (unavailable msg) | None => r end)
  end.

(** ** Specification *)

(** What the gateway makes of the order in a body: the tenant of the token, and the
    key of the header if there is one. *)
Definition order_sent (tenant key : string) (m : CreateOrderRequest) : CreateOrderRequest :=
  mkCreateOrderRequest tenant (co_OrderId m) (co_Lines m)
    (if bool_decide (key = "") then co_IdempotencyKey m else key) (co_TtlSeconds m) (co_ForcePaymentFailure m).

(** A call for which nothing gets lost, at time [now] (microseconds). *)
Definition backend_healthy (now : Z) (txn trace : string) : BackendEnv :=
  mkBackendEnv trace None None (saga_healthy now txn) (healthy now).

(** ** Lemmas *)

Lemma create_tenant m : stringField (MsgCreateOrder m) "tenant_id" = co_TenantId m.
Proof.
  destruct m as [t o ls k ttl force]. unfold stringField. change (pr_Kind _ _) with (Some StringKind).
  change (pr_Has _ _) with (negb (bool_decide (t = ""))). change (pr_Get _ _) with t. by case_bool_decide.
Qed.

Context `{TokenCodec} `{Sha256} `{ProtoJson api_answer}.

Lemma decode_order r claims m :
  co_TenantId m = "" ∨ co_TenantId m = TenantID claims →
  gw_decode r claims (BodyMessage (MsgCreateOrder m)) (new_message "CreateOrder") =
  inl (MsgCreateOrder (order_sent (TenantID claims) (hr_IdempotencyKey r) m)).
Proof.
  intros Ht. unfold gw_decode. rewrite create_tenant.
  assert (negb (bool_decide (co_TenantId m = "")) && negb (bool_decide (co_TenantId m = TenantID claims)) = false) as ->.
  { destruct Ht as [-> | ->]; [done|]. rewrite (bool_decide_true (TenantID claims = TenantID claims)) by done.
    by rewrite andb_false_r. }
  f_equal. destruct m as [t o ls k ttl force]. unfold order_sent. by destruct (bool_decide (hr_IdempotencyKey r = "")).
Qed.

(** A request for an order, once the middleware has let it pass. *)
Lemma serve_order env auth c call r creds body (x : Platform) claims c1 :
  hr_Method r = "POST" → hr_Segments r = ["v1"; "orders"] →
  authorize env c r = inl claims → Allows claims OpOrderMutate = true →
  admit_tenant env c (TenantID claims) = (c1, None) →
  (serve env auth c call r creds body x).2 =
  let v := route env (BreakerGauge c1) "order" (OrderBreaker c1) "CreateOrder" (call "CreateOrder") r (Some claims) body x in
  mkServed (iv_backend v) (iv_response v) ((λ m, ("CreateOrder", m)) <$> called v) None.
Proof.
  destruct r as [method segs auth_header key addr]. cbn [hr_Method hr_Segments]. intros -> -> Ha Hal Had.
  unfold serve. assert (Middleware env c (mkHttpRequest "POST" ["v1"; "orders"] auth_header key addr) =
                        (c1, Forward (Some claims))) as ->.
  { unfold Middleware. rewrite Ha.
    change (match operationFor _ _ with Some op => negb (Allows claims op) | None => false end)
      with (negb (Allows claims OpOrderMutate)).
    rewrite Hal, Had. reflexivity. }
  reflexivity.
Qed.

(** What an admission leaves of the core. *)
Lemma admit_core env c tenant :
  let c1 := (admit_tenant env c tenant).1 in
  gc_Secret c1 = gc_Secret c ∧ OrderBreaker c1 = OrderBreaker c ∧ BreakerGauge c1 = BreakerGauge c.
Proof. unfold admit_tenant. destruct (Take _ _ _ _) as [l d]. by destruct (Allowed d). Qed.

Lemma admit_pair env c tenant :
  (admit_tenant env c tenant).2 = None → admit_tenant env c tenant = ((admit_tenant env c tenant).1, None).
Proof. intros Ha. rewrite <- Ha. by destruct (admit_tenant env c tenant). Qed.

(** A login that the limiter lets pass. *)
Lemma serve_login env a c call r creds body (x : Platform) :
  hr_Method r = "POST" → hr_Segments r = ["v1"; "auth"; "login"] →
  (admit_tenant env c ("login:" +:+ loginHost (hr_RemoteAddr r))).2 = None →
  (serve env (Some a) c call r creds body x).2 =
  let l := login (gc_Secret c) (ge_now env) a creds in
  mkServed x (login_response l) None (match l with inl ans => Some ans | inr _ => None end).
Proof.
  destruct r as [method segs auth_header key addr]. cbn [hr_Method hr_Segments hr_RemoteAddr]. intros -> -> Had.
  destruct (admit_core env c ("login:" +:+ loginHost addr)) as (Hs & _).
  unfold serve. assert (Middleware env c (mkHttpRequest "POST" ["v1"; "auth"; "login"] auth_header key addr) =
    ((admit_tenant env c ("login:" +:+ loginHost addr)).1, Forward None)) as ->.
  { change (Middleware env c (mkHttpRequest "POST" ["v1"; "auth"; "login"] auth_header key addr))
      with (admitted None (admit_tenant env c ("login:" +:+ loginHost addr))).
    unfold admitted. by rewrite Had. }
  change (mux (Some a) _) with ToLogin. cbn [snd]. by rewrite Hs.
Qed.

(** The answer and the effect of CreateOrder over working services. *)
Record ordered (t : uuid) (m : CreateOrderRequest) (w w' : Platform) (resp : CreateOrderResponse) : Prop := {
  od_status : cor_Status resp = verdict (saga_of t m) w;
  od_saga : saga_is (t, co_OrderId m) (verdict (saga_of t m) w) (ow_db w');
  od_stock : stock_result (saga_of t m) w (bool_decide (verdict (saga_of t m) w = SagaConfirmed)) (ow_down w');
  od_charges : Charges w' = Charges w ++
    (if bool_decide (verdict (saga_of t m) w = SagaConfirmed) then [charge_request (saga_of t m)] else []);
}.

(** A verified order of a token that may change orders, through the breaker and
    over working services. *)
Lemma order_served env auth c r creds m (w : Platform) claims t now txn trace :
  hr_Method r = "POST" → hr_Segments r = ["v1"; "orders"] →
  authorize env c r = inl claims → Allows claims OpOrderMutate = true →
  (admit_tenant env c (TenantID claims)).2 = None → (Allow (ge_now env) (OrderBreaker c)).2 = None →
  co_TenantId m = "" ∨ co_TenantId m = TenantID claims →
  let m' := order_sent (TenantID claims) (hr_IdempotencyKey r) m in
  fresh_request t m' w → system_fine w →
  Z.of_nat (length (reservations (sys_res (ow_down w))) + length (co_Lines m)) < 2147483648 →
  (∀ a : api_answer, is_Some (marshal a)) →
  ∃ w' resp j, (serve env auth c (platform_call (backend_healthy now txn trace)) r creds (BodyMessage (MsgCreateOrder m)) w).2 =
      mkServed w' (mkHttpResponse 200 [json_type] (JsonBody j)) (Some ("CreateOrder", MsgCreateOrder m')) None ∧
    marshal (AnsCreateOrder resp) = Some j ∧ ordered t m' w w' resp.
Proof.
  intros Hpost Hsegs Ha Hal Had Hbr Ht m' Hfresh Hfine Hlen Hm.
  destruct (admit_core env c (TenantID claims)) as (_ & Hob & Hg).
  rewrite (serve_order _ _ _ _ _ _ _ _ _ _ Hpost Hsegs Ha Hal (admit_pair _ _ _ Had)). cbn zeta.
  unfold route, core_claims. rewrite (decode_order _ _ _ Ht). fold m'. unfold invoke. rewrite Hob.
  destruct (Allow (ge_now env) (OrderBreaker c)) as [br e]. cbn [snd] in Hbr. subst e.
  destruct (order_end_to_end now txn (mkCtx None trace) t m' w Hfresh Hfine Hlen) as (w' & resp & Hrun & R1 & R2 & R3 & R4).
  destruct (Hm (AnsCreateOrder resp)) as [j Hj].
  change (platform_call _ _ (MsgCreateOrder m') w) with
    (let '(w, r) := answered AnsCreateOrder (CreateOrder (saga_healthy now txn) (mkCtx None trace) m' w) in (w, r)).
  rewrite Hrun. cbn [answered fst snd]. rewrite Hj. exists w', resp, j. split; [done|]. split; [done|]. by split.
Qed.

(** ** Theorem *)


End Platform.
