(* ===== verification/PlatformTenants.v ===== *)
(** * Tenants of the platform

    A request that reaches the gateway with a tenant's token is answered, and
    changes the tenant's rows, as on a platform of which the tenant is the only
    user; the other tenants' rows stay as they are. *)

From S2P Require Import Prelude GoStrings Database StockDb StockApi StockService StockEffects StockReserve StockClient.
From S2P Require Import ReservationDb ReservationService CircuitBreaker Payment OrderDb OrderService System.
From S2P Require Import Telemetry Float64 RateLimit Auth Http AuthRoutes Gateway Tenants Platform.

(** ** The services behind the clients *)

Section Services.
Context `{UuidText} `{ReservationHashes} `{JsonbText} {X : Type} `{Tenanted X} `{!StockClient X} `{!StockClientTenants X}.

#[export] Instance system_tenanted : Tenanted (System X) := {|
  own t y := mkSystem (own t (sys_res y)) (own t (sys_stock y)) (sys_now y) (sys_faults y);
  Rows := Rows (W := ResDB) * Rows (W := X);
  rows_of t y := (rows_of t (sys_res y), rows_of t (sys_stock y));
|}.

Lemma call_res_confined {Req Resp} (handler : ResEnv → Ctx → Req → ResDB → X → ResDB * X * res Resp) ctx req t :
  (∀ env ctx d x, apart t (d, x) (handler env ctx req d x) (handler env ctx req (own t d) (own t x))) →
  confined t (call_res handler ctx req).
Proof.
  intros Hh y. unfold call_res. change (next_res_fault (own t y)) with (next_res_fault y).
  destruct (next_res_fault y) as [env faults]. destruct (rre_request_lost env); [done|].
  cbn [own system_tenanted sys_res sys_stock sys_now].
  destruct (Hh (rre_env env) (mkCtx None (ctx_traceparent ctx)) (sys_res y) (sys_stock y)) as [-> Hr].
  destruct (handler _ _ _ (sys_res y) (sys_stock y)) as [[d x] r]. split; [done|]. exact Hr.
Qed.

#[export] Instance system_reservation_tenants : ReservationClientTenants (System X).
Proof.
  split; intros ctx req t Ht; apply call_res_confined; intros env c d x.
  - by apply Reserve_confined.
  - by apply Release_confined.
  - destruct (confined_run t _ d (AllocateReservation_confined env c req t Ht)) as (d' & r & -> & -> & Hr).
    by apply apart_both.
Qed.

Lemma through_confined {A} t (f : X → X * res A) : confined t f → confined t (through_stock f).
Proof.
  intros Hf y. unfold through_stock. cbn [own system_tenanted sys_res sys_stock sys_now sys_faults].
  destruct (confined_run t f (sys_stock y) Hf) as (x & r & -> & -> & Hr). split; [done|].
  intros u Hu. cbn [rows_of system_tenanted sys_res sys_stock fst]. by rewrite Hr.
Qed.

#[export] Instance system_stock_tenants : StockClientTenants (System X).
Proof.
  split; intros ctx req t Ht; apply through_confined.
  - by apply reserve_tenants.
  - by apply release_tenants.
  - by apply confirm_tenants.
Qed.

End Services.

(** ** The gateway *)

Section Platform.
Context `{UuidText} `{StockHashes} `{ReservationHashes} `{JsonbText} `{OrderHashes} `{ErrorText}.

Lemma answered_apart {W A} `{Tenanted W} t (w : W) (f : A → api_answer) (p p' : W * res A) :
  apart t w p p' → apart t w (answered f p) (answered f p').
Proof. intros [-> Hr]. by destruct p as [w' []]. Qed.

Lemma via_system_confined {A} t (f : System StockWorld → System StockWorld * res A) :
  confined t f → confined t (via_system f).
Proof. exact (call_down_confined t f). Qed.

Lemma via_stock_confined {A} t (f : StockWorld → StockWorld * res A) : confined t f → confined t (via_stock f).
Proof. intros Hf. by apply via_system_confined, through_confined. Qed.

Lemma message_tenant (m : api_message) :
  stringField m "tenant_id" = match m with
  | MsgAdjustStock m => adj_TenantId m
  | MsgReserveStock m => rsv_TenantId m
  | MsgReleaseStock m => rel_TenantId m
  | MsgConfirmStockAllocation m => cnf_TenantId m
  | MsgFulfillStock m => ful_TenantId m
  | MsgUnlockStockForAudit m => ulk_TenantId m
  | MsgReserve m => rq_TenantId m
  | MsgRelease m => rl_TenantId m
  | MsgAllocateReservation m => al_TenantId m
  | MsgCreateOrder m => co_TenantId m
  | MsgCancelOrder m => ca_TenantId m
  | MsgFulfillOrder m => fo_TenantId m
  | MsgGetOrder m => go_TenantId m
  end.
Proof.
  unfold stringField. rewrite tenant_field.
  destruct m as [[]|[]|[]|[]|[]|[]|[]|[]|[]|[]|[]|[]|[]];
    match goal with |- _ = ?v => let v := eval cbn in v in change ((if negb (bool_decide (v = "")) then v else "") = v) end;
    by case_bool_decide.
Qed.

(** A call of the gateway for a message that names the tenant. *)
Lemma dispatch_confined e m t : uuid_scan (stringField m "tenant_id") = Some t → confined t (dispatch e m).
Proof.
  rewrite message_tenant. intros Ht w. unfold dispatch.
  destruct m; apply answered_apart.
  - apply via_stock_confined, call_confined. intros. by apply AdjustStock_confined.
  - apply via_stock_confined, call_confined. intros. by apply ReserveStock_confined.
  - apply via_stock_confined, call_confined. intros. by apply ReleaseStock_confined.
  - apply via_stock_confined, call_confined. intros. by apply ConfirmStockAllocation_confined.
  - apply via_stock_confined, call_confined. intros. by apply FulfillStock_confined.
  - apply via_stock_confined, call_confined. intros. by apply UnlockStockForAudit_confined.
  - by apply via_system_confined, res_reserve_tenants.
  - by apply via_system_confined, res_release_tenants.
  - by apply via_system_confined, res_allocate_tenants.
  - by apply CreateOrder_confined.
  - by apply CancelOrder_confined.
  - by apply FulfillOrder_confined.
  - by apply GetOrder_confined.
Qed.

Lemma platform_call_confined e rpc m t :
  uuid_scan (stringField m "tenant_id") = Some t → confined t (platform_call e rpc m).
Proof.
  intros Ht w. unfold platform_call. destruct (be_request_lost e); [done|].
  run_confined dispatch_confined w as w1 r Hr; [done|]. by apply apart_pair.
Qed.

(** The handlers of the gateway, over a call that is confined for every message of
    the tenant. *)
Section Serve.
Context {P Resp X : Type} `{ProtoReflect P} `{ProtoJson Resp} `{Tenanted X} `{!ReflectLaws (P := P)}.
Context (t : uuid) (call : P → X → X * res Resp).

(** What was invoked, from both states. *)
Definition invoked_apart (x : X) (v v' : invoked (P := P) (X := X)) : Prop :=
  v' = mkInvoked (iv_breaker v) (iv_gauge v) (own t (iv_backend v)) (iv_response v) (called v) ∧
  ∀ u, u ≠ t → rows_of u (iv_backend v) = rows_of u x.

Lemma invoke_apart env g dep br msg x :
  confined t (call msg) → invoked_apart x (invoke env g dep br call msg x) (invoke env g dep br call msg (own t x)).
Proof.
  intros Hc. unfold invoke. destruct (Allow (ge_now env) br) as [br' [e|]]; [done|].
  destruct (confined_run t _ x Hc) as (x' & r & -> & -> & Hr). by destruct r.
Qed.

Lemma handle_apart env g e br r id claims body x :
  (∀ m, stringField m "tenant_id" = TenantID claims → confined t (call m)) →
  invoked_apart x (handle env g e br call r id (Some claims) body x) (handle env g e br call r id (Some claims) body (own t x)).
Proof.
  intros Hc. unfold handle, route, byID, get. cbn [core_claims].
  destruct (ep_Handler e); try (destruct (bool_decide (id = "")); [done|]);
    (destruct (gw_decode _ _ _ _) as [msg|] eqn:Hd; [|done]); apply invoke_apart, Hc;
    rewrite ?set_field_other by done; by eapply decode_tenant.
Qed.

(** Without claims nothing is called. *)
Lemma handle_unclaimed env g e br r id body :
  ∃ err, ∀ x : X, handle env g e br call r id None body x = refused_with g br x err.
Proof.
  unfold handle, route, byID, get. cbn [core_claims]. destruct (ep_Handler e), (bool_decide (id = "")); by eexists.
Qed.

(** The rows of a tenant no call for the claims touches. *)
Lemma handle_rows env g e br r id claims body x u :
  (∀ m, stringField m "tenant_id" = TenantID claims → rows_of u (call m x).1 = rows_of u x) →
  rows_of u (iv_backend (handle env g e br call r id (Some claims) body x)) = rows_of u x.
Proof.
  intros Hc.
  assert (∀ m, stringField m "tenant_id" = TenantID claims →
            rows_of u (iv_backend (invoke env g (ep_Dep e) br call m x)) = rows_of u x) as Hi.
  { intros m Hm. specialize (Hc m Hm). unfold invoke. destruct (Allow (ge_now env) br) as [br' [err|]]; [done|].
    by destruct (call m x) as [x' []]. }
  unfold handle, route, byID, get. cbn [core_claims].
  destruct (ep_Handler e); try (destruct (bool_decide (id = "")); [done|]);
    (destruct (gw_decode _ _ _ _) as [msg|] eqn:Hd; [|done]); apply Hi;
    rewrite ?set_field_other by done; by eapply decode_tenant.
Qed.

End Serve.

(** A tenant that is no UUID: every handler refuses it. *)
Lemma call_stock_refused {Req Resp} (handler : TxEnv → Ctx → Req → StockDB → StockDB * res Resp) ctx req x :
  (∀ env ctx d, (handler env ctx req d).1 = d) → sw_db (call_stock handler ctx req x).1 = sw_db x.
Proof.
  intros Hh. unfold call_stock, remote. destruct (next_fault x) as [env faults]. destruct (rpc_request_lost env); [done|].
  specialize (Hh (rpc_tx env) (mkCtx None (ctx_traceparent ctx)) (sw_db x)). destruct (handler _ _ _ _) as [d r].
  by destruct (rpc_answer_lost env).
Qed.

Lemma via_stock_rows {A} u (f : StockWorld → StockWorld * res A) (w : Platform) :
  sw_db (f (sys_stock (ow_down w))).1 = sw_db (sys_stock (ow_down w)) → rows_of u (via_stock f w).1 = rows_of u w.
Proof.
  unfold via_stock, via_system, through_stock. destruct (f _) as [x r]. cbn [fst]. intros Hx.
  cbn [rows_of order_world_tenanted system_tenanted world_tenanted with_down ow_db ow_down Charges sys_res sys_stock fst].
  by rewrite Hx.
Qed.

Lemma via_res_rows {Req Resp} u (handler : ResEnv → Ctx → Req → ResDB → StockWorld → ResDB * StockWorld * res Resp) ctx req
    (w : Platform) :
  (∀ env ctx d x, (handler env ctx req d x).1 = (d, x)) → rows_of u (via_system (call_res handler ctx req) w).1 = rows_of u w.
Proof.
  intros Hh. unfold via_system, call_res. destruct (next_res_fault _) as [env faults]. destruct (rre_request_lost env); [done|].
  specialize (Hh (rre_env env) (mkCtx None (ctx_traceparent ctx)) (sys_res (ow_down w)) (sys_stock (ow_down w))).
  destruct (handler _ _ _ _ _) as [[d x] r]. cbn [fst] in Hh. by injection Hh as -> ->.
Qed.

Lemma dispatch_refused e m (w : Platform) u :
  uuid_scan (stringField m "tenant_id") = None → rows_of u (dispatch e m w).1 = rows_of u w.
Proof.
  rewrite message_tenant. unfold dispatch. intros Ht.
  destruct m; cbn [answered fst];
    first [ apply via_stock_rows, call_stock_refused; intros env ctx d
          | apply via_res_rows; intros env ctx d x
          | idtac ].
  - unfold AdjustStock, ParseUUID. by rewrite Ht.
  - unfold ReserveStock, ParseUUID. by rewrite Ht.
  - unfold ReleaseStock, ParseUUID. by rewrite Ht.
  - unfold ConfirmStockAllocation, ParseUUID. by rewrite Ht.
  - unfold FulfillStock, ParseUUID. by rewrite Ht.
  - unfold UnlockStockForAudit, ParseUUID. by rewrite Ht.
  - unfold Reserve, ParseUUID. by rewrite Ht.
  - unfold Release, ParseUUID. by rewrite Ht.
  - unfold AllocateReservation, ParseUUID. by rewrite Ht.
  - unfold CreateOrder, ParseUUID. by rewrite Ht.
  - unfold CancelOrder, ParseUUID. by rewrite Ht.
  - unfold FulfillOrder, ParseUUID. by rewrite Ht.
  - unfold GetOrder, ParseUUID. by rewrite Ht.
Qed.

(** The rows of a tenant the message does not name. *)
Lemma platform_call_rows e rpc m (w : Platform) u :
  uuid_scan (stringField m "tenant_id") ≠ Some u → rows_of u (platform_call e rpc m w).1 = rows_of u w.
Proof.
  intros Hu. destruct (uuid_scan (stringField m "tenant_id")) as [t|] eqn:Ht.
  - destruct (platform_call_confined e rpc m t Ht w) as [_ Hr]. apply Hr. congruence.
  - unfold platform_call. destruct (be_request_lost e); [done|].
    pose proof (dispatch_refused e m w u Ht). by destruct (dispatch e m w).
Qed.

(** ** Theorem *)

Context `{TokenCodec} `{Sha256} `{ProtoJson api_answer}.

(** The tenant of the request's token, when the token verifies and the tenant is a
    UUID. *)
Definition token_of (env : GwEnv) (c : Core) (r : HttpRequest) : option uuid :=
  match authorize env c r with inl claims => uuid_scan (TenantID claims) | inr _ => None end.

(** The outcome as the tenant [t] alone sees it. *)
Definition seen_by (t : uuid) (v : served (P := api_message) (X := Platform)) : served :=
  mkServed (own t (sv_backend v)) (sv_response v) (sv_call v) (sv_login v).

Lemma forward_claims env c r c1 claims :
  Middleware env c r = (c1, Forward (Some claims)) → authorize env c r = inl claims.
Proof.
  unfold Middleware, admitted. destruct (_ || _); [done|].
  destruct (bool_decide (hr_Path r = loginPath)); [by destruct ((admit_tenant _ _ _).2)|].
  destruct (authorize env c r) as [cl|err]; [|done]. destruct (match operationFor _ _ with Some _ => _ | None => _ end); [done|].
  by destruct ((admit_tenant _ _ _).2); intros [= _ ->].
Qed.

(** C4. Tenants live apart: a request with the token of the tenant [t], whatever it
    asks for and whatever fails on its way through the gateway, the services,
    their databases and the network, is answered exactly as on a platform from
    which the rows of all other tenants have been removed, and leaves the rows,
    messages, keys and charges of [t] as it would there (breakers, faults and
    sequences are shared).  The rows of any tenant whose token the request does
    not carry, in any of the three databases, stay as they are. *)
Theorem tenants_live_apart env auth c e r creds (body : body_state api_message) (w : Platform) :
  let p := serve env auth c (platform_call e) r creds body w in
  (∀ t, token_of env c r = Some t → serve env auth c (platform_call e) r creds body (own t w) = (p.1, seen_by t p.2)) ∧
  (∀ u, token_of env c r ≠ Some u → rows_of u (sv_backend p.2) = rows_of u w).
Proof.
  cbv zeta. unfold token_of, serve. destruct (Middleware env c r) as [c1 [resp|[claims|]]] eqn:Hm; [done| |].
  - apply forward_claims in Hm as ->. destruct (mux auth r) as [ep id| | | |]; [|by destruct auth|done..]. split.
    + intros t Ht. destruct (handle_apart t (platform_call e (ep_Rpc ep)) env (BreakerGauge c1) ep (breaker_of (ep_Dep ep) c1)
        r id claims body w) as [-> _]; [|done]. intros m Hmt. apply platform_call_confined. by rewrite Hmt.
    + intros u Hu. cbn [snd sv_backend]. apply handle_rows. intros m Hmt. apply platform_call_rows. by rewrite Hmt.
  - destruct (mux auth r) as [ep id| | | |]; [|by destruct auth|done..].
    destruct (handle_unclaimed (platform_call e (ep_Rpc ep)) env (BreakerGauge c1) ep (breaker_of (ep_Dep ep) c1) r id body)
      as [err Herr]. split; intros; by rewrite !Herr.
Qed.

End Platform.
