(* ===== verification/GatewayExamples.v ===== *)
(** * Requests to the gateway

    The theorems of the gateway applied to concrete requests, and requests that
    the comments of the code describe otherwise. *)

From S2P Require Import Prelude GoStrings Database CircuitBreaker Telemetry Float64 RateLimit Auth Http AuthRoutes Gateway GatewayProps.

#[local] Existing Instance number_codec.

(** A message with the three fields, and a hash. *)
Record Note := mkNote { nt_tenant : string; nt_key : string; nt_order : string }.

Definition note_field (m : Note) (f : string) : option string :=
  if bool_decide (f = "tenant_id") then Some (nt_tenant m)
  else if bool_decide (f = "idempotency_key") then Some (nt_key m)
  else if bool_decide (f = "order_id") then Some (nt_order m) else None.

#[export] Instance note_reflect : ProtoReflect Note := {|
  new_message _ := mkNote "" "" "";
  pr_Kind m f := (λ _, StringKind) <$> note_field m f;
  pr_Has m f := match note_field m f with Some v => negb (bool_decide (v = "")) | None => true end;
  pr_Get m f := default "" (note_field m f);
  pr_Set m f v := if bool_decide (f = "tenant_id") then mkNote v (nt_key m) (nt_order m)
                  else if bool_decide (f = "idempotency_key") then mkNote (nt_tenant m) v (nt_order m)
                  else if bool_decide (f = "order_id") then mkNote (nt_tenant m) (nt_key m) v else m;
|}.

#[export] Instance note_laws : ReflectLaws (P := Note).
Proof.
  split; [done|..]; intros m f v; cbn [pr_Kind pr_Has pr_Get pr_Set note_reflect]; unfold note_field;
    repeat case_bool_decide; subst; cbn; try done; intros; repeat case_bool_decide; simplify_eq; done.
Qed.

#[export] Instance plain_answer : ProtoJson unit := λ _, Some (JObj []).

#[export] Instance short_errors : ErrorText := λ _, "error".

#[export] Instance plain_sha : Sha256 := λ s, s.

Definition open_core : Core :=
  let br := New (mkConfig 5 0) in mkCore "s" (NewLimited (f_of_Z 5) (f_of_Z 5) 0) br br br (Some NewMetrics).

Definition at_second (n : Z) : GwEnv := mkGwEnv (n * nanos) id (n * nanos) (200, "ready").

(** The backends note what they are given. *)
Definition echo (rpc : string) (n : Note) (x : list Note) : list Note * res unit := (x ++ [n], Ok ()).

Definition token_of (role : string) (scopes : list string) : string :=
  default "" (Issue "s" 0 "t" 0 (mkIssueOptions "clerk" role scopes)).

Definition request (method : string) (segs : list string) (token : string) : HttpRequest :=
  mkHttpRequest method segs ("Bearer " +:+ token) "k1" "10.0.0.7:41234".

Definition send (r : HttpRequest) (body : body_state Note) : served :=
  (serve (at_second 60) None open_core echo r None body ([] : list Note)).2.

(** ** Witnesses *)

Lemma backend_call_is_authorized_witness :
  ∃ claims, Allows claims OpStockWrite = true ∧ TenantID claims = "t".
Proof.
  destruct (backend_call_is_authorized (at_second 60) None open_core echo
              (request "POST" ["v1"; "stock"; "adjust"] (token_of RoleReadWrite [])) None BodyEmpty ([] : list Note)
              "AdjustStock" (mkNote "t" "k1" ""))
    as (claims & _ & Hop & Ht & _); [vm_compute; reflexivity|].
  exists claims. split; [exact Hop|]. exact (eq_sym Ht).
Defined.

Definition staff : string := "ann:pw1:t:read-only,bob:pw2:u:admin".

Definition staff_users : list AuthUser := [mkAuthUser "ann" "pw1" "t" "read-only"; mkAuthUser "bob" "pw2" "u" "admin"].

Lemma login_token_works_witness :
  ∃ ans, login "s" (60 * nanos) (NewAuthRoutes staff_users 0) (Some ("ann", "pw1")) = inl ans.
Proof.
  apply (login_token_works staff staff_users 0 open_core (at_second 60) "ann" "pw1"); [vm_compute; reflexivity|].
  exists (mkAuthUser "ann" "pw1" "t" "read-only"). split; [apply list_elem_of_here|]. split; [done|]. split; [done|].
  reflexivity.
Defined.

(** A gateway with room for fifty requests, in front of a dead backend. *)
Definition wide_core : Core :=
  let br := New (mkConfig 5 0) in mkCore "s" (NewLimited (f_of_Z 50) (f_of_Z 50) 0) br br br (Some NewMetrics).

Definition dead (rpc : string) (n : Note) (x : list Note) : list Note * res unit :=
  (x ++ [n], Err (ErrStatus Unavailable "down")).

Definition seven_adjusts : list (GwRequest Note) :=
  replicate 7 (mkGwRequest (at_second 60) (request "POST" ["v1"; "stock"; "adjust"] (token_of RoleReadWrite [])) None BodyEmpty).

Lemma wide_gauge : gauge_true wide_core.
Proof. exists NewMetrics. split; [done|]. intros dep _. by left. Qed.


(** The breaker opens at the fifth failure, and the others are refused at once. *)
Example fails_fast :
  let '(c, vs) := serve_all None dead seven_adjusts wide_core [] in
  calls_to "stock" vs = 5 ∧ (sv_status <$> vs) = replicate 7 503 ∧ breakerState <$> BreakerGauge c = Some {["stock" := 2]}.
Proof. vm_compute. repeat split. Qed.

(** Six logins of one host over six connections. *)
Definition six_logins : list (GwRequest Note) :=
  (λ port, mkGwRequest (at_second 60)
     (mkHttpRequest "POST" ["v1"; "auth"; "login"] "" "" ("10.0.0.7:" +:+ port)) (Some ("ann", "guess")) BodyEmpty) <$>
  ["1001"; "1002"; "1003"; "1004"; "1005"; "1006"].

Lemma logins_limited_per_host_witness :
  (λ v, bool_decide (sv_status v = 429)) <$> (serve_all (Some (NewAuthRoutes staff_users 0)) echo six_logins open_core []).2 =
  [false; false; false; false; false; true].
Proof.
  apply (logins_limited_per_host "10.0.0.7" (60 * nanos) 5 (Some (NewAuthRoutes staff_users 0)) echo six_logins open_core []).
  - discriminate.
  - split; [reflexivity|]. eexists _, _. vm_compute. reflexivity.
  - reflexivity.
  - repeat constructor; (eexists; split; [|left; split; [reflexivity|reflexivity]]; reflexivity).
Defined.

(** ** Examples *)

(** A reader may not change stock, and only an administrator lifts an audit
    lock. *)
Example refused :
  sv_status (send (request "POST" ["v1"; "stock"; "adjust"] (token_of RoleReadOnly [])) BodyEmpty) = 403 ∧
  sv_status (send (request "POST" ["v1"; "stock"; "unlock"] (token_of RoleReadWrite [])) BodyEmpty) = 403 ∧
  sv_status (send (request "POST" ["v1"; "stock"; "unlock"] (token_of RoleAdmin [])) BodyEmpty) = 200.
Proof. vm_compute. repeat split. Qed.

(** The comment on operationFor says that unknown shapes under /v1/ are denied;
    a token whose role covers nothing passes the role check there, and it is the
    mux that answers. *)
Example unknown_shapes_pass :
  operationFor "POST" "/v1/refunds" = None ∧
  sv_status (send (request "POST" ["v1"; "refunds"] (token_of "nobody" [])) BodyEmpty) = 404.
Proof. vm_compute. split; reflexivity. Qed.

(** The comment on OrderRoutes.get says that the order id comes from the path;
    a body replaces it. *)
Example get_body_wins :
  sv_call (send (request "GET" ["v1"; "orders"; "o1"] (token_of RoleReadOnly [])) BodyEmpty) =
    Some ("GetOrder", mkNote "t" "k1" "o1") ∧
  sv_call (send (request "GET" ["v1"; "orders"; "o1"] (token_of RoleReadOnly [])) (BodyMessage (mkNote "" "" "o2"))) =
    Some ("GetOrder", mkNote "t" "k1" "o2").
Proof. vm_compute. split; reflexivity. Qed.
