(* ===== verification/PlatformExamples.v ===== *)
(** * The platform on the concrete shop

    A login and an order over HTTP, by the theorem and evaluated: what the client
    sees and what happens on the shelves. *)

From S2P Require Import Prelude GoStrings Database StockDb StockApi StockService StockEffects StockReserve StockClient.
From S2P Require Import StockExamples ReservationDb ReservationService ReservationBooks ReservationProps ReservationSweep.
From S2P Require Import ReservationExamples CircuitBreaker Payment OrderDb OrderService OrderSteps OrderSaga.
From S2P Require Import OrderProps OrderInvariant OrderRequests OrderHealthy System OrderExamples.
From S2P Require Import Telemetry Float64 RateLimit Auth Http AuthRoutes Gateway Tenants Platform PlatformTenants.

#[local] Existing Instance bits_text.
#[local] Existing Instance number_codec.

#[export] Instance plain_api_answer : ProtoJson api_answer := λ a,
  Some (match a with AnsCreateOrder r => JObj [("status", JStr (cor_Status r))] | _ => JObj [] end).

#[local] Instance api_sha : Sha256 := λ s, s.

Definition shop_core : Core :=
  let br := New (mkConfig 5 0) in mkCore "s" (NewLimited (f_of_Z 5) (f_of_Z 5) 0) br br br None.

Definition second_of (n : Z) : GwEnv := mkGwEnv (n * nanos) id (n * nanos) (200, "ready").

Definition clerk : AuthUser := mkAuthUser "ann" "pw" tenant3 "read-write".

Definition clerk_spec : string := "ann:pw:" +:+ tenant3 +:+ ":read-write".

Definition login_request : HttpRequest := mkHttpRequest "POST" ["v1"; "auth"; "login"] "" "" "10.0.0.7:41234".

Definition post_order (token : string) : HttpRequest :=
  mkHttpRequest "POST" ["v1"; "orders"] ("Bearer " +:+ token) "k1" "10.0.0.7:41235".

(** The body: an order that names no tenant and no key. *)
Definition order_body : CreateOrderRequest := mkCreateOrderRequest "" "o1" two_lines "" 0 false.


(** A body that names another tenant is refused, and nothing is called. *)
Definition foreign_body : CreateOrderRequest := mkCreateOrderRequest "somebody-else" "o1" two_lines "" 0 false.

Definition clerk_token : string := default "" (Issue "s" 0 tenant3 0 (mkIssueOptions "ann" RoleReadWrite [])).

Example foreign_tenant_refused :
  let v := (serve (second_of 61) None shop_core (platform_call (backend_healthy 5 "tx" "")) (post_order clerk_token) None
              (BodyMessage (MsgCreateOrder foreign_body)) open_shop).2 in
  sv_status v = 403 ∧ sv_call v = None.
Proof. vm_compute. repeat split. Qed.

(** A second tenant, with goods of its own on the shelf of the same warehouse. *)
Definition neighbour : uuid := 9%N.

Definition shared_shop : Platform :=
  let d := sw_db (sys_stock (ow_down open_shop)) in
  let d' := set_levels (<[(neighbour, mug_at.1.2, mug_at.2) := mkLevel 4 0 0 false 0]> (stock_levels d)) d in
  with_down (mkSystem (sys_res (ow_down open_shop)) (mkStockWorld d' []) (sys_now (ow_down open_shop)) []) open_shop.

Definition clerk_order : Core * served (P := api_message) (X := Platform) :=
  serve (second_of 61) None shop_core (platform_call (backend_healthy 5 "tx" "")) (post_order clerk_token) None
    (BodyMessage (MsgCreateOrder order_body)) shared_shop.

(** The clerk's order, with the neighbour on the shelf and without. *)
Lemma tenants_live_apart_witness :
  own 3%N shared_shop ≠ shared_shop ∧
  serve (second_of 61) None shop_core (platform_call (backend_healthy 5 "tx" "")) (post_order clerk_token) None
    (BodyMessage (MsgCreateOrder order_body)) (own 3%N shared_shop) = (clerk_order.1, seen_by 3%N clerk_order.2) ∧
  rows_of neighbour (sv_backend clerk_order.2) = rows_of neighbour shared_shop ∧
  sv_status clerk_order.2 = 200.
Proof.
  destruct (tenants_live_apart (second_of 61) None shop_core (backend_healthy 5 "tx" "") (post_order clerk_token) None
              (BodyMessage (MsgCreateOrder order_body)) shared_shop) as [Hown Hrows].
  split; [|split; [|split]].
  - intros Heq. apply (f_equal (λ w, stock_levels (sw_db (sys_stock (ow_down w))) !! (neighbour, mug_at.1.2, mug_at.2))) in Heq.
    vm_compute in Heq. discriminate Heq.
  - apply Hown. vm_compute. reflexivity.
  - apply Hrows. vm_compute. discriminate.
  - vm_compute. reflexivity.
Defined.

(** The neighbour asks for the clerk's order by its id: there is no such order. *)
Definition neighbour_token : string :=
  default "" (Issue "s" 0 (uuid_string neighbour) 0 (mkIssueOptions "bob" RoleReadWrite [])).

Example foreign_order_unseen :
  let r := mkHttpRequest "GET" ["v1"; "orders"; "o1"] ("Bearer " +:+ neighbour_token) "" "10.0.0.8:41236" in
  sv_status (serve (second_of 62) None shop_core (platform_call (backend_healthy 6 "tx" "")) r None BodyEmpty
               (sv_backend clerk_order.2)).2 = 404.
Proof. vm_compute. reflexivity. Qed.
