(* ===== verification/BootExamples.v ===== *)
(** * Witnesses and concrete runs: configuration, transport, shutdown, probes,
    traces *)

From Stdlib Require Import SpecFloat.
From S2P Require Import Prelude GoStrings Database Closer Shutdown Readiness StockDb StockApi StockService StockSteps StockSafety StockExamples.
From S2P Require Import Events Streaming Telemetry Logging Tracing Float64 RateLimit Env Transport.

(** ** Transport *)

(** One authority (1) and one server certificate (2), for the host stock. *)
#[export] Instance toy_x509 : X509 N := {
  certs_of_pem pem := if bool_decide (pem = "authority") then [1%N] else [];
  cert_of_pair c k := if bool_decide (c = "cert" ∧ k = "key") then Some 2%N else None;
  verify roots name c := bool_decide (1%N ∈ roots ∧ name = "stock" ∧ c = 2%N);
  system_roots := [1%N] }.

#[export] Instance toy_x509_laws : X509Laws N.
Proof. intros name c. apply bool_decide_eq_false. by intros [?%elem_of_nil _]. Qed.

(** A host whose variables are given; the files are named by their content. *)
Definition host_with (vars : list (string * string)) : Host :=
  mkHost (λ key, headerValue vars key) (λ file, if bool_decide (file = "missing") then None else Some file).

Definition tls_host : Host :=
  host_with [("GRPC_TLS_CA", "authority"); ("GRPC_TLS_CERT", "cert"); ("GRPC_TLS_KEY", "key")].

Definition stock_tls : TLSConfig (Cert := N) := mkTLSConfig false VersionTLS12 None "" [2%N].

Lemma dial_posture_witness :
  ∃ d : DialOptions (Cert := N), DialFromEnv tls_host = Ok d ∧ handshake "stock" (do_Creds d) (Some stock_tls) = true ∧
    handshake "stock" (do_Creds d) None = false.
Proof.
  destruct (dial_posture (Cert := N) tls_host) as [Hd _].
  destruct (DialFromEnv tls_host) as [d|e] eqn:He; [|discriminate].
  exists d. destruct Hd as [Hplain Hsecure]. destruct (Hsecure eq_refl) as (_ & _ & Hiff). split; [reflexivity|].
  split; [|apply Hplain]. apply Hiff. exists stock_tls, 2%N, [], "authority". repeat split; done.
Defined.

(** Nothing set at all: the listeners are in plaintext, and no dial of the
    repository talks to them, with GRPC_INSECURE=1 either; and a listener with a
    certificate of a public authority is refused. *)
Example default_posture_cannot_talk :
  ServerOptionFromEnv (Cert := N) (host_with []) = Ok None ∧
  (∃ d, DialFromEnv (Cert := N) (host_with []) = Ok d ∧ handshake "stock" (do_Creds d) None = false ∧
        handshake "stock" (do_Creds d) (Some stock_tls) = false) ∧
  (∃ d, DialFromEnv (Cert := N) (host_with [("GRPC_INSECURE", "1")]) = Ok d ∧ handshake "stock" (do_Creds d) None = false).
Proof. split; [reflexivity|]. split; eexists; repeat split. Qed.

(** ** Shutdown *)

(** A request that reaches for the pool one second into the shutdown. *)
Definition late_query : Flight := mkFlight (-1) [("pool", 1000000000)] 2000000000.

Definition at_once : string → Z := λ _, 0.


(** With the registration of the mains the same request fails, and the exit code
    is 0 all the same. *)
Example mains_close_first :
  ('(p, code) ← main_shutdown RegDeferFirst BStock at_once 15000000000 [late_query] None;
   Some (code, flight_outcome p late_query)) = Some (0, Failed).
Proof. vm_compute. reflexivity. Qed.

(** ** Readiness *)

#[export] Instance plain_errors : ErrorText := λ e, match e with ErrNew t => t | ErrConn t => t | _ => "error" end.

Definition sweeper_down : Net :=
  mkNet (λ p, if bool_decide (p = "sweeperPool") then Some (ErrConn "refused") else None) (λ _, None) (λ _, Ok SERVING).

Definition stock_probes : list probe_op :=
  [OpRegister "postgres" (Ping "pool"); OpRegister "postgres-sweeper" (Ping "sweeperPool"); OpDegraded true; OpDegraded false].

Lemma ready_exactly_witness :
  ReadyHandler (foldl probe_op_run newProviders stock_probes) id sweeper_down ≠ (200, "ready").
Proof.
  destruct (ready_exactly stock_probes id sweeper_down) as [Hiff _]; [done|]. intros Hr. apply Hiff in Hr as [_ Hall].
  specialize (Hall "postgres-sweeper" (Ping "sweeperPool") eq_refl). discriminate Hall.
Defined.

(** ** Traces *)

(** A reader of the W3C format. *)
Fixpoint take_str (n : nat) (s : string) : string * string :=
  match n, s with
  | S n, String c s => let '(a, b) := take_str n s in (String c a, b)
  | _, _ => (EmptyString, s)
  end.

Lemma take_str_app n a b : String.length a = n → take_str n (a +:+ b) = (a, b).
Proof.
  intros <-. induction a as [|c a IH]; [by destruct b|]. change (String c a +:+ b) with (String c (a +:+ b)).
  cbn. by rewrite IH.
Qed.

#[export] Instance w3c_reader : W3C := λ s,
  let '(version, s) := take_str 3 s in
  let '(t, s) := take_str 32 s in
  let '(_, s) := take_str 1 s in
  let '(p, s) := take_str 16 s in
  let '(_, flags) := take_str 1 s in
  match hex_value t 0, hex_value p 0 with
  | Some tv, Some sv =>
      if negb (bool_decide (version = "00-")) || (tv =? 0) || (sv =? 0) then None
      else Some (mkSpanContext tv sv (bool_decide (flags = "01")))
  | _, _ => None
  end.

#[export] Instance w3c_reader_laws : W3CLaws.
Proof.
  split; [reflexivity|]. intros t s sampled tv sv Ht Hs Htv Hsv Ht0 Hs0. unfold extract, w3c_reader.
  rewrite (take_str_app 3 "00-"), (take_str_app 32 t), (take_str_app 1 "-"), (take_str_app 16 s), (take_str_app 1 "-"), Htv, Hsv
    by done.
  rewrite bool_decide_true by done. rewrite (proj2 (Z.eqb_neq _ _) Ht0), (proj2 (Z.eqb_neq _ _) Hs0). by destruct sampled.
Qed.

#[local] Existing Instance bits_text.

Definition root_span : SpanContext := mkSpanContext 13379 47802 true.

Definition traced_ctx : Ctx := mkCtx None (Traceparent root_span).

(** The outbox row of an adjustment made in the span. *)
Definition traced_stock : StockDB := deliver (healthy 1) traced_ctx (restock "mug" "w1" 10) empty_stock.

Definition traced_row : OutboxRow := default (mkOutboxRow 0%N 0 (mkOutboxParams 0%N "" "" "" (JStr "") None))
  (head (stock_outbox traced_stock)).

Lemma trace_survives_witness :
  TraceContextFromMessage (mg_Headers (routed "stock.events" 0 traced_row)) = Some root_span.
Proof.
  apply (trace_survives root_span (healthy 1) traced_ctx (restock "mug" "w1" 10) empty_stock (ob traced_row));
    [apply empty_wf|reflexivity|split; split; (reflexivity || discriminate)|reflexivity| |reflexivity].
  vm_compute. apply list_elem_of_here.
Defined.

(** A tracer that counts, and the propagator's header. *)
#[export] Instance counting_tracer : Tracer := λ seed parent,
  let id := 1 + seed mod 1000 in
  match parent with
  | Some sc => if IsValid sc && bool_decide (in_range sc) then mkSpanContext (TraceID sc) id (IsSampled sc)
               else mkSpanContext id id false
  | None => mkSpanContext id id false
  end.

#[export] Instance counting_tracer_laws : TracerLaws.
Proof.
  assert (∀ seed, 1 <= 1 + seed mod 1000 <= 1000) as Hid by (intros seed; pose proof (Z.mod_pos_bound seed 1000); lia).
  assert (∀ t i b, 1 <= t < 16 ^ 32 → 1 <= i < 16 ^ 16 →
    IsValid (mkSpanContext t i b) = true ∧ in_range (mkSpanContext t i b)) as Hok.
  { intros t i b Ht Hi. unfold IsValid, in_range. cbn [TraceID SpanID]. rewrite !(proj2 (Z.eqb_neq _ _)) by lia.
    split; [done|]. lia. }
  split.
  - intros seed parent. specialize (Hid seed). unfold span_start, counting_tracer.
    destruct parent as [sc|]; [destruct (IsValid sc && bool_decide (in_range sc)) eqn:Hv|]; apply Hok; try lia.
    apply andb_prop in Hv as [Hv Hr%bool_decide_eq_true]. unfold IsValid in Hv. destruct Hr as [Hr _].
    apply andb_prop in Hv as [Hv _]. bprop. lia.
  - intros seed sc Hv Hr. unfold span_start, counting_tracer. by rewrite Hv, bool_decide_true by done.
Qed.

#[export] Instance header_inject : W3CInject := λ sc md, mdCarrier_Set md "traceparent" (Traceparent sc).

#[export] Instance header_inject_laws : W3CInjectLaws.
Proof.
  split. intros sc md _. unfold inject, header_inject, mdCarrier_Get, mdCarrier_Set, md_Get, md_Set.
  change MD with (gmap string (list string)) in md. by rewrite (lookup_insert_eq md).
Qed.

(** From the gateway over the order and the reservation service to the stock
    service. *)
Definition three_hops : list Hop :=
  [mkHop "gateway" "order" "/order.v1.OrderService/CreateOrder" (1, 2) (7, 5);
   mkHop "order" "reservation" "/reservation.v1.ReservationService/Reserve" (3, 4) (4, 3);
   mkHop "reservation" "stock" "/stock.v1.StockService/ReserveStock" (5, 6) (2, 1)].


Example traceparent_text :
  Traceparent root_span = "00-00000000000000000000000000003443-000000000000baba-01".
Proof. reflexivity. Qed.

(** ** Configuration *)

#[export] Instance no_other_float : OtherFloat := λ _, None.

#[export] Instance bare_quote : Quote := λ s, s.

(** A rate of NaN is accepted, and then no request is ever refused. *)
Example nan_rate_never_limits :
  EnvFloat (headerValue [("R", "NaN")]) "R" = Ok S754_nan ∧
  (takes id 0 "t" 6 (NewLimited S754_nan (f_of_Z 2) 0)).2 = [true; true; true; true; true; true].
Proof. vm_compute. repeat split. Qed.

(** The switches are not read without regard to case. *)
Example env_bool_case : EnvBool (headerValue [("B", "tRUE")]) "B" = false ∧ EnvBool (headerValue [("B", "True")]) "B" = true.
Proof. repeat split. Qed.

Example durations :
  ParseDuration "1h15m30.918s" = Some 4530918000000 ∧ ParseDuration "-.5us" = Some (-500) ∧ ParseDuration "5" = None ∧
  ParseDuration "9223372036854775808ns" = None ∧ ParseDuration "-9223372036854775808ns" = Some (-9223372036854775808) ∧
  ParseFloat "0.1" = Some (S754_finite false 7205759403792794 (-56)) ∧ Atoi "+7" = Some 7.
Proof. vm_compute. repeat split. Qed.
