(* ===== verification/EventExamples.v ===== *)
(** * Events on the concrete shop

    The theorems of the two reactors applied to the shop: an order is fulfilled
    and shipped, a delivery of goods reaches the sales channel; and a reservation
    that does not. *)

From S2P Require Import Auth Streaming DlqTool.
From S2P Require Import Prelude Database StockDb StockApi StockService StockEffects StockRefine StockSteps.
From S2P Require Import StockSafety StockClient StockExamples ReservationDb ReservationService.
From S2P Require Import ReservationExamples Payment OrderDb OrderService OrderSteps OrderSaga OrderProps.
From S2P Require Import OrderInvariant OrderExamples System Events ChannelSync Fulfillment.

#[local] Existing Instance bits_text.

(** The stock service as the fulfilment service's dependency. *)
#[export] Instance fulfill_remote : FulfillClient StockWorld := call_stock FulfillStock.

#[export] Instance offsets_text : ZText := λ _, "0".

(** ** Fulfilment *)

Definition fulfill_o1 : FulfillOrderRequest := mkFulfillOrderRequest tenant3 "o1" "f1".

Definition fulfilled_shop : OrderWorld (System StockWorld) := (FulfillOrder (healthy 8) no_ctx fulfill_o1 confirmed_shop).1.

Definition no_row : OutboxRow := mkOutboxRow 0%N 0 (mkOutboxParams 0%N "" "" "" (JObj []) None).

Definition last_order_row : OutboxRow := default no_row (last (ord_outbox (ow_db fulfilled_shop))).

Lemma o1_lines :
  shipment <$> lines_of 3%N "o1" (ow_db confirmed_shop) = [mkLine "mug" "w1" 3; mkLine "plate" "w1" 1].
Proof. vm_compute. reflexivity. Qed.

Lemma fulfilled_order_ships_witness :
  HandleOrderEvent no_ctx (routed "order.events" 0 last_order_row) (sys_stock (ow_down fulfilled_shop)) =
  match rpc_FulfillStock no_ctx
          (mkFulfillStockRequest tenant3 "o1" ("fulfill:" +:+ tenant3 +:+ ":o1")
             [mkLine "mug" "w1" 3; mkLine "plate" "w1" 1]) (sys_stock (ow_down fulfilled_shop)) with
  | (x', Ok _) => (x', None)
  | (x', Err e) => (x', Some (ErrWrap "FulfillStock o1" e))
  end.
Proof.
  rewrite <- o1_lines.
  etrans; [eapply (fulfilled_order_ships (healthy 8) no_ctx fulfill_o1 confirmed_shop 3%N last_order_row
                    "order.events" 0 no_ctx (sys_stock (ow_down fulfilled_shop)))|reflexivity].
  - exact confirmed_wf.
  - reflexivity.
  - done.
  - apply (bool_decide_unpack _). vm_compute. exact I.
  - apply (bool_decide_unpack _). vm_compute. exact I.
  - intros He. apply (f_equal (λ d, length (ord_outbox d))) in He. vm_compute in He. discriminate He.
  - vm_compute. reflexivity.
Defined.

(** The shipment as it runs: the reserved and confirmed goods leave the books. *)
Example shipped :
  let x := (HandleOrderEvent no_ctx (routed "order.events" 0 last_order_row) (sys_stock (ow_down fulfilled_shop))).1 in
  (λ lv, (AvailableQty lv, ReservedQty lv, AllocatedQty lv)) <$> stock_levels (sw_db x) !! (3%N, "mug", "w1")
  = Some (7, 0, 0).
Proof. vm_compute. reflexivity. Qed.

(** ** Availability *)

Definition five_mugs : AdjustStockRequest := mkAdjustStockRequest tenant3 "mug" "w1" 5 "recount" "warehouse" "".

Definition restocked : StockDB := (AdjustStock (healthy 6) no_ctx five_mugs shop).1.

Definition last_stock_row (d : StockDB) : OutboxRow := default no_row (last (stock_outbox d)).

Definition quiet_channel : ChanWorld := mkChanWorld (mkChanDB ∅ [] ∅ 1%N) (mkSandbox ∅ []) (mkSandbox ∅ []).

Definition deliver_row (w : ChanWorld) (row : OutboxRow) : ChanWorld :=
  (HandleStockEvent (mkChanEnv (healthy 9) "") no_ctx (routed "stock.events" 0 row) w).1.

Lemma adjustment_reaches_channel_witness :
  ∃ w', HandleStockEvent (mkChanEnv (healthy 9) "") no_ctx (routed "stock.events" 0 (last_stock_row restocked))
          quiet_channel = (w', None) ∧
    au_AvailableQty <$> Availability tenant3 "mug" "w1" (cw_channels w') = Some 15.
Proof.
  destruct (stock_levels restocked !! (3%N, "mug", "w1")) as [lv|] eqn:Hlv.
  - assert (AvailableQty lv = 15) as Hav.
    { apply (f_equal (λ o, from_option AvailableQty 0 o)) in Hlv. cbn [from_option] in Hlv. rewrite <- Hlv.
      vm_compute. reflexivity. }
    destruct (adjustment_reaches_channel (healthy 6) no_ctx five_mugs shop 3%N 9 no_ctx "stock.events" 0
                (last_stock_row restocked) lv quiet_channel) as (w' & Hrun & _ & Hp & _).
    + exact shop_wf.
    + reflexivity.
    + reflexivity.
    + done.
    + done.
    + intros He. apply (f_equal (λ d, length (stock_outbox d))) in He. vm_compute in He. discriminate He.
    + vm_compute. reflexivity.
    + exact Hlv.
    + reflexivity.
    + exists w'. split; [exact Hrun|]. rewrite <- Hav. exact Hp.
  - apply (f_equal (λ o, bool_decide (is_Some o))) in Hlv. vm_compute in Hlv. discriminate Hlv.
Defined.

(** A reservation changes what is available and leaves an event, but the reactor
    drops it: three of the ten mugs are held and the channel still offers ten. *)
Example reserved_goods_still_offered :
  let w := foldl deliver_row quiet_channel (stock_outbox shop_reserved) in
  AvailableQty <$> stock_levels shop_reserved !! (3%N, "mug", "w1") = Some 7 ∧
  ap_AvailableQty <$> projection (cw_db w) !! (3%N, "mug", "w1") = Some 10.
Proof. vm_compute. split; reflexivity. Qed.

(** ** Dead letters *)

#[export] Instance Envelope_eq_dec : EqDecision Envelope.
Proof. solve_decision. Defined.

#[export] Instance Envelope_countable : Countable Envelope.
Proof.
  refine (inj_countable' (λ e, (OriginalTopic e, OriginalKey e, Payload e, Headers e, ConsumerGroup e, Error e,
                                Attempts e, FailedAtUnix e, StackTrace e))
            (λ '(a, b, c, d, e, f, g, h, i), mkEnvelope a b c d e f g h i) _). by intros [].
Defined.

#[export] Instance spelled_envelopes : EnvelopeCodec := {|
  env_marshal := spell; env_unmarshal := unspell; valid_utf8 _ := true |}.

#[export] Instance spelled_laws : EnvelopeLaws.
Proof. intros e _. apply unspell_spell. Qed.

#[export] Instance no_json : JsonText := λ _, None.

Definition poison : KMessage := mkKMessage "t" "k" (Some "{") [("id", "e")] 0.

Definition small_consumer : Streaming.Config := withDefaults (Streaming.mkConfig "t" "g" 0 0 "" 0).

Definition steady : ProcEnv := mkProcEnv (λ _, None) 0 "" Written.

Definition no_dlq : ProcEnv := mkProcEnv (λ _, None) 0 "" (WriteRefused (ErrConn "down")).

Definition failing : Z → KMessage → Z → Z * option go_error := λ _ _ x, (x + 1, Some (ErrNew "e")).

Definition after_poison (env : ProcEnv) : Group (X := Z) := consume small_consumer [poison] env true failing (joined 0).

Lemma steady_reliable : reliable steady.
Proof. split; done. Qed.


(** Four attempts, then the message is committed; when the DLQ is down it is
    committed all the same, and nothing is left of it. *)
Example dlq_outage_drops :
  gr_x (after_poison steady) = 4 ∧ length (gr_dlq (after_poison steady)) = 1%nat ∧
  gr_committed (after_poison no_dlq) = 1%nat ∧ gr_handled (after_poison no_dlq) = [] ∧ gr_dlq (after_poison no_dlq) = [].
Proof. vm_compute. repeat split. Qed.

Definition dead_poison : KMessage :=
  mkKMessage "t.dlq" "k" (Some (env_marshal (envelope_of small_consumer steady poison (ErrNew "e") 4))) [] 0.

Lemma replay_is_redelivery_witness :
  ∃ msg', msg' ∈ (replay id "" false (λ _, Written) [dead_poison] [] 0 0).1 ∧ km_Key msg' = "k".
Proof.
  destruct (replay_is_redelivery (Y := StockWorld) id small_consumer steady poison (ErrNew "e") 4 "{" dead_poison [dead_poison])
    as (msg' & Hin & _ & Hk & _).
  - done.
  - repeat split.
  - done.
  - reflexivity.
  - apply (bool_decide_unpack _). vm_compute. exact I.
  - reflexivity.
  - apply list_elem_of_here.
  - exists msg'. split; [exact Hin|exact Hk].
Defined.
