(* ===== verification/LoopExamples.v ===== *)
(** * The background loops on the concrete shop

    The theorems about the processes' loops applied: the sweeper takes the hold
    of an order whose time is over, a signal ends a process, and a day of
    maintenance leaves the shelves as they were. *)

From S2P Require Import Prelude GoStrings Database StockDb StockApi StockService StockEffects StockRefine Reconcile StockSteps.
From S2P Require Import StockReserve StockSafety Schema Prune StockClient StockExamples ReservationDb.
From S2P Require Import ReservationService ReservationBooks ReservationProps ReservationSweep ReservationExamples.
From S2P Require Import Closer Loops SweepLoop Events Env Workers Processes.

#[local] Existing Instance bits_text.

(** ** The schema *)

#[local] Instance message_typed_dec p : Decision (message_typed p).
Proof. unfold message_typed. apply _. Defined.

Lemma shop_typed : stock_typed shop.
Proof. split; [apply shop_wf|]. split; apply (bool_decide_unpack _); vm_compute; exact I. Qed.

Lemma shop_reserves : stock_step shop shop_reserved.
Proof. by apply step_call. Qed.


(** ** The sweeper *)

(** The process of cmd/reservation, with the retention of idempotency keys, a
    minute after the hold was taken: a pass of each loop at the start, a tick of
    both, the retention's pass, and the sweeper's. *)
Definition pruning : Getenv := headerValue [("IDEMPOTENCY_PRUNE_ENABLED", "true")].

Definition sweep_at (now : Z) : ResPassEnv :=
  (mkPassEnv id id (calm (1000 * now)) id, (quiet_sweep now id (@reverse _), no_ctx)).

Definition sweep_events : list (proc_event (E := ResPassEnv)) :=
  [Tick 0; Tick 1; Pass 1 (sweep_at 70000001); Pass 0 (sweep_at 70000001)].

Definition swept : option (Process (W := ResDB * StockWorld)) :=
  proc_run (reservation_loops pruning) sweep_events
    (proc_boot (reservation_loops pruning) [sweep_at 70000000; sweep_at 70000000] [] 0 held).

Lemma sweeper_drains_witness :
  match swept with
  | Some p => books_cover (ps_world p).1 (ps_world p).2 ∧
      (∀ r, r ∈ reservations (ps_world p).1 → row_expired 70000000 r = false)
  | None => False
  end.
Proof.
  destruct held_ok as (Hd & Hx & Hb).
  destruct swept as [p|] eqn:Hrun; [|vm_compute in Hrun; discriminate Hrun].
  assert (ps_exit p = None) as Hexit.
  { assert (ps_exit <$> swept = Some None) as E by (vm_compute; reflexivity). rewrite Hrun in E. by injection E. }
  assert (∀ now, 70000000 <= now → quiet_after 70000000 (sweep_at now).2) as Hq.
  { intros now Hle. exists now, id, (@reverse _), no_ctx. split; [reflexivity|]. split; [exact Hle|].
    split; [done|apply reverse_Permutation]. }
  destruct (sweeper_drains pruning 70000000 (sweep_at 70000000) [sweep_at 70000000] [] 0 sweep_events held.1 held.2 p Hd Hx)
    as [Hcover Hdrained].
  - intros k. rewrite (Hb k). lia.
  - unfold swept in Hrun. by rewrite <- surjective_pairing.
  - exact Hexit.
  - repeat constructor; apply Hq; lia.
  - split; [exact Hcover|]. apply Hdrained. vm_compute. discriminate.
Defined.

(** ** Shutdown *)

(** Two loops over a counter, and a cleanup that fails. *)
Definition bump (n : Z) (x : Z) : Z := x + n.

Definition failing_cleanup : CleanupFunc (W := Z) := λ x, (0, Some (ErrNew "close")).

Definition counting (evs : list proc_event) : option Process :=
  proc_run [bump; bump] evs (proc_boot [bump; bump] [1; 1] [RegDefer failing_cleanup] 0 0).

Definition last_steps : list proc_event := [Pass 0 (5 : Z); Leave 0; Leave 1].


(** ** Maintenance *)

(** A week of retention for messages and keys, and the reconciliation. *)
Definition maintained : Getenv :=
  headerValue [("OUTBOX_PRUNE_ENABLED", "true"); ("OUTBOX_PRUNE_RETENTION", "168h");
               ("IDEMPOTENCY_PRUNE_ENABLED", "true"); ("RECONCILE_ENABLED", "true")].

(** A week and two microseconds after the shop opened. *)
Definition week_on : PassEnv StockDB := mkPassEnv id id (calm (168 * hour + 2000)) id.

Definition maintenance : option Process :=
  proc_run (stock_loops maintained) [Tick 2; Tick 0; Pass 0 week_on; Pass 2 week_on]
    (proc_boot (stock_loops maintained) [week_on; week_on; week_on] [] 0 shop_reserved).

Lemma maintenance_moves_no_goods_witness :
  match maintenance with Some p => untouched 2 shop_reserved (ps_world p) | None => False end.
Proof.
  destruct maintenance as [p|] eqn:Hrun; [|vm_compute in Hrun; discriminate Hrun].
  assert (ps_exit p = None) as Hexit.
  { assert (ps_exit <$> maintenance = Some None) as E by (vm_compute; reflexivity). rewrite Hrun in E. by injection E. }
  assert (calm_pass maintained 2 week_on) as Hw.
  { split; [done|done|done|]. intros cfg [E|E]; vm_compute in E; injection E as <-; vm_compute; discriminate. }
  apply (maintenance_moves_no_goods maintained 2 [week_on; week_on; week_on] [] 0
           [Tick 2; Tick 0; Pass 0 week_on; Pass 2 week_on] shop_reserved p).
  - apply (bool_decide_unpack _). vm_compute. exact I.
  - exact Hrun.
  - exact Hexit.
  - repeat constructor; apply Hw.
  - repeat constructor; apply Hw.
Defined.

(** And it does its work: the message of the first delivery is gone, the others stay. *)
Example maintenance_prunes :
  ((λ p, length (stock_outbox (ps_world p))) <$> maintenance) = Some (Nat.pred (length (stock_outbox shop_reserved))).
Proof. vm_compute. reflexivity. Qed.
